(* ===== verification/_CoqProject ===== *)
-Q . S2P
Prelude.v
Util.v
Memory.v
Debug.v
Constants.v
Registers.v
Trace.v
Core.v
Refine.v
LoadStore.v
Branch.v
Instruction.v
Gdb.v
Run.v
Invariant.v
ArmSpec.v
Correct.v
Execute.v
Examples.v
Packets.v
Handlers.v
Access.v
General.v
GdbExamples.v
Isa.v
Steps.v
Theorems.v
Transfers.v
Scanner.v
Session.v
Stub.v
Wellformed.v
Definedness.v
Sys.v
Csapp.v
Messages.v
Main.v
MainSpec.v
Related.v
Server.v
Program.v
Locking.v
Threads.v
Reduction.v
Safety.v
Progress.v
Shutdown.v
ServerExamples.v
ThreadExamples.v
Rio.v
Socket.v
Net.v
RioSpec.v
Delivery.v
Service.v
Pipe.v
RioTheorems.v
NetTheorems.v
NetExamples.v
Tests.v
