(* ===== verification/Prelude.v ===== *)
(** * A verified model of the ARM simulator (Projet_S5)

    The program, in src/arm_simulator-1.4/, simulates a subset of ARMv5.  Its
    server, [arm_simulator], creates a processor with 128 KiB of memory and
    runs two threads: one speaks gdb's remote protocol on a socket, the other
    raises the exceptions whose numbers arrive on a second socket; a lock
    guards what both do to the processor.  [send_irq] is the client of the
    second socket.  This development models the C text definition by
    definition and proves what its parts promise.

    ** The parts and their files

    A definition has the name of the C function it models, in a file per C file:

    - Prelude.v: C integers at their width, blocks of memory with their bounds,
      the monads and the notation, lemmas on bits, lists and options.
      [Target] is what C leaves to the build: the result of a shift by too
      large a count, the byte order of the host, BIG_ENDIAN_SIMULATOR.
    - Util.v (util.h, util.c), Memory.v (memory.c), Registers.v (registers.c),
      Constants.v (arm_constants.c), Trace.v (trace.c, trace_location.h).
    - Core.v (arm_core.c, arm_exception.c): the state of the simulator, [sim],
      and the interface [ArmCore] of arm_core.h, with two instances: the C
      functions with their trace, and the bare processor.
    - LoadStore.v (arm_load_store.c), Branch.v (arm_branch_other.c,
      arm_data_processing.c), Instruction.v (arm_instruction.c): one step.
    - Gdb.v (gdb_protocol.c): packets, checksums, the handlers and the loop of
      the continue command.  Scanner.v (scanner.l): the lexer that cuts the
      input in packets.  Both are stated once, over the interfaces [Connection]
      and [Lexer] of what they do to the outside, with three instances each: the
      connection that takes every byte, on which the protocol is proved;
      (Socket.v) the system calls the program makes; (Program.v) the calls as a
      syntax, of which the steps of the threads are made.
    - Sys.v: the system calls, as a class of kernels and the monad of a process.
      Csapp.v and Rio.v (csapp.c): the wrappers and the robust I/O.
    - Main.v (arm_simulator.c, arm.c): [main], from its options to its exit.
      Program.v: the two threads as programs, on which any call of the one can
      come between any two calls of the other.  Server.v: the same threads, cut
      at the lock only.  Shutdown.v: the end of [main] beside the irq thread.
    - Socket.v: the gdb connection on a descriptor, and [gdb_scanner].  Net.v:
      the sockets of csapp.c and arm_simulator.c, the listeners, and send_irq.c.
    - Debug.v (debug.c) and Messages.v (debug.h).
    - Tests.v (memory_test.c, test_register.c): the test programs.

    How they interact: [arm_step] calls the instruction files, which reach the
    processor only through [ArmCore]; the handlers of Gdb.v run [arm_step] and
    the accessors of Core.v on the simulator; [yylex] of Scanner.v runs the
    handlers on the bytes that arrive; [gdb_listener] of Net.v runs
    [gdb_scanner], and so [yylex], on a connection, [irq_connection] runs
    [arm_exception]; [server_step] cuts both at the lock; [main] starts them.

    ** What is proved, and where

    - One instruction.  Refine.v: the traced simulator refines the bare one, so
      that the trace never changes a result.  Invariant.v: a step keeps the
      processor well formed and, when its accesses are inside of the memory,
      touches nothing outside of a block.  ArmSpec.v and Isa.v state the ARM
      manual independently of the code; Correct.v, Execute.v, Steps.v, Theorems.v
      and Transfers.v compare: the instructions the decoder gets right refine the
      specification, alone and in programs of any length; the others are shown to
      do what they do.
    - The data under it.  Memory.v, Registers.v, Util.v: round trips, bounds and
      byte orders.
    - The protocol.  Packets.v: framing, checksums, words and escapes;
      Handlers.v: the continue loop; Access.v and General.v: registers and
      memory through gdb, as round trips; Session.v: the tokens are the longest
      matches, and a stream of messages with noise is answered message by
      message; Stub.v: an abstract gdb stub, without packets and buffers, and the
      proof that the connection implements it on any session of well-formed
      requests; Wellformed.v: no packet at all can break the invariant, on any
      connection; Definedness.v: which packets have a defined effect, decided,
      continue included.
    - One text, several runs.  Related.v: a relation between the runs on two
      connections holds of every function as soon as it holds of the operations;
      the proofs below on all handlers at once are instances of it, or of the
      judgments of Wellformed.v.
    - The connection on a socket.  Delivery.v: the relation [Delivers] between a
      process and the computation of the connection that takes every byte, with
      a rule for each construct; Service.v: every handler, the lexer and the
      sessions of Stub.v are delivered, through short, interrupted and failing
      writes, and debug messages only add to the standard error.
    - The server.  MainSpec.v: which command lines [main] accepts and what it
      does for each.  Locking.v: in no interleaving of their calls do the threads
      race on the simulator; Reduction.v: each interleaving leaves what the tokens
      and the interrupts leave one after the other; Safety.v: from [main], all they
      reach is well formed; Progress.v: no deadlock, and the lock comes back unless
      a handler of gdb's does not end.  Threads.v: the invariant and the order
      on the steps of Server.v, in every state; Shutdown.v: the end of [main]
      races with resets and with nothing else.
    - The system calls.  RioSpec.v states what POSIX documents of read and write
      as classes, RioTheorems.v that the robust I/O then ends and delivers
      everything, or ends the process at the call that failed; NetTheorems.v: which
      calls the listeners and send_irq make, at which failing one they stop, as a
      function of the replies, and what they do with what arrives.
    - Debug.v and Messages.v: the table of debugged files and which messages are
      printed; Tests.v: the test programs print success.

    Every property with hypotheses is applied to concrete machines and inputs:
    at the end of its file or in Examples.v, GdbExamples.v, ServerExamples.v,
    ThreadExamples.v and NetExamples.v; Pipe.v is the kernel the last one runs on.

    ** Conventions

    An access outside of a block ([OutOfBounds]), a failed assertion and an exit
    have a [fault] as their outcome, and that is what the theorems on safety
    exclude.  What else ISO C leaves undefined is an arbitrary value here, and
    no fault: a variable that is read before it is assigned and the result of
    [ConditionPassed] when it falls off its end are fields of a frame ([frame]
    for a step, with [fr_cond] for the latter, [gframe] for a handler), and a
    shift by too large a count is a function of the [Target].  The theorems
    quantify over both: where a value matters, they say so.

    Loops that are not structural have fuel.  It is a constant where the code
    bounds the loop: 64 turns of the loops of debug.c, 65 of its search, 1024
    for the scan of a packet and for a memory dump, 9 for the names of the
    seven exceptions; it is the length of the input for the lexer.  The
    continue loop may run for ever, as in C: it is the fault [Running] when its
    fuel is used up, and the theorem on it gives the fuel that is enough;
    Progress.v says what a loop that does not end means for the other thread.  The
    loops of the robust I/O need the bytes asked for plus the interruptions to
    come, which the theorems state as a bound; on a socket, [signals] is a
    bound of the interruptions of the writes of a whole connection.

    ** Not modelled

    - The scanner flex generates from scanner.l is not in the repository: its
      documented rule of the longest match is modelled instead, and the bytes
      of a connection are given as a list.
    - The C library and the kernel: any replies, within POSIX where a theorem
      names [Input] or [Output].  Structures that the kernel fills through
      pointers (the sets of select, the masks of signals, stat) are left out of
      the wrappers of csapp.c; no other code of the repository uses them.
    - The signal SIGPIPE: a write to a socket that is shut down fails here with
      an error, where the default action of the signal would end the process.
    - getopt_long, whose results are the arguments of [main].  A mutex is a pair
      of calls in Socket.v; that it excludes the other thread is Program.v.
    - The debug messages are those of a build without CACHE_DEBUG_FLAG, which is
      commented out in Makefile.am (Messages.v has the macro with it too).  The
      line a macro call of two lines reports is the first, as with a recent gcc.
      Nothing is debugged on the connection that takes every byte and in
      Program.v: Delivery.v says what debugging adds.
    - The trace format ARM_TRACE_FORMAT of trace.c, which no build defines.
    - no_trace_location.h undefines the macros of trace_location.h, so that the
      files that include it call the functions themselves, as their models do.

    ** What may follow

    Program.v has the calls of the threads on data that nobody else sees; cutting
    Rio_writen into its writes there, with failing ones, would put Delivery.v and
    Reduction.v in one statement.  Definedness.v decides single packets; folded
    over the tokens it would decide whole streams. *)
From stdpp Require Export base list strings numbers option.
From Stdlib Require Export ZArith Lia.

Open Scope Z_scope.

(** ** C integers

    A C integer is the Z it denotes.  [u8], [u16], [u32], [u64] are the
    conversions to the unsigned types and [s32] the conversion to [int]
    (implementation-defined in ISO C, modulo 2^32 for gcc). *)

Definition wrap (w x : Z) : Z := x mod 2 ^ w.
Definition u8 (x : Z) : Z := wrap 8 x.
Definition u16 (x : Z) : Z := wrap 16 x.
Definition u32 (x : Z) : Z := wrap 32 x.
Definition u64 (x : Z) : Z := wrap 64 x.
Definition s32 (x : Z) : Z :=
  let y := u32 x in if y <? 2 ^ 31 then y else y - 2 ^ 32.

(** What the build and the host fix and the C text leaves open: the bits a
    shift delivers when its count is negative or at least the width of its
    left operand (undefined behaviour in ISO C, some value on every real
    processor), the byte order of the host and the BIG_ENDIAN_SIMULATOR flag
    of Makefile.am.  Every definition that shifts by a computed count takes
    the target as an argument. *)
Class Target := {
  over_shl : Z -> Z -> Z;
  over_shr : Z -> Z -> Z;
  over_sar : Z -> Z -> Z;
  host_big_endian : bool;
  big_endian_simulator : bool
}.

(** A concrete target: x86 takes the count modulo the width and is little
    endian; Makefile.am passes -DBIG_ENDIAN_SIMULATOR. *)
Definition x86 : Target := {|
  over_shl := fun v n => Z.shiftl v (n mod 32);
  over_shr := fun v n => Z.shiftr v (n mod 32);
  over_sar := fun v n => Z.shiftr v (n mod 32);
  host_big_endian := false;
  big_endian_simulator := true
|}.

Section Shifts.
Context `{T : Target}.

Definition count_ok (w n : Z) : bool := (0 <=? n) && (n <? w).

(** [uint32_t << n] and [uint32_t >> n]. *)
Definition shl32 (v n : Z) : Z :=
  if count_ok 32 n then u32 (Z.shiftl v n) else u32 (over_shl v n).
Definition shr32 (v n : Z) : Z :=
  if count_ok 32 n then Z.shiftr v n else u32 (over_shr v n).
(** [uint64_t >> n]. *)
Definition shr64 (v n : Z) : Z :=
  if count_ok 64 n then Z.shiftr v n else u64 (over_shr v n).
(** [int << n] (gcc: the two's complement bits, shifted) and [int >> n]
    (gcc: arithmetic). *)
Definition sal32 (v n : Z) : Z :=
  if count_ok 32 n then s32 (Z.shiftl v n) else s32 (over_shl v n).
Definition sar32 (v n : Z) : Z :=
  if count_ok 32 n then Z.shiftr v n else s32 (over_sar v n).
End Shifts.

(** A C truth value. *)
Definition c_true (x : Z) : bool := negb (x =? 0).
Definition c_not (x : Z) : Z := if x =? 0 then 1 else 0.
Definition c_bool (b : bool) : Z := if b then 1 else 0.

(** ** Buffers

    An array or a heap block is the list of its cells.  An access outside of
    the block is undefined behaviour: it has no result. *)

Definition in_block {A} (b : list A) (i : Z) : bool :=
  (0 <=? i) && (i <? Z.of_nat (length b)).
Definition buf_get {A} (b : list A) (i : Z) : option A :=
  if in_block b i then b !! Z.to_nat i else None.
Definition buf_set {A} (b : list A) (i : Z) (v : A) : option (list A) :=
  if in_block b i then Some (<[Z.to_nat i := v]> b) else None.

(** ** Computations

    [ST S A] is a computation on a state [S]: it ends with a value and a new
    state, or with a fault, where the C program has no defined continuation
    (access outside of a block) or stops; [Running] is a loop that used up the
    fuel it was given. *)

Inductive fault : Type :=
  | OutOfBounds
  | AssertFailed
  | Exited (code : Z)
  | Running.

Inductive outcome (S A : Type) : Type :=
  | Ok (a : A) (s : S)
  | Fault (f : fault).
Arguments Ok {S A} _ _.
Arguments Fault {S A} _.

Definition ST (S A : Type) : Type := S -> outcome S A.

#[export] Instance ST_ret S : MRet (ST S) := fun _ a s => Ok a s.
#[export] Instance ST_bind S : MBind (ST S) :=
  fun _ _ k m s => match m s with Ok a s' => k a s' | Fault f => Fault f end.

Definition get_state {S} : ST S S := fun s => Ok s s.
Definition set_state {S} (s' : S) : ST S unit := fun _ => Ok () s'.

(** The monads a computation can stop in. *)
Class MStop (M : Type -> Type) := stop : forall {A}, fault -> M A.
#[export] Instance ST_stop S : MStop (ST S) := fun _ f _ => Fault f.
Definition of_option {M} `{!MStop M, !MRet M} {A} (o : option A) : M A :=
  match o with Some a => mret a | None => stop OutOfBounds end.

#[export] Instance fault_eq_dec : EqDecision fault.
Proof. solve_decision. Defined.

(** The state a computation ends in, if it ends. *)
Definition final {S A} (o : outcome S A) : option S :=
  match o with Ok _ s => Some s | Fault _ => None end.
Definition result {S A} (o : outcome S A) : option A :=
  match o with Ok a _ => Some a | Fault _ => None end.

(** The equations of [≫=], in general and on the two kinds of outcome. *)
Lemma bind_eq {S A B} (m : ST S A) (k : A -> ST S B) s :
  (m ≫= k) s = match m s with Ok a s' => k a s' | Fault f => Fault f end.
Proof. done. Qed.

Lemma bind_ok {S A B} (m : ST S A) (k : A -> ST S B) s a s' :
  m s = Ok a s' -> (m ≫= k) s = k a s'.
Proof. intros H. unfold mbind, ST_bind. by rewrite H. Qed.

Lemma bind_fault {S A B} (m : ST S A) (k : A -> ST S B) s f :
  m s = Fault f -> (m ≫= k) s = Fault f.
Proof. intros H. unfold mbind, ST_bind. by rewrite H. Qed.

Lemma bind_inv {S A B} (m : ST S A) (k : A -> ST S B) s b s' :
  (m ≫= k) s = Ok b s' -> exists a s1, m s = Ok a s1 /\ k a s1 = Ok b s'.
Proof.
  unfold mbind, ST_bind. destruct (m s) as [a s1|f]; [eauto | discriminate].
Qed.

(** ** Text

    The conversions of printf the program uses: [%08X], [%08x], [%02x], [%02d],
    [%d], [%s] and [%3s].  [digits base n k] are the [k] low digits of [n]. *)

Definition upper_digit (d : Z) : Ascii.ascii :=
  Ascii.ascii_of_nat (Z.to_nat (if d <? 10 then 48 + d else 55 + d)).
Definition lower_digit (d : Z) : Ascii.ascii :=
  Ascii.ascii_of_nat (Z.to_nat (if d <? 10 then 48 + d else 87 + d)).

Fixpoint digits (digit : Z -> Ascii.ascii) (base : Z) (k : nat) (n : Z)
    (acc : string) : string :=
  match k with
  | O => acc
  | Datatypes.S k' =>
      digits digit base k' (n / base) (String (digit (n mod base)) acc)
  end.

Definition fmt_08X (n : Z) : string := digits upper_digit 16 8 n EmptyString.
Definition fmt_02x (n : Z) : string := digits lower_digit 16 2 n EmptyString.

Definition fmt_08x (n : Z) : string := digits lower_digit 16 8 n EmptyString.
Definition fmt_02d (n : Z) : string := digits lower_digit 10 2 n EmptyString.

(** [%02x] of an [unsigned int], which may need more than two digits. *)
Fixpoint hex_width (fuel : nat) (n : Z) : nat :=
  match fuel with
  | O => 1
  | Datatypes.S fuel' =>
      if n <? 16 then 1 else Datatypes.S (hex_width fuel' (n / 16))
  end.
Definition fmt_02x_uint (n : Z) : string :=
  digits lower_digit 16 (Nat.max 2 (hex_width 7 n)) n EmptyString.

(** [%s] of characters. *)
Definition fmt_s (l : list Z) : string :=
  String.string_of_list_ascii ((fun c => Ascii.ascii_of_nat (Z.to_nat (u8 c))) <$> l).

(** The number of decimal digits of a value below 2^32. *)
Fixpoint decimal_width (fuel : nat) (n : Z) : nat :=
  match fuel with
  | O => 1
  | Datatypes.S fuel' =>
      if n <? 10 then 1 else Datatypes.S (decimal_width fuel' (n / 10))
  end.
Definition fmt_u (n : Z) : string :=
  digits upper_digit 10 (decimal_width 9 n) n EmptyString.
(** [%d] of an [int] argument. *)
Definition fmt_d (n : Z) : string :=
  if n <? 0 then ("-" +:+ fmt_u (- n))%string else fmt_u n.
(** [%3s]. *)
Definition fmt_3s (s : string) : string :=
  (match String.length s with
   | 0%nat => "   " | 1%nat => "  " | 2%nat => " " | _ => "" end +:+ s)%string.

(** ** Words *)

Definition is_u8 (x : Z) : Prop := 0 <= x < 2 ^ 8.
Definition is_u16 (x : Z) : Prop := 0 <= x < 2 ^ 16.
Definition is_u32 (x : Z) : Prop := 0 <= x < 2 ^ 32.

Create HintDb words discriminated.
#[export] Hint Constants Opaque : words.

Lemma wrap_range w x : 0 <= w -> 0 <= wrap w x < 2 ^ w.
Proof. intros. apply Z.mod_pos_bound. by apply Z.pow_pos_nonneg. Qed.

Lemma u8_range x : is_u8 (u8 x).
Proof. by apply wrap_range. Qed.
Lemma u16_range x : is_u16 (u16 x).
Proof. by apply wrap_range. Qed.
Lemma u32_range x : is_u32 (u32 x).
Proof. by apply wrap_range. Qed.

Lemma u8_small x : is_u8 x -> u8 x = x.
Proof. apply Z.mod_small. Qed.
Lemma u16_small x : is_u16 x -> u16 x = x.
Proof. apply Z.mod_small. Qed.
Lemma u32_small x : is_u32 x -> u32 x = x.
Proof. apply Z.mod_small. Qed.

Lemma u32_u32 x : u32 (u32 x) = u32 x.
Proof. apply u32_small, u32_range. Qed.

Lemma s32_range x : - 2 ^ 31 <= s32 x < 2 ^ 31.
Proof.
  unfold s32. pose proof (u32_range x) as H. unfold is_u32 in H.
  destruct (Z.ltb_spec (u32 x) (2 ^ 31)); lia.
Qed.

Lemma u32_s32 x : u32 (s32 x) = u32 x.
Proof.
  unfold s32. destruct (u32 x <? 2 ^ 31); [apply u32_u32|].
  unfold u32, wrap. rewrite Zminus_mod, Z_mod_same_full, Z.sub_0_r.
  by rewrite !Zmod_mod.
Qed.

Lemma s32_small x : 0 <= x < 2 ^ 31 -> s32 x = x.
Proof.
  intros H. unfold s32. rewrite u32_small by (unfold is_u32; lia).
  destruct (Z.ltb_spec x (2 ^ 31)); lia.
Qed.

Lemma u32_add_l x y : u32 (u32 x + y) = u32 (x + y).
Proof. unfold u32, wrap. by rewrite Zplus_mod_idemp_l. Qed.
Lemma u32_sub_l x y : u32 (u32 x - y) = u32 (x - y).
Proof. unfold u32, wrap. by rewrite Zminus_mod_idemp_l. Qed.

(** A word is determined by its bits below its width. *)
Lemma testbit_wrap w x i :
  0 <= w -> Z.testbit (wrap w x) i = (i <? w) && Z.testbit x i.
Proof. intros. by apply Z.testbit_mod_pow2. Qed.

Lemma testbit_above w x i : 0 <= x < 2 ^ w -> 0 <= w <= i -> Z.testbit x i = false.
Proof.
  intros Hx Hi. rewrite <- (Z.mod_small x (2 ^ w)) by done.
  by apply Z.mod_pow2_bits_high.
Qed.

Lemma bits_bound w x :
  0 <= w -> 0 <= x -> (forall i, w <= i -> Z.testbit x i = false) -> x < 2 ^ w.
Proof.
  intros Hw Hx H.
  assert (x = x mod 2 ^ w) as ->; [|by apply Z.mod_pos_bound, Z.pow_pos_nonneg].
  apply Z.bits_inj'. intros i Hi. rewrite Z.testbit_mod_pow2 by done.
  destruct (Z.ltb_spec i w); [done | by rewrite H].
Qed.

Lemma land_range w x y : 0 <= w -> 0 <= x < 2 ^ w -> 0 <= Z.land x y < 2 ^ w.
Proof.
  intros Hw Hx. assert (0 <= Z.land x y) by (apply Z.land_nonneg; lia).
  split; [done|]. apply bits_bound; [done..|]. intros i Hi.
  by rewrite Z.land_spec, (testbit_above w x).
Qed.
Lemma lor_range w x y :
  0 <= w -> 0 <= x < 2 ^ w -> 0 <= y < 2 ^ w -> 0 <= Z.lor x y < 2 ^ w.
Proof.
  intros Hw Hx Hy. assert (0 <= Z.lor x y) by (apply Z.lor_nonneg; lia).
  split; [done|]. apply bits_bound; [done..|]. intros i Hi.
  by rewrite Z.lor_spec, (testbit_above w x), (testbit_above w y).
Qed.
Lemma lxor_range w x y :
  0 <= w -> 0 <= x < 2 ^ w -> 0 <= y < 2 ^ w -> 0 <= Z.lxor x y < 2 ^ w.
Proof.
  intros Hw Hx Hy. assert (0 <= Z.lxor x y) by (apply Z.lxor_nonneg; lia).
  split; [done|]. apply bits_bound; [done..|]. intros i Hi.
  by rewrite Z.lxor_spec, (testbit_above w x), (testbit_above w y).
Qed.
Lemma shiftr_range w x n :
  0 <= n -> 0 <= x < 2 ^ w -> 0 <= Z.shiftr x n < 2 ^ w.
Proof.
  intros Hn Hx. rewrite Z.shiftr_div_pow2 by done.
  assert (0 < 2 ^ n) by (by apply Z.pow_pos_nonneg). split.
  - apply Z.div_pos; lia.
  - apply Z.div_lt_upper_bound; nia.
Qed.

Lemma land_u32 x y : is_u32 x -> is_u32 (Z.land x y).
Proof. by apply land_range. Qed.
Lemma lor_u32 x y : is_u32 x -> is_u32 y -> is_u32 (Z.lor x y).
Proof. by apply lor_range. Qed.
Lemma lxor_u32 x y : is_u32 x -> is_u32 y -> is_u32 (Z.lxor x y).
Proof. by apply lxor_range. Qed.
Lemma shiftr_u32 x n : 0 <= n -> is_u32 x -> is_u32 (Z.shiftr x n).
Proof. apply shiftr_range. Qed.

Lemma if_u32 (b : bool) x y : is_u32 x -> is_u32 y -> is_u32 (if b then x else y).
Proof. by destruct b. Qed.
Lemma u32_0 : is_u32 0.
Proof. by split. Qed.
Lemma u32_max : is_u32 0xFFFFFFFF.
Proof. by split. Qed.
Lemma u8_u32 x : is_u32 (u8 x).
Proof. pose proof (u8_range x). unfold is_u8, is_u32 in *. lia. Qed.
Lemma c_not_u32 x : is_u32 (c_not x).
Proof. unfold c_not. by destruct (x =? 0). Qed.

#[export] Hint Resolve u8_range u16_range u32_range land_u32 lor_u32 lxor_u32
  shiftr_u32 if_u32 u32_0 u32_max u8_u32 c_not_u32 : words.

Section ShiftLemmas.
Context `{T : Target}.

Lemma count_ok_true w n : 0 <= n < w -> count_ok w n = true.
Proof. unfold count_ok. lia. Qed.

Lemma shl32_in v n : 0 <= n < 32 -> shl32 v n = u32 (Z.shiftl v n).
Proof. intros. unfold shl32. by rewrite count_ok_true. Qed.
Lemma shr32_in v n : 0 <= n < 32 -> shr32 v n = Z.shiftr v n.
Proof. intros. unfold shr32. by rewrite count_ok_true. Qed.
Lemma shr64_in v n : 0 <= n < 64 -> shr64 v n = Z.shiftr v n.
Proof. intros. unfold shr64. by rewrite count_ok_true. Qed.
Lemma sal32_in v n : 0 <= n < 32 -> sal32 v n = s32 (Z.shiftl v n).
Proof. intros. unfold sal32. by rewrite count_ok_true. Qed.
Lemma sar32_in v n : 0 <= n < 32 -> sar32 v n = Z.shiftr v n.
Proof. intros. unfold sar32. by rewrite count_ok_true. Qed.

Lemma shl32_range v n : is_u32 (shl32 v n).
Proof. unfold shl32. destruct (count_ok 32 n); apply u32_range. Qed.
Lemma shr32_range v n : is_u32 v -> is_u32 (shr32 v n).
Proof.
  intros Hv. unfold shr32, count_ok. destruct (_ && _) eqn:E.
  - apply shiftr_u32; [lia | done].
  - apply u32_range.
Qed.
End ShiftLemmas.

#[export] Hint Resolve shl32_range shr32_range : words.

(** The bits of every operator, for [bits]. *)
Lemma testbit_u32 x i : Z.testbit (u32 x) i = (i <? 32) && Z.testbit x i.
Proof. by apply testbit_wrap. Qed.
Lemma testbit_u8 x i : Z.testbit (u8 x) i = (i <? 8) && Z.testbit x i.
Proof. by apply testbit_wrap. Qed.

Lemma testbit_ones w i :
  0 <= w -> 0 <= i -> Z.testbit (Z.ones w) i = (i <? w).
Proof.
  intros. destruct (Z.ltb_spec i w).
  - by apply Z.ones_spec_low.
  - by apply Z.ones_spec_high.
Qed.

Lemma testbit_m1 i : 0 <= i -> Z.testbit (-1) i = true.
Proof. apply Z.bits_m1. Qed.

Lemma testbit_shiftl x n i :
  0 <= i -> Z.testbit (Z.shiftl x n) i = Z.testbit x (i - n).
Proof. intros. by rewrite Z.shiftl_spec. Qed.

Create Rewrite HintDb bits.
#[export] Hint Rewrite Z.land_spec Z.lor_spec Z.lxor_spec testbit_u32 testbit_u8
  Z.bits_0 : bits.
#[export] Hint Rewrite Z.shiftr_spec testbit_shiftl Z.lnot_spec testbit_ones
  testbit_m1 using lia : bits.

(** [bits] proves an equation between words bit by bit: it compares the bits at
    an arbitrary index, deciding every comparison of the index with a constant
    and dropping the bits above a word or below zero. *)
Ltac bits_step :=
  match goal with
  | |- context [?a <? ?b] => destruct (Z.ltb_spec a b)
  | H : is_u32 ?x |- context [Z.testbit ?x ?i] =>
      rewrite (testbit_above 32 x i H) by lia
  | H : is_u8 ?x |- context [Z.testbit ?x ?i] =>
      rewrite (testbit_above 8 x i H) by lia
  | |- context [Z.testbit ?x ?i] =>
      rewrite (Z.testbit_neg_r x i) by lia
  end.
Ltac bits_normalize :=
  autorewrite with bits;
  repeat (bits_step; autorewrite with bits);
  rewrite ?andb_true_l, ?andb_true_r, ?andb_false_l, ?andb_false_r,
    ?orb_false_l, ?orb_false_r, ?orb_true_l, ?orb_true_r,
    ?xorb_false_l, ?xorb_false_r.
Ltac bits :=
  apply Z.bits_inj'; intros ?i ?Hi; bits_normalize;
  try (solve [reflexivity | lia | f_equal; lia | repeat f_equal; lia]).

(** The sign extension of a word, bit by bit. *)
Lemma top_bit w x :
  0 <= w -> 0 <= x < 2 ^ (w + 1) -> Z.testbit x w = (2 ^ w <=? x).
Proof.
  intros Hw Hx. rewrite Z.testbit_eqb by lia.
  rewrite Z.pow_add_r in Hx by lia. change (2 ^ 1) with 2 in Hx.
  assert (0 < 2 ^ w) by (by apply Z.pow_pos_nonneg).
  destruct (Z.leb_spec (2 ^ w) x).
  - assert (x / 2 ^ w = 1) as ->; [|done].
    symmetry. apply Z.div_unique with (x - 2 ^ w); lia.
  - by rewrite Z.div_small by lia.
Qed.
Lemma testbit_high_word x : is_u32 x -> Z.testbit x 31 = (2 ^ 31 <=? x).
Proof. by apply (top_bit 31). Qed.

Lemma testbit_s32 x i :
  is_u32 x -> 0 <= i -> Z.testbit (s32 x) i = Z.testbit x (Z.min i 31).
Proof.
  intros Hx Hi. destruct (Z.lt_ge_cases i 32).
  - assert (Z.testbit (s32 x) i = Z.testbit x i) as ->.
    { transitivity (Z.testbit (u32 (s32 x)) i).
      - rewrite testbit_u32. destruct (Z.ltb_spec i 32); [done | lia].
      - by rewrite u32_s32, u32_small. }
    destruct (Z.eq_dec i 32); f_equal; lia.
  - rewrite Z.min_r, testbit_high_word by (done || lia).
    unfold s32. rewrite u32_small by done. unfold is_u32 in Hx.
    destruct (Z.ltb_spec x (2 ^ 31)); destruct (Z.leb_spec (2 ^ 31) x); try lia.
    + apply (testbit_above 32); lia.
    + replace (x - 2 ^ 32) with (Z.lnot (2 ^ 32 - 1 - x))
        by (pose proof (Z.add_lnot_diag (2 ^ 32 - 1 - x)); lia).
      rewrite Z.lnot_spec, (testbit_above 32) by lia. done.
Qed.

(** [cmp_cases] decides the comparisons of the goal one by one and drops the
    cases whose hypotheses contradict each other. *)
Ltac cmp_cases :=
  repeat match goal with
  | |- context [?a <=? ?b] => destruct (Z.leb_spec a b)
  | |- context [?a <? ?b] => destruct (Z.ltb_spec a b)
  | |- context [?a =? ?b] => destruct (Z.eqb_spec a b)
  end;
  rewrite ?andb_true_l, ?andb_true_r, ?andb_false_l, ?andb_false_r;
  try (exfalso; lia).

(** ** Buffers *)

Lemma in_block_spec {A} (b : list A) i :
  in_block b i = true <-> 0 <= i < Z.of_nat (length b).
Proof. unfold in_block. lia. Qed.

Lemma buf_get_Some {A} (b : list A) i :
  is_Some (buf_get b i) <-> 0 <= i < Z.of_nat (length b).
Proof.
  rewrite <- in_block_spec. unfold buf_get.
  destruct (in_block b i) eqn:E.
  - rewrite lookup_lt_is_Some. apply in_block_spec in E. split; [done | lia].
  - split; [intros [? ?]|]; congruence.
Qed.

Lemma buf_get_None {A} (b : list A) i :
  ~ (0 <= i < Z.of_nat (length b)) -> buf_get b i = None.
Proof. rewrite <- in_block_spec. unfold buf_get. by destruct (in_block b i). Qed.

Lemma buf_set_Some {A} (b : list A) i v :
  0 <= i < Z.of_nat (length b) -> buf_set b i v = Some (<[Z.to_nat i := v]> b).
Proof. intros H%in_block_spec. unfold buf_set. by rewrite H. Qed.

Lemma buf_set_None {A} (b : list A) i v :
  ~ (0 <= i < Z.of_nat (length b)) -> buf_set b i v = None.
Proof. rewrite <- in_block_spec. unfold buf_set. by destruct (in_block b i). Qed.

Lemma buf_set_inv {A} (b b' : list A) i v :
  buf_set b i v = Some b' ->
  0 <= i < Z.of_nat (length b) /\ b' = <[Z.to_nat i := v]> b.
Proof.
  unfold buf_set. destruct (in_block b i) eqn:E; [|done]. intros [= <-].
  by apply in_block_spec in E.
Qed.

Lemma buf_set_length {A} (b b' : list A) i v :
  buf_set b i v = Some b' -> length b' = length b.
Proof. intros [_ ->]%buf_set_inv. apply length_insert. Qed.

Lemma buf_get_set_eq {A} (b b' : list A) i v :
  buf_set b i v = Some b' -> buf_get b' i = Some v.
Proof.
  intros [H ->]%buf_set_inv. unfold buf_get.
  rewrite (proj2 (in_block_spec _ _)) by (rewrite length_insert; lia).
  apply list_lookup_insert_eq. lia.
Qed.

Lemma buf_get_set_ne {A} (b b' : list A) i j v :
  buf_set b i v = Some b' -> i <> j -> buf_get b' j = buf_get b j.
Proof.
  intros [H ->]%buf_set_inv Hne. unfold buf_get, in_block.
  rewrite length_insert. destruct (_ && _) eqn:E; [|done].
  apply list_lookup_insert_ne. lia.
Qed.

Lemma buf_get_Forall {A} (P : A -> Prop) (b : list A) i v :
  Forall P b -> buf_get b i = Some v -> P v.
Proof.
  unfold buf_get. destruct (in_block b i); [|done].
  intros H Hv. by eapply Forall_lookup_1.
Qed.

Lemma buf_set_Forall {A} (P : A -> Prop) (b b' : list A) i v :
  Forall P b -> P v -> buf_set b i v = Some b' -> Forall P b'.
Proof. intros Hb Hv [_ ->]%buf_set_inv. by apply Forall_insert. Qed.

