(* ===== verification/Util.v ===== *)
(** * util.h and util.c: bit-field macros, rotations, byte order

    The macros are written on the C operators of [Prelude]: a macro whose
    operand is a [uint32_t] shifts it with [shr32], and the mask of [get_bits]
    is built from the [int] value [~0] with [sar32] and [sal32]. *)
From S2P Require Import Prelude.

Section Util.
Context `{T : Target}.

Definition min (x y : Z) : Z := if x <? y then x else y.
Definition max (x y : Z) : Z := if x >? y then x else y.

(** [get_bit(x, i)] on a [uint32_t] and on a [uint64_t]. *)
Definition get_bit (x i : Z) : Z := Z.land (shr32 x i) 1.
Definition get_bit64 (x i : Z) : Z := Z.land (shr64 x i) 1.
(** [set_bit] and [clr_bit] on a [uint32_t]. *)
Definition set_bit (x i : Z) : Z := u32 (Z.lor x (sal32 1 i)).
Definition clr_bit (x i : Z) : Z := u32 (Z.land x (Z.lnot (sal32 1 i))).

(** [((~0)>>n)<<n], the [int] all the field macros are built from. *)
Definition high_ones (n : Z) : Z := sal32 (sar32 (-1) n) n.

Definition get_bits (x h l : Z) : Z :=
  Z.land (shr32 x l) (Z.lnot (high_ones (h - l + 1))).
Definition get_bits64 (x h l : Z) : Z :=
  Z.land (shr64 x l) (Z.lnot (high_ones (h - l + 1))).
Definition set_bits (x h l bits : Z) : Z :=
  u32 (Z.lor (Z.lor (Z.land x (Z.lnot (high_ones l)))
                    (Z.land x (high_ones (h + 1))))
             (sal32 bits l)).

Definition reverse_2 (x : Z) : Z :=
  Z.lor (Z.shiftl (Z.land x 0xFF) 8) (Z.land (Z.shiftr x 8) 0xFF).
Definition reverse_4 (x : Z) : Z :=
  u32 (Z.lor (Z.lor (Z.lor (Z.shiftl (Z.land x 0xFF) 24)
                           (Z.shiftl (Z.land (Z.shiftr x 8) 0xFF) 16))
                    (Z.shiftl (Z.land (Z.shiftr x 16) 0xFF) 8))
             (Z.land (Z.shiftr x 24) 0xFF)).

(** [uint32_t asr(uint32_t value, uint8_t shift)] *)
Definition asr (value shift : Z) : Z :=
  let shift := u8 shift in
  Z.lor (shr32 value shift)
        (u32 (if c_true (get_bit value 31) then sal32 (-1) (32 - shift) else 0)).

(** [uint32_t ror(uint32_t value, uint8_t rotation)] *)
Definition ror (value rotation : Z) : Z :=
  let rotation := u8 rotation in
  Z.lor (shr32 value rotation) (shl32 value (32 - rotation)).

(** [is_big_endian()]: the first byte of the [uint32_t] 1 in host memory. *)
Definition host_bytes (x : Z) : list Z :=
  let le := [u8 x; u8 (Z.shiftr x 8); u8 (Z.shiftr x 16); u8 (Z.shiftr x 24)] in
  if host_big_endian then reverse le else le.
Definition is_big_endian : option Z :=
  b ← buf_get (host_bytes 1) 0; Some (c_bool (b =? 0)).

(** ** Lemmas *)

Lemma high_ones_spec n : 0 <= n < 32 -> high_ones n = - 2 ^ n.
Proof.
  intros Hn. unfold high_ones. rewrite sar32_in, sal32_in by lia.
  assert (Z.shiftr (-1) n = -1) as -> by bits.
  rewrite Z.shiftl_mul_pow2 by lia.
  assert (0 < 2 ^ n <= 2 ^ 31).
  { split; [apply Z.pow_pos_nonneg | apply Z.pow_le_mono_r]; lia. }
  unfold s32, u32, wrap.
  replace (-1 * 2 ^ n) with (2 ^ 32 - 2 ^ n + (-1) * 2 ^ 32) by lia.
  rewrite Z_mod_plus_full, Z.mod_small by lia.
  destruct (Z.ltb_spec (2 ^ 32 - 2 ^ n) (2 ^ 31)); lia.
Qed.

Lemma lnot_high_ones n : 0 <= n < 32 -> Z.lnot (high_ones n) = Z.ones n.
Proof.
  intros Hn. rewrite high_ones_spec by done. rewrite Z.ones_equiv.
  pose proof (Z.add_lnot_diag (- 2 ^ n)). lia.
Qed.

Lemma get_bit_in x i : 0 <= i < 32 -> get_bit x i = Z.b2z (Z.testbit x i).
Proof.
  intros Hi. unfold get_bit. rewrite shr32_in by done.
  change 1 with (Z.ones 1). rewrite Z.land_ones by lia. change (2 ^ 1) with 2.
  rewrite <- Z.bit0_mod, Z.shiftr_spec by lia. by rewrite Z.add_0_l.
Qed.

Lemma get_bit_01 x i : get_bit x i = 0 \/ get_bit x i = 1.
Proof.
  unfold get_bit. change 1 with (Z.ones 1) at 1 2.
  rewrite Z.land_ones by lia. pose proof (Z.mod_pos_bound (shr32 x i) (2 ^ 1)).
  lia.
Qed.

Lemma get_bits_in x h l :
  0 <= l -> 0 <= h - l + 1 < 32 -> l < 32 ->
  get_bits x h l = Z.shiftr x l mod 2 ^ (h - l + 1).
Proof.
  intros. unfold get_bits. rewrite lnot_high_ones, shr32_in by lia.
  by rewrite Z.land_ones by lia.
Qed.

Lemma get_bits_range x h l :
  0 <= l < 32 -> 0 <= h - l + 1 < 32 -> 0 <= get_bits x h l < 2 ^ (h - l + 1).
Proof.
  intros. rewrite get_bits_in by lia.
  apply Z.mod_pos_bound, Z.pow_pos_nonneg; lia.
Qed.

Lemma testbit_get_bits x h l i :
  0 <= l < 32 -> 0 <= h - l + 1 < 32 -> 0 <= i ->
  Z.testbit (get_bits x h l) i = (i <? h - l + 1) && Z.testbit x (i + l).
Proof.
  intros. rewrite get_bits_in, Z.testbit_mod_pow2, Z.shiftr_spec by lia. done.
Qed.

Lemma testbit_asr value shift i :
  is_u32 value -> 1 <= shift < 32 -> 0 <= i < 32 ->
  Z.testbit (asr value shift) i = Z.testbit value (Z.min (i + shift) 31).
Proof.
  intros Hv Hs Hi. unfold asr. rewrite u8_small by (unfold is_u8; lia).
  rewrite get_bit_in, shr32_in by lia.
  assert (Hsal : Z.testbit (u32 (sal32 (-1) (32 - shift))) i = (32 - shift <=? i)).
  { rewrite sal32_in, u32_s32 by lia. bits_normalize; try lia.
    destruct (Z.leb_spec (32 - shift) i); [|by rewrite Z.testbit_neg_r by lia].
    rewrite Z.bits_m1; lia. }
  rewrite Z.lor_spec, Z.shiftr_spec by lia.
  destruct (Z.testbit value 31) eqn:E; simpl.
  - rewrite Hsal. destruct (Z.leb_spec (32 - shift) i).
    + rewrite orb_true_r, Z.min_r by lia. done.
    + rewrite orb_false_r, Z.min_l by lia. done.
  - change (u32 0) with 0. rewrite Z.bits_0, orb_false_r.
    destruct (Z.le_gt_cases (i + shift) 31).
    + by rewrite Z.min_l by lia.
    + rewrite Z.min_r, E by lia. by apply (testbit_above 32); [|lia].
Qed.

Lemma asr_range value shift : is_u32 value -> is_u32 (asr value shift).
Proof. intros. unfold asr. auto with words. Qed.

Lemma testbit_ror value r i :
  is_u32 value -> 1 <= r < 32 -> 0 <= i < 32 ->
  Z.testbit (ror value r) i = Z.testbit value ((i + r) mod 32).
Proof.
  intros Hv Hr Hi. unfold ror. rewrite u8_small by (unfold is_u8; lia).
  rewrite shr32_in, shl32_in by lia. bits_normalize; try lia.
  destruct (Z.le_gt_cases 32 (i + r)).
  - rewrite (testbit_above 32 value (i + r)) by (done || lia).
    rewrite orb_false_l. f_equal.
    rewrite <- (Z_mod_plus_full _ (-1)), Z.mod_small; lia.
  - rewrite (Z.testbit_neg_r value (i - _)) by lia.
    rewrite orb_false_r, Z.mod_small by lia. done.
Qed.

Lemma ror_range value r : is_u32 value -> is_u32 (ror value r).
Proof. intros. unfold ror. auto with words. Qed.

(** Two words with the same 32 bits are equal. *)
Lemma u32_ext x y :
  is_u32 x -> is_u32 y ->
  (forall i, 0 <= i < 32 -> Z.testbit x i = Z.testbit y i) -> x = y.
Proof.
  intros Hx Hy H. apply Z.bits_inj'. intros i Hi.
  destruct (Z.lt_ge_cases i 32); [apply H; lia|].
  by rewrite (testbit_above 32 x), (testbit_above 32 y) by (done || lia).
Qed.

Lemma high_ones_lnot n : 0 <= n < 32 -> high_ones n = Z.lnot (Z.ones n).
Proof. intros. by rewrite <- lnot_high_ones, Z.lnot_involutive. Qed.

Lemma shiftl_small v l w :
  0 <= l <= w -> 0 <= v < 2 ^ (w - l) -> 0 <= Z.shiftl v l < 2 ^ w.
Proof.
  intros Hl Hv. rewrite Z.shiftl_mul_pow2 by lia.
  assert (2 ^ (w - l) * 2 ^ l = 2 ^ w).
  { rewrite <- Z.pow_add_r by lia. f_equal. lia. }
  assert (0 < 2 ^ l) by (apply Z.pow_pos_nonneg; lia). nia.
Qed.

Lemma testbit_set_bits x h l v i :
  is_u32 x -> 0 <= l <= h -> h < 31 -> 0 <= i < 32 -> 0 <= v < 2 ^ (h - l + 1) ->
  Z.testbit (set_bits x h l v) i =
  if i <? l then Z.testbit x i
  else if i <=? h then Z.testbit v (i - l) else Z.testbit x i.
Proof.
  intros Hx Hl Hh Hi Hv. unfold set_bits.
  rewrite !high_ones_lnot, Z.lnot_involutive, sal32_in by lia.
  assert (0 <= Z.shiftl v l < 2 ^ 31).
  { apply shiftl_small; [lia|]. assert (2 ^ (h - l + 1) <= 2 ^ (31 - l)); [|lia].
    apply Z.pow_le_mono_r; lia. }
  rewrite s32_small by lia.
  destruct (Z.ltb_spec i l); [|destruct (Z.leb_spec i h)];
    bits_normalize; try lia; try done.
  rewrite (testbit_above (h - l + 1) v) by lia. by rewrite orb_false_r.
Qed.

Lemma set_bits_u32 x h l v : is_u32 (set_bits x h l v).
Proof. apply u32_range. Qed.

Lemma get_bit_u32 x i : is_u32 (get_bit x i).
Proof. unfold is_u32. destruct (get_bit_01 x i); lia. Qed.

Lemma get_bits_u32 x h l :
  0 <= l < 32 -> 0 <= h - l + 1 < 32 -> is_u32 (get_bits x h l).
Proof.
  intros Hl Hh. pose proof (get_bits_range x h l Hl Hh).
  assert (2 ^ (h - l + 1) < 2 ^ 32) by (apply Z.pow_lt_mono_r; lia).
  unfold is_u32. lia.
Qed.

(** [asr] shifts the signed value. *)
Lemma asr_word value shift :
  is_u32 value -> 1 <= shift < 32 ->
  asr value shift = u32 (Z.shiftr (s32 value) shift).
Proof.
  intros Hv Hs. apply u32_ext; [by apply asr_range | apply u32_range |].
  intros i Hi. rewrite testbit_asr by done. bits_normalize; [|lia].
  by rewrite testbit_s32 by (done || lia).
Qed.

(** ** Properties *)

(** [asr] is the arithmetic shift of ARM: for every count from 1 to 31 it
    gives the word of the signed value shifted right, the sign filling in. *)
Lemma asr_spec value shift :
  is_u32 value -> 1 <= shift < 32 ->
  asr value shift = u32 (Z.shiftr (s32 value) shift).
Proof. apply asr_word. Qed.

(** Rotations undo each other: a word rotated right by [r] and then by
    [32 - r] is the word again, for every count from 1 to 31. *)
Lemma ror_inverse value r :
  is_u32 value -> 1 <= r < 32 -> ror (ror value r) (32 - r) = value.
Proof.
  intros Hv Hr. apply u32_ext; [by apply ror_range, ror_range | done |].
  intros i Hi. rewrite testbit_ror by (done || lia || by apply ror_range).
  rewrite testbit_ror; [|done..|apply Z.mod_pos_bound; lia].
  f_equal. rewrite Zplus_mod_idemp_l.
  replace (i + (32 - r) + r) with (i + 1 * 32) by lia.
  rewrite Z_mod_plus_full. by apply Z.mod_small.
Qed.

(** The field macros agree: reading back the field [set_bits] wrote gives
    its value, and every bit outside of the field is the old one. *)
Lemma get_bits_set_bits x h l v :
  is_u32 x -> 0 <= l <= h -> h < 31 -> 0 <= v < 2 ^ (h - l + 1) ->
  get_bits (set_bits x h l v) h l = v /\
  forall i, 0 <= i < 32 -> ~ (l <= i <= h) ->
    get_bit (set_bits x h l v) i = get_bit x i.
Proof.
  intros Hx Hl Hh Hv. split.
  - apply Z.bits_inj'. intros i Hi. rewrite testbit_get_bits by lia.
    destruct (Z.ltb_spec i (h - l + 1)); simpl.
    + rewrite testbit_set_bits by (done || lia).
      destruct (Z.ltb_spec (i + l) l), (Z.leb_spec (i + l) h); try lia.
      f_equal. lia.
    + symmetry. apply (testbit_above (h - l + 1)); lia.
  - intros i Hi Hout. rewrite !get_bit_in, testbit_set_bits by (done || lia).
    destruct (Z.ltb_spec i l), (Z.leb_spec i h); (done || lia).
Qed.
End Util.

#[export] Hint Resolve asr_range ror_range get_bit_u32 : words.

Lemma asr_spec_witness :
  asr (T := x86) 0x80000010 4 = u32 (Z.shiftr (s32 0x80000010) 4) /\
  asr (T := x86) 0x80000010 4 = 0xF8000001.
Proof.
  split; [apply (asr_spec (T := x86)); [by split | lia] | vm_compute; reflexivity].
Defined.

Lemma ror_inverse_witness : ror (T := x86) (ror (T := x86) 0x12345678 8) 24 = 0x12345678.
Proof. apply (ror_inverse (T := x86) 0x12345678 8); [by split | lia]. Defined.

Lemma get_bits_set_bits_witness :
  get_bits (T := x86) (set_bits (T := x86) 0xFFFFFFFF 11 8 5) 11 8 = 5.
Proof.
  destruct (get_bits_set_bits (T := x86) 0xFFFFFFFF 11 8 5) as [E _];
    [by split | lia | lia | by split | exact E].
Defined.
