(* ===== verification/Memory.v ===== *)
(** * memory.c: the simulated memory

    [memory_data] is the C struct: the byte order flag, the block malloc gave
    and the recorded size.  A read returns the int the C function returns and
    the new content of its out-parameter; [None] is an access outside of the
    block, which the C code does not exclude. *)
From S2P Require Import Prelude Util.

Record memory_data := {
  mem_is_big_endian : Z;
  mem_address : list Z;
  mem_size : Z
}.

Definition with_block (m : memory_data) (b : list Z) : memory_data :=
  {| mem_is_big_endian := mem_is_big_endian m; mem_address := b;
     mem_size := mem_size m |}.

(** [memory_create]: [struct_ok] says whether the first malloc succeeded (its
    result is used unchecked), [block] is what the second returned. *)
Definition memory_create (struct_ok : bool) (block : option (list Z))
    (size is_big_endian : Z) : option memory_data :=
  if struct_ok then
    Some (match block with
          | None => {| mem_is_big_endian := is_big_endian; mem_address := [];
                       mem_size := 0 |}
          | Some b => {| mem_is_big_endian := is_big_endian; mem_address := b;
                         mem_size := size |}
          end)
  else None.

Definition memory_get_size (m : memory_data) : Z := mem_size m.

Definition memory_read_byte (m : memory_data) (address value : Z)
    : option (Z * Z) :=
  if address <=? mem_size m then
    value ← buf_get (mem_address m) address;
    Some (value, value)
  else Some (-1, value).

Definition memory_read_half (m : memory_data) (address value : Z)
    : option (Z * Z) :=
  if address <=? mem_size m then
    b0 ← buf_get (mem_address m) address;
    b1 ← buf_get (mem_address m) (u32 (address + 1));
    if mem_is_big_endian m =? 0 then
      let a := u16 b0 in
      let b := u16 (Z.shiftl b1 8) in
      let value := Z.lor a b in Some (value, value)
    else
      let a := u16 (Z.shiftl b0 8) in
      let b := u16 b1 in
      let value := Z.lor a b in Some (value, value)
  else Some (-1, value).

Definition memory_read_word (m : memory_data) (address value : Z)
    : option (Z * Z) :=
  if address <=? mem_size m then
    b0 ← buf_get (mem_address m) address;
    b1 ← buf_get (mem_address m) (u32 (address + 1));
    b2 ← buf_get (mem_address m) (u32 (address + 2));
    b3 ← buf_get (mem_address m) (u32 (address + 3));
    if mem_is_big_endian m =? 0 then
      let a := u32 b0 in
      let b := u32 (Z.shiftl b1 8) in
      let c := u32 (Z.shiftl b2 16) in
      let d := u32 (Z.shiftl b3 24) in
      let value := Z.lor (Z.lor (Z.lor a b) c) d in Some (s32 value, value)
    else
      let a := u32 (Z.shiftl b0 24) in
      let b := u32 (Z.shiftl b1 16) in
      let c := u32 (Z.shiftl b2 8) in
      let d := u32 b3 in
      let value := Z.lor (Z.lor (Z.lor a b) c) d in Some (s32 value, value)
  else Some (-1, value).

Definition memory_write_byte (m : memory_data) (address value : Z)
    : option (Z * memory_data) :=
  b ← buf_set (mem_address m) address value;
  Some (0, with_block m b).

Definition memory_write_half (m : memory_data) (address value : Z)
    : option (Z * memory_data) :=
  let a := u8 value in
  let b := u8 (Z.shiftr value 8) in
  if mem_is_big_endian m =? 1 then
    '(_, m) ← memory_write_byte m address b;
    '(_, m) ← memory_write_byte m (u32 (address + 1)) a;
    Some (0, m)
  else
    '(_, m) ← memory_write_byte m address a;
    '(_, m) ← memory_write_byte m (u32 (address + 1)) b;
    Some (0, m).

Definition memory_write_word (m : memory_data) (address value : Z)
    : option (Z * memory_data) :=
  let a := value in
  let b := Z.shiftr value 8 in
  let c := Z.shiftr value 16 in
  let d := Z.shiftr value 24 in
  if mem_is_big_endian m =? 1 then
    blk ← buf_set (mem_address m) address (u8 d);
    blk ← buf_set blk (u32 (address + 1)) (u8 c);
    blk ← buf_set blk (u32 (address + 2)) (u8 b);
    blk ← buf_set blk (u32 (address + 3)) (u8 a);
    Some (0, with_block m blk)
  else
    blk ← buf_set (mem_address m) address (u8 a);
    blk ← buf_set blk (u32 (address + 1)) (u8 b);
    blk ← buf_set blk (u32 (address + 2)) (u8 c);
    blk ← buf_set blk (u32 (address + 3)) (u8 d);
    Some (0, with_block m blk).

(** A memory as [memory_create] leaves it when malloc succeeded: the block has
    the recorded size, its cells are bytes, the flag is one of the two values
    main passes, and addresses are 32-bit. *)
Record mem_wf (m : memory_data) : Prop := {
  mem_wf_size : mem_size m = Z.of_nat (length (mem_address m));
  mem_wf_limit : mem_size m < 2 ^ 32;
  mem_wf_bytes : Forall is_u8 (mem_address m);
  mem_wf_endian : mem_is_big_endian m = 0 \/ mem_is_big_endian m = 1
}.

(** ** The abstract memory

    A map from addresses to bytes, with the value of an [n]-byte field read
    in the byte order of the memory. *)

Definition byte_at (m : memory_data) (a : Z) : option Z :=
  buf_get (mem_address m) a.

(** The bytes of a field of [n] bytes, lowest address first. *)
Definition field_bytes (be : bool) (n : Z) (v : Z) : list Z :=
  if be then reverse (Z_to_little_endian n 8 v) else Z_to_little_endian n 8 v.
Definition field_value (be : bool) (bs : list Z) : Z :=
  little_endian_to_Z 8 (if be then reverse bs else bs).
Definition big (m : memory_data) : bool := mem_is_big_endian m =? 1.

(** [stored m m' a bs]: [m'] is [m] with the bytes [bs] at address [a]. *)
Definition stored (m m' : memory_data) (a : Z) (bs : list Z) : Prop :=
  mem_is_big_endian m' = mem_is_big_endian m /\ mem_size m' = mem_size m /\
  length (mem_address m') = length (mem_address m) /\
  forall j, byte_at m' j =
    if (a <=? j) && (j <? a + Z.of_nat (length bs))
    then bs !! Z.to_nat (j - a) else byte_at m j.

(** ** Lemmas *)

Lemma u32_addr m a k :
  mem_wf m -> 0 <= a -> 0 <= k -> a + k < mem_size m -> u32 (a + k) = a + k.
Proof. intros [? ? ? ?] ? ? ?. apply u32_small. unfold is_u32. lia. Qed.

Lemma mem_get m a :
  mem_wf m -> 0 <= a < mem_size m ->
  exists b, buf_get (mem_address m) a = Some b /\ is_u8 b.
Proof.
  intros Hm Ha. destruct (proj2 (buf_get_Some (mem_address m) a)) as [b Hb].
  - rewrite <- (mem_wf_size m Hm). done.
  - exists b. split; [done|]. eapply buf_get_Forall; [apply Hm | done].
Qed.

(** Writing consecutive cells, and the block that results. *)
Fixpoint buf_sets {A} (b : list A) (i : Z) (vs : list A) : option (list A) :=
  match vs with
  | [] => Some b
  | v :: vs => b' ← buf_set b i v; buf_sets b' (i + 1) vs
  end.

Lemma buf_sets_spec {A} (b : list A) i vs :
  0 <= i -> i + Z.of_nat (length vs) <= Z.of_nat (length b) ->
  exists b', buf_sets b i vs = Some b' /\ length b' = length b /\
    forall j, buf_get b' j =
      if (i <=? j) && (j <? i + Z.of_nat (length vs))
      then vs !! Z.to_nat (j - i) else buf_get b j.
Proof.
  revert b i. induction vs as [|v vs IH]; intros b i Hi Hlen; simpl in *.
  { exists b. repeat split. intros j. cmp_cases; done. }
  rewrite buf_set_Some by lia. simpl. set (b1 := <[_ := v]> b).
  assert (Hset : buf_set b i v = Some b1) by (apply buf_set_Some; lia).
  pose proof (buf_set_length _ _ _ _ Hset) as Hb1.
  destruct (IH b1 (i + 1)) as (b' & -> & Hlb & Hget); [lia..|].
  exists b'. split; [done|]. split; [lia|]. intros j. rewrite Hget.
  destruct (Z.eq_dec j i) as [->|Hne].
  - cmp_cases. rewrite Z.sub_diag. simpl. by eapply buf_get_set_eq.
  - rewrite (buf_get_set_ne _ _ _ _ _ Hset) by done.
    cmp_cases; try done.
    replace (Z.to_nat (j - i)) with (Datatypes.S (Z.to_nat (j - (i + 1)))) by lia.
    done.
Qed.

Lemma buf_sets_Forall {A} (P : A -> Prop) vs (b b' : list A) i :
  Forall P b -> Forall P vs -> buf_sets b i vs = Some b' -> Forall P b'.
Proof.
  revert b i. induction vs as [|v vs IH]; intros b i Hb Hvs; simpl.
  { by intros [= <-]. }
  inversion Hvs; subst. destruct (buf_set b i v) as [b1|] eqn:E; [|done].
  simpl. apply IH; [|done]. by eapply (buf_set_Forall P b).
Qed.

Definition byte_of (v k : Z) : Z := u8 (Z.shiftr v (8 * k)).

Lemma field_bytes_4 be v :
  field_bytes be 4 v =
  if be then [byte_of v 3; byte_of v 2; byte_of v 1; byte_of v 0]
  else [byte_of v 0; byte_of v 1; byte_of v 2; byte_of v 3].
Proof.
  assert (Z_to_little_endian 4 8 v =
          [byte_of v 0; byte_of v 1; byte_of v 2; byte_of v 3]) as E.
  { change 4 with (Z.succ (Z.succ (Z.succ (Z.succ 0)))).
    rewrite !Z_to_little_endian_succ, Z_to_little_endian_0 by lia.
    rewrite !Z.land_ones, !Z.shiftr_shiftr by lia.
    unfold byte_of, u8, wrap. by rewrite Z.shiftr_0_r. }
  unfold field_bytes. destruct be; by rewrite E.
Qed.

Lemma field_bytes_2 be v :
  field_bytes be 2 v =
  if be then [byte_of v 1; byte_of v 0] else [byte_of v 0; byte_of v 1].
Proof.
  assert (Z_to_little_endian 2 8 v = [byte_of v 0; byte_of v 1]) as E.
  { change 2 with (Z.succ (Z.succ 0)).
    rewrite !Z_to_little_endian_succ, Z_to_little_endian_0 by lia.
    rewrite !Z.land_ones by lia. unfold byte_of, u8, wrap.
    by rewrite Z.shiftr_0_r. }
  unfold field_bytes. destruct be; by rewrite E.
Qed.

Lemma byte_of_u8 v k : is_u8 (byte_of v k).
Proof. apply u8_range. Qed.

(** The writers are [buf_sets] of the bytes of the value. *)
Lemma memory_write_word_sets m a v :
  mem_wf m -> 0 <= a -> a + 3 < mem_size m ->
  memory_write_word m a v =
  blk ← buf_sets (mem_address m) a (field_bytes (big m) 4 v);
  Some (0, with_block m blk).
Proof.
  intros Hm Ha Hs. unfold memory_write_word, big. rewrite field_bytes_4.
  rewrite !(u32_addr m a) by (done || lia).
  replace (a + 2) with (a + 1 + 1) by lia.
  replace (a + 3) with (a + 1 + 1 + 1) by lia.
  assert (byte_of v 0 = u8 v) as -> by (unfold byte_of; by rewrite Z.shiftr_0_r).
  destruct (mem_is_big_endian m =? 1); simpl;
    repeat (destruct (buf_set _ _ _); simpl; [|done]); done.
Qed.

Lemma memory_write_half_sets m a v :
  mem_wf m -> 0 <= a -> a + 1 < mem_size m ->
  memory_write_half m a v =
  blk ← buf_sets (mem_address m) a (field_bytes (big m) 2 v);
  Some (0, with_block m blk).
Proof.
  intros Hm Ha Hs. unfold memory_write_half, memory_write_byte, big.
  rewrite field_bytes_2, !(u32_addr m a) by (done || lia).
  assert (byte_of v 0 = u8 v) as -> by (unfold byte_of; by rewrite Z.shiftr_0_r).
  destruct (mem_is_big_endian m =? 1); simpl;
    repeat (destruct (buf_set _ _ _); simpl; [|done]); done.
Qed.

(** The readers assemble the bytes in the order of the flag. *)
Lemma shiftl_byte b k :
  is_u8 b -> 0 <= k <= 24 -> u32 (Z.shiftl b k) = Z.shiftl b k.
Proof.
  intros Hb Hk. apply u32_small, shiftl_small; [lia|].
  assert (2 ^ 8 <= 2 ^ (32 - k)) by (apply Z.pow_le_mono_r; lia).
  unfold is_u8 in Hb. lia.
Qed.

Lemma assemble_4 b0 b1 b2 b3 :
  is_u8 b0 -> is_u8 b1 -> is_u8 b2 -> is_u8 b3 ->
  Z.lor (Z.lor (Z.lor (u32 b0) (u32 (Z.shiftl b1 8))) (u32 (Z.shiftl b2 16)))
    (u32 (Z.shiftl b3 24)) = little_endian_to_Z 8 [b0; b1; b2; b3].
Proof.
  intros. rewrite !shiftl_byte by (done || lia).
  rewrite u32_small by (unfold is_u8, is_u32 in *; lia). simpl.
  rewrite Z.shiftl_0_l, Z.lor_0_r, !Z.shiftl_lor, !Z.shiftl_shiftl by lia.
  by rewrite !Z.lor_assoc.
Qed.

Lemma assemble_2 b0 b1 :
  is_u8 b0 -> is_u8 b1 ->
  Z.lor (u16 b0) (u16 (Z.shiftl b1 8)) = little_endian_to_Z 8 [b0; b1].
Proof.
  intros. assert (0 <= Z.shiftl b1 8 < 2 ^ 16) by (apply shiftl_small; done || lia).
  rewrite !u16_small by (unfold is_u8, is_u16 in *; lia). simpl.
  by rewrite Z.shiftl_0_l, Z.lor_0_r.
Qed.

Lemma lor_reverse_4 a b c d :
  Z.lor (Z.lor (Z.lor a b) c) d = Z.lor (Z.lor (Z.lor d c) b) a.
Proof.
  apply Z.bits_inj'. intros i _. rewrite !Z.lor_spec.
  destruct (Z.testbit a i), (Z.testbit b i), (Z.testbit c i), (Z.testbit d i); done.
Qed.

Lemma big_flag m :
  mem_wf m -> (mem_is_big_endian m =? 0) = negb (big m).
Proof. intros [_ _ _ [E|E]]; unfold big; by rewrite E. Qed.

Lemma read_word_field m a x :
  mem_wf m -> 0 <= a -> a + 3 < mem_size m ->
  exists bs, length bs = 4%nat /\ Forall is_u8 bs /\
    (forall k, (k < 4)%nat -> byte_at m (a + Z.of_nat k) = bs !! k) /\
    memory_read_word m a x =
      Some (s32 (field_value (big m) bs), field_value (big m) bs).
Proof.
  intros Hm Ha Hs.
  destruct (mem_get m a) as (b0 & E0 & ?); [done|lia|].
  destruct (mem_get m (a + 1)) as (b1 & E1 & ?); [done|lia|].
  destruct (mem_get m (a + 2)) as (b2 & E2 & ?); [done|lia|].
  destruct (mem_get m (a + 3)) as (b3 & E3 & ?); [done|lia|].
  exists [b0; b1; b2; b3]. split; [done|]. split; [by repeat apply Forall_cons_2|]. split.
  { intros k Hk. unfold byte_at.
    destruct k as [|[|[|[|k]]]]; [by rewrite Z.add_0_r|done..|lia]. }
  unfold memory_read_word. destruct (Z.leb_spec a (mem_size m)); [|lia].
  rewrite !(u32_addr m a), E0, E1, E2, E3, big_flag by (done || lia). simpl.
  unfold field_value. destruct (big m); cbn [negb]; cbv iota.
  - rewrite lor_reverse_4, assemble_4 by done. done.
  - by rewrite assemble_4 by done.
Qed.

Lemma read_half_field m a x :
  mem_wf m -> 0 <= a -> a + 1 < mem_size m ->
  exists bs, length bs = 2%nat /\ Forall is_u8 bs /\
    (forall k, (k < 2)%nat -> byte_at m (a + Z.of_nat k) = bs !! k) /\
    memory_read_half m a x =
      Some (field_value (big m) bs, field_value (big m) bs).
Proof.
  intros Hm Ha Hs.
  destruct (mem_get m a) as (b0 & E0 & ?); [done|lia|].
  destruct (mem_get m (a + 1)) as (b1 & E1 & ?); [done|lia|].
  exists [b0; b1]. split; [done|]. split; [by repeat apply Forall_cons_2|]. split.
  { intros k Hk. unfold byte_at.
    destruct k as [|[|k]]; [by rewrite Z.add_0_r|done|lia]. }
  unfold memory_read_half. destruct (Z.leb_spec a (mem_size m)); [|lia].
  rewrite !(u32_addr m a), E0, E1, big_flag by (done || lia). simpl.
  unfold field_value. destruct (big m); cbn [negb]; cbv iota.
  - rewrite Z.lor_comm, assemble_2 by done. done.
  - by rewrite assemble_2 by done.
Qed.

Lemma field_bytes_length be n v :
  0 <= n -> Z.of_nat (length (field_bytes be n v)) = n.
Proof.
  intros. unfold field_bytes.
  destruct be; rewrite ?length_reverse; by apply length_Z_to_little_endian.
Qed.

Lemma field_bytes_u8 be n v : 0 <= n -> Forall is_u8 (field_bytes be n v).
Proof.
  intros. unfold field_bytes. pose proof (Z_to_little_endian_bound n 8 v) as H1.
  destruct be; [apply Forall_reverse|]; apply H1; lia.
Qed.

Lemma field_roundtrip be n v :
  0 <= n -> field_value be (field_bytes be n v) = v mod 2 ^ (n * 8).
Proof.
  intros. unfold field_value, field_bytes.
  destruct be; rewrite ?reverse_involutive;
    apply little_endian_to_Z_to_little_endian; lia.
Qed.

(** A field read where [bs] was stored is [bs]. *)
Lemma stored_field m m' a bs bs' :
  stored m m' a bs -> length bs' = length bs ->
  (forall k, (k < length bs)%nat -> byte_at m' (a + Z.of_nat k) = bs' !! k) ->
  bs' = bs.
Proof.
  intros (_ & _ & _ & Hst) Hlen H. apply list_eq_same_length with (length bs);
    [done..|]. intros i x y Hi Hx Hy. rewrite <- H, Hst in Hx by done.
  revert Hx. cmp_cases. replace (Z.to_nat _) with i by lia. congruence.
Qed.

Lemma stored_field_bytes m m' a be n v bs :
  stored m m' a (field_bytes be n v) -> 0 <= n -> Z.of_nat (length bs) = n ->
  (forall k, (k < length bs)%nat -> byte_at m' (a + Z.of_nat k) = bs !! k) ->
  bs = field_bytes be n v.
Proof.
  intros Hst Hn Hl Hbs.
  assert (length bs = length (field_bytes be n v)) as Hll.
  { apply Nat2Z.inj. by rewrite field_bytes_length. }
  eapply stored_field; [done..|]. by rewrite <- Hll.
Qed.

Lemma big_stored m m' a bs : stored m m' a bs -> big m' = big m.
Proof. intros (E & _). unfold big. by rewrite E. Qed.

Lemma sets_stored m a bs :
  mem_wf m -> 0 <= a -> a + Z.of_nat (length bs) <= mem_size m ->
  Forall is_u8 bs ->
  exists blk, buf_sets (mem_address m) a bs = Some blk /\
    stored m (with_block m blk) a bs /\ mem_wf (with_block m blk).
Proof.
  intros [Hsz Hlim Hb He] Ha Hlen Hbs.
  destruct (buf_sets_spec (mem_address m) a bs) as (blk & E & Hl & Hget); [lia..|].
  exists blk. split; [done|]. split; [by repeat split|].
  split; simpl; [lia | done | by apply (buf_sets_Forall is_u8 bs _ _ _ Hb Hbs E) | done].
Qed.

Lemma write_word_stored m a v :
  mem_wf m -> 0 <= a -> a + 3 < mem_size m ->
  exists m', memory_write_word m a v = Some (0, m') /\
    stored m m' a (field_bytes (big m) 4 v) /\ mem_wf m'.
Proof.
  intros Hm Ha Hs. rewrite memory_write_word_sets by done.
  destruct (sets_stored m a (field_bytes (big m) 4 v)) as (blk & E & ? & ?);
    [done..| | |].
  - rewrite field_bytes_length; lia.
  - by apply field_bytes_u8.
  - rewrite E. simpl. eauto.
Qed.

Lemma write_half_stored m a v :
  mem_wf m -> 0 <= a -> a + 1 < mem_size m ->
  exists m', memory_write_half m a v = Some (0, m') /\
    stored m m' a (field_bytes (big m) 2 v) /\ mem_wf m'.
Proof.
  intros Hm Ha Hs. rewrite memory_write_half_sets by done.
  destruct (sets_stored m a (field_bytes (big m) 2 v)) as (blk & E & ? & ?);
    [done..| | |].
  - rewrite field_bytes_length; lia.
  - by apply field_bytes_u8.
  - rewrite E. simpl. eauto.
Qed.

Lemma write_byte_stored m a v :
  mem_wf m -> 0 <= a < mem_size m -> is_u8 v ->
  exists m', memory_write_byte m a v = Some (0, m') /\
    stored m m' a [v] /\ mem_wf m'.
Proof.
  intros Hm Ha Hv. unfold memory_write_byte.
  destruct (sets_stored m a [v]) as (blk & E & ? & ?);
    [done|lia|simpl; lia|by repeat apply Forall_cons_2|].
  simpl in E. destruct (buf_set _ _ _); [|done]. simplify_eq/=. eauto.
Qed.

(** Reading a stored field in the byte order [b]. *)
Lemma read_word_stored m m' a v x :
  stored m m' a (field_bytes (big m) 4 v) -> mem_wf m' ->
  0 <= a -> a + 3 < mem_size m' -> is_u32 v ->
  memory_read_word m' a x = Some (s32 v, v).
Proof.
  intros Hst Hm' Ha Hs Hv.
  destruct (read_word_field m' a x) as (bs & Hl & _ & Hbs & ->); [done..|].
  assert (bs = field_bytes (big m) 4 v) as ->.
  { eapply stored_field_bytes; [done|lia|by rewrite Hl|by rewrite Hl]. }
  rewrite (big_stored _ _ _ _ Hst), field_roundtrip by lia.
  change (2 ^ (4 * 8)) with (2 ^ 32). by rewrite Z.mod_small.
Qed.

(** The same memory looked at with the other byte order. *)
Definition swap_endian (m : memory_data) : memory_data :=
  {| mem_is_big_endian := if mem_is_big_endian m =? 0 then 1 else 0;
     mem_address := mem_address m; mem_size := mem_size m |}.

Lemma swap_wf m : mem_wf m -> mem_wf (swap_endian m).
Proof.
  intros [? ? ? He]. split; simpl; [done..|].
  destruct (_ =? 0); auto.
Qed.

Lemma big_swap m : mem_wf m -> big (swap_endian m) = negb (big m).
Proof. intros [_ _ _ [E|E]]; unfold big; simpl; by rewrite E. Qed.

Lemma field_value_swap be v :
  is_u32 v -> field_value (negb be) (field_bytes be 4 v) = reverse_4 v.
Proof.
  intros Hv. rewrite field_bytes_4. unfold field_value, reverse_4, byte_of.
  assert (forall l : list Z, (if negb be then reverse (if be then reverse l else l)
                     else if be then reverse l else l) = reverse l) as E.
  { intros l. by destruct be. }
  transitivity (little_endian_to_Z 8
    (reverse [u8 (Z.shiftr v (8 * 0)); u8 (Z.shiftr v (8 * 1));
              u8 (Z.shiftr v (8 * 2)); u8 (Z.shiftr v (8 * 3))])).
  { rewrite <- E. by destruct be. }
  change 255 with (Z.ones 8). cbn [reverse rev_append little_endian_to_Z].
  bits.
Qed.

(** A small memory for the witnesses. *)
Definition mem_example (be : Z) : memory_data :=
  {| mem_is_big_endian := be; mem_address := replicate 8 0; mem_size := 8 |}.

Lemma mem_example_wf be : be = 0 \/ be = 1 -> mem_wf (mem_example be).
Proof.
  intros. split; simpl; [done | done | | done].
  repeat apply Forall_cons_2; done.
Defined.

(** The word at an address, in the byte order of the memory. *)
Definition word_at (m : memory_data) (a : Z) : option Z :=
  b0 ← byte_at m a; b1 ← byte_at m (a + 1);
  b2 ← byte_at m (a + 2); b3 ← byte_at m (a + 3);
  Some (field_value (big m) [b0; b1; b2; b3]).

Lemma byte_at_bounds m a b :
  mem_wf m -> byte_at m a = Some b -> 0 <= a < mem_size m.
Proof. intros Hm E. rewrite (mem_wf_size m Hm). by apply buf_get_Some. Qed.

Lemma word_at_bounds m a w :
  mem_wf m -> word_at m a = Some w -> 0 <= a /\ a + 3 < mem_size m.
Proof.
  intros Hm E. unfold word_at in E.
  destruct (byte_at m a) eqn:E0; [|done]. cbn in E.
  destruct (byte_at m (a + 1)); [|done]. cbn in E.
  destruct (byte_at m (a + 2)); [|done]. cbn in E.
  destruct (byte_at m (a + 3)) eqn:E3; [|done].
  apply byte_at_bounds in E0; [|done]. apply byte_at_bounds in E3; [|done]. lia.
Qed.

Lemma read_word_at m a w x :
  mem_wf m -> word_at m a = Some w -> memory_read_word m a x = Some (s32 w, w).
Proof.
  intros Hm E. destruct (word_at_bounds m a w Hm E) as [Ha Hs].
  destruct (read_word_field m a x) as (bs & Hl & _ & Hbs & ->); [done..|].
  destruct bs as [|b0 [|b1 [|b2 [|b3 [|]]]]]; try done.
  assert (byte_at m a = Some b0) as E0 by (rewrite <- (Z.add_0_r a); apply (Hbs 0%nat); lia).
  assert (byte_at m (a + 1) = Some b1) as E1 by (apply (Hbs 1%nat); lia).
  assert (byte_at m (a + 2) = Some b2) as E2 by (apply (Hbs 2%nat); lia).
  assert (byte_at m (a + 3) = Some b3) as E3 by (apply (Hbs 3%nat); lia).
  unfold word_at in E. rewrite E0, E1, E2, E3 in E. simpl in E. by simplify_eq.
Qed.

(** ** Properties *)

(** [memory_write_word] implements a store of the four bytes of the value,
    in the byte order of the memory, at the address: it succeeds, the bytes it
    stores are exactly those, every other byte is unchanged, and the memory
    stays well formed. *)
Lemma memory_write_word_refines m a v :
  mem_wf m -> 0 <= a -> a + 3 < mem_size m ->
  exists m', memory_write_word m a v = Some (0, m') /\
    stored m m' a (field_bytes (big m) 4 v) /\ mem_wf m'.
Proof. apply write_word_stored. Qed.

(** C36. A word written to memory is read back, in both byte orders; the
    reader hands it out as its result as well, not the 0 memory.h documents. *)
Theorem memory_word_roundtrip m a v x :
  mem_wf m -> 0 <= a -> a + 3 < mem_size m -> is_u32 v ->
  exists m', memory_write_word m a v = Some (0, m') /\
    memory_read_word m' a x = Some (s32 v, v).
Proof.
  intros Hm Ha Hs Hv.
  destruct (write_word_stored m a v) as (m' & E & Hst & Hm'); [done..|].
  exists m'. split; [done|]. eapply read_word_stored; try done.
  destruct Hst as (_ & -> & _). done.
Qed.

(** A half word written to memory is read back, in both byte orders. *)
Lemma memory_half_roundtrip m a v x :
  mem_wf m -> 0 <= a -> a + 1 < mem_size m -> is_u16 v ->
  exists m', memory_write_half m a v = Some (0, m') /\
    memory_read_half m' a x = Some (v, v).
Proof.
  intros Hm Ha Hs Hv.
  destruct (write_half_stored m a v) as (m' & E & Hst & Hm'); [done..|].
  exists m'. split; [done|].
  destruct (read_half_field m' a x) as (bs & Hl & _ & Hbs & ->); [done..| |].
  { destruct Hst as (_ & -> & _). done. }
  assert (bs = field_bytes (big m) 2 v) as ->.
  { eapply stored_field_bytes; [done|lia|by rewrite Hl|by rewrite Hl]. }
  rewrite (big_stored _ _ _ _ Hst), field_roundtrip by lia.
  change (2 ^ (2 * 8)) with (2 ^ 16). by rewrite Z.mod_small.
Qed.

(** The byte order is what distinguishes the two kinds of memory: a word
    written under one flag and read under the other comes back byte-reversed,
    as memory_test.c checks on 0x11223344. *)
Lemma memory_word_other_endian m a v x :
  mem_wf m -> 0 <= a -> a + 3 < mem_size m -> is_u32 v ->
  exists m', memory_write_word m a v = Some (0, m') /\
    memory_read_word (swap_endian m') a x =
      Some (s32 (reverse_4 v), reverse_4 v).
Proof.
  intros Hm Ha Hs Hv.
  destruct (write_word_stored m a v) as (m' & E & Hst & Hm'); [done..|].
  exists m'. split; [done|].
  destruct (read_word_field (swap_endian m') a x) as (bs & Hl & _ & Hbs & ->).
  { by apply swap_wf. } { done. }
  { destruct Hst as (_ & Esz & _). simpl. by rewrite Esz. }
  assert (bs = field_bytes (big m) 4 v) as ->.
  { eapply stored_field_bytes; [done|lia|by rewrite Hl|by rewrite Hl]. }
  by rewrite big_swap, (big_stored _ _ _ _ Hst), field_value_swap.
Qed.

(** The accessors by the number of bytes they touch; the argument of a byte
    write is a uint8_t. *)
Inductive width := Byte | Half | Word.
Definition width_bytes (w : width) : Z :=
  match w with Byte => 1 | Half => 2 | Word => 4 end.
Definition memory_read (w : width) : memory_data -> Z -> Z -> option (Z * Z) :=
  match w with
  | Byte => memory_read_byte | Half => memory_read_half | Word => memory_read_word
  end.
Definition memory_write (w : width) (m : memory_data) (a v : Z) : option (Z * memory_data) :=
  match w with
  | Byte => memory_write_byte m a (u8 v)
  | Half => memory_write_half m a v
  | Word => memory_write_word m a v
  end.

(** Cells one after the other, up to the end of the block: an access that gets
    to the end has no result. *)
Lemma next_cell m a k :
  mem_wf m -> 0 <= a -> 0 <= k -> a + k <= mem_size m -> u32 (a + k) = a + k.
Proof. intros [? ? ? ?] ? ? ?. apply u32_small. unfold is_u32. lia. Qed.

Ltac cell_bounds :=
  repeat match goal with
  | E : buf_get _ _ = Some _ |- _ => apply mk_is_Some, buf_get_Some in E
  | E : buf_set _ _ _ = Some _ |- _ =>
      pose proof (buf_set_length _ _ _ _ E); apply buf_set_inv, proj1 in E
  end.
Ltac each_cell Hm :=
  repeat match goal with
  | |- context [u32 (?a + ?k)] => rewrite (next_cell _ a k Hm) by (cell_bounds; lia)
  | |- context [buf_get ?b ?i ≫= _] =>
      let E := fresh "E" in destruct (buf_get b i) eqn:E; [cbn [mbind option_bind]|done]
  | |- context [buf_set ?b ?i ?v ≫= _] =>
      let E := fresh "E" in destruct (buf_set b i v) eqn:E; [cbn [mbind option_bind mem_address with_block]|done]
  end;
  cell_bounds; exfalso; lia.

Lemma read_over_the_end w m a x :
  mem_wf m -> 0 <= a <= mem_size m -> mem_size m < a + width_bytes w ->
  memory_read w m a x = None.
Proof.
  intros Hm Ha Hw. pose proof (mem_wf_size m Hm) as Hs.
  destruct w; cbn [memory_read width_bytes] in *;
    unfold memory_read_byte, memory_read_half, memory_read_word;
    (destruct (Z.leb_spec a (mem_size m)); [|lia]); each_cell Hm.
Qed.

Lemma write_over_the_end w m a v :
  mem_wf m -> 0 <= a -> mem_size m < a + width_bytes w -> memory_write w m a v = None.
Proof.
  intros Hm Ha Hw. pose proof (mem_wf_size m Hm) as Hs.
  destruct w; cbn [memory_write width_bytes] in *;
    unfold memory_write_byte, memory_write_half, memory_write_byte, memory_write_word;
    rewrite ?bind_bind; [each_cell Hm| |];
    (destruct (_ =? 1); each_cell Hm).
Qed.

Lemma read_inside w m a x :
  mem_wf m -> 0 <= a -> a + width_bytes w <= mem_size m ->
  exists bs, Z.of_nat (length bs) = width_bytes w /\
    (forall k, (k < length bs)%nat -> byte_at m (a + Z.of_nat k) = bs !! k) /\
    memory_read w m a x = Some (s32 (field_value (big m) bs), field_value (big m) bs).
Proof.
  intros Hm Ha Hw. destruct w; cbn [memory_read width_bytes] in *.
  - destruct (mem_get m a) as (b & E & Hb); [done|lia|]. exists [b].
    split; [done|]. split.
    { intros [|k] Hk; [by rewrite Z.add_0_r|simpl in Hk; lia]. }
    unfold memory_read_byte. destruct (Z.leb_spec a (mem_size m)); [|lia].
    rewrite E. cbn [mbind option_bind].
    assert (field_value (big m) [b] = b) as ->.
    { unfold field_value. destruct (big m); simpl; by rewrite Z.lor_0_r. }
    by rewrite s32_small by (unfold is_u8 in *; lia).
  - destruct (read_half_field m a x) as (bs & Hl & Hb & Hbs & ->); [done|done|lia|].
    exists bs. rewrite Hl. split_and!; [done..|].
    destruct bs as [|b0 [|b1 [|]]]; try done.
    pose proof (Forall_inv Hb) as Hb0. pose proof (Forall_inv (Forall_inv_tail Hb)) as Hb1.
    rewrite s32_small; [done|]. unfold field_value.
    assert (forall x y, is_u8 x -> is_u8 y -> is_u16 (little_endian_to_Z 8 [x; y])) as H2.
    { intros y z Hy Hz. rewrite <- assemble_2 by done.
      apply (lor_range 16); [lia|apply u16_range..]. }
    unfold is_u16 in H2. destruct (big m); [pose proof (H2 b1 b0 Hb1 Hb0)|
      pose proof (H2 b0 b1 Hb0 Hb1)]; cbn [reverse rev_append] in *; lia.
  - destruct (read_word_field m a x) as (bs & Hl & _ & Hbs & ->); [done|done|lia|].
    exists bs. rewrite Hl. by split_and!.
Qed.

Lemma write_inside w m a v :
  mem_wf m -> 0 <= a -> a + width_bytes w <= mem_size m ->
  exists m', memory_write w m a v = Some (0, m') /\
    stored m m' a (field_bytes (big m) (width_bytes w) v) /\ mem_wf m'.
Proof.
  intros Hm Ha Hw. destruct w; cbn [memory_write width_bytes] in *.
  - destruct (write_byte_stored m a (u8 v)) as (m' & E & Hst & Hm'); [done|lia|apply u8_range|].
    exists m'. split; [done|]. split; [|done].
    replace (field_bytes (big m) 1 v) with [u8 v]; [done|].
    unfold field_bytes. change 1 with (Z.succ 0).
    rewrite Z_to_little_endian_succ, Z_to_little_endian_0, Z.land_ones by lia.
    by destruct (big m).
  - apply write_half_stored; [done..|lia].
  - apply write_word_stored; [done..|lia].
Qed.

(** C37. What every accessor does at every address, the recorded size being
    that of the block.  A read above [size] fails with -1 and leaves the
    out-parameter alone; one whose bytes are all inside stores their value, in
    the byte order of the memory, and returns it as an int (not the 0 memory.h
    documents); in between, at [size] itself and, for a half or a word, at the
    one or three addresses below it, the test lets it access memory outside of
    the block.  A write stores its bytes and changes nothing else when they are
    all inside; it tests nothing, and accesses memory outside of the block at
    every other address. *)
Theorem memory_bounds w m a x v :
  mem_wf m -> is_u32 a ->
  let n := width_bytes w in
  (mem_size m < a -> memory_read w m a x = Some (-1, x)) /\
  (a <= mem_size m < a + n -> memory_read w m a x = None) /\
  (a + n <= mem_size m -> exists bs, Z.of_nat (length bs) = n /\
     (forall k, (k < length bs)%nat -> byte_at m (a + Z.of_nat k) = bs !! k) /\
     memory_read w m a x = Some (s32 (field_value (big m) bs), field_value (big m) bs)) /\
  (mem_size m < a + n -> memory_write w m a v = None) /\
  (a + n <= mem_size m -> exists m', memory_write w m a v = Some (0, m') /\
     stored m m' a (field_bytes (big m) n v) /\ mem_wf m').
Proof.
  intros Hm [Ha _] n. split_and!.
  - intros Hs. destruct w; cbn [memory_read];
      unfold memory_read_byte, memory_read_half, memory_read_word;
      by destruct (Z.leb_spec a (mem_size m)); [lia|].
  - intros Hs. apply read_over_the_end; [done|lia..].
  - by apply read_inside.
  - by apply write_over_the_end.
  - by apply write_inside.
Qed.

Lemma memory_write_word_refines_witness :
  exists m', memory_write_word (mem_example 1) 2 0x11223344 = Some (0, m') /\
    stored (mem_example 1) m' 2 (field_bytes (big (mem_example 1)) 4 0x11223344)
    /\ mem_wf m'.
Proof.
  apply (memory_write_word_refines (mem_example 1) 2 0x11223344);
    [apply mem_example_wf; auto | lia | reflexivity].
Defined.

Lemma memory_word_roundtrip_witness :
  exists m', memory_write_word (mem_example 0) 4 0xFFFFFFFF = Some (0, m') /\
    memory_read_word m' 4 7 = Some (s32 0xFFFFFFFF, 0xFFFFFFFF).
Proof.
  apply (memory_word_roundtrip (mem_example 0) 4 0xFFFFFFFF 7);
    [apply mem_example_wf; auto | lia | reflexivity | split; [lia | reflexivity]].
Defined.

Lemma memory_half_roundtrip_witness :
  exists m', memory_write_half (mem_example 1) 6 0x5566 = Some (0, m') /\
    memory_read_half m' 6 0 = Some (0x5566, 0x5566).
Proof.
  apply (memory_half_roundtrip (mem_example 1) 6 0x5566 0);
    [apply mem_example_wf; auto | lia | reflexivity | split; [lia | reflexivity]].
Defined.

Lemma memory_word_other_endian_witness :
  exists m', memory_write_word (mem_example 1) 0 0x11223344 = Some (0, m') /\
    memory_read_word (swap_endian m') 0 0 =
      Some (s32 (reverse_4 0x11223344), reverse_4 0x11223344).
Proof.
  apply (memory_word_other_endian (mem_example 1) 0 0x11223344 0);
    [apply mem_example_wf; auto | lia | reflexivity | split; [lia | reflexivity]].
Defined.

(** Eight bytes: the ends of the half words and of the words. *)
Lemma memory_bounds_witness :
  memory_read_half (mem_example 0) 9 5 = Some (-1, 5) /\
  memory_read_half (mem_example 0) 8 0 = None /\
  memory_read_half (mem_example 0) 7 0 = None /\
  (exists v, memory_read_half (mem_example 0) 6 0 = Some (s32 v, v)) /\
  memory_write_word (mem_example 0) 5 1 = None /\
  exists m', memory_write_word (mem_example 0) 4 1 = Some (0, m').
Proof.
  assert (Hm : mem_wf (mem_example 0)) by (apply mem_example_wf; auto).
  destruct (memory_bounds Half (mem_example 0) 9 5 0 Hm) as (H9 & _); [split; done|].
  destruct (memory_bounds Half (mem_example 0) 8 0 0 Hm) as (_ & H8 & _); [split; done|].
  destruct (memory_bounds Half (mem_example 0) 7 0 0 Hm) as (_ & H7 & _); [split; done|].
  destruct (memory_bounds Half (mem_example 0) 6 0 0 Hm) as (_ & _ & H6 & _); [split; done|].
  destruct (memory_bounds Word (mem_example 0) 5 0 1 Hm) as (_ & _ & _ & H5 & _); [split; done|].
  destruct (memory_bounds Word (mem_example 0) 4 0 1 Hm) as (_ & _ & _ & _ & H4); [split; done|].
  split_and!; [apply H9; done|apply H8; split; done|apply H7; split; done| |apply H5; done|].
  - destruct H6 as (bs & _ & _ & E); [done|]. eexists. exact E.
  - destruct H4 as (m' & E & _); [done|]. exists m'. exact E.
Defined.
