(* ===== verification/Debug.v ===== *)
(** * debug.c: the table of debugged files

    The table is an array of 64 pointers followed by a counter; a pointer is
    the string it points to, or NULL ([None]), which strcmp may not be given.
    [debug_table] says the first [nb_debugged_files] entries are a sorted list. *)
From Stdlib Require Import OrderedTypeEx.
From S2P Require Import Prelude.

Definition MAX_FILES_NUMBER : Z := 64.

Record debug_data := {
  debugged_files : list (option string);
  nb_debugged_files : Z
}.

Definition debug_init : debug_data :=
  {| debugged_files := replicate 64 None; nb_debugged_files := 0 |}.

(** The entry at an index, as an argument of strcmp. *)
Definition file_at (files : list (option string)) (i : Z) : option string :=
  o ← buf_get files i; o.

(** The sign of strcmp, which compares unsigned characters. *)
Definition strcmp (a b : string) : comparison := String.compare a b.

(** The first loop of [add_debug_to], from [i], with [rem] = 64 - [i]. *)
Fixpoint find_slot (rem : nat) (d : debug_data) (name : string) (i : Z) : option Z :=
  match rem with
  | O => Some i
  | Datatypes.S rem =>
      if i <? nb_debugged_files d then
        f ← file_at (debugged_files d) i;
        match strcmp f name with
        | Lt => find_slot rem d name (i + 1)
        | _ => Some i
        end
      else Some i
  end.

(** The second loop: [j] goes from [i + k] down to [i]. *)
Fixpoint shift_files (k : nat) (i : Z) (files : list (option string))
    : option (list (option string)) :=
  match k with
  | O => Some files
  | Datatypes.S k' =>
      let j := i + Z.of_nat k in
      v ← buf_get files (j - 1);
      files ← buf_set files j v;
      shift_files k' i files
  end.

Definition add_debug_to (name : string) (d : debug_data) : option debug_data :=
  i ← find_slot 64 d name 0;
  if i >=? MAX_FILES_NUMBER then Some d
  else
    files ← shift_files (Z.to_nat (nb_debugged_files d - i)) i (debugged_files d);
    files ← buf_set files i (Some name);
    Some {| debugged_files := files; nb_debugged_files := nb_debugged_files d + 1 |}.

(** The binary search of [__is_debugged]; the loop is given fuel and ends with
    the bounds it leaves, or with [inl] at a match. *)
Fixpoint search_loop (fuel : nat) (files : list (option string)) (name : string)
    (from to : Z) : option (unit + Z * Z) :=
  match fuel with
  | O => None
  | Datatypes.S fuel =>
      if from <? to then
        let middle := Z.quot (from + to) 2 in
        f ← file_at files middle;
        match strcmp f name with
        | Lt => search_loop fuel files name (middle + 1) to
        | Gt => search_loop fuel files name from (middle - 1)
        | Eq => Some (inl ())
        end
      else Some (inr (from, to))
  end.

Definition is_debugged (name : string) (d : debug_data) : option Z :=
  r ← search_loop 65 (debugged_files d) name 0 (nb_debugged_files d - 1);
  match r with
  | inl _ => Some 1
  | inr (from, to) =>
      if from =? to then
        f ← file_at (debugged_files d) from;
        match strcmp f name with Eq => Some 1 | _ => Some 0 end
      else Some 0
  end.

(** [__debug_raw_binary], for the non-negative lengths its callers pass: the
    characters printed from index [i] on. *)
Definition isprint (c : Z) : bool := (32 <=? c) && (c <? 127).
Fixpoint debug_raw_binary (len : nat) (data : list Z) (i : Z) : option (list Z) :=
  match len with
  | O => Some []
  | Datatypes.S len =>
      c ← buf_get data i;
      rest ← debug_raw_binary len data (i + 1);
      Some ((if isprint c then c else 46) :: rest)
  end.

(** ** The order of strings *)

Definition str_le (a b : string) : Prop := strcmp a b <> Gt.

Lemma strcmp_eq a b : strcmp a b = Eq <-> a = b.
Proof.
  split; [apply String.compare_eq_iff|]. intros ->. unfold strcmp.
  pose proof (String.compare_antisym b b). by destruct (String.compare b b).
Qed.
Lemma strcmp_refl a : strcmp a a = Eq.
Proof. by apply strcmp_eq. Qed.
Lemma strcmp_gt a b : strcmp a b = Gt <-> strcmp b a = Lt.
Proof.
  unfold strcmp. rewrite (String.compare_antisym b a).
  by destruct (String.compare a b).
Qed.
Lemma strcmp_trans a b c : strcmp a b = Lt -> strcmp b c = Lt -> strcmp a c = Lt.
Proof.
  change strcmp with String_as_OT.cmp. rewrite !String_as_OT.cmp_lt.
  apply String_as_OT.lt_trans.
Qed.

#[export] Instance str_le_preorder : PreOrder str_le.
Proof.
  split; [intros a; unfold str_le; by rewrite strcmp_refl|].
  intros a b c Hab Hbc Hac. apply strcmp_gt in Hac.
  destruct (strcmp a b) eqn:E; [| |done].
  - apply strcmp_eq in E as ->. apply Hbc. by apply strcmp_gt.
  - apply Hbc, strcmp_gt. by eapply strcmp_trans.
Qed.

Lemma lt_le_trans a b c : strcmp a b = Lt -> str_le b c -> strcmp a c = Lt.
Proof.
  intros Hab Hbc. destruct (strcmp b c) eqn:E; [| |done].
  - by apply strcmp_eq in E as <-.
  - by eapply strcmp_trans.
Qed.
Lemma le_lt_trans a b c : str_le a b -> strcmp b c = Lt -> strcmp a c = Lt.
Proof.
  intros Hab Hbc. destruct (strcmp a b) eqn:E; [| |done].
  - by apply strcmp_eq in E as ->.
  - by eapply strcmp_trans.
Qed.
Lemma lt_le a b : strcmp a b = Lt -> str_le a b.
Proof. intros E. unfold str_le. by rewrite E. Qed.

Definition sorted (l : list string) : Prop :=
  forall i j a b, (i <= j)%nat -> l !! i = Some a -> l !! j = Some b -> str_le a b.

(** The table holds the sorted list [l]. *)
Record debug_table (d : debug_data) (l : list string) : Prop := {
  dt_length : length (debugged_files d) = 64%nat;
  dt_nb : nb_debugged_files d = Z.of_nat (length l);
  dt_room : (length l <= 64)%nat;
  dt_files : forall i, (i < length l)%nat ->
    debugged_files d !! i = Some (l !! i);
  dt_sorted : sorted l
}.

Lemma debug_init_table : debug_table debug_init [].
Proof.
  split; try done; [simpl; lia|intros i Hi; simpl in Hi; lia].
Qed.

(** ** Insertion *)

Lemma file_at_table d l (i : Z) :
  debug_table d l -> 0 <= i < Z.of_nat (length l) ->
  exists a, l !! Z.to_nat i = Some a /\ file_at (debugged_files d) i = Some a.
Proof.
  intros Hd Hi. destruct (lookup_lt_is_Some_2 l (Z.to_nat i)) as [a Ha]; [lia|].
  exists a. split; [done|]. unfold file_at, buf_get, in_block.
  rewrite (dt_length d l Hd). pose proof (dt_room d l Hd).
  destruct (Z.leb_spec 0 i), (Z.ltb_spec i (Z.of_nat 64)); try lia. cbn [andb].
  by rewrite (dt_files d l Hd), Ha by lia.
Qed.

(** All entries below [i] are smaller than [name]. *)
Definition below (l : list string) (i : Z) (name : string) : Prop :=
  forall k a, Z.of_nat k < i -> l !! k = Some a -> strcmp a name = Lt.

Lemma find_slot_spec rem d l name i :
  debug_table d l -> i + Z.of_nat rem = 64 -> 0 <= i <= Z.of_nat (length l) ->
  below l i name ->
  exists j, find_slot rem d name i = Some j /\ i <= j <= Z.of_nat (length l) /\
    below l j name /\
    (forall a, l !! Z.to_nat j = Some a -> str_le name a).
Proof.
  intros Hd. revert i. induction rem as [|rem IH]; intros i Hr Hi Hb; simpl.
  - exists i. split; [done|]. split; [lia|]. split; [done|]. intros a Ha.
    apply lookup_lt_Some in Ha. pose proof (dt_room d l Hd). lia.
  - rewrite (dt_nb d l Hd). destruct (Z.ltb_spec i (Z.of_nat (length l))).
    2:{ exists i. split; [done|]. split; [lia|]. split; [done|]. intros a Ha.
        apply lookup_lt_Some in Ha. lia. }
    destruct (file_at_table d l i Hd) as (f & Hf & ->); [lia|]. simpl.
    destruct (strcmp f name) eqn:E.
    + exists i. split; [done|]. split; [lia|]. split; [done|]. intros a Ha.
      simplify_eq. apply strcmp_eq in E as ->. reflexivity.
    + destruct (IH (i + 1)) as (j & Ej & ? & ?); [lia|lia| |eauto with lia].
      intros k a Hk Ha. destruct (Z.eq_dec (Z.of_nat k) i) as [Ek|].
      * assert (Z.to_nat i = k) as Ek' by lia. rewrite Ek' in Hf. by simplify_eq.
      * apply (Hb k a); [lia | done].
    + exists i. split; [done|]. split; [lia|]. split; [done|]. intros a Ha.
      simplify_eq. apply lt_le. by apply strcmp_gt.
Qed.

Lemma buf_get_nat {A} (b : list A) (i : nat) :
  buf_get b (Z.of_nat i) = b !! i.
Proof.
  unfold buf_get, in_block. rewrite Nat2Z.id.
  destruct (Z.leb_spec 0 (Z.of_nat i)); [|lia].
  destruct (Z.ltb_spec (Z.of_nat i) (Z.of_nat (length b))); [done|].
  symmetry. apply lookup_ge_None_2. lia.
Qed.
Lemma buf_set_nat {A} (b : list A) (i : nat) v :
  (i < length b)%nat -> buf_set b (Z.of_nat i) v = Some (<[i := v]> b).
Proof. intros. rewrite buf_set_Some by lia. by rewrite Nat2Z.id. Qed.

Lemma shift_files_spec k (i : nat) files :
  (i + k < length files)%nat ->
  exists files', shift_files k (Z.of_nat i) files = Some files' /\
    length files' = length files /\
    forall p, files' !! p =
      if decide (i < p <= i + k)%nat then files !! (p - 1)%nat else files !! p.
Proof.
  revert files. induction k as [|k IH]; intros files Hl; cbn [shift_files].
  - exists files. split; [done|]. split; [done|]. intros p.
    by rewrite decide_False by lia.
  - replace (Z.of_nat i + Z.of_nat (Datatypes.S k) - 1) with (Z.of_nat (i + k)) by lia.
    replace (Z.of_nat i + Z.of_nat (Datatypes.S k)) with (Z.of_nat (i + Datatypes.S k)) by lia.
    rewrite buf_get_nat. destruct (lookup_lt_is_Some_2 files (i + k)) as [v Hv]; [lia|].
    rewrite Hv. cbn [mbind option_bind]. rewrite buf_set_nat by lia.
    cbn [mbind option_bind].
    destruct (IH (<[(i + Datatypes.S k)%nat := v]> files)) as (files' & -> & Hl' & Hp).
    { rewrite length_insert. lia. }
    exists files'. split; [done|]. split; [by rewrite Hl', length_insert|].
    intros p. rewrite Hp. destruct (decide (p = i + Datatypes.S k)%nat) as [->|Hne].
    + rewrite decide_False by lia. rewrite decide_True by lia.
      rewrite list_lookup_insert_eq by lia.
      by replace (i + Datatypes.S k - 1)%nat with (i + k)%nat by lia.
    + destruct (decide (i < p <= i + k)%nat).
      * rewrite decide_True by lia. by rewrite list_lookup_insert_ne by lia.
      * rewrite decide_False by lia. by rewrite list_lookup_insert_ne by lia.
Qed.

Definition inserted (l : list string) (i : nat) (name : string) : list string :=
  take i l ++ name :: drop i l.

Lemma lookup_inserted l i name p :
  (i <= length l)%nat ->
  inserted l i name !! p =
    if decide (p < i)%nat then l !! p
    else if decide (p = i) then Some name else l !! (p - 1)%nat.
Proof.
  intros Hi. unfold inserted. rewrite lookup_app.
  destruct (decide (p < i)%nat) as [Hp|Hp].
  - rewrite lookup_take_lt by lia.
    by destruct (lookup_lt_is_Some_2 l p) as [a ->]; [lia|].
  - rewrite lookup_take_ge by lia. rewrite length_take, Nat.min_l by lia.
    destruct (decide (p = i)) as [->|].
    + by rewrite Nat.sub_diag.
    + replace (p - i)%nat with (Datatypes.S (p - i - 1)) by lia. simpl.
      rewrite lookup_drop. f_equal. lia.
Qed.

Lemma sorted_inserted l i name :
  sorted l -> (i <= length l)%nat -> below l (Z.of_nat i) name ->
  (forall a, l !! i = Some a -> str_le name a) -> sorted (inserted l i name).
Proof.
  intros Hs Hi Hb Ha p q a b Hpq. rewrite !lookup_inserted by done.
  assert (Hhigh : forall k b, (i <= k)%nat -> l !! k = Some b -> str_le name b).
  { intros k b' Hk Hk'. destruct (lookup_lt_is_Some_2 l i) as [c Hc].
    { apply lookup_lt_Some in Hk'. lia. }
    transitivity c; [by apply Ha | by eapply Hs]. }
  assert (Hlow : forall k b, (k < i)%nat -> l !! k = Some b -> str_le b name).
  { intros k b' Hk Hk'. apply lt_le. by apply (Hb k b'); [lia|]. }
  destruct (decide (p < i)%nat), (decide (q < i)%nat); try lia.
  - intros. by eapply (Hs p q).
  - destruct (decide (q = i)) as [->|].
    + intros ? [= <-]. by eapply Hlow.
    + intros. transitivity name; [by eapply Hlow | eapply (Hhigh (q - 1)%nat); [lia|done]].
  - destruct (decide (p = i)) as [->|], (decide (q = i)) as [->|]; try lia.
    + intros [= <-] [= <-]. reflexivity.
    + intros [= <-] ?. eapply (Hhigh (q - 1)%nat); [lia|done].
    + intros. by eapply (Hs (p - 1)%nat (q - 1)%nat); [lia|..].
Qed.

Lemma inserted_perm l i name : inserted l i name ≡ₚ name :: l.
Proof.
  unfold inserted. rewrite <- Permutation_middle. by rewrite take_drop.
Qed.

(** ** Search *)

(** An entry equal to [name] can only be between the bounds. *)
Definition window (l : list string) (name : string) (from to : Z) : Prop :=
  forall k, l !! k = Some name -> from <= Z.of_nat k <= to.

(** What the loop leaves for the final test: a match, or bounds that enclose
    every match, with at most one entry between them. *)
Lemma search_loop_spec fuel d l name from to :
  debug_table d l -> 0 <= from -> to < Z.of_nat (length l) ->
  from <= to + 2 -> to - from + 1 < Z.of_nat fuel -> (0 < fuel)%nat ->
  window l name from to ->
  exists r, search_loop fuel (debugged_files d) name from to = Some r /\
    match r with
    | inl _ => name ∈ l
    | inr (from, to) => 0 <= from /\ to < Z.of_nat (length l) /\ to <= from /\
                        window l name from to
    end.
Proof.
  intros Hd. revert from to.
  induction fuel as [|fuel IH]; intros from to Hf Ht Hft Hfuel H0 Hw; [lia|].
  cbn [search_loop]. destruct (Z.ltb_spec from to); [|by eexists].
  set (middle := Z.quot (from + to) 2).
  assert (from <= middle < to) as Hm.
  { unfold middle. rewrite Z.quot_div_nonneg by lia.
    pose proof (Z.div_mod (from + to) 2 ltac:(lia)).
    pose proof (Z.mod_pos_bound (from + to) 2 ltac:(lia)). lia. }
  destruct (file_at_table d l middle Hd) as (f & Hl & ->); [lia|].
  cbn [mbind option_bind].
  assert (forall k, l !! k = Some name -> (Z.of_nat k <= middle -> str_le name f) /\
                    (middle <= Z.of_nat k -> str_le f name)) as Hord.
  { intros k Hk. split; intros.
    - apply (dt_sorted d l Hd k (Z.to_nat middle)); [lia | done..].
    - apply (dt_sorted d l Hd (Z.to_nat middle) k); [lia | done..]. }
  destruct (strcmp f name) eqn:E.
  - eexists. split; [done|]. apply strcmp_eq in E as ->. by eapply list_elem_of_lookup_2.
  - apply IH; [lia..|]. intros k Hk. pose proof (Hw k Hk). split; [|lia].
    destruct (Z.lt_ge_cases middle (Z.of_nat k)); [lia|].
    destruct (Hord k Hk) as [Hle _]. exfalso. apply Hle; [lia|]. by apply strcmp_gt.
  - apply IH; [lia..|]. intros k Hk. pose proof (Hw k Hk). split; [lia|].
    destruct (Z.lt_ge_cases (Z.of_nat k) middle); [lia|].
    destruct (Hord k Hk) as [_ Hle]. exfalso. by apply Hle.
Qed.

(** ** Properties *)

(** Adding a file to a table with room succeeds, keeps the table sorted
    and adds exactly this file. *)
Lemma add_debug_to_sorted d l name :
  debug_table d l -> (length l < 64)%nat ->
  exists d' l', add_debug_to name d = Some d' /\ debug_table d' l' /\
    l' ≡ₚ name :: l.
Proof.
  intros Hd Hl. pose proof (dt_length d l Hd) as Hlen.
  destruct (find_slot_spec 64 d l name 0) as (j & Ej & Hj & Hb & Ha);
    [done | lia | lia | intros k a ?; lia|].
  unfold add_debug_to. rewrite Ej. cbn [mbind option_bind].
  destruct (Z.geb_spec j MAX_FILES_NUMBER) as [|_]; [unfold MAX_FILES_NUMBER in *; lia|].
  set (i := Z.to_nat j) in *. replace j with (Z.of_nat i) in * by lia.
  rewrite (dt_nb d l Hd).
  replace (Z.to_nat (Z.of_nat (length l) - Z.of_nat i)) with (length l - i)%nat by lia.
  destruct (shift_files_spec (length l - i) i (debugged_files d)) as (fs & -> & Hfl & Hp);
    [lia|]. cbn [mbind option_bind]. rewrite buf_set_nat by lia. cbn [mbind option_bind].
  eexists _, (inserted l i name). split; [done|]. split; [|apply inserted_perm].
  assert (length (inserted l i name) = Datatypes.S (length l)) as Hil
    by (by rewrite (Permutation_length (inserted_perm l i name))).
  split; cbn [debugged_files nb_debugged_files].
  - by rewrite length_insert, Hfl.
  - rewrite Hil. lia.
  - rewrite Hil. lia.
  - intros p Hpl. rewrite Hil in Hpl. rewrite lookup_inserted by lia.
    destruct (decide (p = i)) as [->|Hne].
    + rewrite list_lookup_insert_eq by lia. by rewrite decide_False by lia.
    + rewrite list_lookup_insert_ne by done. rewrite Hp.
      destruct (decide (p < i)%nat).
      * rewrite decide_False by lia. apply (dt_files d l Hd). lia.
      * rewrite decide_True by lia. apply (dt_files d l Hd). lia.
  - apply sorted_inserted; [apply Hd | lia | done | exact Ha].
Qed.

Lemma is_debugged_table d l name :
  debug_table d l ->
  is_debugged name d = Some (c_bool (bool_decide (name ∈ l))).
Proof.
  intros Hd. unfold is_debugged. rewrite (dt_nb d l Hd).
  pose proof (dt_room d l Hd).
  destruct (search_loop_spec 65 d l name 0 (Z.of_nat (length l) - 1))
    as (r & -> & Hr); [done | lia.. | |].
  { intros k Hk. apply lookup_lt_Some in Hk. lia. }
  cbn [mbind option_bind]. destruct r as [[]|[from to]].
  { by rewrite bool_decide_true. }
  destruct Hr as (Hf & Ht & Hft & Hw). destruct (Z.eqb_spec from to) as [<-|Hne].
  - destruct (file_at_table d l from Hd) as (f & Hl & ->); [lia|].
    cbn [mbind option_bind]. destruct (strcmp f name) eqn:E.
    { apply strcmp_eq in E as ->. rewrite bool_decide_true; [done|].
      by eapply list_elem_of_lookup_2. }
    all: rewrite bool_decide_false; [done|].
    all: intros (k & Hk)%list_elem_of_lookup; pose proof (Hw k Hk).
    all: assert (Z.to_nat from = k) as Ek by lia.
    all: rewrite Ek, Hk in Hl; simplify_eq; by rewrite strcmp_refl in E.
  - rewrite bool_decide_false; [done|].
    intros (k & Hk)%list_elem_of_lookup. pose proof (Hw k Hk). lia.
Qed.

(** [__is_debugged] finds exactly the files of the table: the binary
    search ends, never reads outside of the entries and answers 1 when the
    name is one of them, 0 otherwise. *)
Lemma is_debugged_spec d l name :
  debug_table d l ->
  is_debugged name d = Some (c_bool (bool_decide (name ∈ l))).
Proof. apply is_debugged_table. Qed.

(** A full table: a file above all the entries is dropped silently; any
    other one makes the second loop write one pointer past the array. *)
Lemma add_debug_to_full d l name :
  debug_table d l -> length l = 64%nat ->
  ((forall a, a ∈ l -> strcmp a name = Lt) -> add_debug_to name d = Some d) /\
  ((exists a, a ∈ l /\ str_le name a) -> add_debug_to name d = None).
Proof.
  intros Hd Hl. pose proof (dt_length d l Hd) as Hlen.
  destruct (find_slot_spec 64 d l name 0) as (j & Ej & Hj & Hb & Ha);
    [done | lia | lia | intros k a ?; lia|].
  unfold add_debug_to. rewrite Ej. cbn [mbind option_bind].
  unfold MAX_FILES_NUMBER. split.
  - intros Hall. destruct (Z.geb_spec j 64); [done|].
    destruct (lookup_lt_is_Some_2 l (Z.to_nat j)) as [a Hja]; [lia|].
    exfalso. apply (Ha a Hja). apply strcmp_gt, Hall. by eapply list_elem_of_lookup_2.
  - intros (a & (k & Hk)%list_elem_of_lookup & Hle).
    assert (j <= Z.of_nat k) as Hjk.
    { destruct (Z.lt_ge_cases (Z.of_nat k) j); [|lia].
      pose proof (Hb k a ltac:(lia) Hk). exfalso. apply Hle. by apply strcmp_gt. }
    apply lookup_lt_Some in Hk. destruct (Z.geb_spec j 64); [lia|].
    rewrite (dt_nb d l Hd), Hl.
    destruct (Z.to_nat (Z.of_nat 64 - j)) as [|m] eqn:Em; [lia|]. cbn [shift_files].
    replace (j + Z.of_nat (Datatypes.S m)) with 64 by lia.
    destruct (buf_get _ _) as [v|]; [|done]. cbn [mbind option_bind].
    by rewrite buf_set_None by lia.
Qed.

Definition debug_example (n : nat) : debug_data := {|
  debugged_files := replicate n (Some "b.c"%string) ++ replicate (64 - n) None;
  nb_debugged_files := Z.of_nat n
|}.

Lemma debug_example_table n :
  (n <= 64)%nat -> debug_table (debug_example n) (replicate n "b.c"%string).
Proof.
  intros Hn. split; unfold debug_example; cbn [debugged_files nb_debugged_files].
  - rewrite length_app, !length_replicate. lia.
  - by rewrite length_replicate.
  - by rewrite length_replicate.
  - intros i Hi. rewrite length_replicate in Hi.
    rewrite lookup_app_l by (by rewrite length_replicate).
    by rewrite !lookup_replicate_2 by done.
  - intros i j a b _ [-> _]%lookup_replicate [-> _]%lookup_replicate. reflexivity.
Qed.

Lemma add_debug_to_sorted_witness :
  exists d' l', add_debug_to "a.c" (debug_example 3) = Some d' /\
    debug_table d' l' /\ l' ≡ₚ "a.c"%string :: replicate 3 "b.c"%string.
Proof.
  apply (add_debug_to_sorted (debug_example 3) (replicate 3 "b.c"%string) "a.c").
  - apply debug_example_table. lia.
  - simpl. lia.
Defined.

Lemma is_debugged_spec_witness : is_debugged "b.c" (debug_example 5) = Some 1.
Proof.
  rewrite (is_debugged_spec (debug_example 5) (replicate 5 "b.c"%string) "b.c").
  - rewrite bool_decide_true; [reflexivity|]. simpl. left.
  - apply debug_example_table. lia.
Defined.

Lemma add_debug_to_full_witness : add_debug_to "a.c" (debug_example 64) = None.
Proof.
  destruct (add_debug_to_full (debug_example 64) (replicate 64 "b.c"%string) "a.c")
    as [_ H].
  - apply debug_example_table. lia.
  - apply length_replicate.
  - apply H. exists "b.c"%string. split; [left | discriminate].
Defined.
