(* ===== verification/Constants.v ===== *)
(** * arm_constants.h and arm_constants.c: modes, exceptions and their names *)
From S2P Require Import Prelude.

Definition USR : Z := 0x10.
Definition FIQ : Z := 0x11.
Definition IRQ : Z := 0x12.
Definition SVC : Z := 0x13.
Definition ABT : Z := 0x17.
Definition UND : Z := 0x1b.
Definition SYS : Z := 0x1f.

Definition RESET : Z := 1.
Definition UNDEFINED_INSTRUCTION : Z := 2.
Definition SOFTWARE_INTERRUPT : Z := 3.
Definition PREFETCH_ABORT : Z := 4.
Definition DATA_ABORT : Z := 5.
Definition INTERRUPT : Z := 6.
Definition FAST_INTERRUPT : Z := 7.

(** The flag bits N, Z, C and V of the CPSR. *)
Definition bit_N : Z := 31.
Definition bit_Z : Z := 30.
Definition bit_C : Z := 29.
Definition bit_V : Z := 28.

Definition arm_mode_names : list (option string) :=
  [None; None; None; None; None; None; None; None; None; None; None; None; None;
   None; None; None; Some "USR"; Some "FIQ"; Some "IRQ"; Some "SVC";
   None; None; None; Some "ABT"; None; None; None; Some "UND"; None; None; None;
   Some "SYS"]%string.

Definition arm_register_names : list string :=
  ["R00"; "R01"; "R02"; "R03"; "R04"; "R05"; "R06"; "R07"; "R08"; "R09"; "R10";
   "R11"; "R12"; "SP"; "LR"; "PC"; "CPSR"; "SPSR"]%string.

Definition arm_exception_names : list (option string) :=
  [None; Some "reset"; Some "undefined instruction"; Some "software interrupt";
   Some "prefetch abort"; Some "data abort"; Some "interrupt";
   Some "fast interrupt"]%string.

(** The outer [None] is an index outside of the table, the inner one NULL. *)
Definition arm_get_exception_name (exception : Z) : option (option string) :=
  if exception <? 8 then buf_get arm_exception_names exception else Some None.
Definition arm_get_mode_name (mode : Z) : option (option string) :=
  buf_get arm_mode_names mode.
Definition arm_get_register_name (reg : Z) : option string :=
  buf_get arm_register_names reg.

(** Membership in a range of integers, by listing it. *)
Lemma range_cases (P : Z -> Prop) (n : nat) :
  Forall P (Z.of_nat <$> seq 0 n) -> forall i, 0 <= i < Z.of_nat n -> P i.
Proof.
  intros H i Hi. rewrite Forall_fmap, Forall_seq in H.
  specialize (H (Z.to_nat i)). simpl in H. rewrite Z2Nat.id in H by lia.
  apply H. lia.
Qed.

(** Every index below 32 has a mode name or NULL, and a name has three
    characters, so that it fits with its ["_"] in the [mode_name[5]] buffer of
    trace_register. *)
Lemma mode_name_fits mode :
  0 <= mode < 32 ->
  exists o, arm_get_mode_name mode = Some o /\
    match o with Some s => String.length s = 3%nat | None => True end.
Proof.
  revert mode. apply (range_cases _ 32). cbn.
  repeat apply Forall_cons_2; try apply Forall_nil_2; eexists; by split.
Qed.

Lemma register_name_ok reg : 0 <= reg < 18 -> is_Some (arm_get_register_name reg).
Proof. intros. by apply buf_get_Some. Qed.
