(* ===== verification/Registers.v ===== *)
(** * registers.c: the register file

    The C struct holds one block of 18 words: r0 to r15, the CPSR at index 16
    and the SPSR at index 17.  There is one bank: no mode has registers of its
    own.  [None] is an access outside of the block. *)
From S2P Require Import Prelude Util Constants.

Record registers_data := { r_data : list Z }.

(** [registers_create]: [struct_ok] tells whether the first malloc succeeded,
    [block] what the second returned; neither is tested. *)
Definition registers_create (struct_ok : bool) (block : option (list Z))
    : option registers_data :=
  if struct_ok then Some {| r_data := default [] block |} else None.

Definition get_mode (r : registers_data) : option Z :=
  v ← buf_get (r_data r) 16; Some (u8 (Z.land v 0x1F)).

Definition current_mode_has_spsr (r : registers_data) : option Z :=
  mode ← get_mode r;
  if (mode =? USR) || (mode =? SYS) then Some 0 else Some 1.

Definition in_a_privileged_mode (r : registers_data) : option Z :=
  mode ← get_mode r; Some (c_bool (negb (mode =? USR))).

Definition read_register (r : registers_data) (reg : Z) : option Z :=
  buf_get (r_data r) reg.

Definition read_usr_register (r : registers_data) (reg : Z) : option Z :=
  p ← in_a_privileged_mode r;
  if c_true (c_not p) then buf_get (r_data r) reg else Some 0.

Definition read_cpsr (r : registers_data) : option Z := buf_get (r_data r) 16.

Definition read_spsr (r : registers_data) : option Z :=
  b ← current_mode_has_spsr r;
  if c_true b then buf_get (r_data r) 17 else Some 0.

Definition store_register (r : registers_data) (i value : Z)
    : option registers_data :=
  b ← buf_set (r_data r) i value; Some {| r_data := b |}.

Definition write_register (r : registers_data) (reg value : Z)
    : option registers_data := store_register r reg value.

Definition write_usr_register (r : registers_data) (reg value : Z)
    : option registers_data :=
  p ← in_a_privileged_mode r;
  if c_true (c_not p) then store_register r reg value else Some r.

Definition write_cpsr (r : registers_data) (value : Z) : option registers_data :=
  store_register r 16 value.

Definition write_spsr (r : registers_data) (value : Z) : option registers_data :=
  b ← current_mode_has_spsr r;
  if c_true b then store_register r 17 value else Some r.

(** A register file whose two mallocs succeeded: 18 words. *)
Record regs_wf (r : registers_data) : Prop := {
  regs_wf_length : length (r_data r) = 18%nat;
  regs_wf_words : Forall is_u32 (r_data r)
}.

(** ** Lemmas *)

(** The content of a register, 0 outside of the file. *)
Definition reg_value (r : registers_data) (i : Z) : Z :=
  default 0 (buf_get (r_data r) i).

Lemma reg_get r i :
  length (r_data r) = 18%nat -> 0 <= i < 18 ->
  buf_get (r_data r) i = Some (reg_value r i).
Proof.
  intros Hr Hi. unfold reg_value.
  destruct (proj2 (buf_get_Some (r_data r) i)) as [v ->]; [by rewrite Hr|done].
Qed.

Lemma reg_value_u32 r i : regs_wf r -> is_u32 (reg_value r i).
Proof.
  intros [_ Hw]. unfold reg_value. destruct (buf_get _ _) eqn:E; simpl.
  - by apply (buf_get_Forall is_u32 (r_data r) i).
  - by split.
Qed.

(** The mode field of a CPSR. *)
Definition mode_of (cpsr : Z) : Z := Z.land cpsr 0x1F.

Lemma mode_of_range cpsr : 0 <= mode_of cpsr < 32.
Proof.
  unfold mode_of. change 0x1F with (Z.ones 5). rewrite Z.land_ones by lia.
  by apply Z.mod_pos_bound.
Qed.

Lemma get_mode_spec r :
  length (r_data r) = 18%nat -> get_mode r = Some (mode_of (reg_value r 16)).
Proof.
  intros Hr. unfold get_mode. rewrite reg_get by (done || lia). simpl.
  rewrite u8_small; [done|]. pose proof (mode_of_range (reg_value r 16)).
  unfold is_u8, mode_of in *. lia.
Qed.

Lemma store_register_spec r i v :
  length (r_data r) = 18%nat -> 0 <= i < 18 ->
  exists r', store_register r i v = Some r' /\ length (r_data r') = 18%nat /\
    (forall j, reg_value r' j = if j =? i then v else reg_value r j) /\
    (regs_wf r -> is_u32 v -> regs_wf r').
Proof.
  intros Hr Hi. unfold store_register.
  assert (E : buf_set (r_data r) i v = Some (<[Z.to_nat i := v]> (r_data r)))
    by (apply buf_set_Some; rewrite Hr; lia).
  rewrite E. simpl. eexists. split; [done|]. simpl.
  pose proof (buf_set_length _ _ _ _ E) as Hl. split; [lia|]. split.
  - intros j. unfold reg_value. simpl. destruct (Z.eqb_spec j i) as [->|].
    + by rewrite (buf_get_set_eq _ _ _ _ E).
    + by rewrite (buf_get_set_ne _ _ _ _ _ E).
  - intros [_ Hw] Hv. split; simpl; [lia|].
    by apply (buf_set_Forall is_u32 _ _ _ _ Hw Hv E).
Qed.

(** ** Properties *)

(** The guards of the register file: a mode has an SPSR unless it is USR
    or SYS, and is privileged unless it is USR.  The SPSR and the user view
    read and write their register exactly when the guard allows it; otherwise
    they read 0 and write nothing. *)
Lemma register_guards r i v :
  regs_wf r -> 0 <= i < 18 ->
  let mode := mode_of (reg_value r 16) in
  current_mode_has_spsr r =
    Some (c_bool (negb ((mode =? 0x10) || (mode =? 0x1F)))) /\
  in_a_privileged_mode r = Some (c_bool (negb (mode =? 0x10))) /\
  read_spsr r = Some (if (mode =? 0x10) || (mode =? 0x1F) then 0
                      else reg_value r 17) /\
  read_usr_register r i =
    Some (if mode =? 0x10 then reg_value r i else 0) /\
  write_spsr r v = (if (mode =? 0x10) || (mode =? 0x1F) then Some r
                    else write_register r 17 v) /\
  write_usr_register r i v = (if mode =? 0x10 then write_register r i v
                              else Some r).
Proof.
  intros [Hr Hw] Hi mode.
  unfold read_spsr, read_usr_register, write_spsr, write_usr_register,
    current_mode_has_spsr, in_a_privileged_mode, write_register.
  rewrite get_mode_spec by done. fold mode. simpl.
  change USR with 0x10. change SYS with 0x1F.
  destruct (mode =? 16), (mode =? 31); simpl;
    rewrite ?(reg_get r) by (done || lia); done.
Qed.

(** The register file is an array of 18 words: a write succeeds, is what
    the next read of that register gives, leaves the 17 others alone and
    keeps the file well formed; registers from 18 on are not in the block. *)
Lemma register_read_write r i v :
  regs_wf r -> is_u32 v ->
  (0 <= i < 18 -> exists r', write_register r i v = Some r' /\ regs_wf r' /\
     read_register r' i = Some v /\
     forall j, j <> i -> read_register r' j = read_register r j) /\
  (18 <= i -> write_register r i v = None /\ read_register r i = None).
Proof.
  intros Hr Hv. split; intros Hi.
  - destruct (store_register_spec r i v) as (r' & E & Hl & Hget & Hwf);
      [apply Hr | done |].
    exists r'. split; [done|]. split; [auto|].
    unfold store_register in E.
    destruct (buf_set (r_data r) i v) as [b|] eqn:Eb; simplify_eq/=.
    split; [by apply buf_get_set_eq in Eb|].
    intros j Hj. by eapply buf_get_set_ne.
  - unfold write_register, store_register, read_register.
    rewrite buf_set_None, buf_get_None by (rewrite (regs_wf_length r Hr); lia).
    done.
Qed.

Definition regs_example (cpsr : Z) : registers_data :=
  {| r_data := replicate 16 7 ++ [cpsr; 9] |}.

Lemma regs_example_wf cpsr : is_u32 cpsr -> regs_wf (regs_example cpsr).
Proof.
  intros. split; [done|]. simpl.
  repeat apply Forall_cons_2; try apply Forall_nil_2; first [assumption | by split].
Defined.

Lemma register_guards_witness :
  read_spsr (regs_example 0x10) = Some 0 /\
  read_spsr (regs_example 0x13) = Some 9.
Proof.
  split.
  - destruct (register_guards (regs_example 0x10) 3 0) as (_ & _ & E & _);
      [apply regs_example_wf; split; [lia | reflexivity] | lia | exact E].
  - destruct (register_guards (regs_example 0x13) 3 0) as (_ & _ & E & _);
      [apply regs_example_wf; split; [lia | reflexivity] | lia | exact E].
Defined.

Lemma register_read_write_witness :
  exists r', write_register (regs_example 0x10) 5 10 = Some r' /\ regs_wf r' /\
    read_register r' 5 = Some 10 /\
    forall j, j <> 5 -> read_register r' j = read_register (regs_example 0x10) j.
Proof.
  apply (register_read_write (regs_example 0x10) 5 10);
    [apply regs_example_wf; split; [lia | reflexivity]
    | split; [lia | reflexivity] | lia].
Defined.
