(* ===== verification/Trace.v ===== *)
(** * trace.c: the trace, and the state of the simulator

    [sim] is everything the simulator's code reads and writes: the processor
    of arm_core.c (with its registers and memory), the static variables of
    trace.c and the text printed so far, newest first. *)
From S2P Require Import Prelude Util Constants Memory Registers.

(** struct arm_core_data *)
Record arm_core_data := {
  cycle_count : Z;
  reg : registers_data;
  mem : memory_data
}.

(** The static variables of trace.c ([output] is the trace stream itself). *)
Record trace_data := {
  last_address : Z;
  enabled : Z;
  location_file_stack : list string;
  location_line_stack : list Z;
  location_stack_top : Z;
  trace_flags : Z
}.

(** What the program prints: to the trace file, or to standard output. *)
Inductive event :=
  | TraceOut (s : string)
  | StdOut (s : string).

Definition newline : string := String (Ascii.ascii_of_nat 10) EmptyString.

Record sim := {
  s_arm : arm_core_data;
  s_trace : trace_data;
  s_log : list event
}.

Abbreviation Sim := (ST sim).

Definition put_arm (p : arm_core_data) : Sim unit := fun s =>
  Ok () {| s_arm := p; s_trace := s_trace s; s_log := s_log s |}.
Definition put_trace (t : trace_data) : Sim unit := fun s =>
  Ok () {| s_arm := s_arm s; s_trace := t; s_log := s_log s |}.
Definition emit (e : event) : Sim unit := fun s =>
  Ok () {| s_arm := s_arm s; s_trace := s_trace s; s_log := e :: s_log s |}.
Definition get_arm : Sim arm_core_data := s ← get_state; mret (s_arm s).
Definition get_trace : Sim trace_data := s ← get_state; mret (s_trace s).

(** trace.h *)
Definition CPSR : Z := 16.
Definition SPSR : Z := 17.
Definition OTHER_ACCESS : Z := 0.
Definition OPCODE_FETCH : Z := 1.
Definition WRITE : Z := 0.
Definition READ : Z := 1.
Definition MEMORY : Z := 1.
Definition REGISTERS : Z := 2.
Definition STATE : Z := 4.
Definition POSITION : Z := 8.

(** The tables of the default format (ARM_TRACE_FORMAT is not defined). *)
Definition trace_memory_seq : list string := [""; ""]%string.
Definition trace_memory_cause : list string := [""; ", fetch"]%string.
Definition trace_memory_type : list string := ["write"; "read"]%string.
Definition trace_register_type : list string := ["write"; "read"]%string.

(** The initial values of the static variables. *)
Definition trace_init : trace_data := {|
  last_address := 0x12345678;
  enabled := 1;
  location_file_stack := replicate 128 EmptyString;
  location_line_stack := replicate 128 0;
  location_stack_top := -1;
  trace_flags := 0
|}.

Definition with_last_address (a : Z) (t : trace_data) : trace_data := {|
  last_address := a; enabled := enabled t;
  location_file_stack := location_file_stack t;
  location_line_stack := location_line_stack t;
  location_stack_top := location_stack_top t; trace_flags := trace_flags t |}.
Definition with_enabled (e : Z) (t : trace_data) : trace_data := {|
  last_address := last_address t; enabled := e;
  location_file_stack := location_file_stack t;
  location_line_stack := location_line_stack t;
  location_stack_top := location_stack_top t; trace_flags := trace_flags t |}.
Definition with_flags (f : Z) (t : trace_data) : trace_data := {|
  last_address := last_address t; enabled := enabled t;
  location_file_stack := location_file_stack t;
  location_line_stack := location_line_stack t;
  location_stack_top := location_stack_top t; trace_flags := f |}.
Definition with_locations (fs : list string) (ls : list Z) (top : Z)
    (t : trace_data) : trace_data := {|
  last_address := last_address t; enabled := enabled t;
  location_file_stack := fs; location_line_stack := ls;
  location_stack_top := top; trace_flags := trace_flags t |}.

Definition trace_start_location (file : string) (line : Z) : Sim unit :=
  t ← get_trace;
  if c_true (enabled t) then
    let top := location_stack_top t + 1 in
    fs ← of_option (buf_set (location_file_stack t) top file);
    ls ← of_option (buf_set (location_line_stack t) top line);
    put_trace (with_locations fs ls top t)
  else mret ().

Definition trace_end_location : Sim Z :=
  t ← get_trace;
  (if c_true (enabled t) then
     put_trace (with_locations (location_file_stack t) (location_line_stack t)
                  (location_stack_top t - 1) t)
   else mret ());;
  mret 0.

(** The text [trace_print_location] puts in front of a line. *)
Definition trace_print_location : Sim string :=
  t ← get_trace;
  if c_true (enabled t) && c_true (Z.land (trace_flags t) POSITION) then
    if location_stack_top t >=? 0 then
      f ← of_option (buf_get (location_file_stack t) (location_stack_top t));
      l ← of_option (buf_get (location_line_stack t) (location_stack_top t));
      mret (f +:+ ", " +:+ fmt_d l +:+ ": ")%string
    else mret ""%string
  else mret ""%string.

Definition trace_memory (cycle type size cause address value : Z) : Sim unit :=
  t ← get_trace;
  if c_true (enabled t) && c_true (Z.land (trace_flags t) MEMORY) then
    let seq := c_bool (address =? u32 (last_address t + 4)) in
    put_trace (with_last_address address t);;
    loc ← trace_print_location;
    sq ← of_option (buf_get trace_memory_seq seq);
    ty ← of_option (buf_get trace_memory_type type);
    ca ← of_option (buf_get trace_memory_cause cause);
    emit (TraceOut (loc +:+ "Cycle " +:+ fmt_d (s32 cycle) +:+ ", Mem " +:+ sq
      +:+ ty +:+ " (" +:+ fmt_d size +:+ " bytes" +:+ ca +:+ ") addr: "
      +:+ fmt_08X address +:+ ", val: " +:+ fmt_08X value
      +:+ newline)%string)
  else mret ().

Definition trace_register (cycle type reg mode value : Z) : Sim unit :=
  t ← get_trace;
  if c_true (enabled t) && c_true (Z.land (trace_flags t) REGISTERS) then
    name ← of_option (arm_get_mode_name mode);
    let mode_name := (match name with Some n => "_" +:+ n | None => "" end)%string in
    loc ← trace_print_location;
    ty ← of_option (buf_get trace_register_type type);
    rn ← of_option (arm_get_register_name reg);
    emit (TraceOut (loc +:+ "Cycle " +:+ fmt_d (s32 cycle) +:+ ", Register "
      +:+ ty +:+ ", " +:+ rn +:+ mode_name +:+ ", val: "
      +:+ fmt_08X value
      +:+ newline)%string)
  else mret ().

Definition trace_disable : Sim unit :=
  t ← get_trace; put_trace (with_enabled 0 t).
Definition trace_enable : Sim unit :=
  t ← get_trace; put_trace (with_enabled 1 t).
Definition trace_add (flags : Z) : Sim unit :=
  t ← get_trace; put_trace (with_flags (Z.lor (trace_flags t) flags) t).

(** The macros of trace_location.h: [LOCATION], the call, [END_LOCATION]
    (whose 0 is added to the result of a call that returns one). *)
Definition located {A} (file : string) (line : Z) (m : Sim A) : Sim A :=
  trace_start_location file line;;
  a ← m;
  trace_end_location;;
  mret a.
