(* ===== verification/Core.v ===== *)
(** * arm_core.c and arm_exception.c: the processor state and its interface

    The instruction code reaches the processor only through arm_core.h.  That
    header is the class [ArmCore]: the operations a monad [M] has to offer.
    There are two instances: [sim_core], the C functions with their trace
    output, and [arch_core], the same operations on the registers and the
    memory alone.  [Refines] relates a computation of the first kind to one of
    the second; its instances for the monad and for every operation make the
    whole instruction set of [Instruction] refine its trace-free reading. *)
From S2P Require Import Prelude Util Constants Memory Registers Trace.

Definition with_cycle (c : Z) (p : arm_core_data) : arm_core_data :=
  {| cycle_count := c; reg := reg p; mem := mem p |}.
Definition with_reg (r : registers_data) (p : arm_core_data) : arm_core_data :=
  {| cycle_count := cycle_count p; reg := r; mem := mem p |}.
Definition with_mem (m : memory_data) (p : arm_core_data) : arm_core_data :=
  {| cycle_count := cycle_count p; reg := reg p; mem := m |}.

(** ** arm_core.c *)

(** The adjustment both register readers make to the program counter. *)
Definition pc_view (reg value : Z) : Z :=
  if reg =? 15 then Z.land (u32 (value + 4)) 0xFFFFFFFD else value.

Definition arm_current_mode_has_spsr : Sim Z :=
  p ← get_arm; of_option (current_mode_has_spsr (reg p)).

Definition arm_in_a_privileged_mode : Sim Z :=
  p ← get_arm; of_option (in_a_privileged_mode (reg p)).

Definition arm_get_cycle_count : Sim Z := p ← get_arm; mret (cycle_count p).

Definition arm_read_register (r : Z) : Sim Z :=
  let r := u8 r in
  p ← get_arm;
  value ← of_option (read_register (reg p) r);
  let value := pc_view r value in
  mode ← of_option (get_mode (reg p));
  trace_register (cycle_count p) READ r mode value;;
  mret value.

Definition arm_read_usr_register (r : Z) : Sim Z :=
  let r := u8 r in
  p ← get_arm;
  value ← of_option (read_usr_register (reg p) r);
  let value := pc_view r value in
  trace_register (cycle_count p) READ r USR value;;
  mret value.

Definition arm_read_cpsr : Sim Z :=
  p ← get_arm;
  value ← of_option (read_cpsr (reg p));
  trace_register (cycle_count p) READ CPSR 0 value;;
  mret value.

Definition arm_read_spsr : Sim Z :=
  p ← get_arm;
  value ← of_option (read_spsr (reg p));
  mode ← of_option (get_mode (reg p));
  trace_register (cycle_count p) READ SPSR mode value;;
  mret value.

Definition arm_write_register (r value : Z) : Sim unit :=
  let r := u8 r in
  p ← get_arm;
  rs ← of_option (write_register (reg p) r value);
  put_arm (with_reg rs p);;
  mode ← of_option (get_mode rs);
  trace_register (cycle_count p) WRITE r mode value.

Definition arm_write_usr_register (r value : Z) : Sim unit :=
  let r := u8 r in
  p ← get_arm;
  rs ← of_option (write_usr_register (reg p) r value);
  put_arm (with_reg rs p);;
  trace_register (cycle_count p) WRITE r USR value.

Definition arm_write_cpsr (value : Z) : Sim unit :=
  p ← get_arm;
  rs ← of_option (write_cpsr (reg p) value);
  put_arm (with_reg rs p);;
  trace_register (cycle_count p) WRITE CPSR 0 value.

Definition arm_write_spsr (value : Z) : Sim unit :=
  p ← get_arm;
  rs ← of_option (write_spsr (reg p) value);
  put_arm (with_reg rs p);;
  mode ← of_option (get_mode rs);
  trace_register (cycle_count p) WRITE SPSR mode value.

(** The readers of memory return the C result and the out-parameter, whose
    content before the call is the argument [value]. *)
Definition arm_fetch (value : Z) : Sim (Z * Z) :=
  p ← get_arm;
  put_arm (with_cycle (u32 (cycle_count p + 1)) p);;
  r15 ← arm_read_register 15;
  let address := u32 (r15 - 4) in
  p ← get_arm;
  '(result, value) ← of_option (memory_read_word (mem p) address value);
  trace_memory (cycle_count p) READ 4 OPCODE_FETCH address value;;
  arm_write_register 15 (u32 (address + 4));;
  mret (result, value).

Definition arm_read_byte (address value : Z) : Sim (Z * Z) :=
  p ← get_arm;
  '(result, value) ← of_option (memory_read_byte (mem p) address value);
  trace_memory (cycle_count p) READ 1 OTHER_ACCESS address value;;
  mret (result, value).

Definition arm_read_half (address value : Z) : Sim (Z * Z) :=
  p ← get_arm;
  '(result, value) ← of_option (memory_read_half (mem p) address value);
  trace_memory (cycle_count p) READ 2 OTHER_ACCESS address value;;
  mret (result, value).

Definition arm_read_word (address value : Z) : Sim (Z * Z) :=
  p ← get_arm;
  '(result, value) ← of_option (memory_read_word (mem p) address value);
  trace_memory (cycle_count p) READ 4 OTHER_ACCESS address value;;
  mret (result, value).

Definition arm_write_byte (address value : Z) : Sim Z :=
  let value := u8 value in
  p ← get_arm;
  '(result, m) ← of_option (memory_write_byte (mem p) address value);
  put_arm (with_mem m p);;
  trace_memory (cycle_count p) WRITE 1 OTHER_ACCESS address value;;
  mret result.

Definition arm_write_half (address value : Z) : Sim Z :=
  let value := u16 value in
  p ← get_arm;
  '(result, m) ← of_option (memory_write_half (mem p) address value);
  put_arm (with_mem m p);;
  trace_memory (cycle_count p) WRITE 2 OTHER_ACCESS address value;;
  mret result.

Definition arm_write_word (address value : Z) : Sim Z :=
  p ← get_arm;
  '(result, m) ← of_option (memory_write_word (mem p) address value);
  put_arm (with_mem m p);;
  trace_memory (cycle_count p) WRITE 4 OTHER_ACCESS address value;;
  mret result.

(** ** The interface *)

Class ArmCore (M : Type -> Type) := {
  core_located : forall {A}, string -> Z -> M A -> M A;
  core_printf : string -> M unit;
  core_read_register : Z -> M Z;
  core_read_usr_register : Z -> M Z;
  core_read_cpsr : M Z;
  core_read_spsr : M Z;
  core_write_register : Z -> Z -> M unit;
  core_write_usr_register : Z -> Z -> M unit;
  core_write_cpsr : Z -> M unit;
  core_write_spsr : Z -> M unit;
  core_fetch : Z -> M (Z * Z)%type;
  core_read_byte : Z -> Z -> M (Z * Z)%type;
  core_read_half : Z -> Z -> M (Z * Z)%type;
  core_read_word : Z -> Z -> M (Z * Z)%type;
  core_write_byte : Z -> Z -> M Z;
  core_write_half : Z -> Z -> M Z;
  core_write_word : Z -> Z -> M Z
}.

#[export] Instance sim_core : ArmCore Sim := {
  core_located := fun _ => located;
  core_printf := fun s => emit (StdOut s);
  core_read_register := arm_read_register;
  core_read_usr_register := arm_read_usr_register;
  core_read_cpsr := arm_read_cpsr;
  core_read_spsr := arm_read_spsr;
  core_write_register := arm_write_register;
  core_write_usr_register := arm_write_usr_register;
  core_write_cpsr := arm_write_cpsr;
  core_write_spsr := arm_write_spsr;
  core_fetch := arm_fetch;
  core_read_byte := arm_read_byte;
  core_read_half := arm_read_half;
  core_read_word := arm_read_word;
  core_write_byte := arm_write_byte;
  core_write_half := arm_write_half;
  core_write_word := arm_write_word
}.

(** ** The architecture: the interface without the trace *)

Abbreviation Arch := (ST arm_core_data).

Definition arch_regs {A} (f : registers_data -> option A) : Arch A :=
  p ← get_state; of_option (f (reg p)).
Definition arch_set_regs (f : registers_data -> option registers_data)
    : Arch unit :=
  p ← get_state; r ← of_option (f (reg p)); set_state (with_reg r p).
Definition arch_read (f : memory_data -> option (Z * Z)) : Arch (Z * Z)%type :=
  p ← get_state; of_option (f (mem p)).
Definition arch_write (f : memory_data -> option (Z * memory_data)) : Arch Z :=
  p ← get_state; '(result, m) ← of_option (f (mem p));
  set_state (with_mem m p);; mret result.

Definition arch_read_register (r : Z) : Arch Z :=
  arch_regs (fun rs => v ← read_register rs (u8 r); Some (pc_view (u8 r) v)).

Definition arch_fetch (value : Z) : Arch (Z * Z)%type :=
  p ← get_state;
  set_state (with_cycle (u32 (cycle_count p + 1)) p);;
  r15 ← arch_read_register 15;
  let address := u32 (r15 - 4) in
  x ← arch_read (fun m => memory_read_word m address value);
  arch_set_regs (fun rs => write_register rs 15 (u32 (address + 4)));;
  mret x.

#[export] Instance arch_core : ArmCore Arch := {
  core_located := fun _ _ _ m => m;
  core_printf := fun _ => mret ();
  core_read_register := arch_read_register;
  core_read_usr_register := fun r =>
    arch_regs (fun rs =>
      v ← read_usr_register rs (u8 r); Some (pc_view (u8 r) v));
  core_read_cpsr := arch_regs read_cpsr;
  core_read_spsr := arch_regs read_spsr;
  core_write_register := fun r v =>
    arch_set_regs (fun rs => write_register rs (u8 r) v);
  core_write_usr_register := fun r v =>
    arch_set_regs (fun rs => write_usr_register rs (u8 r) v);
  core_write_cpsr := fun v => arch_set_regs (fun rs => write_cpsr rs v);
  core_write_spsr := fun v => arch_set_regs (fun rs => write_spsr rs v);
  core_fetch := arch_fetch;
  core_read_byte := fun a v => arch_read (fun m => memory_read_byte m a v);
  core_read_half := fun a v => arch_read (fun m => memory_read_half m a v);
  core_read_word := fun a v => arch_read (fun m => memory_read_word m a v);
  core_write_byte := fun a v =>
    arch_write (fun m => memory_write_byte m a (u8 v));
  core_write_half := fun a v =>
    arch_write (fun m => memory_write_half m a (u16 v));
  core_write_word := fun a v => arch_write (fun m => memory_write_word m a v)
}.

(** ** arm_exception.c *)

Section Exception.
Context {M : Type -> Type} `{!MRet M, !MBind M, !ArmCore M}.

Definition CP15_reg1_EEbit : Z := 0.
Definition Exception_bit_9 : Z := Z.shiftl CP15_reg1_EEbit 9.

Definition arm_exception (exception : Z) : M unit :=
  if u8 exception =? RESET then
    core_located "arm_exception.c" 37
      (core_write_cpsr (Z.lor 0x1d3 Exception_bit_9));;
    core_located "arm_exception.c" 38 (core_write_usr_register 15 0)
  else mret ().
End Exception.

(** ** Creation of a processor and printing of its state (arm_core.c) *)

(** [ok] tells whether the first malloc of [arm_create] succeeded, [cycle0] is
    the content of the new struct's counter, [r] what [registers_create]
    returned.  The result is whether the pointer returned is not NULL. *)
Definition arm_create (ok : bool) (cycle0 : Z) (r : option registers_data)
    (m : memory_data) : Sim bool :=
  if ok then
    r ← of_option r;
    put_arm {| cycle_count := cycle0; reg := r; mem := m |};;
    arm_exception RESET;;
    p ← get_arm;
    put_arm (with_cycle 0 p);;
    mret true
  else mret false.

Definition fprintf (s : string) : Sim unit := emit (TraceOut s).

Definition print_one_register (mode reg count : Z) : Sim Z :=
  name ← of_option (arm_get_register_name reg);
  if mode =? USR then
    (if (reg >? 0) && (reg mod 5 =? 0)
     then fprintf (newline +:+ "    ") else mret ());;
    v ← arm_read_usr_register reg;
    fprintf ("   " +:+ fmt_3s name +:+ "=" +:+ fmt_08X v);;
    mret count
  else
    (if (count >? 0) && (count mod 5 =? 0)
     then fprintf (newline +:+ "    ") else mret ());;
    v ← arm_read_register reg;
    fprintf ("   " +:+ fmt_3s name +:+ "=" +:+ fmt_08X v);;
    mret (count + 1).

Fixpoint print_registers (mode : Z) (regs : list Z) (count : Z) : Sim unit :=
  match regs with
  | [] => mret ()
  | r :: regs =>
      count ← print_one_register mode r count;
      print_registers mode regs count
  end.

Definition print_mode (mode : Z) : Sim unit :=
  name ← of_option (arm_get_mode_name mode);
  match name with
  | None => mret ()
  | Some name =>
      (if negb (mode =? SYS) then fprintf (name +:+ ":") else mret ());;
      print_registers mode (Z.of_nat <$> seq 0 16) 0;;
      (if mode =? USR then
         v ← arm_read_cpsr; fprintf ("  CPSR=" +:+ fmt_08X v)
       else mret ());;
      if (mode =? USR) || (mode =? FIQ) || (mode =? SVC) || (mode =? UND) then
        fprintf newline
      else if (mode =? IRQ) || (mode =? ABT) then fprintf "          "
      else mret ()
  end.

Fixpoint print_modes (modes : list Z) : Sim unit :=
  match modes with
  | [] => mret ()
  | mode :: modes => print_mode mode;; print_modes modes
  end.

Definition arm_print_state : Sim unit := print_modes (Z.of_nat <$> seq 0 32).

(** trace.c, [trace_arm_state] *)
Definition trace_arm_state : Sim unit :=
  t ← get_trace;
  if c_true (enabled t) && c_true (Z.land (trace_flags t) STATE) then
    arm_print_state
  else mret ().
