(* ===== verification/Refine.v ===== *)
(** * Refinement of the traced processor to the architecture

    [Refines n m f]: from every state in which the location stack has [n] free
    entries, the traced computation [m] ends exactly like the trace-free [f]
    run on the processor alone, with the same result, processor and faults,
    and it leaves the trace settings and the location stack as they were,
    having only added to the output. *)
From S2P Require Import Prelude Util Constants Memory Registers Trace Core.

Record ready (n : nat) (s : sim) : Prop := {
  ready_regs : length (r_data (reg (s_arm s))) = 18%nat;
  ready_files : length (location_file_stack (s_trace s)) = 128%nat;
  ready_lines : length (location_line_stack (s_trace s)) = 128%nat;
  ready_low : -1 <= location_stack_top (s_trace s);
  ready_room : location_stack_top (s_trace s) + Z.of_nat n < 128
}.

(** What a traced operation may do to the rest of the state.  [evolves d]
    allows the location stack to move by [d]. *)
Record evolves (d : Z) (s s' : sim) : Prop := {
  ev_regs : length (r_data (reg (s_arm s'))) = length (r_data (reg (s_arm s)));
  ev_files : length (location_file_stack (s_trace s')) =
             length (location_file_stack (s_trace s));
  ev_lines : length (location_line_stack (s_trace s')) =
             length (location_line_stack (s_trace s));
  ev_top : location_stack_top (s_trace s') = location_stack_top (s_trace s) + d;
  ev_enabled : enabled (s_trace s') = enabled (s_trace s);
  ev_flags : trace_flags (s_trace s') = trace_flags (s_trace s);
  ev_log : exists l, s_log s' = l ++ s_log s
}.

Lemma evolves_refl s : evolves 0 s s.
Proof. split; (done || lia || by exists []). Qed.

Lemma evolves_trans d1 d2 s1 s2 s3 :
  evolves d1 s1 s2 -> evolves d2 s2 s3 -> evolves (d1 + d2) s1 s3.
Proof.
  intros [? ? ? ? ? ? [l1 E1]] [? ? ? ? ? ? [l2 E2]].
  split; [congruence..|lia|congruence|congruence|].
  exists (l2 ++ l1). by rewrite E2, E1, app_assoc.
Qed.

#[export] Instance evolves_preorder : PreOrder (evolves 0).
Proof.
  split; [exact evolves_refl|].
  intros s1 s2 s3 H1 H2. exact (evolves_trans 0 0 s1 s2 s3 H1 H2).
Qed.

Lemma ready_evolves n s s' : ready n s -> evolves 0 s s' -> ready n s'.
Proof. intros [] []. split; [congruence..|lia|lia]. Qed.

Lemma ready_le n n' s : (n <= n')%nat -> ready n' s -> ready n s.
Proof. intros ? []. split; (done || lia). Qed.

Definition Refines {A} (n : nat) (m : Sim A) (f : Arch A) : Prop :=
  forall s, ready n s ->
    match f (s_arm s) with
    | Ok a p => exists s', m s = Ok a s' /\ s_arm s' = p /\ evolves 0 s s'
    | Fault e => m s = Fault e
    end.

(** ** The monad *)

Lemma refines_ret {A} n (a : A) : Refines n (mret a) (mret a).
Proof. intros s _. exists s. split_and!; [done..|apply evolves_refl]. Qed.

Lemma refines_bind {A B} n (m : Sim A) (f : Arch A)
    (k : A -> Sim B) (g : A -> Arch B) :
  Refines n m f -> (forall a, Refines n (k a) (g a)) ->
  Refines n (m ≫= k) (f ≫= g).
Proof.
  intros Hm Hk s Hs. specialize (Hm s Hs). rewrite (bind_eq f g).
  destruct (f (s_arm s)) as [a p|e] eqn:Ef.
  - destruct Hm as (s1 & E1 & <- & Hev). rewrite (bind_ok _ _ _ _ _ E1).
    specialize (Hk a s1 (ready_evolves _ _ _ Hs Hev)).
    destruct (g a (s_arm s1)) as [b p'|e]; [|done].
    destruct Hk as (s2 & E2 & <- & Hev2). exists s2.
    split; [done|]. split; [done|]. by transitivity s1.
  - by rewrite (bind_fault _ _ _ _ Hm).
Qed.

Lemma refines_if {A} n (b : bool) (m1 m2 : Sim A) (f1 f2 : Arch A) :
  Refines n m1 f1 -> Refines n m2 f2 ->
  Refines n (if b then m1 else m2) (if b then f1 else f2).
Proof. destruct b; auto. Qed.

Lemma refines_pair {A B C} n (p : A * B) (k : A -> B -> Sim C)
    (g : A -> B -> Arch C) :
  (forall a b, Refines n (k a b) (g a b)) ->
  Refines n (let '(a, b) := p in k a b) (let '(a, b) := p in g a b).
Proof. destruct p; auto. Qed.

(** ** The trace functions

    A traced operation that cannot fault and leaves the processor alone. *)

Definition Silent (m : Sim unit) : Prop :=
  forall s, ready 0 s ->
    exists s', m s = Ok () s' /\ s_arm s' = s_arm s /\ evolves 0 s s'.

Lemma get_ok {A} (b : list A) i :
  0 <= i < Z.of_nat (length b) -> exists v, buf_get b i = Some v.
Proof. intros H. by apply buf_get_Some in H as [v ->]; eauto. Qed.

Lemma trace_print_location_ok s :
  ready 0 s -> exists loc, trace_print_location s = Ok loc s.
Proof.
  intros [_ Hf Hl Hlow Hroom]. unfold trace_print_location.
  unfold get_trace, mbind, ST_bind, get_state, mret, ST_ret. simpl.
  destruct (_ && _); [|by eauto].
  destruct (Z.geb_spec (location_stack_top (s_trace s)) 0); [|by eauto].
  destruct (get_ok (location_file_stack (s_trace s))
              (location_stack_top (s_trace s))) as [f ->]; [lia|].
  destruct (get_ok (location_line_stack (s_trace s))
              (location_stack_top (s_trace s))) as [l ->]; [lia|].
  simpl. eauto.
Qed.

Lemma evolves_emit s e :
  evolves 0 s {| s_arm := s_arm s; s_trace := s_trace s; s_log := e :: s_log s |}.
Proof. split; simpl; (done || lia || by exists [e]). Qed.

Lemma trace_register_silent cycle type r mode value :
  0 <= type < 2 -> 0 <= r < 18 -> 0 <= mode < 32 ->
  Silent (trace_register cycle type r mode value).
Proof.
  intros Ht Hr Hm s Hs. unfold trace_register.
  rewrite (bind_ok _ _ s (s_trace s) s) by done.
  destruct (_ && _);
    [|exists s; split_and!; [done..|apply evolves_refl]].
  destruct (mode_name_fits mode Hm) as (o & -> & _).
  destruct (trace_print_location_ok s Hs) as [loc El].
  destruct (get_ok trace_register_type type) as [ty Ety]; [done|].
  destruct (register_name_ok r Hr) as [rn Ern].
  simpl. rewrite (bind_ok _ _ s o s), (bind_ok _ _ s loc s) by done.
  rewrite Ety, Ern. eexists. split_and!; [done..|apply evolves_emit].
Qed.

Lemma trace_memory_silent cycle type sz cause a v :
  0 <= type < 2 -> 0 <= cause < 2 ->
  Silent (trace_memory cycle type sz cause a v).
Proof.
  intros Ht Hc s Hs. unfold trace_memory.
  rewrite (bind_ok _ _ s (s_trace s) s) by done.
  destruct (_ && _);
    [|exists s; split_and!; [done..|apply evolves_refl]].
  set (s1 := {| s_arm := s_arm s; s_trace := with_last_address a (s_trace s);
                s_log := s_log s |}).
  assert (H1 : evolves 0 s s1) by (split; simpl; (done || lia || by exists [])).
  assert (Hs1 : ready 0 s1) by exact (ready_evolves _ _ _ Hs H1).
  destruct (trace_print_location_ok s1 Hs1) as [loc El].
  destruct (get_ok trace_memory_type type) as [ty Ety]; [done|].
  destruct (get_ok trace_memory_cause cause) as [ca Eca]; [done|].
  destruct (get_ok trace_memory_seq (c_bool (a =? u32 (last_address (s_trace s) + 4))))
    as [sq Esq]; [destruct (_ =? _); simpl; lia|].
  rewrite (bind_ok _ _ s () s1), (bind_ok _ _ s1 loc s1) by done.
  rewrite Ety, Eca, Esq. eexists. split_and!; [done..|].
  exact (evolves_trans 0 0 _ _ _ H1 (evolves_emit s1 _)).
Qed.

Lemma printf_silent str : Silent (emit (StdOut str)).
Proof. intros s Hs. eexists. split_and!; [done..|apply evolves_emit]. Qed.

(** ** The location macros *)

Lemma start_location_ok n file line s :
  ready (Datatypes.S n) s ->
  exists s', trace_start_location file line s = Ok () s' /\ s_arm s' = s_arm s /\
    ready n s' /\ evolves (if c_true (enabled (s_trace s)) then 1 else 0) s s'.
Proof.
  intros Hs. pose proof Hs as [Hr Hf Hl Hlow Hroom]. unfold trace_start_location.
  rewrite (bind_ok _ _ s (s_trace s) s) by done.
  destruct (c_true _).
  - rewrite !buf_set_Some by lia. simpl. eexists. split_and!; [done..| |].
    + split; simpl; rewrite ?length_insert; (done || lia).
    + split; simpl; rewrite ?length_insert; (done || lia || by exists []).
  - exists s. split_and!; [done..| |apply evolves_refl].
    revert Hs. apply ready_le. lia.
Qed.

Lemma end_location_ok s :
  exists s', trace_end_location s = Ok 0 s' /\ s_arm s' = s_arm s /\
    evolves (if c_true (enabled (s_trace s)) then -1 else 0) s s'.
Proof.
  unfold trace_end_location. rewrite (bind_ok _ _ s (s_trace s) s) by done.
  destruct (c_true _); eexists.
  - split_and!; [done..|]. split; simpl; (done || lia || by exists []).
  - split_and!; [done..|apply evolves_refl].
Qed.

(** A located call needs one more entry of the stack than the call. *)
Lemma refines_located {A} n file line (m : Sim A) (f : Arch A) :
  Refines n m f ->
  Refines (Datatypes.S n) (core_located file line m) (core_located file line f).
Proof.
  intros Hm s Hs. simpl. unfold located.
  destruct (start_location_ok n file line s Hs) as (s1 & E1 & Ea & Hs1 & Hev1).
  rewrite (bind_ok _ _ _ _ _ E1). specialize (Hm s1 Hs1). rewrite Ea in Hm.
  destruct (f (s_arm s)) as [a p|e]; [|by rewrite (bind_fault _ _ _ _ Hm)].
  destruct Hm as (s2 & E2 & <- & Hev2). rewrite (bind_ok _ _ _ _ _ E2).
  destruct (end_location_ok s2) as (s3 & E3 & Ea3 & Hev3).
  rewrite (bind_ok _ _ _ _ _ E3). exists s3. split_and!; [done..|].
  assert (enabled (s_trace s2) = enabled (s_trace s)) as Een.
  { by rewrite (ev_enabled _ _ _ Hev2), (ev_enabled _ _ _ Hev1). }
  rewrite Een in Hev3.
  pose proof (evolves_trans _ _ _ _ _ (evolves_trans _ _ _ _ _ Hev1 Hev2) Hev3) as H.
  by destruct (c_true (enabled (s_trace s))).
Qed.

(** ** The operations of the interface *)

Lemma run_silent {A} (t : Sim unit) (a : A) s :
  Silent t -> ready 0 s ->
  exists s', (t;; mret a) s = Ok a s' /\ s_arm s' = s_arm s /\ evolves 0 s s'.
Proof.
  intros Ht Hs. destruct (Ht s Hs) as (s' & E & Ea & Hev).
  exists s'. by rewrite (bind_ok _ _ _ _ _ E).
Qed.

Lemma ready_0 n s : ready n s -> ready 0 s.
Proof. apply ready_le. lia. Qed.

(** An operation that reads the processor and traces. *)
Lemma refines_read {A} n (m : Sim A) (f : arm_core_data -> option A) :
  (forall s, ready n s ->
    match f (s_arm s) with
    | Some a => exists t, Silent t /\ m s = (t;; mret a) s
    | None => m s = Fault OutOfBounds
    end) ->
  Refines n m (p ← get_state; of_option (f p)).
Proof.
  intros H s Hs. specialize (H s Hs).
  rewrite (bind_ok _ _ _ (s_arm s) (s_arm s)) by done.
  destruct (f (s_arm s)) as [a|]; [|done]. destruct H as (t & Ht & ->).
  destruct (run_silent t a s Ht (ready_0 _ _ Hs)) as (s' & E & Ea & Hev).
  by exists s'.
Qed.

(** An operation that changes the processor, keeping the number of registers,
    and traces. *)
Lemma refines_write {A} n (m : Sim A)
    (f : arm_core_data -> option (A * arm_core_data)) :
  (forall s, ready n s ->
    match f (s_arm s) with
    | Some (a, p) =>
        length (r_data (reg p)) = 18%nat /\
        exists t, Silent t /\
          m s = (t;; mret a) {| s_arm := p; s_trace := s_trace s; s_log := s_log s |}
    | None => m s = Fault OutOfBounds
    end) ->
  Refines n m (p ← get_state; '(a, p') ← of_option (f p); set_state p';; mret a).
Proof.
  intros H s Hs. specialize (H s Hs).
  rewrite (bind_ok _ _ _ (s_arm s) (s_arm s)) by done.
  destruct (f (s_arm s)) as [[a p]|]; [|done].
  destruct H as (Hl & t & Ht & ->). simpl.
  set (s1 := {| s_arm := p; s_trace := s_trace s; s_log := s_log s |}).
  assert (H1 : evolves 0 s s1).
  { pose proof (ready_regs _ _ Hs).
    split; simpl; (congruence || lia || by exists []). }
  destruct (run_silent t a s1 Ht) as (s' & E & Ea & Hev).
  { eapply ready_evolves; [by eapply ready_0|done]. }
  exists s'. split_and!; [done..|]. by transitivity s1.
Qed.

Lemma refines_ext {A} n (m : Sim A) (f f' : Arch A) :
  (forall p, f p = f' p) -> Refines n m f -> Refines n m f'.
Proof. intros H Hm s Hs. rewrite <- H. by apply Hm. Qed.

Lemma refines_set_regs n (m : Sim unit)
    (f : registers_data -> option registers_data) :
  (forall s, ready n s ->
    match f (reg (s_arm s)) with
    | Some r =>
        length (r_data r) = 18%nat /\
        exists t, Silent t /\
          m s = t {| s_arm := with_reg r (s_arm s); s_trace := s_trace s;
                     s_log := s_log s |}
    | None => m s = Fault OutOfBounds
    end) ->
  Refines n m (arch_set_regs f).
Proof.
  intros H. eapply refines_ext; [|eapply (refines_write n m
    (fun p => r ← f (reg p); Some ((), with_reg r p)))].
  - intros p. unfold arch_set_regs. rewrite !(bind_ok _ _ p p p) by done.
    by destruct (f (reg p)).
  - intros s Hs. specialize (H s Hs). destruct (f (reg (s_arm s))); [|done].
    simpl. destruct H as (Hl & t & Ht & ->). split; [done|]. exists t.
    split; [done|]. rewrite bind_eq. by destruct (t _) as [[] |].
Qed.

Lemma refines_arch_write n (m : Sim Z)
    (f : memory_data -> option (Z * memory_data)) :
  (forall s, ready n s ->
    match f (mem (s_arm s)) with
    | Some (a, mm) =>
        exists t, Silent t /\
          m s = (t;; mret a)
            {| s_arm := with_mem mm (s_arm s); s_trace := s_trace s;
               s_log := s_log s |}
    | None => m s = Fault OutOfBounds
    end) ->
  Refines n m (arch_write f).
Proof.
  intros H. eapply refines_ext; [|eapply (refines_write n m
    (fun p => '(a, mm) ← f (mem p); Some (a, with_mem mm p)))].
  - intros p. unfold arch_write. rewrite !(bind_ok _ _ p p p) by done.
    by destruct (f (mem p)) as [[]|].
  - intros s Hs. specialize (H s Hs). destruct (f (mem (s_arm s))) as [[a mm]|];
      [|done].
    simpl. split; [by apply Hs | done].
Qed.

(** The mode an access is traced with. *)
Lemma mode_ok r :
  length (r_data r) = 18%nat -> exists mode, get_mode r = Some mode /\ 0 <= mode < 32.
Proof. intros H. rewrite get_mode_spec by done. eauto using mode_of_range. Qed.

Lemma read_register_bound r i v :
  length (r_data r) = 18%nat -> read_register r i = Some v -> 0 <= i < 18.
Proof.
  intros Hl E. rewrite <- (Nat2Z.id 18) in Hl.
  assert (is_Some (buf_get (r_data r) i)) as H by (by exists v).
  apply buf_get_Some in H. lia.
Qed.

Lemma store_register_bound r i v r' :
  length (r_data r) = 18%nat -> store_register r i v = Some r' ->
  0 <= i < 18 /\ length (r_data r') = 18%nat.
Proof.
  unfold store_register. intros Hl H. destruct (buf_set _ i v) eqn:E; [|done].
  simplify_eq/=. split.
  - apply buf_set_inv in E as [? _]. lia.
  - apply buf_set_length in E. lia.
Qed.

(** [run_op] unfolds an operation of arm_core.c at a state, up to its trace. *)
Ltac run_op op :=
  intros s Hs; pose proof (ready_regs _ _ Hs) as Hl;
  cbn [core_read_register core_read_usr_register core_read_cpsr core_read_spsr
       core_write_register core_write_usr_register core_write_cpsr
       core_write_spsr core_fetch core_read_byte core_read_half core_read_word
       core_write_byte core_write_half core_write_word sim_core arch_core];
  unfold op; cbv zeta; rewrite (bind_ok _ _ s (s_arm s) s) by done.

(** [step_ok] runs the options and updates at the head of a computation. *)
Ltac step_ok :=
  cbv beta iota delta [mbind ST_bind of_option mret ST_ret put_arm set_state].

Lemma refines_read_register n r :
  Refines n (core_read_register r) (core_read_register r).
Proof.
  apply refines_read. run_op arm_read_register.
  destruct (read_register (reg (s_arm s)) (u8 r)) as [v|] eqn:E; [|done].
  destruct (mode_ok _ Hl) as (mode & Em & Hmode). simpl. rewrite Em.
  eexists. split; [|done]. apply trace_register_silent; [done| |done].
  by eapply read_register_bound.
Qed.

Lemma refines_read_cpsr n : Refines n core_read_cpsr core_read_cpsr.
Proof.
  apply refines_read. run_op arm_read_cpsr.
  destruct (read_cpsr (reg (s_arm s))) as [v|] eqn:E; [|done].
  eexists. split; [|done]. by apply trace_register_silent.
Qed.

Lemma refines_read_spsr n : Refines n core_read_spsr core_read_spsr.
Proof.
  apply refines_read. run_op arm_read_spsr.
  destruct (read_spsr (reg (s_arm s))) as [v|] eqn:E; [|done].
  destruct (mode_ok _ Hl) as (mode & Em & Hmode). simpl. rewrite Em.
  eexists. split; [|done]. by apply trace_register_silent.
Qed.

Lemma refines_write_register n r v :
  Refines n (core_write_register r v) (core_write_register r v).
Proof.
  apply refines_set_regs. run_op arm_write_register.
  destruct (write_register (reg (s_arm s)) (u8 r) v) as [rs|] eqn:E; [|done].
  apply store_register_bound in E as [Hr Hl']; [|done]. split; [done|].
  destruct (mode_ok _ Hl') as (mode & Em & Hmode).
  eexists. split.
  - by apply (trace_register_silent (cycle_count (s_arm s)) WRITE (u8 r) mode v).
  - step_ok. by rewrite Em.
Qed.

Lemma refines_write_cpsr n v :
  Refines n (core_write_cpsr v) (core_write_cpsr v).
Proof.
  apply refines_set_regs. run_op arm_write_cpsr.
  destruct (write_cpsr (reg (s_arm s)) v) as [rs|] eqn:E; [|done].
  apply store_register_bound in E as [Hr Hl']; [|done]. split; [done|].
  eexists. split; [by apply (trace_register_silent (cycle_count (s_arm s)) WRITE CPSR 0 v)|].
  done.
Qed.

Lemma refines_read_usr_register n r :
  0 <= r < 18 -> Refines n (core_read_usr_register r) (core_read_usr_register r).
Proof.
  intros Hr. apply refines_read. run_op arm_read_usr_register.
  destruct (read_usr_register (reg (s_arm s)) (u8 r)) as [v|] eqn:E; [|done].
  eexists. split; [|done]. apply trace_register_silent; [done| |done].
  by rewrite u8_small by (unfold is_u8; lia).
Qed.

Lemma guarded_store_length (b : bool) r i v r' :
  length (r_data r) = 18%nat ->
  (if b then store_register r i v else Some r) = Some r' ->
  length (r_data r') = 18%nat.
Proof.
  intros Hl E. destruct b; [|congruence].
  by destruct (store_register_bound _ _ _ _ Hl E).
Qed.

Lemma refines_write_usr_register n r v :
  0 <= r < 18 ->
  Refines n (core_write_usr_register r v) (core_write_usr_register r v).
Proof.
  intros Hr. apply refines_set_regs. run_op arm_write_usr_register.
  destruct (write_usr_register (reg (s_arm s)) (u8 r) v) as [rs|] eqn:E; [|done].
  split.
  - unfold write_usr_register in E. destruct (in_a_privileged_mode _); [|done].
    by eapply (guarded_store_length _ _ _ _ _ Hl), E.
  - eexists. split; [|by step_ok].
    apply trace_register_silent; [done| |done].
    by rewrite u8_small by (unfold is_u8; lia).
Qed.

Lemma refines_write_spsr n v :
  Refines n (core_write_spsr v) (core_write_spsr v).
Proof.
  apply refines_set_regs. run_op arm_write_spsr.
  destruct (write_spsr (reg (s_arm s)) v) as [rs|] eqn:E; [|done].
  assert (length (r_data rs) = 18%nat) as Hl'.
  { unfold write_spsr in E. destruct (current_mode_has_spsr _); [|done].
    by eapply (guarded_store_length _ _ _ _ _ Hl), E. }
  split; [done|]. destruct (mode_ok _ Hl') as (mode & Em & Hmode).
  eexists. split.
  - by apply (trace_register_silent (cycle_count (s_arm s)) WRITE SPSR mode v).
  - step_ok. by rewrite Em.
Qed.

(** The memory operations trace with constant arguments. *)
Lemma refines_read_byte n a v :
  Refines n (core_read_byte a v) (core_read_byte a v).
Proof.
  apply refines_read. run_op arm_read_byte.
  destruct (memory_read_byte (mem (s_arm s)) a v) as [[x y]|] eqn:E; [|done].
  eexists. split; [|by step_ok]. by apply trace_memory_silent.
Qed.

Lemma refines_read_half n a v :
  Refines n (core_read_half a v) (core_read_half a v).
Proof.
  apply refines_read. run_op arm_read_half.
  destruct (memory_read_half (mem (s_arm s)) a v) as [[x y]|] eqn:E; [|done].
  eexists. split; [|by step_ok]. by apply trace_memory_silent.
Qed.

Lemma refines_read_word n a v :
  Refines n (core_read_word a v) (core_read_word a v).
Proof.
  apply refines_read. run_op arm_read_word.
  destruct (memory_read_word (mem (s_arm s)) a v) as [[x y]|] eqn:E; [|done].
  eexists. split; [|by step_ok]. by apply trace_memory_silent.
Qed.

Lemma refines_write_byte n a v :
  Refines n (core_write_byte a v) (core_write_byte a v).
Proof.
  apply refines_arch_write. run_op arm_write_byte.
  destruct (memory_write_byte (mem (s_arm s)) a (u8 v)) as [[x y]|] eqn:E; [|done].
  eexists. split; [|by step_ok]. by apply trace_memory_silent.
Qed.

Lemma refines_write_half n a v :
  Refines n (core_write_half a v) (core_write_half a v).
Proof.
  apply refines_arch_write. run_op arm_write_half.
  destruct (memory_write_half (mem (s_arm s)) a (u16 v)) as [[x y]|] eqn:E; [|done].
  eexists. split; [|by step_ok]. by apply trace_memory_silent.
Qed.

Lemma refines_write_word n a v :
  Refines n (core_write_word a v) (core_write_word a v).
Proof.
  apply refines_arch_write. run_op arm_write_word.
  destruct (memory_write_word (mem (s_arm s)) a v) as [[x y]|] eqn:E; [|done].
  eexists. split; [|by step_ok]. by apply trace_memory_silent.
Qed.

Lemma refines_printf n str :
  Refines n (core_printf str) (core_printf str).
Proof.
  intros s Hs. simpl. destruct (printf_silent str s) as (s' & E & Ea & Hev);
    [by eapply ready_0|]. by exists s'.
Qed.

(** The fetch composes the others. *)
Lemma refines_set_cycle n c :
  Refines n (p ← get_arm; put_arm (with_cycle (c p) p))
            (p ← get_state; set_state (with_cycle (c p) p)).
Proof.
  intros s Hs. cbn. eexists. split_and!; [done..|].
  split; simpl; (done || lia || by exists []).
Qed.

Lemma refines_fetch_read n a v :
  Refines n (p ← get_arm; '(x, y) ← of_option (memory_read_word (mem p) a v);
             trace_memory (cycle_count p) READ 4 OPCODE_FETCH a y;; mret (x, y))
            (arch_read (fun m => memory_read_word m a v)).
Proof.
  apply refines_read. intros s Hs. rewrite (bind_ok _ _ s (s_arm s) s) by done.
  destruct (memory_read_word (mem (s_arm s)) a v) as [[x y]|] eqn:E; [|done].
  eexists. split; [|by step_ok]. by apply trace_memory_silent.
Qed.

Lemma arm_fetch_eq v s :
  arm_fetch v s =
  ((p ← get_arm; put_arm (with_cycle (u32 (cycle_count p + 1)) p));;
   r15 ← arm_read_register 15;
   x ← (p ← get_arm;
        '(x, y) ← of_option (memory_read_word (mem p) (u32 (r15 - 4)) v);
        trace_memory (cycle_count p) READ 4 OPCODE_FETCH (u32 (r15 - 4)) y;;
        mret (x, y));
   arm_write_register 15 (u32 (u32 (r15 - 4) + 4));; mret x) s.
Proof.
  unfold arm_fetch, get_arm. step_ok. unfold get_state. cbv beta iota.
  destruct (arm_read_register 15 _) as [r15 s1|f]; [|done].
  destruct (memory_read_word _ _ _) as [[x y]|]; [|done].
  by destruct (trace_memory _ _ _ _ _ _ _) as [[] s2|f].
Qed.

Lemma arch_fetch_eq v p :
  ((p ← get_state; set_state (with_cycle (u32 (cycle_count p + 1)) p));;
   r15 ← core_read_register 15;
   x ← arch_read (fun m => memory_read_word m (u32 (r15 - 4)) v);
   core_write_register 15 (u32 (u32 (r15 - 4) + 4));; mret x) p =
  arch_fetch v p.
Proof. done. Qed.

Lemma refines_ext_sim {A} n (m m' : Sim A) (f : Arch A) :
  (forall s, m s = m' s) -> Refines n m' f -> Refines n m f.
Proof. intros H Hm s Hs. rewrite H. by apply Hm. Qed.

Lemma refines_fetch n v : Refines n (core_fetch v) (core_fetch v).
Proof.
  eapply refines_ext_sim; [exact (arm_fetch_eq v)|].
  eapply refines_ext; [exact (arch_fetch_eq v)|].
  apply refines_bind; [exact (refines_set_cycle n (fun p => _))|]. intros _.
  apply refines_bind; [exact (refines_read_register n 15)|]. intros r15.
  apply refines_bind; [apply refines_fetch_read|]. intros x.
  apply refines_bind; [exact (refines_write_register n 15 _)|]. intros _.
  apply refines_ret.
Qed.

(** ** Automation

    [refines] goes through a computation along its structure; the operations
    and the functions already proved are in the hint database. *)
Create HintDb refines discriminated.
#[export] Hint Constants Opaque : refines.
#[export] Hint Resolve refines_read_register refines_read_cpsr refines_read_spsr
  refines_write_register refines_write_cpsr refines_write_spsr
  refines_read_byte refines_read_half refines_read_word refines_write_byte
  refines_write_half refines_write_word refines_printf refines_fetch
  refines_read_usr_register refines_write_usr_register : refines.

Ltac refines_step :=
  lazymatch goal with
  | |- Refines _ (mret _) _ => apply refines_ret
  | |- Refines _ (mbind _ _) _ => apply refines_bind; [|intros ?]
  | |- Refines _ (core_located _ _ _) _ => apply refines_located
  | |- Refines _ (if _ then _ else _) _ => apply refines_if
  | |- Refines _ (let '(_, _) := _ in _) _ => apply refines_pair; intros ? ?
  | |- Refines _ _ _ => solve [auto with refines | eauto with refines lia]
  end.
Ltac refines := cbv zeta; repeat refines_step.
