(* ===== verification/LoadStore.v ===== *)
(** * arm_load_store.c: the address of a load or a store *)
From S2P Require Import Prelude Util Constants Memory Registers Trace Core.

Section LoadStore.
Context `{T : Target}.

(** [getValueFromIns]: the field of the instruction; the register it names is
    not read (the call that would do it is commented out). *)
Definition getValueFromIns (ins h l : Z) : Z := get_bits ins h l.

(** [load_store_shifts_rotate]: the new content of [*index]. *)
Definition load_store_shifts_rotate (shift shift_imm index rm ins : Z) : Z :=
  if shift =? 0 then (* LSL *)
    shl32 rm shift_imm
  else if shift =? 1 then (* LSR *)
    if shift_imm =? 0 then 0 else shr32 rm shift_imm
  else if shift =? 2 then (* ASR *)
    if shift_imm =? 0 then
      if c_true (get_bit rm 31) then 0xFFFFFFFF else 0
    else asr rm shift_imm
  else if shift =? 3 then (* ROR or RRX *)
    if shift_imm =? 0 then
      c_bool (c_true (shl32 (get_bit ins bit_C) 31) || c_true (shr32 rm 1))
    else ror rm shift_imm
  else index.

(** [arm_load_store], with the content [index0] of its local [index].  The
    variables [address] and [rd] are computed in the C code and not used. *)
Definition arm_load_store (index0 ins : Z) : Z :=
  let rn := getValueFromIns ins 19 16 in
  let rm := getValueFromIns ins 3 0 in
  let bit25 := get_bit ins 25 in
  let bit21 := get_bit ins 21 in
  let bit23 := get_bit ins 23 in
  let bit24 := get_bit ins 24 in
  let shift_imm := get_bits ins 11 7 in
  let shift := get_bits ins 6 5 in
  s32 (if c_true bit25 then
         let bits4_11 := get_bits ins 11 4 in
         if c_true bits4_11 then
           if c_true bit24 then
             let index := load_store_shifts_rotate shift shift_imm index0 rm ins in
             if c_true bit23 then u32 (rn + index) else u32 (rn - index)
           else
             let index := load_store_shifts_rotate shift shift_imm index0 rm ins in
             if c_true bit23 then u32 (rn + index) else u32 (rn - index)
         else
           if c_true bit24 then
             if c_true bit23 then u32 (rn + rm) else u32 (rn - rm)
           else
             if c_true bit23 then u32 (rn + rm) else u32 (rn - rm)
       else
         let offset12 := get_bits ins 11 0 in
         if c_true bit21 then
           if c_true bit23 then u32 (rn + offset12) else u32 (rn - offset12)
         else
           if c_true bit23 then u32 (rn + offset12) else u32 (rn - offset12)).

Definition arm_load_store_multiple (ins : Z) : Z := UNDEFINED_INSTRUCTION.
Definition arm_coprocessor_load_store (ins : Z) : Z := UNDEFINED_INSTRUCTION.

(** ** What the addressing computes *)

(** The offset of ARM's addressing mode 2, on the number [rm] where the
    manual has the content of the register. *)
Definition offset_spec (ins rm : Z) : Z :=
  let imm := Z.shiftr ins 7 mod 32 in
  if Z.testbit ins 25 then
    match Z.shiftr ins 5 mod 4 with
    | 0 => u32 (Z.shiftl rm imm)
    | 1 => if imm =? 0 then 0 else Z.shiftr rm imm
    | 2 => if imm =? 0 then 0 else Z.shiftr rm imm
    | _ => if imm =? 0
           then if Z.testbit ins 29 || (2 <=? rm) then 1 else 0
           else ror rm imm
    end
  else ins mod 2 ^ 12.

Lemma c_true_get_bit x i :
  0 <= i < 32 -> c_true (get_bit x i) = Z.testbit x i.
Proof. intros. rewrite get_bit_in by done. by destruct (Z.testbit x i). Qed.

Lemma shift_small_number rm imm :
  0 <= rm < 16 -> 1 <= imm < 32 -> asr rm imm = Z.shiftr rm imm.
Proof.
  intros Hrm Himm. unfold asr. rewrite u8_small by (unfold is_u8; lia).
  rewrite c_true_get_bit by lia.
  rewrite (testbit_above 4 rm 31) by lia. change (u32 0) with 0.
  by rewrite Z.lor_0_r, shr32_in by lia.
Qed.

Lemma offset_shift w : get_bits w 11 7 = Z.shiftr w 7 mod 32.
Proof. by rewrite get_bits_in by lia. Qed.

(** [load_store_shifts_rotate] on the number of a register. *)
Lemma shifts_rotate_spec index0 w :
  Z.testbit w 25 = true ->
  load_store_shifts_rotate (get_bits w 6 5) (get_bits w 11 7) index0
    (get_bits w 3 0) w = offset_spec w (get_bits w 3 0).
Proof.
  intros H25. unfold offset_spec. rewrite H25, offset_shift.
  assert (get_bits w 6 5 = Z.shiftr w 5 mod 4) as -> by (by rewrite get_bits_in by lia).
  pose proof (get_bits_range w 3 0 ltac:(lia) ltac:(lia)) as Hrm.
  change (2 ^ (3 - 0 + 1)) with 16 in Hrm.
  generalize dependent (get_bits w 3 0). intros rm Hrm.
  assert (0 <= Z.shiftr w 7 mod 32 < 32) as Himm by (apply Z.mod_pos_bound; done).
  generalize dependent (Z.shiftr w 7 mod 32). intros imm Himm.
  assert (0 <= Z.shiftr w 5 mod 4 < 4) as Hs by (apply Z.mod_pos_bound; done).
  generalize dependent (Z.shiftr w 5 mod 4). intros sh Hs.
  assert (sh = 0 \/ sh = 1 \/ sh = 2 \/ sh = 3) as Hcases by lia.
  unfold load_store_shifts_rotate, bit_C.
  destruct Hcases as [-> | [-> | [-> | ->]]]; cbn [Z.eqb Pos.eqb].
  - by apply shl32_in.
  - destruct (Z.eqb_spec imm 0); [done|]. by apply shr32_in.
  - destruct (Z.eqb_spec imm 0).
    + rewrite c_true_get_bit, (testbit_above 4 rm 31) by lia. done.
    + apply shift_small_number; lia.
  - destruct (Z.eqb_spec imm 0); [|done]. rewrite shr32_in, get_bit_in by lia.
    rewrite shl32_in by lia. unfold c_bool. rewrite Z.shiftr_div_pow2 by lia.
    change (2 ^ 1) with 2.
    assert (c_true (rm / 2) = (2 <=? rm)) as ->.
    { pose proof (Z.div_mod rm 2 ltac:(lia)). pose proof (Z.mod_pos_bound rm 2 ltac:(lia)).
      unfold c_true. destruct (Z.eqb_spec (rm / 2) 0), (Z.leb_spec 2 rm);
        (done || lia). }
    by destruct (Z.testbit w 29).
Qed.

(** The address of the decoder, as a word: the NUMBER of the base register,
    plus or minus the offset computed from the NUMBER of the index register. *)
Definition ls_address (w : Z) : Z :=
  let rn := get_bits w 19 16 in
  let offset := offset_spec w (get_bits w 3 0) in
  u32 (if Z.testbit w 23 then rn + offset else rn - offset).

Lemma shift_by_zero w :
  get_bits w 11 4 = 0 -> Z.testbit w 25 = true ->
  offset_spec w (get_bits w 3 0) = get_bits w 3 0.
Proof.
  intros H0 H25. rewrite get_bits_in in H0 by lia.
  change (11 - 4 + 1) with 8 in H0.
  assert (Hz : forall i, 4 <= i <= 11 -> Z.testbit w i = false).
  { intros i Hi. replace i with ((i - 4) + 4) by lia.
    rewrite <- Z.shiftr_spec by lia.
    rewrite <- (Z.mod_pow2_bits_low _ 8) by lia. by rewrite H0, Z.bits_0. }
  assert (Hf : forall k n, 4 <= k -> 0 <= n -> k + n <= 12 -> Z.shiftr w k mod 2 ^ n = 0).
  { intros k n ? ? ?. apply Z.bits_inj'. intros i Hi.
    rewrite Z.testbit_mod_pow2, Z.shiftr_spec, Z.bits_0 by lia.
    destruct (Z.ltb_spec i n); [|done]. rewrite Hz by lia. done. }
  unfold offset_spec. rewrite H25.
  change 32 with (2 ^ 5). change 4 with (2 ^ 2). rewrite !Hf by lia.
  rewrite Z.shiftl_0_r. apply u32_small, get_bits_u32; lia.
Qed.

Lemma if_same {A} (b : bool) (x : A) : (if b then x else x) = x.
Proof. by destruct b. Qed.

Lemma arm_load_store_address index0 w :
  arm_load_store index0 w = s32 (ls_address w).
Proof.
  assert (Hs : forall x, s32 (u32 x) = s32 x).
  { intros. unfold s32. by rewrite u32_u32. }
  unfold arm_load_store, ls_address, getValueFromIns. cbv zeta.
  rewrite !c_true_get_bit by lia. rewrite !if_same, Hs.
  destruct (Z.testbit w 25) eqn:H25.
  - rewrite shifts_rotate_spec by done.
    destruct (c_true (get_bits w 11 4)) eqn:E.
    + by destruct (Z.testbit w 23); rewrite Hs.
    + rewrite shift_by_zero; [by destruct (Z.testbit w 23); rewrite Hs|..|done].
      unfold c_true in E. by destruct (Z.eqb_spec (get_bits w 11 4) 0).
  - assert (offset_spec w (get_bits w 3 0) = get_bits w 11 0) as ->.
    { unfold offset_spec. rewrite H25. by rewrite get_bits_in, Z.shiftr_0_r by lia. }
    by destruct (Z.testbit w 23); rewrite Hs.
Qed.
End LoadStore.
