(* ===== verification/Branch.v ===== *)
(** * arm_branch_other.c and arm_data_processing.c: branches and stubs *)
From S2P Require Import Prelude Util Constants Memory Registers Trace Core.

Section Branch.
Context `{T : Target}.
Context {M : Type -> Type} `{!MRet M, !MBind M, !ArmCore M}.

(** [Extend_30]; the first argument of the C function is overwritten. *)
Definition Extend_30 (ins : Z) : Z :=
  let x := get_bits ins 23 0 in
  if get_bit ins 23 =? 0 then set_bits x 30 24 0 else set_bits x 30 24 63.

Definition located_branch (line : Z) {A} (m : M A) : M A :=
  core_located "arm_branch_other.c" line m.

Definition arm_branch (ins : Z) : M Z :=
  (if get_bit ins 24 =? 0 then
     let x := shl32 (Extend_30 ins) 2 in
     located_branch 47 (
       pc ← located_branch 47 (core_read_register 15);
       core_write_register 15 (u32 (pc + x)))
   else
     adr ← located_branch 52 (core_read_register 15);
     located_branch 53 (core_write_register 14 adr);;
     let x := shl32 (Extend_30 ins) 2 in
     located_branch 55 (
       pc ← located_branch 55 (core_read_register 15);
       core_write_register 15 (u32 (pc + x))));;
  mret 0.

(** Not called by the decoder. *)
Definition arm_coprocessor_others_swi {S} (ins : Z) : ST S Z :=
  if c_true (get_bit ins 24) then
    if Z.land ins 0xFFFFFF =? 0x123456 then stop (Exited 0)
    else mret SOFTWARE_INTERRUPT
  else mret UNDEFINED_INSTRUCTION.

Definition arm_miscellaneous (ins : Z) : Z := UNDEFINED_INSTRUCTION.

(** arm_data_processing.c, not called by the decoder. *)
Definition arm_data_processing_shift (ins : Z) : Z := UNDEFINED_INSTRUCTION.
Definition arm_data_processing_immediate_msr (ins : Z) : Z :=
  UNDEFINED_INSTRUCTION.

(** ** The branch offset *)

(** ARM: the 24-bit offset, sign-extended and multiplied by 4, modulo 2^32. *)
Definition branch_offset (ins : Z) : Z :=
  let imm := ins mod 2 ^ 24 in
  u32 (4 * (if imm <? 2 ^ 23 then imm else imm - 2 ^ 24)).

Lemma set_high_field x v :
  0 <= x < 2 ^ 24 -> 0 <= v < 2 ^ 7 -> set_bits x 30 24 v = x + v * 2 ^ 24.
Proof.
  intros Hx Hv. rewrite <- Z.shiftl_mul_pow2 by lia.
  assert (is_u32 x) by (unfold is_u32; lia).
  assert (0 <= Z.shiftl v 24 < 2 ^ 31) by (apply shiftl_small; lia).
  assert (x + Z.shiftl v 24 = Z.lor x (Z.shiftl v 24)) as ->.
  { rewrite <- Z.lxor_lor, <- Z.add_nocarry_lxor; try done.
    all: apply Z.bits_inj'; intros i Hi;
      rewrite Z.land_spec, Z.bits_0, Z.shiftl_spec by lia;
      destruct (Z.lt_ge_cases i 24).
    all: try (rewrite (Z.testbit_neg_r v) by lia; apply andb_false_r).
    all: by rewrite (testbit_above 24 x) by lia. }
  apply u32_ext.
  - apply set_bits_u32.
  - apply lor_u32; [done|]. unfold is_u32. lia.
  - intros i Hi. rewrite testbit_set_bits by (done || lia).
    rewrite Z.lor_spec, Z.shiftl_spec by lia.
    destruct (Z.ltb_spec i 24).
    + rewrite (Z.testbit_neg_r v) by lia. by rewrite orb_false_r.
    + rewrite (testbit_above 24 x) by lia. destruct (Z.leb_spec i 30); [done|].
      rewrite (testbit_above 7 v) by lia. done.
Qed.

Lemma Extend_30_offset ins : shl32 (Extend_30 ins) 2 = branch_offset ins.
Proof.
  unfold Extend_30, branch_offset. cbv zeta. rewrite shl32_in by lia.
  rewrite get_bits_in, Z.shiftr_0_r by lia. change (23 - 0 + 1) with 24.
  assert (0 <= ins mod 2 ^ 24 < 2 ^ 24) as Hx by (apply Z.mod_pos_bound; done).
  rewrite get_bit_in by lia.
  assert (Z.testbit ins 23 = (2 ^ 23 <=? ins mod 2 ^ 24)) as ->.
  { rewrite <- (Z.mod_pow2_bits_low ins 24) by lia. by apply (top_bit 23). }
  rewrite Z.shiftl_mul_pow2 by lia.
  destruct (Z.ltb_spec (ins mod 2 ^ 24) (2 ^ 23)), (Z.leb_spec (2 ^ 23) (ins mod 2 ^ 24));
    try lia; cbn [Z.b2z Z.eqb]; rewrite set_high_field by lia; unfold u32, wrap.
  - f_equal. lia.
  - rewrite <- (Z_mod_plus_full _ (-1)). f_equal. lia.
Qed.
End Branch.
