(* ===== verification/Instruction.v ===== *)
(** * arm_instruction.c: decoding and execution of one instruction

    [frame] is what the C functions of one step find in their uninitialised
    variables: any values.  A theorem that holds for every frame says the
    variable does not matter; the ones that do matter are [fr_bits4_11]
    (tested before any assignment), [fr_shift_imm] (assigned by one case of
    the switch only) and [fr_cond], what a caller of [ConditionPassed] reads
    when the function ends without a return statement. *)
From Stdlib Require Import Ascii.
From S2P Require Import Prelude Util Constants Memory Registers Trace Core.
From S2P Require Import Refine LoadStore Branch.
Open Scope Z_scope.

Record frame := {
  fr_instr : Z;
  fr_bits4_11 : Z;
  fr_shift_imm : Z;
  fr_cond : Z;
  fr_index : Z;
  fr_word : Z;
  fr_byte : Z
}.

Section Instruction.
Context `{T : Target}.
Context {M : Type -> Type} `{!MRet M, !MBind M, !ArmCore M}.

(** The macros of trace_location.h in this file. *)
Definition at_line (line : Z) {A} (m : M A) : M A :=
  core_located "arm_instruction.c" line m.

Definition logicalShift (value shift : Z) (direction : Ascii.ascii) : M Z :=
  if Ascii.eqb direction "r"%char then mret (shr32 value shift)
  else if Ascii.eqb direction "l"%char then mret (shl32 value shift)
  else
    core_printf ("Invalid shift direction argument! Possible unreliable result!"
                 +:+ newline);;
    mret 0.

(** The flag updates compute a word and drop it. *)
Definition update_Flag (line b : Z) (indice : Z) : M unit :=
  flag ← at_line line core_read_cpsr;
  let _ := if indice =? 1 then set_bit flag b else clr_bit flag b in
  mret ().
Definition update_Flag_Z (indice : Z) : M unit := update_Flag 304 bit_Z indice.
Definition update_Flag_N (indice : Z) : M unit := update_Flag 312 bit_N indice.
Definition update_Flag_C (indice : Z) : M unit := update_Flag 320 bit_C indice.
Definition update_Flag_V (indice : Z) : M unit := update_Flag 328 bit_V indice.

Definition update_flag (operands_result : Z) : M unit :=
  flag ← at_line 335 core_read_cpsr;
  if get_bit flag 20 =? 1 then
    (if operands_result =? 0 then update_Flag_Z 1 else mret ());;
    (if get_bit64 operands_result 31 =? 1 then update_Flag_N 1 else mret ());;
    (if negb (get_bits64 operands_result 63 32 =? 0) then
       update_Flag_V 1;; update_Flag_C 1
     else mret ())
  else mret ().

(** [cond] fr is the garbage a caller sees when no return was executed. *)
Definition ConditionPassed (fr : frame) (cond : Z) : M Z :=
  flag ← at_line 515 core_read_cpsr;
  let n := get_bit flag 31 in
  let z := get_bit flag 30 in
  let c := get_bit flag 29 in
  let v := get_bit flag 28 in
  let passed (b : bool) : M Z := mret (if b then 1 else fr_cond fr) in
  if cond =? 0 then passed (z =? 1)
  else if cond =? 1 then passed (z =? 0)
  else if cond =? 2 then passed (c =? 1)
  else if cond =? 3 then passed (c =? 0)
  else if cond =? 4 then passed (n =? 1)
  else if cond =? 5 then passed (n =? 0)
  else if cond =? 6 then passed (v =? 1)
  else if cond =? 7 then passed (v =? 0)
  else if cond =? 8 then passed ((c =? 1) && (z =? 0))
  else if cond =? 9 then passed ((c =? 0) && (z =? 1))
  else if cond =? 10 then passed (n =? v)
  else if cond =? 11 then passed (negb (n =? v))
  else if cond =? 12 then passed ((z =? 0) && (n =? v))
  else if cond =? 13 then passed ((z =? 1) || negb (n =? v))
  else mret (-1).

(** The carry flag of the CPSR, read at a line of the file. *)
Definition carry_flag (line : Z) : M Z :=
  cpsr ← at_line line core_read_cpsr; mret (get_bit cpsr bit_C).

(** [shiftedRegisterOperand]: the operand and the new [*shifter_carry_out].
    [shift_imm] is assigned in the first case only; [rs] stays the number of
    the register. *)
Definition shiftedRegisterOperand (fr : frame) (ins : Z) : M (Z * Z)%type :=
  let bits4_6 := get_bits ins 6 4 in
  rm ← at_line 352 (core_read_register (get_bits ins 3 0));
  let rs := get_bits ins 11 8 in
  let bits7_11 := get_bits ins 11 7 in
  let rs_bits_0_7 := get_bits rs 7 0 in
  let rs_bits_0_4 := get_bits rs 4 0 in
  let shift_imm := fr_shift_imm fr in
  if bits4_6 =? 0 then (* LSL Immediate *)
    let shift_imm := get_bits ins 11 7 in
    if shift_imm =? 0 then
      c ← carry_flag 362; mret (rm, c)
    else
      op ← logicalShift rm shift_imm "l";
      mret (op, get_bit rm (32 - shift_imm))
  else if bits4_6 =? 1 then (* LSL Register *)
    if rs_bits_0_7 =? 0 then
      c ← carry_flag 374; mret (rm, c)
    else if rs_bits_0_7 <? 32 then
      op ← logicalShift rm rs_bits_0_7 "l";
      mret (op, get_bit rm (32 - rs_bits_0_7))
    else if rs_bits_0_7 =? 32 then mret (0, get_bit rm 0)
    else mret (0, 0)
  else if bits4_6 =? 2 then (* LSR Immediate *)
    if shift_imm =? 0 then mret (0, get_bit rm 31)
    else
      op ← logicalShift rm shift_imm "r";
      mret (op, get_bit rm (u32 (shift_imm - 1)))
  else if bits4_6 =? 3 then (* LSR Register *)
    if rs_bits_0_7 =? 0 then
      c ← carry_flag 405; mret (rm, c)
    else if rs_bits_0_7 <? 32 then
      op ← logicalShift rm rs_bits_0_7 "r";
      mret (op, get_bit rm (u32 (rs_bits_0_7 - 1)))
    else if rs_bits_0_7 =? 32 then mret (0, get_bit rm 31)
    else mret (0, 0)
  else if bits4_6 =? 4 then (* ASR Immediate *)
    if shift_imm =? 0 then
      mret (if get_bit rm 31 =? 0 then 0 else 0xFFFFFFFF, get_bit rm 31)
    else mret (asr rm shift_imm, get_bit rm (u32 (shift_imm - 1)))
  else if bits4_6 =? 5 then (* ASR Register *)
    if rs_bits_0_7 =? 0 then
      c ← carry_flag 441; mret (rm, c)
    else if rs_bits_0_7 <? 32 then
      mret (asr rm rs_bits_0_7, get_bit rm (u32 (rs_bits_0_7 - 1)))
    else mret (if get_bit rm 31 =? 0 then 0 else 0xFFFFFFFF, get_bit rm 31)
  else if bits4_6 =? 6 then (* ROR Immediate *)
    let cFlag := get_bit (get_bit ins 16) bit_C in
    val1 ← logicalShift cFlag 31 "l";
    val2 ← logicalShift rm 1 "r";
    if bits7_11 =? 0 then mret (Z.lor val1 val2, get_bit rm 0)
    else if shift_imm =? 0 then mret (Z.lor val1 val2, get_bit rm 0)
    else mret (ror rm shift_imm, get_bit rm (u32 (shift_imm - 1)))
  else (* 7: ROR Register; the field has three bits *)
    if rs_bits_0_7 =? 0 then
      c ← carry_flag 484; mret (rm, c)
    else if rs_bits_0_4 =? 0 then mret (rm, get_bit rm 31)
    else mret (ror rm rs_bits_0_4, get_bit rm (u32 (rs_bits_0_4 - 1))).

(** The operand of a data-processing instruction (lines 64 to 84). *)
Definition shifter_operand (fr : frame) (res bit25 : Z) : M (Z * Z)%type :=
  if bit25 =? 0 then
    if negb (c_true (fr_bits4_11 fr)) then
      operand2 ← at_line 67 (core_read_register (get_bits res 3 0));
      c ← carry_flag 68;
      mret (operand2, c)
    else shiftedRegisterOperand fr res
  else
    let bit8_11 := get_bits res 11 8 in
    let bit0_7 := get_bits res 7 0 in
    let operand2 := ror bit0_7 (bit8_11 * 2) in
    if bit8_11 =? 0 then
      c ← carry_flag 81; mret (operand2, c)
    else mret (operand2, get_bit operand2 31).

(** A case that writes [rd] and then calls [update_flag]. *)
Definition write_and_flags (line rd operands_result : Z) : M unit :=
  at_line line (core_write_register rd (u32 operands_result));;
  update_flag operands_result.

(** TST and TEQ, after [alu_out]. *)
Definition test_flags (alu_out shifter_carry_out : Z) : M unit :=
  update_Flag_Z (c_not alu_out);;
  update_Flag_N (get_bit64 alu_out 31);;
  update_Flag_C (s32 shifter_carry_out).

(** CMP and CMN, after [alu_out]. *)
Definition compare_flags (alu_out : Z) : M unit :=
  update_Flag_Z (c_not alu_out);;
  update_Flag_N (get_bit64 alu_out 31);;
  if negb (get_bits64 alu_out 63 32 =? 0) then
    update_Flag_V 1;; update_Flag_C 1
  else mret ().

(** [!operand3] of SBC and RSC. *)
Definition not_carry (line : Z) : M Z :=
  operand3 ← carry_flag line;
  mret (if negb (c_true operand3) then 1 else 0).

(** The switch on the opcode (lines 86 to 221).  The C expressions are of type
    uint32_t before they are stored in a uint64_t. *)
Definition data_processing (opcode operand1 operand2 shifter_carry_out rd : Z)
    : M unit :=
  if opcode =? 0 then (* AND *)
    write_and_flags 89 rd (Z.land operand1 operand2)
  else if opcode =? 1 then (* EOR *)
    write_and_flags 95 rd (Z.lxor operand1 operand2)
  else if opcode =? 2 then (* SUB *)
    write_and_flags 101 rd (u32 (operand1 - operand2))
  else if opcode =? 3 then (* RSB *)
    write_and_flags 107 rd (u32 (operand2 - operand1))
  else if opcode =? 4 then (* ADD *)
    write_and_flags 113 rd (u32 (operand1 + operand2))
  else if opcode =? 5 then (* ADC *)
    operand3 ← carry_flag 118;
    write_and_flags 120 rd (u32 (u32 (operand1 + operand2) + operand3))
  else if opcode =? 6 then (* SBC *)
    operand3 ← not_carry 125;
    write_and_flags 129 rd (u32 (u32 (operand1 - operand2) - operand3))
  else if opcode =? 7 then (* RSC *)
    operand3 ← not_carry 134;
    write_and_flags 138 rd (u32 (u32 (operand2 - operand1) - operand3))
  else if opcode =? 8 then (* TST *)
    test_flags (Z.land operand1 operand2) shifter_carry_out
  else if opcode =? 9 then (* TEQ *)
    test_flags (Z.lor operand1 operand2) shifter_carry_out
  else if opcode =? 10 then (* CMP *)
    compare_flags (u32 (operand1 - operand2))
  else if opcode =? 11 then (* CMN *)
    compare_flags (u32 (operand1 + operand2))
  else if opcode =? 12 then (* ORR *)
    let operands_result := Z.lor operand1 operand2 in
    update_flag operands_result;;
    at_line 205 (core_write_register rd (u32 operands_result))
  else if opcode =? 13 then (* MOV *)
    at_line 209 (core_write_register rd (u32 operand2))
  else if opcode =? 14 then (* BIC *)
    write_and_flags 214 rd (Z.land operand1 (c_not operand2))
  else if opcode =? 15 then (* MVN *)
    at_line 219 (core_write_register rd (u32 (c_not operand2)))
  else mret ().

Definition loadStoreByteOrWord (fr : frame)
    (load_store_address rd_value bit20 bit22 rd : Z) : M unit :=
  if negb (c_true bit20) && negb (c_true bit22) then (* STR *)
    at_line 275 (core_write_word load_store_address rd_value);;
    '(r, _) ← at_line 276 (core_read_word load_store_address (fr_word fr));
    core_printf ("Just wrote word : " +:+ fmt_d r +:+ newline)
  else if negb (c_true bit20) && c_true bit22 then (* STRB *)
    at_line 279 (core_write_byte load_store_address (get_bits rd_value 7 0));;
    '(r, _) ← at_line 280 (core_read_byte load_store_address (fr_byte fr));
    core_printf ("Just wrote byte : " +:+ fmt_d r +:+ newline)
  else if c_true bit20 && negb (c_true bit22) then (* LDR *)
    '(r, _) ← at_line 284 (core_read_word load_store_address (fr_word fr));
    let val1 := u32 r in
    let val2 := get_bits load_store_address 1 0 in
    let data := ror val1 (8 * val2) in
    if rd =? 15 then
      at_line 288 (core_write_register rd (Z.land data 0xFFFFFFFE))
    else at_line 290 (core_write_register rd data)
  else if c_true bit20 && c_true bit22 then (* LDRB *)
    core_printf ("Executing LDRB" +:+ newline);;
    '(r, _) ← at_line 294 (core_read_byte load_store_address (fr_byte fr));
    let y := u8 r in
    core_printf ("register number (r) = " +:+ fmt_d (s32 rd)
                 +:+ ", value to load to r = " +:+ fmt_d y +:+ newline);;
    at_line 296 (core_write_register rd y)
  else
    core_printf ("Error during loading or storing a byte or a word to memory"
                 +:+ newline).

(** The three classes of the outer switch that do something. *)
Definition execute_data_processing (fr : frame)
    (res instr operand1 rd cond_bits : Z) : M unit :=
  let bit23_24 := get_bits res 24 23 in
  let bit20 := get_bit res 20 in
  if (bit23_24 =? 2) && (bit20 =? 0) then
    let _ := arm_miscellaneous instr in mret ()
  else
    passed ← ConditionPassed fr cond_bits;
    if c_true passed then
      '(operand2, shifter_carry_out) ← shifter_operand fr res (get_bit res 25);
      data_processing (get_bits res 24 21) operand1 operand2 shifter_carry_out rd
    else
      core_printf ("Condition not passed (bits 28 - 31)" +:+ newline).

Definition execute_load_store (fr : frame) (res instr rd cond_bits : Z)
    : M unit :=
  passed ← ConditionPassed fr cond_bits;
  if c_true passed then
    let load_store_address := u32 (arm_load_store (fr_index fr) instr) in
    let bit20 := get_bit res 20 in
    let bit22 := get_bit res 22 in
    rd_value ← at_line 236 (core_read_register rd);
    loadStoreByteOrWord fr load_store_address rd_value bit20 bit22 rd
  else mret ().

Definition execute_branch (fr : frame) (res instr cond_bits : Z) : M unit :=
  if get_bit res 25 =? 0 then
    let _ := arm_load_store_multiple instr in mret ()
  else
    passed ← ConditionPassed fr cond_bits;
    if c_true passed then arm_branch instr;; mret () else mret ().

(** What follows the fetch: [ret] is its result, [instr] the variable. *)
Definition execute_fetched (fr : frame) (ret instr : Z) : M Z :=
  let res := u32 ret in
  let bits26_27 := get_bits res 27 26 in
  operand1 ← at_line 50 (core_read_register (get_bits res 19 16));
  let rd := get_bits res 15 12 in
  let cond_bits := get_bits res 31 28 in
  (if bits26_27 =? 0 then
     execute_data_processing fr res instr operand1 rd cond_bits
   else if bits26_27 =? 1 then execute_load_store fr res instr rd cond_bits
   else if bits26_27 =? 2 then execute_branch fr res instr cond_bits
   else
     if get_bit res 25 =? 0 then
       let _ := arm_coprocessor_load_store instr in mret ()
     else mret ());;
  mret 0.

Definition arm_execute_instruction (fr : frame) : M Z :=
  '(ret, instr) ← at_line 45 (core_fetch (fr_instr fr));
  execute_fetched fr ret instr.

Definition arm_step (fr : frame) : M Z :=
  result ← arm_execute_instruction fr;
  (if c_true result then arm_exception result else mret ());;
  mret result.
End Instruction.

(** ** Refinement

    Every definition above, with the trace, refines its reading on the
    architecture; two free entries of the location stack are enough. *)

Section Refinement.
Context `{T : Target}.

Lemma refines_exception n e :
  Refines (Datatypes.S n) (arm_exception e) (arm_exception e).
Proof. unfold arm_exception. refines. Qed.
#[local] Hint Resolve refines_exception : refines.

Lemma refines_branch n ins :
  Refines (Datatypes.S (Datatypes.S n)) (arm_branch ins) (arm_branch ins).
Proof. unfold arm_branch, located_branch. refines. Qed.
#[local] Hint Resolve refines_branch : refines.

Lemma refines_logicalShift n v s d :
  Refines n (logicalShift v s d) (logicalShift v s d).
Proof. unfold logicalShift. refines. Qed.
#[local] Hint Resolve refines_logicalShift : refines.

Lemma refines_update_Flag n line b i :
  Refines (Datatypes.S n) (update_Flag line b i) (update_Flag line b i).
Proof. unfold update_Flag, at_line. refines. Qed.
#[local] Hint Resolve refines_update_Flag : refines.

Lemma refines_update_flag n r :
  Refines (Datatypes.S n) (update_flag r) (update_flag r).
Proof.
  unfold update_flag, update_Flag_Z, update_Flag_N, update_Flag_V,
    update_Flag_C, at_line. refines.
Qed.
#[local] Hint Resolve refines_update_flag : refines.

Lemma refines_carry_flag n line :
  Refines (Datatypes.S n) (carry_flag line) (carry_flag line).
Proof. unfold carry_flag, at_line. refines. Qed.
#[local] Hint Resolve refines_carry_flag : refines.

Lemma refines_ConditionPassed n fr cond :
  Refines (Datatypes.S n) (ConditionPassed fr cond) (ConditionPassed fr cond).
Proof. unfold ConditionPassed, at_line. refines. Qed.
#[local] Hint Resolve refines_ConditionPassed : refines.

Lemma refines_shiftedRegisterOperand n fr ins :
  Refines (Datatypes.S n) (shiftedRegisterOperand fr ins)
    (shiftedRegisterOperand fr ins).
Proof. unfold shiftedRegisterOperand, at_line. refines. Qed.
#[local] Hint Resolve refines_shiftedRegisterOperand : refines.

Lemma refines_shifter_operand n fr res b :
  Refines (Datatypes.S n) (shifter_operand fr res b) (shifter_operand fr res b).
Proof. unfold shifter_operand, at_line. refines. Qed.
#[local] Hint Resolve refines_shifter_operand : refines.

Lemma refines_data_processing n op a b c rd :
  Refines (Datatypes.S n) (data_processing op a b c rd)
    (data_processing op a b c rd).
Proof.
  unfold data_processing, write_and_flags, test_flags, compare_flags, not_carry,
    update_Flag_Z, update_Flag_N, update_Flag_V, update_Flag_C, at_line.
  refines.
Qed.
#[local] Hint Resolve refines_data_processing : refines.

Lemma refines_loadStoreByteOrWord n fr a v b20 b22 rd :
  Refines (Datatypes.S n) (loadStoreByteOrWord fr a v b20 b22 rd)
    (loadStoreByteOrWord fr a v b20 b22 rd).
Proof. unfold loadStoreByteOrWord, at_line. refines. Qed.
#[local] Hint Resolve refines_loadStoreByteOrWord : refines.

Lemma refines_step n fr :
  Refines (Datatypes.S (Datatypes.S n)) (arm_step fr) (arm_step fr).
Proof.
  unfold arm_step, arm_execute_instruction, execute_fetched,
    execute_data_processing,
    execute_load_store, execute_branch, at_line.
  refines.
Qed.
#[local] Hint Resolve refines_step : refines.
End Refinement.
