(* ===== verification/Gdb.v ===== *)
(** * gdb_protocol.c: the remote protocol of gdb

    [gdbs] is the state of the connection: the simulator (whose memory is the
    one [gdb->mem] points to: main passes the same block to [arm_create] and
    to [gdb_scanner]), the fields of the C struct that change, the bytes
    written to the socket and whether [kill_request] shut it down.  What the
    functions do to the outside is the interface [Connection]; its instance
    [gdb_connection] takes every byte and records it, the one of Socket.v makes
    the system calls.

    Text is a list of bytes.  The [data] argument of a handler is the content
    of memory from the character after the command on: the C strings in it end
    with a 0, and the handlers that do not stop there read on.  [gframe] is
    what the handlers find in their uninitialised variables.

    The macros of debug.h are the operation [message] of the connection, with the
    file, the line (none for debug_raw) and the text, which is only looked at,
    and may be undefined, when the file is debugged.  [gdb_connection] is the
    connection of a server on which it is not; Socket.v has the table. *)
From S2P Require Import Prelude Util Debug Constants Memory Registers Trace.
From S2P Require Import Core.
From S2P Require Import LoadStore Branch Instruction.

Definition MAX_PACKET_SIZE : Z := 1024.

Record gdb_protocol_data := {
  target_exception : Z;
  packet : list Z;
  len : Z
}.

Record gdbs := {
  g_sim : sim;
  g_data : gdb_protocol_data;
  g_out : list Z;
  g_shut : bool
}.

Record gframe := {
  gf_step : nat -> frame;
  gf_instruction : Z;
  gf_value : Z -> Z;
  gf_address : Z;
  gf_size : Z;
  gf_reg : Z;
  gf_given : Z;
  gf_byte : Z
}.

Abbreviation Gdb := (ST gdbs).

(** ** The connection

    What the code of gdb_protocol.c uses: the simulator, the struct of the
    connection, its socket, the lock of the server and the debug messages. *)

(** The files with messages, by their __FILE__ (flex emits #line directives). *)
Inductive source_file := Gdb_protocol_c | Scanner_l.
Definition file_name (f : source_file) : string :=
  match f with Gdb_protocol_c => "gdb_protocol.c" | Scanner_l => "scanner.l" end.

Class Connection (M : Type -> Type) := {
  on_sim : forall {A}, Sim A -> M A;
  get_data : M gdb_protocol_data;
  put_data : gdb_protocol_data -> M unit;
  Rio_writen : list Z -> M unit;
  shutdown : M unit;
  mutex_lock : M unit;
  mutex_unlock : M unit;
  message (file : source_file) (line : option Z) (text : option string) : M unit
}.

Definition gdb_sim {A} (m : Sim A) : Gdb A := fun g =>
  match m (g_sim g) with
  | Ok a s => Ok a {| g_sim := s; g_data := g_data g; g_out := g_out g;
                      g_shut := g_shut g |}
  | Fault f => Fault f
  end.
Definition with_data (d : gdb_protocol_data) (g : gdbs) : gdbs :=
  {| g_sim := g_sim g; g_data := d; g_out := g_out g; g_shut := g_shut g |}.

(** The connection that takes everything and records it, with no other thread
    and no file debugged. *)
#[export] Instance gdb_connection : Connection Gdb := {
  on_sim := @gdb_sim;
  get_data := g ← get_state; mret (g_data g);
  put_data := fun d g => Ok () (with_data d g);
  Rio_writen := fun bs g =>
    Ok () {| g_sim := g_sim g; g_data := g_data g; g_out := g_out g ++ bs;
             g_shut := g_shut g |};
  shutdown := fun g =>
    Ok () {| g_sim := g_sim g; g_data := g_data g; g_out := g_out g;
             g_shut := true |};
  mutex_lock := mret ();
  mutex_unlock := mret ();
  message := fun _ _ _ => mret ()
}.

(** debug and debug_raw in gdb_protocol.c. *)
Definition gdb_debug `{!Connection M} (line : Z) (text : option string) : M unit :=
  message Gdb_protocol_c (Some line) text.
Definition gdb_debug_raw `{!Connection M} (text : option string) : M unit :=
  message Gdb_protocol_c None text.

(** ** Characters *)


Definition bytes_of (s : string) : list Z :=
  (fun a => Z.of_N (Ascii.N_of_ascii a)) <$> String.list_ascii_of_string s.

Definition hex_digit (d : Z) : Z := if d <? 10 then 48 + d else 87 + d.
(** [%02x] of an unsigned char. *)
Definition hex2 (v : Z) : list Z := [hex_digit (v / 16); hex_digit (v mod 16)].

Definition digit_value (c : Z) : option Z :=
  if (48 <=? c) && (c <=? 57) then Some (c - 48)
  else if (97 <=? c) && (c <=? 102) then Some (c - 87)
  else if (65 <=? c) && (c <=? 70) then Some (c - 55)
  else None.
Definition isspace (c : Z) : bool := (c =? 32) || ((9 <=? c) && (c <=? 13)).

(** The digits of a number, at most [width] of them: their value, their count
    and what follows. *)
Fixpoint scan_digits (base : Z) (width : nat) (s : list Z) (acc : Z) (n : nat)
    : Z * nat * list Z :=
  match width, s with
  | Datatypes.S width', c :: s' =>
      match digit_value c with
      | Some d => if d <? base then scan_digits base width' s' (acc * base + d)
                                                (Datatypes.S n)
                  else (acc, n, s)
      | None => (acc, n, s)
      end
  | _, _ => (acc, n, s)
  end.

Fixpoint skip_spaces (s : list Z) : list Z :=
  match s with
  | c :: s' => if isspace c then skip_spaces s' else s
  | [] => []
  end.

(** An optional sign, which counts in the width. *)
Definition scan_sign (width : nat) (s : list Z) : bool * nat * list Z :=
  match width, s with
  | Datatypes.S w, c :: s' =>
      if c =? 45 then (true, w, s') else if c =? 43 then (false, w, s')
      else (false, width, s)
  | _, _ => (false, width, s)
  end.

(** strtoul of the digits, converted to [unsigned int]. *)
Definition strtoul_value (neg : bool) (v : Z) : Z :=
  if v <? 2 ^ 64 then u32 (if neg then - v else v) else u32 (2 ^ 64 - 1).

(** [%x] with a field width: spaces, a sign, an 0x prefix, hexadecimal digits.
    [None] is a matching failure: nothing is assigned. *)
Definition scan_hex (width : nat) (s : list Z) : option (Z * list Z) :=
  let '(neg, w, s) := scan_sign width (skip_spaces s) in
  let '(w, s, prefix) :=
    match w, s with
    | Datatypes.S (Datatypes.S w'), 48 :: x :: s' =>
        if (x =? 120) || (x =? 88) then (w', s', true) else (w, s, false)
    | _, _ => (w, s, false)
    end in
  let '(v, n, rest) := scan_digits 16 w s 0 0 in
  match n with
  | O => if prefix : bool then Some (0, rest) else None
  | _ => Some (strtoul_value neg v, rest)
  end.

(** atoi: strtol, saturated at the limits of long, converted to int. *)
Definition atoi (s : list Z) : Z :=
  let '(neg, w, s) := scan_sign 1 (skip_spaces s) in
  let '(v, _, _) := scan_digits 10 (length s) s 0 0 in
  s32 (if neg : bool then Z.max (- v) (- 2 ^ 63) else Z.min v (2 ^ 63 - 1)).

(** The C string at the head of a block: a read past the block has no result. *)
Fixpoint cstring (s : list Z) : option (list Z) :=
  match s with
  | [] => None
  | 0 :: _ => Some []
  | c :: s' => t ← cstring s'; Some (c :: t)
  end.

(** sscanf(data, "%x") and sscanf(data, "%x,%x"). *)
Definition sscanf_x (s : list Z) (v0 : Z) : option Z :=
  t ← cstring s;
  Some (match scan_hex (2 + length t) t with Some (v, _) => v | None => v0 end).
Definition sscanf_x_x (s : list Z) (a0 b0 : Z) : option (Z * Z) :=
  t ← cstring s;
  Some (match scan_hex (2 + length t) t with
        | None => (a0, b0)
        | Some (a, 44 :: rest) =>
            match scan_hex (2 + length rest) rest with Some (b, _) => (a, b) | None => (a, b0) end
        | Some (a, _) => (a, b0)
        end).

(** ** Packets *)

(** Consecutive writes to the packet, from index [i] on. *)
Fixpoint write_at (i : Z) (bs : list Z) (p : list Z) : option (list Z) :=
  match bs with
  | [] => Some p
  | b :: bs => p ← buf_set p i b; write_at (i + 1) bs p
  end.

(** The loop over the text of the packet: the index of its 0 and the sum of the
    characters; [rem] is 1024 - [i], and reading index 1024 has no result. *)
Fixpoint scan_packet (rem : nat) (p : list Z) (i check : Z) : option (Z * Z) :=
  c ← buf_get p i;
  if c =? 0 then Some (i, check)
  else match rem with
       | O => None
       | Datatypes.S rem => scan_packet rem p (i + 1) (u8 (check + c))
       end.

Section Packets.
Context {M : Type -> Type} `{!Connection M, !MStop M, !MBind M, !MRet M}.

Definition set_exception (e : Z) : M unit :=
  d ← get_data;
  put_data {| target_exception := e; packet := packet d; len := len d |}.
Definition put_packet (p : list Z) : M unit :=
  d ← get_data;
  put_data {| target_exception := target_exception d; packet := p; len := len d |}.

(** sprintf and strcpy: the text and its final 0. *)
Definition put_text (i : Z) (text : list Z) : M unit :=
  d ← get_data;
  p ← of_option (write_at i (text ++ [0]) (packet d));
  put_packet p.

Definition gdb_transmit_packet : M unit :=
  d ← get_data;
  gdb_debug 447 (t ← cstring (packet d);
    Some ("Transmitting packet: " +:+ fmt_s t +:+ newline)%string);;
  bs ← of_option (if len d <=? Z.of_nat (length (packet d))
                  then Some (take (Z.to_nat (len d)) (packet d)) else None);
  Rio_writen bs.

Definition gdb_send_ack : M unit := Rio_writen (bytes_of "+").
Definition gdb_require_retransmission : M unit := Rio_writen (bytes_of "-").

Definition gdb_send_buffer : M unit :=
  d ← get_data;
  p ← of_option (buf_set (packet d) 0 36);
  '(i, check) ← of_option (scan_packet 1024 p 1 0);
  p ← of_option (buf_set p i 35);
  p ← of_option (write_at (i + 1) (hex2 check ++ [0]) p);
  let i := i + 3 in
  p ← of_option (buf_set p i 0);
  put_data {| target_exception := target_exception d; packet := p; len := i |};;
  gdb_transmit_packet.

(** strcpy to [gdb->buffer], which is [gdb->packet+1]. *)
Definition gdb_send_data (data : list Z) : M unit :=
  put_text 1 data;; gdb_send_buffer.
End Packets.

(** ** Words *)

Section Words.
Context `{T : Target}.

(** The indices of the loops of [read_uint32] and [write_uint32]: [i] and
    [step] are unsigned, [step] is 1 or 0xFFFFFFFF. *)
Fixpoint byte_indices (fuel : nat) (i step : Z) : list Z :=
  match fuel with
  | O => []
  | Datatypes.S fuel =>
      if (i <? 4) && (0 <=? i) then i :: byte_indices fuel (u32 (i + step)) step
      else []
  end.
Definition uint32_indices : option (list Z) :=
  b ← is_big_endian;
  Some (if b =? c_bool big_endian_simulator then byte_indices 5 0 1
        else byte_indices 5 3 (u32 (-1))).

(** The integer of the union, from its bytes. *)
Definition host_integer (bs : list Z) : Z :=
  little_endian_to_Z 8 (if host_big_endian then reverse bs else bs).

(** sscanf(data, "%02x", &value) for each index. *)
Fixpoint read_bytes (idx : list Z) (data : list Z) (value : Z) (bytes : list Z)
    : option (list Z) :=
  match idx with
  | [] => Some bytes
  | i :: idx =>
      t ← cstring data;
      let value := match scan_hex 2 t with Some (v, _) => v | None => value end in
      bytes ← buf_set bytes i (u8 value);
      read_bytes idx (drop 2 data) value bytes
  end.

(** [value0] is what [value] holds before the first conversion. *)
Definition read_uint32 (data : list Z) (value0 : Z) : option Z :=
  idx ← uint32_indices;
  bytes ← read_bytes idx data value0 [0; 0; 0; 0];
  Some (host_integer bytes).

Fixpoint write_bytes (idx : list Z) (bytes : list Z) : option (list Z) :=
  match idx with
  | [] => Some []
  | i :: idx =>
      b ← buf_get bytes i; rest ← write_bytes idx bytes; Some (hex2 b ++ rest)
  end.

(** The text [write_uint32] writes, before its final 0. *)
Definition write_uint32 (value : Z) : option (list Z) :=
  idx ← uint32_indices; write_bytes idx (host_bytes value).
End Words.

(** ** Handlers *)

Section Handlers.
Context `{T : Target}.
Context {M : Type -> Type} `{!Connection M, !MStop M, !MBind M, !MRet M}.

Definition located_gdb (line : Z) {A} (m : Sim A) : M A :=
  on_sim (located "gdb_protocol.c" line m).

Definition gdb_send_stop_reason : M unit :=
  d ← get_data;
  if target_exception d =? UNDEFINED_INSTRUCTION then
    gdb_send_data (bytes_of "S04")
  else if (target_exception d =? PREFETCH_ABORT) || (target_exception d =? DATA_ABORT)
  then gdb_send_data (bytes_of "S10")
  else gdb_send_data (bytes_of "S05").

(** [arm_step] and [trace_arm_state], in [cont] and [step]. *)
Definition step_and_trace (fr : frame) : M unit :=
  r ← on_sim (arm_step (M := Sim) fr);
  set_exception r;;
  on_sim trace_arm_state.

(** The loop of [cont]; [k] numbers its steps.  It reports whether it ended. *)
Fixpoint cont_loop (fuel : nat) (fr : gframe) (k : nat) (instruction : Z)
    : M unit :=
  match fuel with
  | O => stop Running
  | Datatypes.S fuel =>
      on_sim trace_disable;;
      pc ← located_gdb 169 (Core.arm_read_register 15);
      let r15 := u32 (pc - 4) in
      '(_, instruction) ← located_gdb 170 (arm_read_word r15 instruction);
      on_sim trace_enable;;
      if Z.land instruction 0xFFF000F0 =? 0xE7F000F0 then mret ()
      else
        step_and_trace (gf_step fr k);;
        cont_loop fuel fr (Datatypes.S k) instruction
  end.

Definition cont (fuel : nat) (fr : gframe) : M unit :=
  cont_loop fuel fr 0 (gf_instruction fr);; gdb_send_stop_reason.

Definition kill_request : M unit := shutdown.

Definition query (data : list Z) : M unit :=
  t ← of_option (cstring data);
  if bool_decide (t = bytes_of "Offsets") then
    gdb_send_data (bytes_of "Text=0;Data=0;Bss=0")
  else if bool_decide (take 9 t = bytes_of "Supported") then
    gdb_send_data (bytes_of "PacketSize=400")
  else if bool_decide (t = bytes_of "TStatus") then
    gdb_send_data (bytes_of "T0;tnotrun:0")
  else gdb_send_data [].

(** write_uint32(position, value), [position] being an index of the packet. *)
Definition put_uint32 (position value : Z) : M unit :=
  t ← of_option (write_uint32 value); put_text position t.

Fixpoint put_registers (regs : list Z) (position : Z) : M Z :=
  match regs with
  | [] => mret position
  | i :: regs =>
      v ← located_gdb 217 (Core.arm_read_register i);
      put_uint32 position v;;
      put_registers regs (position + 8)
  end.

Fixpoint put_unknown (n : nat) (position : Z) : M Z :=
  match n with
  | O => mret position
  | Datatypes.S n =>
      put_text position (bytes_of "xxxxxxxx");; put_unknown n (position + 8)
  end.

Definition read_general_registers : M unit :=
  on_sim trace_disable;;
  position ← put_registers (Z.of_nat <$> seq 0 15) 1;
  pc ← located_gdb 221 (Core.arm_read_register 15);
  put_uint32 position (u32 (pc - 4));;
  position ← put_unknown 24 (position + 8);
  put_text position (bytes_of "xxxxxxxx");;
  cpsr ← located_gdb 235 arm_read_cpsr;
  put_uint32 (position + 8) cpsr;;
  on_sim trace_enable;;
  gdb_send_buffer.

(** The loop of [read_memory]; every turn writes two more characters of the
    packet, so 1024 turns of fuel are never used up. *)
Fixpoint dump_memory (fuel : nat) (size address value position : Z) : M unit :=
  match fuel with
  | O => stop Running
  | Datatypes.S fuel =>
      if size =? 0 then mret ()
      else
        p ← on_sim get_arm;
        '(r, value) ← of_option (memory_read_byte (mem p) address value);
        if r =? -1 then mret ()
        else
          put_text position (hex2 value);;
          dump_memory fuel (size - 1) (u32 (address + 1)) value (position + 2)
  end.

Definition read_memory (fr : gframe) (data : list Z) : M unit :=
  '(address, size) ← of_option (sscanf_x_x data (gf_address fr) (gf_size fr));
  put_text 1 [];;
  dump_memory 1024 size address (gf_byte fr) 1;;
  gdb_send_buffer.

Definition assert (b : bool) : M unit := if b then mret () else stop AssertFailed.

(** [read_register] of this file. *)
Definition gdb_read_register (data : list Z) : M unit :=
  t ← of_option (cstring data);
  let reg := u32 (atoi t) in
  assert (reg <? 16);;
  on_sim trace_disable;;
  v ← located_gdb 260 (Core.arm_read_register (u8 reg));
  put_uint32 1 (u32 (v - (if reg =? 15 then 4 else 0)));;
  on_sim trace_enable;;
  gdb_send_buffer.

Definition reason : M unit := gdb_send_stop_reason.

Definition set_thread (data : list Z) : M unit :=
  type ← of_option (buf_get data 0);
  t ← of_option (cstring (drop 1 data));
  let value := atoi t in
  if ((type =? 99) || (type =? 103)) && (value <? 1) && (-2 <? value)
  then gdb_send_data (bytes_of "OK") else gdb_send_data (bytes_of "E01").

Definition step (fr : gframe) : M unit :=
  step_and_trace (gf_step fr 0);; gdb_send_stop_reason.

(** The sixteen registers of [write_general_registers]. *)
Fixpoint set_registers (fr : gframe) (regs : list Z) (data : list Z) : M unit :=
  match regs with
  | [] => mret ()
  | i :: regs =>
      value ← of_option (read_uint32 data (gf_value fr i));
      located_gdb 297 (arm_write_register i value);;
      gdb_debug 298 (Some ("r" +:+ fmt_02d i +:+ " = " +:+ fmt_08x value +:+ "   ")%string);;
      (if i mod 4 =? 3 then gdb_debug_raw (Some newline) else mret ());;
      set_registers fr regs (drop 8 data)
  end.

(** The words it reads and drops: f0 to f7 and fps. *)
Fixpoint drop_words (fr : gframe) (n : nat) (data : list Z) : M unit :=
  match n with
  | O => mret ()
  | Datatypes.S n =>
      _ ← of_option (read_uint32 data (gf_value fr 16)); drop_words fr n (drop 8 data)
  end.

Definition write_general_registers (fr : gframe) (data : list Z) : M unit :=
  on_sim trace_disable;;
  set_registers fr (Z.of_nat <$> seq 0 16) data;;
  drop_words fr 25 (drop 128 data);;
  value ← of_option (read_uint32 (drop 328 data) (gf_value fr 17));
  located_gdb 322 (arm_write_cpsr value);;
  gdb_debug 323 (Some ("cpsr = " +:+ fmt_08x value +:+ newline)%string);;
  on_sim trace_enable;;
  gdb_send_data (bytes_of "OK").

(** The loop of [write_memory_binary], [count] bytes left to write from the
    [i]-th one on; the data is read as far as the block goes. *)
Fixpoint store_memory (content : list Z) (i count address : Z) : M bool :=
  if count =? 0 then mret true
  else
    let store value rest :=
      p ← on_sim get_arm;
      '(r, m) ← of_option (memory_write_byte (mem p) address (u8 value));
      on_sim (put_arm (with_mem m p));;
      (if i <? 32 then gdb_debug_raw (Some (fmt_02x (u8 value))) else mret ());;
      if r =? 0 then rest else mret false in
    match content with
    | [] => stop OutOfBounds
    | 0x7d :: [] => stop OutOfBounds
    | 0x7d :: c :: content =>
        store (Z.lxor c 0x20) (store_memory content (i + 1) (count - 1) (u32 (address + 1)))
    | c :: content =>
        store c (store_memory content (i + 1) (count - 1) (u32 (address + 1)))
    end.

(** index(data, c) + 1: what follows the first [c] of the C string. *)
Fixpoint after_char (c : Z) (s : list Z) : option (list Z) :=
  match s with
  | [] => None
  | x :: s' => if x =? c then Some s' else if x =? 0 then None else after_char c s'
  end.

Definition write_memory_binary (fr : gframe) (data : list Z) : M unit :=
  '(address, size) ← of_option (sscanf_x_x data (gf_address fr) (gf_size fr));
  content ← of_option (after_char 58 data);
  gdb_debug 336 (Some ("Writing " +:+ fmt_d (s32 size) +:+ " bytes at address "
    +:+ fmt_08x address +:+ " : ")%string);;
  p ← on_sim get_arm;
  write_ok ← (if address <? memory_get_size (mem p)
              then store_memory content 0 size address else mret false);
  gdb_debug_raw (Some ("..." +:+ newline)%string);;
  if write_ok : bool then gdb_send_data (bytes_of "OK")
  else gdb_send_data (bytes_of "E02").

(** [write_register] of this file. *)
Definition gdb_write_register (fr : gframe) (data : list Z) : M unit :=
  reg ← of_option (sscanf_x data (gf_reg fr));
  data ← of_option (after_char 61 data);
  value ← of_option (read_uint32 data (gf_value fr 0));
  assert (reg <? 16);;
  on_sim trace_disable;;
  located_gdb 365 (arm_write_register reg value);;
  on_sim trace_enable;;
  gdb_debug 367 (Some ("Writing " +:+ fmt_d (s32 value) +:+ " to register "
    +:+ fmt_d (s32 reg) +:+ newline)%string);;
  gdb_send_data (bytes_of "OK").

(** ** Dispatch *)

Inductive command :=
  | CmdCont | CmdKill | CmdQuery | CmdReadGeneralRegisters | CmdReadMemory
  | CmdReadRegister | CmdReason | CmdSetThread | CmdStep
  | CmdWriteGeneralRegisters | CmdWriteMemoryBinary | CmdWriteRegister.

(** The table [gdb_init] fills, by the code of the character. *)
Definition handler (c : Z) : option command :=
  if c =? 99 then Some CmdCont
  else if c =? 107 then Some CmdKill
  else if c =? 113 then Some CmdQuery
  else if c =? 103 then Some CmdReadGeneralRegisters
  else if c =? 109 then Some CmdReadMemory
  else if c =? 112 then Some CmdReadRegister
  else if c =? 63 then Some CmdReason
  else if c =? 72 then Some CmdSetThread
  else if c =? 115 then Some CmdStep
  else if c =? 71 then Some CmdWriteGeneralRegisters
  else if c =? 88 then Some CmdWriteMemoryBinary
  else if c =? 80 then Some CmdWriteRegister
  else None.

Definition run_handler (fuel : nat) (fr : gframe) (c : command) (data : list Z)
    : M unit :=
  match c with
  | CmdCont => cont fuel fr
  | CmdKill => kill_request
  | CmdQuery => query data
  | CmdReadGeneralRegisters => read_general_registers
  | CmdReadMemory => read_memory fr data
  | CmdReadRegister => gdb_read_register data
  | CmdReason => reason
  | CmdSetThread => set_thread data
  | CmdStep => step fr
  | CmdWriteGeneralRegisters => write_general_registers fr data
  | CmdWriteMemoryBinary => write_memory_binary fr data
  | CmdWriteRegister => gdb_write_register fr data
  end.

(** The checksum of the [n] characters of the block from index [i] on. *)
Fixpoint sum_chars (n : nat) (block : list Z) (i check : Z) : option Z :=
  match n with
  | O => Some check
  | Datatypes.S n =>
      c ← buf_get block i; sum_chars n block (i + 1) (u8 (check + c))
  end.

(** [block] is memory from [packet] on, [length] the length of the packet. *)
Definition gdb_packet_analysis (fuel : nat) (fr : gframe) (block : list Z)
    (length : Z) : M unit :=
  let i := Z.max 1 (length - 3) in
  check ← of_option (sum_chars (Z.to_nat (i - 1)) block 1 0);
  given ← of_option (sscanf_x (drop (Z.to_nat (i + 1)) block) (gf_given fr));
  gdb_debug 423 (Some "Received packet : "%string);;
  gdb_debug_raw (t ← cstring block;
    bs ← debug_raw_binary (Nat.min 16 (Datatypes.length t)) block 0; Some (fmt_s bs));;
  if check =? given then
    gdb_debug_raw (Some (", checksum ok" +:+ newline)%string);;
    gdb_send_ack;;
    block ← of_option (buf_set block i 0);
    index ← of_option (buf_get block 1);
    match handler index with
    | Some c =>
        mutex_lock;; run_handler fuel fr c (drop 2 block);; mutex_unlock
    | None =>
        gdb_debug 441 (Some ("Unsupported request, sending empty answer" +:+ newline)%string);;
        gdb_send_data []
    end
  else
    gdb_debug_raw (Some (", checksum failed, expected " +:+ fmt_02x_uint given
      +:+ " got " +:+ fmt_02x check +:+ newline)%string);;
    gdb_debug 430 (Some ("Requiring retransmission" +:+ newline)%string);;
    gdb_require_retransmission.
End Handlers.

(** [gdb_init_data]; the packet is what malloc returned. *)
Definition gdb_init_data (block : list Z) : gdb_protocol_data :=
  {| target_exception := 0; packet := block; len := 0 |}.
