(* ===== verification/Run.v ===== *)
(** * Running the operations of the architecture

    What each operation of [arch_core] gives on a processor with its 18
    registers: the equations the proofs about single instructions rewrite
    with. *)
From S2P Require Import Prelude Util Constants Memory Registers Trace Core.

(** A register of the processor, as the register readers give it. *)
Definition gpr (p : arm_core_data) (r : Z) : Z := reg_value (reg p) r.
Definition gpr_view (p : arm_core_data) (r : Z) : Z := pc_view r (gpr p r).
Definition cpsr_of (p : arm_core_data) : Z := gpr p 16.

Definition set_gpr (r v : Z) (p : arm_core_data) : arm_core_data :=
  with_reg {| r_data := <[Z.to_nat r := v]> (r_data (reg p)) |} p.

(** The address a fetch reads and the processor it leaves. *)
Definition fetch_address (p : arm_core_data) : Z := u32 (gpr_view p 15 - 4).
Definition after_fetch (p : arm_core_data) : arm_core_data :=
  set_gpr 15 (u32 (fetch_address p + 4))
    (with_cycle (u32 (cycle_count p + 1)) p).

Definition has_regs (p : arm_core_data) : Prop :=
  length (r_data (reg p)) = 18%nat.

Lemma has_regs_set r v p : has_regs p -> has_regs (set_gpr r v p).
Proof. unfold has_regs. simpl. by rewrite length_insert. Qed.
Lemma has_regs_cycle c p : has_regs p -> has_regs (with_cycle c p).
Proof. done. Qed.
Lemma has_regs_fetch p : has_regs p -> has_regs (after_fetch p).
Proof. intros. by apply has_regs_set. Qed.

Create HintDb run discriminated.
#[export] Hint Constants Opaque : run.
#[export] Hint Resolve has_regs_set has_regs_cycle has_regs_fetch : run.

Lemma gpr_set_gpr r r' v p :
  has_regs p -> 0 <= r < 18 ->
  gpr (set_gpr r v p) r' = if r' =? r then v else gpr p r'.
Proof.
  intros Hp Hr. unfold gpr, reg_value. simpl.
  assert (E : buf_set (r_data (reg p)) r v =
              Some (<[Z.to_nat r := v]> (r_data (reg p)))).
  { apply buf_set_Some. rewrite Hp. lia. }
  destruct (Z.eqb_spec r' r) as [->|].
  - by rewrite (buf_get_set_eq _ _ _ _ E).
  - by rewrite (buf_get_set_ne _ _ _ _ _ E).
Qed.

Lemma gpr_set_eq r v p : has_regs p -> 0 <= r < 18 -> gpr (set_gpr r v p) r = v.
Proof. intros. rewrite gpr_set_gpr by done. by rewrite Z.eqb_refl. Qed.
Lemma gpr_set_ne r r' v p :
  has_regs p -> 0 <= r < 18 -> r' <> r -> gpr (set_gpr r v p) r' = gpr p r'.
Proof. intros. rewrite gpr_set_gpr by done. by destruct (Z.eqb_spec r' r). Qed.

(** ** The operations *)

Lemma run_read r p :
  has_regs p -> 0 <= r < 16 -> core_read_register r p = Ok (gpr_view p r) p.
Proof.
  intros Hp Hr. simpl. unfold arch_read_register, arch_regs, read_register.
  rewrite bind_eq. simpl. rewrite u8_small by (unfold is_u8; lia).
  by rewrite (reg_get _ r Hp) by lia.
Qed.

Lemma run_read_cpsr p : has_regs p -> core_read_cpsr p = Ok (cpsr_of p) p.
Proof.
  intros Hp. simpl. unfold arch_regs, read_cpsr. rewrite bind_eq. simpl.
  by rewrite (reg_get _ 16 Hp).
Qed.

Lemma run_write r v p :
  has_regs p -> 0 <= r < 16 -> core_write_register r v p = Ok () (set_gpr r v p).
Proof.
  intros Hp Hr. simpl. unfold arch_set_regs, write_register, store_register.
  rewrite bind_eq. simpl. rewrite u8_small by (unfold is_u8; lia).
  by rewrite buf_set_Some by (rewrite Hp; lia).
Qed.

Lemma run_printf str p : core_printf str p = Ok () p.
Proof. done. Qed.

Lemma run_located {A} file line (m : Arch A) : core_located file line m = m.
Proof. done. Qed.

Lemma run_read_word a x y p :
  memory_read_word (mem p) a x = Some y -> core_read_word a x p = Ok y p.
Proof. intros H. simpl. unfold arch_read. rewrite bind_eq. simpl. by rewrite H. Qed.

Lemma run_read_byte a x y p :
  memory_read_byte (mem p) a x = Some y -> core_read_byte a x p = Ok y p.
Proof. intros H. simpl. unfold arch_read. rewrite bind_eq. simpl. by rewrite H. Qed.

Lemma run_write_word a v r m p :
  memory_write_word (mem p) a v = Some (r, m) ->
  core_write_word a v p = Ok r (with_mem m p).
Proof. intros H. simpl. unfold arch_write. rewrite bind_eq. simpl. by rewrite H. Qed.

Lemma run_write_byte a v r m p :
  memory_write_byte (mem p) a (u8 v) = Some (r, m) ->
  core_write_byte a v p = Ok r (with_mem m p).
Proof. intros H. simpl. unfold arch_write. rewrite bind_eq. simpl. by rewrite H. Qed.

Lemma run_fetch v p :
  has_regs p ->
  core_fetch v p =
  match memory_read_word (mem p) (fetch_address p) v with
  | Some x => Ok x (after_fetch p)
  | None => Fault OutOfBounds
  end.
Proof.
  intros Hp. simpl. unfold arch_fetch.
  rewrite (bind_ok _ _ p p p) by done.
  rewrite (bind_ok _ _ p () (with_cycle (u32 (cycle_count p + 1)) p)) by done.
  rewrite (bind_ok _ _ _ _ _ (run_read 15 _ (has_regs_cycle _ _ Hp) ltac:(lia))).
  cbv zeta. unfold arch_read at 1. rewrite bind_eq.
  rewrite (bind_ok _ _ (with_cycle _ _) (with_cycle (u32 (cycle_count p + 1)) p)
    (with_cycle (u32 (cycle_count p + 1)) p)) by done.
  change (mem (with_cycle _ p)) with (mem p).
  change (u32 (gpr_view (with_cycle _ p) 15 - 4)) with (fetch_address p).
  destruct (memory_read_word _ _ _) as [x|]; [|done]. simpl.
  assert (E := run_write 15 (u32 (fetch_address p + 4)) _
    (has_regs_cycle (u32 (cycle_count p + 1)) _ Hp) ltac:(lia)).
  simpl in E. by rewrite (bind_ok _ _ _ _ _ E).
Qed.

(** ** The program counter *)

(** Clearing bit 1, as the register readers do, keeps a multiple of four. *)
Lemma land_clear_bit_1 x : is_u32 x -> x mod 4 = 0 -> Z.land x 0xFFFFFFFD = x.
Proof.
  intros Hx Hm. change 0xFFFFFFFD with (Z.ldiff (Z.ones 32) 2).
  assert (Z.testbit x 1 = false) as H1.
  { change 4 with (2 ^ 2) in Hm. rewrite <- (Z.mod_pow2_bits_low x 2) by lia.
    by rewrite Hm. }
  apply Z.bits_inj'. intros i Hi.
  rewrite Z.land_spec, Z.ldiff_spec, testbit_ones by lia.
  destruct (Z.eq_dec i 1) as [->|Hne]; [by rewrite H1|].
  assert (Z.testbit 2 i = false) as ->.
  { destruct (Z.eq_dec i 0) as [->|]; [done|]. apply (testbit_above 2); lia. }
  destruct (Z.ltb_spec i 32); [by rewrite andb_true_r|].
  rewrite (testbit_above 32 x) by (done || lia). done.
Qed.

Lemma u32_mod_4 x : u32 x mod 4 = x mod 4.
Proof.
  unfold u32, wrap. change (2 ^ 32) with (4 * 2 ^ 30).
  rewrite Z.rem_mul_r by lia.
  rewrite Z.mul_comm, Z_mod_plus_full, Z.mod_mod by lia. done.
Qed.

(** Reading the program counter of an aligned instruction gives 4 more. *)
Lemma pc_view_aligned v : is_u32 v -> v mod 4 = 0 -> pc_view 15 v = u32 (v + 4).
Proof.
  intros Hv Hm. unfold pc_view. simpl. apply land_clear_bit_1; [apply u32_range|].
  rewrite u32_mod_4. rewrite <- Z.add_mod_idemp_l by lia. by rewrite Hm.
Qed.

Lemma fetch_address_aligned p :
  is_u32 (gpr p 15) -> gpr p 15 mod 4 = 0 -> fetch_address p = gpr p 15.
Proof.
  intros Hv Hm. unfold fetch_address, gpr_view.
  rewrite pc_view_aligned by done. rewrite u32_sub_l.
  replace (gpr p 15 + 4 - 4) with (gpr p 15) by lia. by apply u32_small.
Qed.
