(* ===== verification/Invariant.v ===== *)
(** * The invariant of the processor and the safety of a step

    [Triple F I m Q]: run from a state of the invariant [I], [m] ends in a state
    of [I] with a result in [Q]; it may fault only if [F] holds.  With
    [F := True] this is the preservation of the invariant, with [F := False]
    the absence of faults; both come from one proof. *)
From S2P Require Import Prelude Util Constants Memory Registers Trace Core.
From S2P Require Import Refine LoadStore Branch Instruction Run.

Definition Triple {S A} (F : Prop) (I : S -> Prop) (m : ST S A) (Q : A -> Prop)
    : Prop :=
  forall s, I s -> match m s with Ok a s' => I s' /\ Q a | Fault _ => F end.

Section Rules.
Context {S : Type} (F : Prop) (I : S -> Prop).

Lemma triple_ret {A} (a : A) (Q : A -> Prop) : Q a -> Triple F I (mret a) Q.
Proof. intros H s Hs. by split. Qed.

Lemma triple_bind {A B} (m : ST S A) (k : A -> ST S B) Q1 Q :
  Triple F I m Q1 -> (forall a, Q1 a -> Triple F I (k a) Q) ->
  Triple F I (m ≫= k) Q.
Proof.
  intros Hm Hk s Hs. rewrite bind_eq. specialize (Hm s Hs).
  destruct (m s) as [a s'|f]; [|done]. destruct Hm as [Hs' Ha].
  exact (Hk a Ha s' Hs').
Qed.

Lemma triple_if {A} (b : bool) (m1 m2 : ST S A) Q :
  (b = true -> Triple F I m1 Q) -> (b = false -> Triple F I m2 Q) ->
  Triple F I (if b then m1 else m2) Q.
Proof. destruct b; auto. Qed.

Lemma triple_weaken {A} (m : ST S A) (Q1 Q2 : A -> Prop) :
  Triple F I m Q1 -> (forall a, Q1 a -> Q2 a) -> Triple F I m Q2.
Proof.
  intros Hm HQ s Hs. specialize (Hm s Hs).
  destruct (m s) as [a s'|f]; [|done]. destruct Hm. auto.
Qed.
End Rules.

(** A well-formed processor: 18 words, a well-formed memory, a 32-bit counter. *)
Record core_wf (p : arm_core_data) : Prop := {
  wf_regs : regs_wf (reg p);
  wf_mem : mem_wf (mem p);
  wf_cycle : is_u32 (cycle_count p)
}.

(** The invariant of a step, at given status registers and memory size. *)
Record step_inv (cpsr spsr size : Z) (p : arm_core_data) : Prop := {
  inv_wf : core_wf p;
  inv_cpsr : reg_value (reg p) 16 = cpsr;
  inv_spsr : reg_value (reg p) 17 = spsr;
  inv_size : mem_size (mem p) = size
}.

Lemma pc_view_u32 r v : is_u32 v -> is_u32 (pc_view r v).
Proof. unfold pc_view. destruct (r =? 15); auto with words. Qed.

Section Operations.
Context (F : Prop) (cpsr spsr size : Z).
Abbreviation inv := (step_inv cpsr spsr size).

Lemma arch_regs_run {A} (f : registers_data -> option A) p a :
  f (reg p) = Some a -> arch_regs f p = Ok a p.
Proof. intros H. unfold arch_regs. rewrite bind_eq. simpl. by rewrite H. Qed.

Lemma triple_read_register r :
  0 <= r < 18 -> Triple F inv (core_read_register r) is_u32.
Proof.
  intros Hr p Hp. pose proof (wf_regs _ (inv_wf _ _ _ _ Hp)) as Hw.
  simpl. unfold arch_read_register, read_register.
  rewrite u8_small by (unfold is_u8; lia).
  erewrite arch_regs_run; [|by rewrite (reg_get _ _ (regs_wf_length _ Hw))].
  split; [done|]. by apply pc_view_u32, reg_value_u32.
Qed.

Lemma triple_read_cpsr : Triple F inv core_read_cpsr (fun v => v = cpsr).
Proof.
  intros p Hp. pose proof (wf_regs _ (inv_wf _ _ _ _ Hp)) as Hw.
  simpl. erewrite arch_regs_run; [|by apply (reg_get _ 16 (regs_wf_length _ Hw))].
  split; [done|]. apply Hp.
Qed.

Lemma triple_write_register r v :
  0 <= r < 16 -> is_u32 v -> Triple F inv (core_write_register r v) (fun _ => True).
Proof.
  intros Hr Hv p [[Hw Hm Hc] H16 H17 Hsz]. simpl.
  rewrite u8_small by (unfold is_u8; lia).
  destruct (store_register_spec (reg p) r v) as (r' & E & _ & Hget & Hwf);
    [apply Hw | lia |].
  unfold arch_set_regs, write_register. rewrite bind_eq. simpl. rewrite E.
  split; [|done]. split; simpl; [by split; auto|..|done]; rewrite Hget.
  - destruct (Z.eqb_spec 16 r); [lia | done].
  - destruct (Z.eqb_spec 17 r); [lia | done].
Qed.

Lemma triple_printf str : Triple F inv (core_printf str) (fun _ => True).
Proof. intros p Hp. by split. Qed.

Lemma triple_located {A} file line (m : Arch A) Q :
  Triple F inv m Q -> Triple F inv (core_located file line m) Q.
Proof. done. Qed.

Lemma read_word_u32 m a x ret v :
  mem_wf m -> memory_read_word m a x = Some (ret, v) ->
  a <= mem_size m -> is_u32 v /\ ret = s32 v.
Proof.
  intros Hm E Ha. unfold memory_read_word in E.
  destruct (Z.leb_spec a (mem_size m)); [|lia].
  repeat match type of E with
  | (?x ≫= _) = Some _ => destruct x; [cbn in E|done]
  end.
  destruct (_ =? 0); simplify_eq; split; try done; auto 10 with words.
Qed.

(** A memory access that may be made: the fault is allowed or the address is
    one the code handles. *)
Definition word_ok (a : Z) : Prop := 0 <= a /\ (a + 3 < size \/ size < a).
Definition byte_ok (a : Z) : Prop := 0 <= a /\ (a < size \/ size < a).

Lemma triple_read_word a x :
  F \/ word_ok a -> Triple F inv (core_read_word a x) (fun _ => True).
Proof.
  intros Ha p Hp. simpl. unfold arch_read. rewrite bind_eq. simpl.
  destruct (memory_read_word (mem p) a x) as [y|] eqn:E; [by split|].
  destruct Ha as [|[Ha Hr]]; [done|].
  pose proof (wf_mem _ (inv_wf _ _ _ _ Hp)) as Hm. destruct Hp as [_ _ _ <-].
  destruct Hr as [Hlt|Hgt].
  - destruct (read_word_field (mem p) a x) as (? & _ & _ & _ & E'); [done..|].
    congruence.
  - unfold memory_read_word in E. by destruct (Z.leb_spec a (mem_size (mem p))); [lia|].
Qed.

Lemma triple_read_byte a x :
  F \/ byte_ok a -> Triple F inv (core_read_byte a x) (fun _ => True).
Proof.
  intros Ha p Hp. simpl. unfold arch_read. rewrite bind_eq. simpl.
  destruct (memory_read_byte (mem p) a x) as [y|] eqn:E; [by split|].
  destruct Ha as [|[Ha Hr]]; [done|].
  pose proof (wf_mem _ (inv_wf _ _ _ _ Hp)) as Hm. destruct Hp as [_ _ _ <-].
  unfold memory_read_byte in E. destruct (Z.leb_spec a (mem_size (mem p))); [|done].
  destruct (mem_get (mem p) a) as (b & Eb & _); [done|lia|]. by rewrite Eb in E.
Qed.

(** Two reads in a row see the same memory, so a read that follows the fetch
    of the same word cannot be the failing one; a store needs its bytes. *)
Lemma inv_with_mem p m :
  inv p -> mem_wf m -> mem_size m = mem_size (mem p) -> inv (with_mem m p).
Proof. intros [[Hw Hm Hc] H16 H17 Hsz] Hm' E. split; simpl; [by split|..]; congruence. Qed.

Lemma memory_write_word_inv m a v r m' :
  mem_wf m -> memory_write_word m a v = Some (r, m') ->
  mem_wf m' /\ mem_size m' = mem_size m.
Proof.
  intros [Hsz Hlim Hb He] E. unfold memory_write_word in E.
  assert (forall b1 b2 b3 b4 i1 i2 i3 i4 v1 v2 v3 v4,
    buf_set (mem_address m) i1 (u8 v1) = Some b1 -> buf_set b1 i2 (u8 v2) = Some b2 ->
    buf_set b2 i3 (u8 v3) = Some b3 -> buf_set b3 i4 (u8 v4) = Some b4 ->
    mem_wf (with_block m b4)) as Hb4.
  { intros * E1 E2 E3 E4.
    pose proof (buf_set_length _ _ _ _ E1). pose proof (buf_set_length _ _ _ _ E2).
    pose proof (buf_set_length _ _ _ _ E3). pose proof (buf_set_length _ _ _ _ E4).
    split; simpl; [lia | done | | done].
    eapply (buf_set_Forall is_u8); [|apply u8_range | exact E4].
    eapply (buf_set_Forall is_u8); [|apply u8_range | exact E3].
    eapply (buf_set_Forall is_u8); [|apply u8_range | exact E2].
    by eapply (buf_set_Forall is_u8); [|apply u8_range | exact E1]. }
  destruct (_ =? 1).
  all: repeat match type of E with
       | (?x ≫= _) = Some _ => destruct x eqn:?; [cbn in E|done]
       end; simplify_eq; split; [eauto|done].
Qed.

Lemma triple_write_word a v :
  F \/ (0 <= a /\ a + 3 < size) ->
  Triple F inv (core_write_word a v) (fun _ => True).
Proof.
  intros Ha p Hp. simpl. unfold arch_write. rewrite bind_eq. simpl.
  pose proof (wf_mem _ (inv_wf _ _ _ _ Hp)) as Hm.
  destruct (memory_write_word (mem p) a v) as [[r m']|] eqn:E; simpl.
  - destruct (memory_write_word_inv _ _ _ _ _ Hm E). split; [|done].
    by apply inv_with_mem.
  - destruct Ha as [|[Ha Hr]]; [done|]. destruct Hp as [_ _ _ <-].
    destruct (write_word_stored (mem p) a v) as (m' & E' & _); [done..|].
    congruence.
Qed.

Lemma triple_write_byte a v :
  F \/ 0 <= a < size -> Triple F inv (core_write_byte a v) (fun _ => True).
Proof.
  intros Ha p Hp. simpl. unfold arch_write. rewrite bind_eq. simpl.
  pose proof (wf_mem _ (inv_wf _ _ _ _ Hp)) as Hm. unfold memory_write_byte.
  destruct (buf_set (mem_address (mem p)) a (u8 v)) as [b|] eqn:E; simpl.
  - split; [|done]. apply inv_with_mem; [done| |done].
    destruct Hm as [Hsz Hlim Hb He]. pose proof (buf_set_length _ _ _ _ E).
    split; simpl; [lia | done | | done].
    eapply (buf_set_Forall is_u8); [done | apply u8_range | exact E].
  - destruct Ha as [|Ha]; [done|]. destruct Hp as [_ _ _ <-].
    rewrite buf_set_Some in E; [done|]. by rewrite <- (mem_wf_size _ Hm).
Qed.
End Operations.

(** ** The functions of arm_instruction.c *)

Create HintDb triples discriminated.
#[export] Hint Constants Opaque : triples.
#[export] Hint Resolve triple_read_cpsr triple_printf triple_read_byte
  triple_read_word triple_write_byte triple_write_word : triples.

Section Functions.
Context `{T : Target}.
Context (F : Prop) (cpsr spsr size : Z).
Abbreviation inv := (step_inv cpsr spsr size).

Ltac triple_step :=
  lazymatch goal with
  | |- Triple _ _ (mret _) _ => apply triple_ret
  | |- Triple _ _ (core_located _ _ _) _ => apply triple_located
  | |- Triple _ _ (if _ then _ else _) _ =>
      apply triple_if; let E := fresh "Hif" in intros E
  | |- Triple _ _ (let '(_, _) := ?p in _) _ => destruct p
  | |- Triple _ _ (@mbind _ _ unit _ _ _) _ =>
      apply triple_bind with (fun _ => True); [|intros _ _]
  | |- Triple _ _ (mbind _ _) _ => eapply triple_bind; [|intros ? ?]
  | |- Triple _ _ _ _ => solve [eauto with triples words]
  end.
Ltac triples := cbv zeta; repeat triple_step.

Lemma triple_update_Flag line b i :
  Triple F inv (update_Flag line b i) (fun _ => True).
Proof. unfold update_Flag, at_line. triples. done. Qed.
#[local] Hint Resolve triple_update_Flag : triples.

Lemma triple_update_flag r : Triple F inv (update_flag r) (fun _ => True).
Proof.
  unfold update_flag, update_Flag_Z, update_Flag_N, update_Flag_V,
    update_Flag_C, at_line. triples; done.
Qed.
#[local] Hint Resolve triple_update_flag : triples.

Lemma triple_carry_flag line :
  Triple F inv (carry_flag line) (fun c => is_u32 c).
Proof.
  unfold carry_flag, at_line. triples. auto with words.
Qed.
#[local] Hint Resolve triple_carry_flag : triples.

Lemma triple_ConditionPassed fr cond :
  Triple F inv (ConditionPassed fr cond) (fun _ => True).
Proof. unfold ConditionPassed, at_line. triples; done. Qed.
#[local] Hint Resolve triple_ConditionPassed : triples.

Lemma triple_read_gpr r :
  0 <= r < 18 -> Triple F inv (core_read_register r) is_u32.
Proof. apply triple_read_register. Qed.
#[local] Hint Resolve triple_read_gpr : triples.

Lemma triple_logicalShift v n d :
  is_u32 v -> Triple F inv (logicalShift v n d) is_u32.
Proof. intros Hv. unfold logicalShift. triples; auto with words. Qed.
#[local] Hint Resolve triple_logicalShift : triples.

Lemma field_4 x h l : 0 <= l -> l < 32 -> h = l + 3 -> 0 <= get_bits x h l < 16.
Proof.
  intros ? ? ->. pose proof (get_bits_range x (l + 3) l).
  replace (l + 3 - l + 1) with 4 in * by lia. lia.
Qed.

(** The operand and the carry are words, whatever the frame. *)
Definition words (x : Z * Z) : Prop := is_u32 x.1 /\ is_u32 x.2.

Lemma words_pair x y : is_u32 x -> is_u32 y -> words (x, y).
Proof. by split. Qed.
#[local] Hint Resolve words_pair : words.

Lemma triple_shiftedRegisterOperand fr ins :
  Triple F inv (shiftedRegisterOperand fr ins) words.
Proof.
  unfold shiftedRegisterOperand, at_line. cbv zeta.
  eapply triple_bind; [apply triple_located, triple_read_gpr|intros rm Hrm].
  { pose proof (field_4 ins 3 0). lia. }
  triples; auto 10 with words.
Qed.
#[local] Hint Resolve triple_shiftedRegisterOperand : triples.

Lemma triple_shifter_operand fr res b :
  Triple F inv (shifter_operand fr res b) words.
Proof.
  unfold shifter_operand, at_line. cbv zeta.
  assert (Triple F inv (core_read_register (get_bits res 3 0)) is_u32).
  { pose proof (field_4 res 3 0). apply triple_read_gpr. lia. }
  assert (is_u32 (get_bits res 7 0)) by (apply get_bits_u32; lia).
  triples; auto with words.
Qed.
#[local] Hint Resolve triple_shifter_operand : triples.

Lemma triple_write rd v :
  0 <= rd < 16 -> is_u32 v -> Triple F inv (core_write_register rd v) (fun _ => True).
Proof. apply triple_write_register. Qed.
#[local] Hint Resolve triple_write : triples.

Lemma triple_data_processing op a b c rd :
  is_u32 a -> is_u32 b -> 0 <= rd < 16 ->
  Triple F inv (data_processing op a b c rd) (fun _ => True).
Proof.
  intros Ha Hb Hrd.
  unfold data_processing, write_and_flags, test_flags, compare_flags, not_carry,
    update_Flag_Z, update_Flag_N, update_Flag_V, update_Flag_C, at_line.
  triples; auto with words.
  all: instantiate (1 := fun _ => True); done.
Qed.
#[local] Hint Resolve triple_data_processing : triples.

(** The data access of a load or store whose address is [a]. *)
Definition access_ok (a bit20 bit22 : Z) : Prop :=
  if c_true bit20 then if c_true bit22 then byte_ok size a else word_ok size a
  else if c_true bit22 then 0 <= a < size else 0 <= a /\ a + 3 < size.

Lemma triple_loadStoreByteOrWord fr a v bit20 bit22 rd :
  F \/ access_ok a bit20 bit22 -> 0 <= rd < 16 ->
  Triple F inv (loadStoreByteOrWord fr a v bit20 bit22 rd) (fun _ => True).
Proof.
  intros Ha Hrd. unfold loadStoreByteOrWord, access_ok, at_line in *.
  destruct (c_true bit20), (c_true bit22); cbn [negb andb].
  - triples; eauto with triples words.
  - triples; eauto with triples words.
  - assert (F \/ byte_ok size a) by (unfold byte_ok; tauto).
    triples; eauto with triples words.
  - assert (F \/ word_ok size a) by (unfold word_ok; tauto).
    triples; eauto with triples words.
Qed.
#[local] Hint Resolve triple_loadStoreByteOrWord : triples.

(** The data access the fetched instruction makes, if it is a load or store. *)
Definition fetched_access_ok (fr : frame) (ret instr : Z) : Prop :=
  get_bits (u32 ret) 27 26 = 1 ->
  access_ok (u32 (arm_load_store (fr_index fr) instr)) (get_bit (u32 ret) 20)
    (get_bit (u32 ret) 22).

Lemma triple_arm_branch ins :
  Triple F inv (arm_branch ins) (fun _ => True).
Proof.
  unfold arm_branch, located_branch.
  assert (Triple F inv (core_read_register 15) is_u32)
    by (apply triple_read_gpr; lia).
  assert (forall r v, (r = 14 \/ r = 15) -> is_u32 v ->
    Triple F inv (core_write_register r v) (fun _ => True)) as Hw.
  { intros r v Hr Hv. apply triple_write; [lia|done]. }
  triples; first [exact I | apply Hw; auto with words].
Qed.
#[local] Hint Resolve triple_arm_branch : triples.

Lemma triple_execute_data_processing fr res instr a rd cond :
  is_u32 a -> 0 <= rd < 16 ->
  Triple F inv (execute_data_processing fr res instr a rd cond) (fun _ => True).
Proof.
  intros Ha Hrd. unfold execute_data_processing. cbv zeta.
  apply triple_if; intros _; [by apply triple_ret|].
  eapply triple_bind; [apply triple_ConditionPassed|]. intros passed _.
  apply triple_if; intros _; [|apply triple_printf].
  eapply triple_bind; [apply triple_shifter_operand|]. intros [op c] [Hop _].
  by apply triple_data_processing.
Qed.

Lemma triple_execute_load_store fr res instr rd cond :
  F \/ access_ok (u32 (arm_load_store (fr_index fr) instr)) (get_bit res 20)
        (get_bit res 22) ->
  0 <= rd < 16 ->
  Triple F inv (execute_load_store fr res instr rd cond) (fun _ => True).
Proof.
  intros Ha Hrd. unfold execute_load_store, at_line. cbv zeta.
  eapply triple_bind; [apply triple_ConditionPassed|]. intros passed _.
  apply triple_if; intros _; [|by apply triple_ret].
  eapply triple_bind; [apply triple_located, triple_read_gpr; lia|]. intros v _.
  by apply triple_loadStoreByteOrWord.
Qed.

Lemma triple_execute_branch fr res instr cond :
  Triple F inv (execute_branch fr res instr cond) (fun _ => True).
Proof.
  unfold execute_branch. cbv zeta.
  apply triple_if; intros _; [by apply triple_ret|].
  eapply triple_bind; [apply triple_ConditionPassed|]. intros passed _.
  apply triple_if; intros _; [|by apply triple_ret].
  eapply triple_bind; [apply triple_arm_branch|]. intros _ _. by apply triple_ret.
Qed.

Lemma triple_execute_fetched fr ret instr :
  F \/ fetched_access_ok fr ret instr ->
  Triple F inv (execute_fetched fr ret instr) (fun r => r = 0).
Proof.
  intros Ha. unfold execute_fetched, at_line. cbv zeta.
  pose proof (field_4 (u32 ret) 15 12) as Hrd.
  pose proof (field_4 (u32 ret) 19 16) as Hrn.
  eapply triple_bind; [apply triple_located, triple_read_gpr; lia|]. intros v Hv.
  apply triple_bind with (fun _ => True); [|intros _ _; by apply triple_ret].
  apply triple_if; intros H0; [apply triple_execute_data_processing; auto; lia|].
  apply triple_if; intros H1.
  { apply triple_execute_load_store; [|lia]. destruct Ha as [|Ha]; [by left|].
    right. apply Ha. lia. }
  apply triple_if; intros _; [apply triple_execute_branch|].
  apply triple_if; intros _; by apply triple_ret.
Qed.
End Functions.

(** ** One step *)

Lemma wf_has_regs p : core_wf p -> has_regs p.
Proof. intros [[Hl _] _ _]. exact Hl. Qed.

Lemma set_gpr_wf r v p :
  core_wf p -> 0 <= r < 18 -> is_u32 v -> core_wf (set_gpr r v p).
Proof.
  intros Hp Hr Hv. pose proof (wf_has_regs p Hp) as Hl.
  destruct Hp as [[_ Hw] Hm Hc].
  split; simpl; [|done|done]. split; simpl; [by rewrite length_insert|].
  by apply Forall_insert.
Qed.

Lemma set_gpr_inv c sp n r v p :
  step_inv c sp n p -> 0 <= r < 16 -> is_u32 v -> step_inv c sp n (set_gpr r v p).
Proof.
  intros [Hw H16 H17 Hs] Hr Hv. pose proof (wf_has_regs p Hw) as Hl.
  split; [apply set_gpr_wf; (done || lia)|..|done].
  - change (gpr (set_gpr r v p) 16 = c). rewrite gpr_set_ne by (done || lia). done.
  - change (gpr (set_gpr r v p) 17 = sp). rewrite gpr_set_ne by (done || lia). done.
Qed.

Lemma after_fetch_inv c sp n p :
  step_inv c sp n p -> step_inv c sp n (after_fetch p).
Proof.
  intros Hp. apply set_gpr_inv; [|lia|apply u32_range].
  destruct Hp as [[Hw Hm Hc] H16 H17 Hs]. split; simpl; try done.
  split; simpl; [done..|apply u32_range].
Qed.

Lemma core_wf_inv p :
  core_wf p -> step_inv (gpr p 16) (gpr p 17) (mem_size (mem p)) p.
Proof. by split. Qed.

Section Step.
Context `{T : Target}.

(** [arm_step] is its instruction: the result is 0, so no exception. *)
Lemma run_step fr p :
  has_regs p ->
  (forall r p', arm_execute_instruction (M := Arch) fr p = Ok r p' -> r = 0) ->
  arm_step (M := Arch) fr p = arm_execute_instruction (M := Arch) fr p.
Proof.
  intros Hp H0. unfold arm_step. rewrite bind_eq.
  destruct (arm_execute_instruction (M := Arch) fr p) as [r p'|f] eqn:E; [|done].
  rewrite (H0 r p') by done. done.
Qed.

Lemma execute_inv (F : Prop) c sp n fr p :
  step_inv c sp n p ->
  (F \/ word_ok n (fetch_address p) /\
        forall ret instr,
          memory_read_word (mem p) (fetch_address p) (fr_instr fr) =
            Some (ret, instr) -> fetched_access_ok n fr ret instr) ->
  match arm_execute_instruction (M := Arch) fr p with
  | Ok r p' => step_inv c sp n p' /\ r = 0
  | Fault _ => F
  end.
Proof.
  intros Hp HF. pose proof (wf_has_regs p (inv_wf _ _ _ _ Hp)) as Hl.
  unfold arm_execute_instruction, at_line.
  rewrite run_located, bind_eq, run_fetch by done.
  destruct (memory_read_word _ _ _) as [[ret instr]|] eqn:E.
  - apply (triple_execute_fetched F c sp n fr ret instr); [|by apply after_fetch_inv].
    destruct HF as [|[_ HF]]; [by left | right; by apply HF].
  - destruct HF as [|[[Ha Hok] _]]; [done|].
    pose proof (triple_read_word False c sp n (fetch_address p) (fr_instr fr)
      (or_intror (conj Ha Hok)) p Hp) as H. simpl in H. unfold arch_read in H.
    rewrite bind_eq in H. simpl in H. by rewrite E in H.
Qed.

Lemma step_inv_preserved (F : Prop) c sp n fr p :
  step_inv c sp n p ->
  (F \/ word_ok n (fetch_address p) /\
        forall ret instr,
          memory_read_word (mem p) (fetch_address p) (fr_instr fr) =
            Some (ret, instr) -> fetched_access_ok n fr ret instr) ->
  match arm_step (M := Arch) fr p with
  | Ok r p' => step_inv c sp n p' /\ r = 0
  | Fault _ => F
  end.
Proof.
  intros Hp HF. rewrite run_step; [by apply execute_inv| |].
  - exact (wf_has_regs p (inv_wf _ _ _ _ Hp)).
  - intros r p' E. pose proof (execute_inv True c sp n fr p Hp (or_introl I)) as H.
    rewrite E in H. apply H.
Qed.

(** The traced step, from the step of the architecture. *)
Lemma traced_step fr s :
  ready 2 s ->
  match arm_step (M := Arch) fr (s_arm s) with
  | Ok r p => exists s', arm_step (M := Sim) fr s = Ok r s' /\ s_arm s' = p /\
                         evolves 0 s s'
  | Fault e => arm_step (M := Sim) fr s = Fault e
  end.
Proof. apply (refines_step 0 fr). Qed.

(** C6. One step of the traced simulator refines one step of the
    architecture: same result, same processor, same faults.  The trace
    settings are unchanged and the location stack is balanced, and two free
    entries of it are enough. *)
Theorem arm_step_refines fr s :
  ready 2 s ->
  match arm_step (M := Arch) fr (s_arm s) with
  | Ok r p => exists s', arm_step (M := Sim) fr s = Ok r s' /\ s_arm s' = p /\
                         evolves 0 s s' /\ ready 2 s'
  | Fault e => arm_step (M := Sim) fr s = Fault e
  end.
Proof.
  intros Hs. pose proof (traced_step fr s Hs) as H.
  destruct (arm_step (M := Arch) fr (s_arm s)) as [r p|e]; [|exact H].
  destruct H as (s' & E & Ea & Hev). exists s'. split; [exact E|]. split; [assumption|]. split;
    [assumption|].
  by eapply ready_evolves.
Qed.

(** C5. No instruction fails, raises an exception or changes the status
    registers: a step that ends returns 0, leaves the CPSR (all four flags and
    the mode), the SPSR and the size of the memory as they were, and keeps the
    processor well formed, whatever the instruction and the frame. *)
Theorem arm_step_invariant fr s :
  ready 2 s -> core_wf (s_arm s) ->
  match arm_step (M := Sim) fr s with
  | Ok r s' => r = 0 /\ core_wf (s_arm s') /\ ready 2 s' /\
      cpsr_of (s_arm s') = cpsr_of (s_arm s) /\
      gpr (s_arm s') 17 = gpr (s_arm s) 17 /\
      mem_size (mem (s_arm s')) = mem_size (mem (s_arm s))
  | Fault _ => True
  end.
Proof.
  intros Hs Hw. pose proof (traced_step fr s Hs) as H.
  pose proof (step_inv_preserved True _ _ _ fr _ (core_wf_inv _ Hw) (or_introl I)) as Hi.
  destruct (arm_step (M := Arch) fr (s_arm s)) as [r p|e];
    [|rewrite H; exact I].
  destruct H as (s' & -> & <- & Hev). destruct Hi as [[] ->].
  repeat (split; [assumption || reflexivity || by eapply ready_evolves|]).
  assumption.
Qed.

(** C4. A step is memory safe: when the fetch and the data access, if the
    fetched instruction makes one, are inside of the memory (or, for the reads,
    above its size, where the bounds test catches them), it accesses nothing
    outside of the memory, the register file, the trace's stack and the tables of
    names, and fails no assertion: it returns 0, in a well-formed state.  That
    holds for any value of the variables it may read unassigned and of a
    [ConditionPassed] that falls off its end ([fr]), and for any result of the
    shifts by 32 or more ([T]): reading these is undefined in ISO C, and the
    theorem does not say that a step avoids it. *)
Theorem arm_step_safe fr s :
  ready 2 s -> core_wf (s_arm s) ->
  word_ok (mem_size (mem (s_arm s))) (fetch_address (s_arm s)) ->
  (forall ret instr,
     memory_read_word (mem (s_arm s)) (fetch_address (s_arm s)) (fr_instr fr) =
       Some (ret, instr) ->
     fetched_access_ok (mem_size (mem (s_arm s))) fr ret instr) ->
  exists s', arm_step (M := Sim) fr s = Ok 0 s' /\ ready 2 s' /\
    core_wf (s_arm s').
Proof.
  intros Hs Hw Hf Ha. pose proof (traced_step fr s Hs) as H.
  pose proof (step_inv_preserved False _ _ _ fr _ (core_wf_inv _ Hw)
    (or_intror (conj Hf Ha))) as Hi.
  destruct (arm_step (M := Arch) fr (s_arm s)) as [r p|e]; [|destruct Hi].
  destruct H as (s' & E & <- & Hev). destruct Hi as [[] ->].
  exists s'. split; [exact E|]. split; [|assumption]. by eapply ready_evolves.
Qed.
End Step.
