(* ===== verification/ArmSpec.v ===== *)
(** * The ARM reference the simulator is compared with

    The parts of the ARM manual (README.md, ARM_Reference_Manual.pdf) that the
    decoder implements, on unbounded integers and independent of the C code:
    the fields of an instruction, the condition codes, the shifter operand, the
    sixteen data-processing operations and the branch target. *)
From S2P Require Import Prelude.

Section ArmSpec.
Local Open Scope bool_scope.

(** The field of [w] from bit [lo] to bit [hi]. *)
Definition field (w hi lo : Z) : Z := (w / 2 ^ lo) mod 2 ^ (hi - lo + 1).

Definition flag_N (cpsr : Z) : bool := Z.testbit cpsr 31.
Definition flag_Z (cpsr : Z) : bool := Z.testbit cpsr 30.
Definition flag_C (cpsr : Z) : bool := Z.testbit cpsr 29.
Definition flag_V (cpsr : Z) : bool := Z.testbit cpsr 28.

Definition condition_holds (cond cpsr : Z) : bool :=
  match cond with
  | 0 => flag_Z cpsr
  | 1 => negb (flag_Z cpsr)
  | 2 => flag_C cpsr
  | 3 => negb (flag_C cpsr)
  | 4 => flag_N cpsr
  | 5 => negb (flag_N cpsr)
  | 6 => flag_V cpsr
  | 7 => negb (flag_V cpsr)
  | 8 => flag_C cpsr && negb (flag_Z cpsr)
  | 9 => negb (flag_C cpsr) || flag_Z cpsr
  | 10 => Bool.eqb (flag_N cpsr) (flag_V cpsr)
  | 11 => negb (Bool.eqb (flag_N cpsr) (flag_V cpsr))
  | 12 => negb (flag_Z cpsr) && Bool.eqb (flag_N cpsr) (flag_V cpsr)
  | 13 => flag_Z cpsr || negb (Bool.eqb (flag_N cpsr) (flag_V cpsr))
  | 14 => true
  | _ => false
  end.

(** Rotation of a word to the right. *)
Definition rotate_right (v n : Z) : Z :=
  let n := n mod 32 in
  (v / 2 ^ n + v * 2 ^ (32 - n)) mod 2 ^ 32.

(** The immediate operand: eight bits rotated by twice four bits. *)
Definition immediate_operand (w : Z) : Z :=
  rotate_right (field w 7 0) (2 * field w 11 8).

(** The register operand shifted left by an immediate. *)
Definition lsl_operand (w rm : Z) : Z := (rm * 2 ^ field w 11 7) mod 2 ^ 32.

(** What a data-processing instruction writes to its destination, from the
    two operands and the carry; [None] for the four comparisons. *)
Definition dp_result (opcode a b carry : Z) : option Z :=
  match opcode with
  | 0 => Some (Z.land a b)
  | 1 => Some (Z.lxor a b)
  | 2 => Some ((a - b) mod 2 ^ 32)
  | 3 => Some ((b - a) mod 2 ^ 32)
  | 4 => Some ((a + b) mod 2 ^ 32)
  | 5 => Some ((a + b + carry) mod 2 ^ 32)
  | 6 => Some ((a - b - (1 - carry)) mod 2 ^ 32)
  | 7 => Some ((b - a - (1 - carry)) mod 2 ^ 32)
  | 12 => Some (Z.lor a b)
  | 13 => Some b
  | 14 => Some (Z.land a (2 ^ 32 - 1 - b))
  | 15 => Some (2 ^ 32 - 1 - b)
  | _ => None
  end.

(** The offset of addressing mode 2, from the content [rm] of the index
    register and the carry. *)
Definition mode2_offset (w rm carry : Z) : Z :=
  let imm := field w 11 7 in
  if negb (Z.testbit w 25) then field w 11 0
  else match field w 6 5 with
       | 0 => (rm * 2 ^ imm) mod 2 ^ 32
       | 1 => if imm =? 0 then 0 else rm / 2 ^ imm
       | 2 => ((if rm <? 2 ^ 31 then rm else rm - 2 ^ 32) /
               2 ^ (if imm =? 0 then 32 else imm)) mod 2 ^ 32
       | _ => if imm =? 0 then carry * 2 ^ 31 + rm / 2 else rotate_right rm imm
       end.

(** The address of a load or store with offset addressing. *)
Definition mode2_address (w rn rm carry : Z) : Z :=
  let offset := mode2_offset w rm carry in
  (if Z.testbit w 23 then rn + offset else rn - offset) mod 2 ^ 32.

(** The target of a branch at address [pc]: its own address plus 8, plus the
    sign-extended 24-bit offset times 4. *)
Definition branch_target (w pc : Z) : Z :=
  let imm := field w 23 0 in
  (pc + 8 + 4 * (if imm <? 2 ^ 23 then imm else imm - 2 ^ 24)) mod 2 ^ 32.

(** Branch and link saves the address of the next instruction. *)
Definition link_value (pc : Z) : Z := (pc + 4) mod 2 ^ 32.
End ArmSpec.
