(* ===== verification/Correct.v ===== *)
(** * What one step computes, against the ARM reference *)
From Stdlib Require Import Ascii.
From S2P Require Import Prelude Util Constants Memory Registers Trace Core.
From S2P Require Import Refine LoadStore Branch Instruction Run Invariant.
From S2P Require Import ArmSpec.

(** What the documentation of processors says about a 32-bit left shift by 32:
    the count is taken modulo 32 (x86) or the result is 0 (ARM). *)
Class ShiftBy32 `{T : Target} : Prop :=
  shift_by_32 : forall v, is_u32 v ->
    u32 (over_shl v 32) = v \/ u32 (over_shl v 32) = 0.

Section Fields.
Context `{T : Target}.

Lemma get_bits_field w hi lo :
  0 <= lo < 32 -> 0 <= hi - lo + 1 < 32 -> get_bits w hi lo = field w hi lo.
Proof.
  intros. rewrite get_bits_in by lia. unfold field.
  by rewrite Z.shiftr_div_pow2 by lia.
Qed.

Lemma get_bit_flag x i : 0 <= i < 32 -> (get_bit x i =? 1) = Z.testbit x i.
Proof. intros. rewrite get_bit_in by done. by destruct (Z.testbit x i). Qed.
Lemma get_bit_flag0 x i :
  0 <= i < 32 -> (get_bit x i =? 0) = negb (Z.testbit x i).
Proof. intros. rewrite get_bit_in by done. by destruct (Z.testbit x i). Qed.
Lemma get_bit_eqb x i j :
  0 <= i < 32 -> 0 <= j < 32 ->
  (get_bit x i =? get_bit x j) = Bool.eqb (Z.testbit x i) (Z.testbit x j).
Proof.
  intros. rewrite !get_bit_in by done.
  by destruct (Z.testbit x i), (Z.testbit x j).
Qed.
Lemma get_bit_carry x i : 0 <= i < 32 -> get_bit x i = Z.b2z (Z.testbit x i).
Proof. apply get_bit_in. Qed.

(** [ror] is the rotation of the manual, for every count below 32. *)
Lemma rotate_right_bit v n i :
  is_u32 v -> 0 < n < 32 -> 0 <= i < 32 ->
  Z.testbit (rotate_right v n) i = Z.testbit v ((i + n) mod 32).
Proof.
  intros Hv Hn Hi. unfold rotate_right. rewrite (Z.mod_small n) by lia.
  assert (v / 2 ^ n + v * 2 ^ (32 - n) =
          Z.lor (Z.shiftr v n) (Z.shiftl v (32 - n))) as ->.
  { rewrite Z.shiftr_div_pow2, Z.shiftl_mul_pow2 by lia.
    rewrite <- Z.lxor_lor, <- Z.add_nocarry_lxor; try done.
    all: apply Z.bits_inj'; intros j Hj; rewrite Z.land_spec, Z.bits_0.
    all: rewrite <- Z.shiftr_div_pow2, <- Z.shiftl_mul_pow2, Z.shiftr_spec by lia.
    all: rewrite Z.shiftl_spec by lia.
    all: destruct (Z.lt_ge_cases (j + n) 32).
    all: try (rewrite (Z.testbit_neg_r v (j - _)) by lia; apply andb_false_r).
    all: by rewrite (testbit_above 32 v (j + n)) by (done || lia). }
  change (2 ^ 32) with (2 ^ 32). rewrite Z.testbit_mod_pow2 by lia.
  rewrite Z.lor_spec, Z.shiftr_spec, Z.shiftl_spec by lia.
  destruct (Z.ltb_spec i 32); [|lia]. rewrite andb_true_l.
  destruct (Z.lt_ge_cases (i + n) 32).
  - rewrite (Z.testbit_neg_r v (i - _)), orb_false_r, Z.mod_small by lia. done.
  - rewrite (testbit_above 32 v (i + n)) by (done || lia). rewrite orb_false_l.
    f_equal. rewrite <- (Z_mod_plus_full _ (-1)), Z.mod_small; lia.
Qed.

Lemma rotate_right_range v n : is_u32 (rotate_right v n).
Proof. apply (u32_range _). Qed.

Lemma rotate_right_0 v : is_u32 v -> rotate_right v 0 = v.
Proof.
  intros Hv. unfold rotate_right. change (0 mod 32) with 0.
  change (2 ^ 0) with 1. rewrite Z.div_1_r, Z.sub_0_r.
  rewrite Z_mod_plus_full. by apply Z.mod_small.
Qed.

Lemma ror_rotate v n :
  is_u32 v -> 0 < n < 32 -> ror v n = rotate_right v n.
Proof.
  intros Hv Hn. apply u32_ext; [by apply ror_range | apply rotate_right_range |].
  intros i Hi. by rewrite testbit_ror, rotate_right_bit by (done || lia).
Qed.

Lemma ror_rotate_0 v : ShiftBy32 -> is_u32 v -> ror v 0 = v.
Proof.
  intros HT Hv. unfold ror. change (u8 0) with 0. rewrite shr32_in by lia.
  rewrite Z.shiftr_0_r.
  assert (shl32 v (32 - 0) = u32 (over_shl v 32)) as -> by done.
  destruct (HT v Hv) as [-> | ->]; [apply Z.lor_diag | apply Z.lor_0_r].
Qed.

Lemma ror_immediate w :
  ShiftBy32 -> ror (get_bits w 7 0) (get_bits w 11 8 * 2) = immediate_operand w.
Proof.
  intros HT. unfold immediate_operand. rewrite !get_bits_field by lia.
  assert (is_u32 (field w 7 0)) as Hv.
  { unfold field, is_u32. pose proof (Z.mod_pos_bound (w / 2 ^ 0) (2 ^ 8)).
    change (7 - 0 + 1) with 8. lia. }
  assert (0 <= field w 11 8 < 16) as Hr.
  { unfold field. apply Z.mod_pos_bound. done. }
  rewrite (Z.mul_comm _ 2).
  destruct (Z.eq_dec (field w 11 8) 0) as [E|E].
  - rewrite E. change (2 * 0) with 0. by rewrite ror_rotate_0, rotate_right_0.
  - by rewrite ror_rotate by (done || lia).
Qed.
End Fields.

(** ** Conditions *)

(** The test [ConditionPassed] makes, which is the condition of the manual
    except for LS. *)
Definition code_condition (cond cpsr : Z) : bool :=
  if cond =? 9 then negb (flag_C cpsr) && flag_Z cpsr
  else condition_holds cond cpsr.

(** [run_head H] runs the operation at the head by its equation [H]. *)
Ltac run_head H := rewrite (bind_ok _ _ _ _ _ H).

Section Conditions.
Context `{T : Target}.

Lemma run_ConditionPassed fr cond p :
  has_regs p -> 0 <= cond < 15 ->
  ConditionPassed (M := Arch) fr cond p =
  Ok (if code_condition cond (cpsr_of p) then if cond =? 14 then -1 else 1
      else fr_cond fr) p.
Proof.
  intros Hp. unfold ConditionPassed, at_line. rewrite run_located.
  run_head (run_read_cpsr p Hp). cbv zeta. rewrite !get_bit_eqb by lia.
  rewrite !get_bit_flag, !get_bit_flag0 by lia.
  revert cond. apply (range_cases _ 15). simpl.
  unfold code_condition, condition_holds, flag_N, flag_Z, flag_C, flag_V. simpl.
  destruct (Z.testbit (cpsr_of p) 31), (Z.testbit (cpsr_of p) 30),
    (Z.testbit (cpsr_of p) 29), (Z.testbit (cpsr_of p) 28);
    repeat apply Forall_cons_2; try apply Forall_nil_2; reflexivity.
Qed.

Lemma code_condition_true fr cond p :
  has_regs p -> 0 <= cond < 15 -> code_condition cond (cpsr_of p) = true ->
  exists x, ConditionPassed (M := Arch) fr cond p = Ok x p /\ c_true x = true.
Proof.
  intros Hp Hc E. rewrite run_ConditionPassed, E by done.
  destruct (cond =? 14); eauto.
Qed.

Lemma code_condition_spec cond cpsr :
  cond <> 9 -> code_condition cond cpsr = condition_holds cond cpsr.
Proof. intros. unfold code_condition. by destruct (Z.eqb_spec cond 9). Qed.
End Conditions.

(** ** The shifter operand *)

(** The shifted operand of the manual, for the shift kind [kind] (bits 6:5) and
    a count from 1 to 31. *)
Definition shift_value (kind rm n : Z) : Z :=
  match kind with
  | 0 => (rm * 2 ^ n) mod 2 ^ 32
  | 1 => rm / 2 ^ n
  | 2 => u32 (s32 rm / 2 ^ n)
  | _ => rotate_right rm n
  end.

(** A register shifted by a register: the count is the NUMBER of the register
    in bits 11:8, where the manual takes its content. *)
Definition by_register (w rm : Z) : Z :=
  let rs := field w 11 8 in
  if rs =? 0 then rm else shift_value (field w 6 5) rm rs.

(** LSR, ASR and ROR by an immediate: the count is [k], what the variable
    [shift_imm] happens to hold, where the manual takes bits 11:7. *)
Definition by_garbage (w rm k : Z) : Z :=
  if (field w 6 5 =? 3) && ((field w 11 7 =? 0) || (k =? 0)) then rm / 2
  else if k =? 0 then
    if (field w 6 5 =? 2) && Z.testbit rm 31 then 0xFFFFFFFF else 0
  else shift_value (field w 6 5) rm k.

(** The operand the code computes: [bits4_11] is read before it is assigned;
    when its content is 0 every shift is ignored. *)
Definition operand_of (fr : frame) (w : Z) (p : arm_core_data) : option Z :=
  if Z.testbit w 25 then Some (immediate_operand w)
  else
    let rm := gpr_view p (field w 3 0) in
    let k := fr_shift_imm fr in
    if negb (c_true (fr_bits4_11 fr)) then Some rm
    else if field w 6 4 =? 0 then Some (lsl_operand w rm)
    else if Z.testbit w 4 then Some (by_register w rm)
    else if (0 <=? k) && (k <? 32) then Some (by_garbage w rm k)
    else None.

Section Operand.
Context `{T : Target}.

Lemma run_carry_flag line p :
  has_regs p ->
  carry_flag (M := Arch) line p = Ok (Z.b2z (flag_C (cpsr_of p))) p.
Proof.
  intros Hp. unfold carry_flag, at_line. rewrite run_located.
  run_head (run_read_cpsr p Hp). by rewrite get_bit_carry by done.
Qed.

Lemma run_carry_bind {A} line (k : Z -> Arch A) p :
  has_regs p ->
  (carry_flag (M := Arch) line ≫= k) p = k (Z.b2z (flag_C (cpsr_of p))) p.
Proof. intros Hp. by run_head (run_carry_flag line p Hp). Qed.

Lemma field_range w hi lo : lo <= hi + 1 -> 0 <= field w hi lo < 2 ^ (hi - lo + 1).
Proof. intros. apply Z.mod_pos_bound, Z.pow_pos_nonneg; lia. Qed.

Lemma field_4_range w hi lo : hi = lo + 3 -> 0 <= field w hi lo < 16.
Proof.
  intros ->. pose proof (field_range w (lo + 3) lo).
  replace (lo + 3 - lo + 1) with 4 in * by lia. lia.
Qed.

(** A field that is zero has every part of it zero. *)
Lemma field_split w hi mid lo :
  0 <= lo <= mid -> mid <= hi -> field w hi lo = 0 ->
  field w (mid - 1) lo = 0 /\ field w hi mid = 0.
Proof.
  unfold field. intros Hl Hh H0.
  assert (Hz : forall i, 0 <= i -> i < hi - lo + 1 ->
    Z.testbit (w / 2 ^ lo) i = false).
  { intros i Hi Hi'. rewrite <- (Z.mod_pow2_bits_low _ (hi - lo + 1)) by lia.
    by rewrite H0, Z.bits_0. }
  split; apply Z.bits_inj'; intros i Hi; rewrite Z.testbit_mod_pow2, Z.bits_0 by lia.
  - destruct (Z.ltb_spec i (mid - 1 - lo + 1)); [|done]. apply Hz; lia.
  - destruct (Z.ltb_spec i (hi - mid + 1)); [|done].
    specialize (Hz (i + (mid - lo))). revert Hz.
    rewrite <- !Z.shiftr_div_pow2, !Z.shiftr_spec by lia.
    replace (i + (mid - lo) + lo) with (i + mid) by lia. intros Hz. apply Hz; lia.
Qed.

Lemma gpr_view_u32 p r : core_wf p -> is_u32 (gpr_view p r).
Proof. intros Hw. by apply pc_view_u32, reg_value_u32, (wf_regs p Hw). Qed.

Lemma shift_value_u32 kind rm n :
  is_u32 rm -> 0 <= n -> is_u32 (shift_value kind rm n).
Proof.
  intros Hrm Hn. unfold shift_value.
  assert (is_u32 (rm / 2 ^ n))
    by (rewrite <- Z.shiftr_div_pow2 by done; by apply shiftr_u32).
  destruct kind as [|[]|]; try apply (u32_range _); try apply rotate_right_range;
    repeat (case_match; try apply (u32_range _); try apply rotate_right_range);
    assumption.
Qed.

Lemma operand_of_u32 fr w p b :
  core_wf p -> operand_of fr w p = Some b -> is_u32 b.
Proof.
  intros Hw. unfold operand_of. cbv zeta.
  pose proof (gpr_view_u32 p (field w 3 0) Hw) as Hrm.
  pose proof (field_4_range w 11 8 eq_refl).
  destruct (Z.testbit w 25); [intros [= <-]; apply rotate_right_range|].
  destruct (negb _); [intros [= <-]; exact Hrm|].
  destruct (field w 6 4 =? 0); [intros [= <-]; apply (u32_range _)|].
  destruct (Z.testbit w 4).
  { intros [= <-]. unfold by_register. cbv zeta. destruct (_ =? 0); [exact Hrm|].
    apply shift_value_u32; [exact Hrm|lia]. }
  destruct ((0 <=? _) && _) eqn:Hk; [|done]. intros [= <-]. unfold by_garbage.
  repeat case_match; try apply u32_0; try apply u32_max;
    try (apply (shift_value_u32 1 _ 1); [exact Hrm|lia]).
  apply shift_value_u32; [exact Hrm|lia].
Qed.

(** The shifts of the code on counts from 1 to 31. *)
Lemma shift_value_lsl rm n : 0 <= n < 32 -> shl32 rm n = shift_value 0 rm n.
Proof. intros. rewrite shl32_in by lia. by rewrite Z.shiftl_mul_pow2 by lia. Qed.
Lemma shift_value_lsr rm n : 0 <= n < 32 -> shr32 rm n = shift_value 1 rm n.
Proof. intros. rewrite shr32_in by lia. by rewrite Z.shiftr_div_pow2 by lia. Qed.
Lemma shift_value_asr rm n :
  is_u32 rm -> 1 <= n < 32 -> asr rm n = shift_value 2 rm n.
Proof. intros. rewrite asr_word by done. by rewrite Z.shiftr_div_pow2 by lia. Qed.
Lemma shift_value_ror rm n :
  is_u32 rm -> 1 <= n < 32 -> ror rm n = shift_value 3 rm n.
Proof. intros. apply ror_rotate; (done || lia). Qed.

(** Bits 6:4 are the kind of the shift and bit 4. *)
Lemma shift_field w :
  field w 6 4 = 2 * field w 6 5 + Z.b2z (Z.testbit w 4) /\ 0 <= field w 6 5 < 4.
Proof.
  pose proof (field_range w 6 5 ltac:(lia)) as Hk. change (2 ^ (6 - 5 + 1)) with 4 in Hk.
  split; [|done]. rewrite Z.testbit_spec' by lia. unfold field.
  change (6 - 4 + 1) with (1 + 2). change (6 - 5 + 1) with 2.
  replace (w / 2 ^ 5) with (w / 2 ^ 4 / 2) by (rewrite Z.div_div; done || lia).
  rewrite Z.pow_add_r by lia. change (2 ^ 1) with 2.
  rewrite Z.rem_mul_r by lia. lia.
Qed.

Lemma run_logicalShift_l rm n p :
  logicalShift (M := Arch) rm n "l"%char p = Ok (shl32 rm n) p.
Proof. done. Qed.
Lemma run_logicalShift_r rm n p :
  logicalShift (M := Arch) rm n "r"%char p = Ok (shr32 rm n) p.
Proof. done. Qed.

(** The register shifted left by an immediate, as the decoder computes it. *)
Lemma run_lsl_operand fr w p :
  core_wf p -> field w 6 4 = 0 ->
  exists c, shiftedRegisterOperand (M := Arch) fr w p =
            Ok (lsl_operand w (gpr_view p (field w 3 0)), c) p.
Proof.
  intros Hw H0. pose proof (wf_has_regs p Hw) as Hp.
  pose proof (field_4_range w 3 0 eq_refl) as Hrm.
  pose proof (field_range w 11 7) as Hs.
  unfold shiftedRegisterOperand, at_line. cbv zeta.
  rewrite run_located, !get_bits_field by lia.
  run_head (run_read _ _ Hp Hrm). rewrite H0. cbn [Z.eqb].
  unfold lsl_operand. destruct (Z.eqb_spec (field w 11 7) 0) as [E|E].
  - run_head (run_carry_flag 362 p Hp). rewrite E, Z.mul_1_r, Z.mod_small.
    + by eexists.
    + by apply gpr_view_u32.
  - unfold logicalShift. cbn [Ascii.eqb Bool.eqb]. rewrite bind_eq. simpl.
    rewrite shl32_in by lia. rewrite Z.shiftl_mul_pow2 by lia. by eexists.
Qed.

Lemma get_small_bits x h n : 0 <= x < 2 ^ n -> 0 < n <= h + 1 -> h < 31 ->
  get_bits x h 0 = x.
Proof.
  intros Hx Hn Hh. rewrite get_bits_in, Z.shiftr_0_r by lia. apply Z.mod_small.
  assert (2 ^ n <= 2 ^ (h - 0 + 1)) by (apply Z.pow_le_mono_r; lia). lia.
Qed.

(** The cases of a shift by a register and of one by an immediate. *)
Lemma odd_cases w :
  Z.testbit w 4 = true ->
  (field w 6 5 = 0 /\ field w 6 4 = 1) \/ (field w 6 5 = 1 /\ field w 6 4 = 3) \/
  (field w 6 5 = 2 /\ field w 6 4 = 5) \/ (field w 6 5 = 3 /\ field w 6 4 = 7).
Proof. intros H4. pose proof (shift_field w) as H. rewrite H4 in H. simpl in H. lia. Qed.
Lemma even_cases w :
  Z.testbit w 4 = false -> field w 6 4 <> 0 ->
  (field w 6 5 = 1 /\ field w 6 4 = 2) \/ (field w 6 5 = 2 /\ field w 6 4 = 4) \/
  (field w 6 5 = 3 /\ field w 6 4 = 6).
Proof. intros H4 Hne. pose proof (shift_field w) as H. rewrite H4 in H. simpl in H. lia. Qed.

Lemma run_by_register fr w p :
  core_wf p -> Z.testbit w 4 = true ->
  exists c, shiftedRegisterOperand (M := Arch) fr w p =
            Ok (by_register w (gpr_view p (field w 3 0)), c) p.
Proof.
  intros Hw H4. pose proof (wf_has_regs p Hw) as Hp.
  pose proof (field_4_range w 3 0 eq_refl) as Hrm.
  pose proof (gpr_view_u32 p (field w 3 0) Hw) as Hv.
  pose proof (field_4_range w 11 8 eq_refl) as Hrs.
  unfold shiftedRegisterOperand, by_register, at_line. cbv zeta.
  rewrite run_located, !get_bits_field by lia.
  run_head (run_read _ _ Hp Hrm).
  rewrite <- (get_bits_field (field w 11 8) 7 0), <- (get_bits_field (field w 11 8) 4 0) by lia.
  rewrite (get_small_bits _ 7 4), (get_small_bits _ 4 4) by lia.
  destruct (Z.eqb_spec (field w 11 8) 0) as [E|E].
  - destruct (odd_cases w H4) as [[Ek ->] | [[Ek ->] | [[Ek ->] | [Ek ->]]]];
      rewrite ?Ek; cbn [Z.eqb Pos.eqb];
      rewrite run_carry_bind by done; by eexists.
  - destruct (Z.ltb_spec (field w 11 8) 32); [|lia].
    destruct (odd_cases w H4) as [[Ek ->] | [[Ek ->] | [[Ek ->] | [Ek ->]]]];
      rewrite ?Ek; cbn [Z.eqb Pos.eqb].
    + run_head (run_logicalShift_l (gpr_view p (field w 3 0)) (field w 11 8) p).
      rewrite shift_value_lsl by lia. by eexists.
    + run_head (run_logicalShift_r (gpr_view p (field w 3 0)) (field w 11 8) p).
      rewrite shift_value_lsr by lia. by eexists.
    + rewrite shift_value_asr by (done || lia). by eexists.
    + destruct (Z.eqb_spec (field w 11 8) 0); [done|].
      rewrite shift_value_ror by (done || lia). by eexists.
Qed.

Lemma run_by_garbage fr w p :
  core_wf p -> field w 6 4 <> 0 -> Z.testbit w 4 = false ->
  0 <= fr_shift_imm fr < 32 ->
  exists c, shiftedRegisterOperand (M := Arch) fr w p =
    Ok (by_garbage w (gpr_view p (field w 3 0)) (fr_shift_imm fr), c) p.
Proof.
  intros Hw H0 H4 Hs. pose proof (wf_has_regs p Hw) as Hp.
  pose proof (field_4_range w 3 0 eq_refl) as Hrm.
  pose proof (gpr_view_u32 p (field w 3 0) Hw) as Hv.
  unfold shiftedRegisterOperand, by_garbage, at_line. cbv zeta.
  rewrite run_located, !get_bits_field by lia.
  run_head (run_read _ _ Hp Hrm).
  generalize dependent (gpr_view p (field w 3 0)). intros rm Hv.
  generalize dependent (fr_shift_imm fr). intros k Hs.
  destruct (even_cases w H4 H0) as [[-> ->] | [[-> ->] | [-> ->]]];
    cbn [Z.eqb Pos.eqb andb].
  - destruct (Z.eqb_spec k 0); [by eexists|].
    run_head (run_logicalShift_r rm k p). rewrite shift_value_lsr by lia. by eexists.
  - destruct (Z.eqb_spec k 0).
    + rewrite get_bit_flag0 by lia. destruct (Z.testbit rm 31); by eexists.
    + rewrite shift_value_asr by (done || lia). by eexists.
  - run_head (run_logicalShift_l (get_bit (get_bit w 16) bit_C) 31 p).
    run_head (run_logicalShift_r rm 1 p).
    assert (shl32 (get_bit (get_bit w 16) bit_C) 31 = 0) as ->.
    { unfold bit_C. rewrite get_bit_in by lia.
      rewrite (testbit_above 1 _ 29) by (pose proof (get_bit_01 w 16); lia).
      by rewrite shl32_in by lia. }
    rewrite Z.lor_0_l, shift_value_lsr by lia. unfold shift_value at 1 2.
    change (2 ^ 1) with 2.
    destruct (field w 11 7 =? 0); [by eexists|]. cbn [orb].
    destruct (Z.eqb_spec k 0); [by eexists|].
    rewrite shift_value_ror by (done || lia). by eexists.
Qed.

Lemma run_shifter_operand fr w p b :
  ShiftBy32 -> core_wf p -> operand_of fr w p = Some b ->
  exists c, shifter_operand (M := Arch) fr w (get_bit w 25) p = Ok (b, c) p.
Proof.
  intros HT Hw. pose proof (wf_has_regs p Hw) as Hp.
  pose proof (field_4_range w 3 0 eq_refl) as Hrm.
  unfold operand_of, shifter_operand, at_line. rewrite get_bit_flag0 by lia.
  destruct (Z.testbit w 25); cbn [negb]; cbv zeta.
  { intros [= <-]. rewrite ror_immediate by done.
    destruct (get_bits w 11 8 =? 0); [|by eexists].
    run_head (run_carry_flag 81 p Hp). by eexists. }
  destruct (negb (c_true (fr_bits4_11 fr))).
  { intros [= <-]. rewrite run_located, get_bits_field by lia.
    run_head (run_read _ _ Hp Hrm). run_head (run_carry_flag 68 p Hp).
    by eexists. }
  destruct (Z.eqb_spec (field w 6 4) 0) as [H0|H0].
  { intros [= <-]. by apply run_lsl_operand. }
  destruct (Z.testbit w 4) eqn:H4; [intros [= <-]; by apply run_by_register|].
  destruct ((0 <=? _) && _) eqn:Hk; [|done]. intros [= <-].
  apply run_by_garbage; (done || lia).
Qed.
End Operand.
