(* ===== verification/Execute.v ===== *)
(** * Running one instruction of each class

    The processor [arm_execute_instruction] leaves, for a data-processing
    instruction, a branch, a load and a store, computed on the architecture.
    Steps.v states the consequences for the simulator. *)
From S2P Require Import Prelude Util Constants Memory Registers Trace Core.
From S2P Require Import Refine LoadStore Branch Instruction Run Invariant.
From S2P Require Import ArmSpec Correct.

(** ** Fetched words *)

Lemma word_at_u32 m a w : mem_wf m -> word_at m a = Some w -> is_u32 w.
Proof.
  intros Hm E. pose proof (read_word_at m a w 0 Hm E) as Er.
  destruct (word_at_bounds m a w Hm E). eapply read_word_u32; [done..|lia].
Qed.

Section Execute.
Context `{T : Target}.

(** A step whose fetch succeeds is the execution of the word fetched. *)
Lemma arch_step fr p w :
  core_wf p -> word_at (mem p) (fetch_address p) = Some w ->
  arm_step (M := Arch) fr p =
  execute_fetched (M := Arch) fr (s32 w) w (after_fetch p).
Proof.
  intros Hp Hw. pose proof (wf_has_regs p Hp) as Hl. rewrite run_step; [|exact Hl|].
  - unfold arm_execute_instruction, at_line.
    rewrite run_located, bind_eq, run_fetch by exact Hl.
    by rewrite (read_word_at _ _ _ _ (wf_mem p Hp) Hw).
  - intros r p' E.
    pose proof (execute_inv True _ _ _ fr p (core_wf_inv p Hp) (or_introl I)) as H.
    rewrite E in H. apply H.
Qed.

Lemma after_fetch_wf p : core_wf p -> core_wf (after_fetch p).
Proof.
  intros Hp. apply (after_fetch_inv _ _ _ p (core_wf_inv p Hp)).
Qed.

Lemma fetched_word w : is_u32 w -> u32 (s32 w) = w.
Proof. intros. rewrite u32_s32. by apply u32_small. Qed.

(** What [execute_fetched] does before it looks at the class. *)
Lemma run_execute_fetched fr w p :
  core_wf p -> is_u32 w ->
  execute_fetched (M := Arch) fr (s32 w) w p =
  match (if field w 27 26 =? 0 then
           execute_data_processing (M := Arch) fr w w
             (gpr_view p (field w 19 16)) (field w 15 12) (field w 31 28) p
         else if field w 27 26 =? 1 then
           execute_load_store (M := Arch) fr w w (field w 15 12)
             (field w 31 28) p
         else if field w 27 26 =? 2 then
           execute_branch (M := Arch) fr w w (field w 31 28) p
         else Ok () p) with
  | Ok _ p' => Ok 0 p'
  | Fault f => Fault f
  end.
Proof.
  intros Hp Hw. unfold execute_fetched, at_line. cbv zeta.
  rewrite (fetched_word w Hw), !get_bits_field, run_located by lia.
  pose proof (field_4_range w 19 16 eq_refl) as Hrn.
  run_head (run_read _ _ (wf_has_regs p Hp) Hrn).
  rewrite bind_eq.
  destruct (field w 27 26 =? 0); [reflexivity|].
  destruct (field w 27 26 =? 1); [reflexivity|].
  destruct (field w 27 26 =? 2); [reflexivity|].
  by destruct (get_bit w 25 =? 0).
Qed.

(** ** Data processing *)

(** The flag updates leave the processor as it is; so do their sequences. *)
Lemma idle_seq (m1 m2 : Arch unit) p :
  m1 p = Ok () p -> m2 p = Ok () p -> (m1;; m2) p = Ok () p.
Proof. intros H1 H2. by run_head H1. Qed.
Lemma idle_if (b : bool) (m1 m2 : Arch unit) p :
  m1 p = Ok () p -> m2 p = Ok () p -> (if b then m1 else m2) p = Ok () p.
Proof. by destruct b. Qed.
Lemma idle_ret (p : arm_core_data) : mret (M := Arch) () p = Ok () p.
Proof. done. Qed.

Lemma run_update_Flag line b i p :
  has_regs p -> update_Flag (M := Arch) line b i p = Ok () p.
Proof.
  intros Hp. unfold update_Flag, at_line. rewrite run_located.
  by run_head (run_read_cpsr p Hp).
Qed.

#[local] Hint Resolve idle_seq idle_if idle_ret run_update_Flag : run.

Lemma run_update_flag r p :
  has_regs p -> update_flag (M := Arch) r p = Ok () p.
Proof.
  intros Hp. unfold update_flag, at_line, update_Flag_Z, update_Flag_N,
    update_Flag_C, update_Flag_V. rewrite run_located.
  run_head (run_read_cpsr p Hp). auto 10 with run.
Qed.

Lemma run_write_and_flags line rd v p :
  has_regs p -> 0 <= rd < 16 ->
  write_and_flags (M := Arch) line rd v p = Ok () (set_gpr rd (u32 v) p).
Proof.
  intros Hp Hrd. unfold write_and_flags, at_line. rewrite run_located.
  run_head (run_write rd (u32 v) p Hp Hrd).
  apply run_update_flag. by apply has_regs_set.
Qed.

Lemma run_test_flags a c p :
  has_regs p -> test_flags (M := Arch) a c p = Ok () p.
Proof.
  intros Hp. unfold test_flags, update_Flag_Z, update_Flag_N, update_Flag_C.
  auto with run.
Qed.

Lemma run_compare_flags a p :
  has_regs p -> compare_flags (M := Arch) a p = Ok () p.
Proof.
  intros Hp. unfold compare_flags, update_Flag_Z, update_Flag_N, update_Flag_V,
    update_Flag_C.
  auto 10 with run.
Qed.

Definition carry_of (p : arm_core_data) : Z := Z.b2z (flag_C (cpsr_of p)).

Lemma run_not_carry line p :
  has_regs p -> not_carry (M := Arch) line p = Ok (1 - carry_of p) p.
Proof.
  intros Hp. unfold not_carry. run_head (run_carry_flag line p Hp).
  unfold carry_of. by destruct (flag_C (cpsr_of p)).
Qed.

(** The destination after the operation, [None] for a comparison. *)
Definition set_result (rd : Z) (v : option Z) (p : arm_core_data) : arm_core_data :=
  match v with Some v => set_gpr rd v p | None => p end.

(** What the code computes: the reference, but for BIC and MVN, whose [!] is
    the logical negation. *)
Definition code_result (opcode a b carry : Z) : option Z :=
  if opcode =? 14 then Some (Z.land a (c_not b))
  else if opcode =? 15 then Some (c_not b)
  else dp_result opcode a b carry.

Lemma u32_mod x : x mod 2 ^ 32 = u32 x.
Proof. done. Qed.

Lemma run_data_processing op a b c rd p :
  has_regs p -> is_u32 a -> is_u32 b -> 0 <= rd < 16 -> 0 <= op < 16 ->
  data_processing (M := Arch) op a b c rd p =
  Ok () (set_result rd (code_result op a b (carry_of p)) p).
Proof.
  intros Hp Ha Hb Hrd.
  revert op. apply (range_cases _ 16). cbv [seq fmap list_fmap Z.of_nat
    Pos.of_succ_nat Pos.succ].
  pose proof (fun line v => run_write_and_flags line rd v p Hp Hrd) as HW.
  pose proof (fun v => run_write rd v p Hp Hrd) as HR.
  repeat apply Forall_cons_2; try apply Forall_nil_2;
    unfold data_processing, code_result, at_line; cbn [Z.eqb Pos.eqb dp_result];
    cbv zeta; rewrite ?u32_mod; cbn [set_result].
  - rewrite HW, u32_small by auto with words. done.
  - rewrite HW, u32_small by auto with words. done.
  - rewrite HW, u32_u32. done.
  - rewrite HW, u32_u32. done.
  - rewrite HW, u32_u32. done.
  - run_head (run_carry_flag 118 p Hp). by rewrite HW, u32_u32, u32_add_l.
  - run_head (run_not_carry 125 p Hp). by rewrite HW, u32_u32, u32_sub_l.
  - run_head (run_not_carry 134 p Hp). by rewrite HW, u32_u32, u32_sub_l.
  - by apply run_test_flags.
  - by apply run_test_flags.
  - by apply run_compare_flags.
  - by apply run_compare_flags.
  - run_head (run_update_flag (Z.lor a b) p Hp).
    rewrite run_located, HR, u32_small by auto with words. done.
  - rewrite run_located, HR, u32_small by auto with words. done.
  - rewrite HW, u32_small by auto with words. done.
  - rewrite run_located, HR, u32_small by auto with words. done.
Qed.

(** The instructions of class 00 the decoder treats as data processing. *)
Definition is_data_processing (w : Z) : bool :=
  (field w 27 26 =? 0) && negb ((field w 24 23 =? 2) && negb (Z.testbit w 20)).

Lemma run_execute_data_processing fr w p b :
  ShiftBy32 -> core_wf p -> is_u32 w ->
  is_data_processing w = true ->
  0 <= field w 31 28 < 15 -> code_condition (field w 31 28) (cpsr_of p) = true ->
  operand_of fr w p = Some b ->
  execute_data_processing (M := Arch) fr w w
    (gpr_view p (field w 19 16)) (field w 15 12) (field w 31 28) p =
  Ok () (set_result (field w 15 12)
           (code_result (field w 24 21) (gpr_view p (field w 19 16)) b
              (carry_of p)) p).
Proof.
  intros HT Hp Hw Hd Hc Hcond Hb. unfold is_data_processing in Hd.
  apply andb_true_iff in Hd as [_ Hd]. unfold execute_data_processing. cbv zeta.
  rewrite !get_bits_field, get_bit_flag0 by lia.
  destruct ((field w 24 23 =? 2) && negb (Z.testbit w 20)); [done|].
  destruct (code_condition_true fr _ p (wf_has_regs p Hp) Hc Hcond) as (x & E & Hx).
  run_head E. rewrite Hx.
  destruct (run_shifter_operand fr w p b HT Hp Hb) as [c Eo].
  run_head Eo. apply run_data_processing.
  - by apply wf_has_regs.
  - by apply gpr_view_u32.
  - by apply (operand_of_u32 fr w p).
  - by apply field_4_range.
  - by apply field_4_range.
Qed.

(** ** Loads and stores *)

Lemma ls_address_u32 w : is_u32 (ls_address w).
Proof. apply u32_range. Qed.

(** The address a load or store uses, whatever was in [index]. *)
Lemma run_address fr w : u32 (arm_load_store (fr_index fr) w) = ls_address w.
Proof.
  rewrite arm_load_store_address, u32_s32. apply u32_small, ls_address_u32.
Qed.

Lemma run_execute_load_store fr w p :
  core_wf p -> 0 <= field w 31 28 < 15 ->
  code_condition (field w 31 28) (cpsr_of p) = true ->
  execute_load_store (M := Arch) fr w w (field w 15 12) (field w 31 28) p =
  loadStoreByteOrWord (M := Arch) fr (ls_address w)
    (gpr_view p (field w 15 12)) (get_bit w 20) (get_bit w 22)
    (field w 15 12) p.
Proof.
  intros Hp Hc Hcond. unfold execute_load_store, at_line. cbv zeta.
  destruct (code_condition_true fr _ p (wf_has_regs p Hp) Hc Hcond) as (x & E & Hx).
  run_head E. rewrite Hx, run_address, run_located.
  run_head (run_read _ _ (wf_has_regs p Hp) (field_4_range w 15 12 eq_refl)).
  done.
Qed.

(** The store of a word, of a byte; the load of a word, of a byte. *)
Lemma run_STR fr a v b20 b22 rd p m x :
  c_true b20 = false -> c_true b22 = false ->
  memory_write_word (mem p) a v = Some (0, m) ->
  memory_read_word m a (fr_word fr) = Some x ->
  loadStoreByteOrWord (M := Arch) fr a v b20 b22 rd p = Ok () (with_mem m p).
Proof.
  intros E20 E22 Ew Er. unfold loadStoreByteOrWord, at_line. rewrite E20, E22.
  cbn [negb andb]. rewrite ?run_located. run_head (run_write_word _ _ _ _ p Ew).
  rewrite ?run_located.
  run_head (run_read_word a (fr_word fr) x (with_mem m p) Er).
  by destruct x.
Qed.

Lemma run_STRB fr a v b20 b22 rd p m x :
  c_true b20 = false -> c_true b22 = true ->
  memory_write_byte (mem p) a (field v 7 0) = Some (0, m) ->
  memory_read_byte m a (fr_byte fr) = Some x ->
  loadStoreByteOrWord (M := Arch) fr a v b20 b22 rd p = Ok () (with_mem m p).
Proof.
  intros E20 E22 Ew Er. unfold loadStoreByteOrWord, at_line. rewrite E20, E22.
  cbn [negb andb]. rewrite ?run_located, get_bits_field by lia.
  rewrite <- (u8_small (field v 7 0)) in Ew by apply (field_range v 7 0 ltac:(lia)).
  run_head (run_write_byte _ _ _ _ p Ew). rewrite ?run_located.
  run_head (run_read_byte a (fr_byte fr) x (with_mem m p) Er).
  by destruct x.
Qed.

Lemma run_LDR fr a v b20 b22 rd p w :
  ShiftBy32 -> has_regs p -> 0 <= rd < 16 -> is_u32 a -> is_u32 w ->
  c_true b20 = true -> c_true b22 = false ->
  memory_read_word (mem p) a (fr_word fr) = Some (s32 w, w) ->
  loadStoreByteOrWord (M := Arch) fr a v b20 b22 rd p =
  let data := rotate_right w (8 * (a mod 4)) in
  Ok () (set_gpr rd (if rd =? 15 then Z.land data 0xFFFFFFFE else data) p).
Proof.
  intros HT Hp Hrd Ha Hw E20 E22 Er. unfold loadStoreByteOrWord, at_line.
  rewrite E20, E22. cbn [negb andb]. rewrite ?run_located.
  run_head (run_read_word a (fr_word fr) _ p Er). cbv zeta.
  rewrite (fetched_word w Hw), get_bits_field by lia.
  change (field a 1 0) with ((a / 1) mod 4). rewrite Z.div_1_r.
  assert (ror w (8 * (a mod 4)) = rotate_right w (8 * (a mod 4))) as ->.
  { pose proof (Z.mod_pos_bound a 4 ltac:(lia)).
    destruct (Z.eq_dec (a mod 4) 0) as [->|].
    - change (8 * 0) with 0. by rewrite ror_rotate_0, rotate_right_0.
    - apply ror_rotate; [done|lia]. }
  destruct (rd =? 15); rewrite ?run_located; by apply run_write.
Qed.

Lemma run_LDRB fr a v b20 b22 rd p b :
  has_regs p -> 0 <= rd < 16 -> is_u8 b ->
  c_true b20 = true -> c_true b22 = true ->
  memory_read_byte (mem p) a (fr_byte fr) = Some (b, b) ->
  loadStoreByteOrWord (M := Arch) fr a v b20 b22 rd p = Ok () (set_gpr rd b p).
Proof.
  intros Hp Hrd Hb E20 E22 Er. unfold loadStoreByteOrWord, at_line.
  rewrite E20, E22. cbn [negb andb].
  run_head (run_printf ("Executing LDRB" +:+ newline) p). rewrite ?run_located.
  run_head (run_read_byte a (fr_byte fr) _ p Er). cbv zeta.
  run_head (run_printf ("register number (r) = " +:+ fmt_d (s32 rd)
    +:+ ", value to load to r = " +:+ fmt_d (u8 b) +:+ newline) p).
  rewrite ?run_located, u8_small by done. by apply run_write.
Qed.

(** ** Branches *)

(** The processor after a branch. *)
Definition branch_result (w : Z) (p : arm_core_data) : arm_core_data :=
  let pc := gpr_view p 15 in
  let p := if Z.testbit w 24 then set_gpr 14 pc p else p in
  set_gpr 15 (u32 (pc + branch_offset w)) p.

Lemma run_arm_branch w p :
  has_regs p -> arm_branch (M := Arch) w p = Ok 0 (branch_result w p).
Proof.
  intros Hp. unfold arm_branch, located_branch, branch_result.
  rewrite get_bit_flag0 by lia. cbv zeta.
  rewrite Extend_30_offset. destruct (Z.testbit w 24); cbn [negb].
  - rewrite ?run_located, bind_eq. run_head (run_read 15 p Hp ltac:(lia)).
    rewrite ?run_located. run_head (run_write 14 (gpr_view p 15) p Hp ltac:(lia)).
    pose proof (has_regs_set 14 (gpr_view p 15) p Hp) as Hp'.
    run_head (run_read 15 _ Hp' ltac:(lia)).
    rewrite (run_write 15 _ _ Hp') by lia.
    assert (gpr_view (set_gpr 14 (gpr_view p 15) p) 15 = gpr_view p 15) as ->
      by (unfold gpr_view at 1; by rewrite gpr_set_ne by (done || lia)).
    done.
  - rewrite ?run_located, bind_eq. run_head (run_read 15 p Hp ltac:(lia)).
    rewrite (run_write 15 _ _ Hp) by lia. done.
Qed.

(** The bits of the branch class: 101. *)
Lemma branch_class w :
  field w 27 25 = 5 -> field w 27 26 = 2 /\ Z.testbit w 25 = true.
Proof.
  unfold field. change (2 ^ (27 - 25 + 1)) with (2 ^ 3). intros H.
  assert (Hbit : forall i, 0 <= i < 3 -> Z.testbit w (i + 25) = Z.testbit 5 i).
  { intros i Hi. rewrite <- H, Z.mod_pow2_bits_low by lia.
    by rewrite <- Z.shiftr_div_pow2, Z.shiftr_spec by lia. }
  split; [|by apply (Hbit 0)].
  change (2 ^ (27 - 26 + 1)) with (2 ^ 2).
  apply Z.bits_inj'. intros i Hi. rewrite Z.testbit_mod_pow2 by lia.
  rewrite <- Z.shiftr_div_pow2, Z.shiftr_spec by lia.
  destruct (Z.ltb_spec i 2).
  - replace (i + 26) with ((i + 1) + 25) by lia. rewrite Hbit by lia.
    assert (i = 0 \/ i = 1) as [-> | ->] by lia; done.
  - symmetry. apply (testbit_above 2); lia.
Qed.

Lemma run_execute_branch fr w p :
  core_wf p -> 0 <= field w 31 28 < 15 ->
  code_condition (field w 31 28) (cpsr_of p) = true -> Z.testbit w 25 = true ->
  execute_branch (M := Arch) fr w w (field w 31 28) p = Ok () (branch_result w p).
Proof.
  intros Hp Hc Hcond H25. pose proof (wf_has_regs p Hp) as Hl.
  unfold execute_branch. rewrite get_bit_flag0, H25 by lia. cbn [negb].
  destruct (code_condition_true fr _ p Hl Hc Hcond) as (x & E & Hx).
  run_head E. rewrite Hx. by run_head (run_arm_branch w p Hl).
Qed.

(** ** Instructions that do nothing *)

(** A false condition whose garbage is 0 as well. *)
Lemma run_condition_false fr cond p :
  has_regs p -> 0 <= cond < 15 -> code_condition cond (cpsr_of p) = false ->
  ConditionPassed (M := Arch) fr cond p = Ok (fr_cond fr) p.
Proof. intros Hp Hc E. by rewrite run_ConditionPassed, E. Qed.

(** The three classes behave as if the condition was [b]. *)
Lemma execute_skipped fr w p :
  core_wf p -> is_u32 w -> 0 <= field w 31 28 < 15 ->
  code_condition (field w 31 28) (cpsr_of p) = false -> fr_cond fr = 0 ->
  execute_fetched (M := Arch) fr (s32 w) w p = Ok 0 p.
Proof.
  intros Hp Hw Hc E H0. pose proof (wf_has_regs p Hp) as Hl.
  rewrite run_execute_fetched by done.
  pose proof (run_condition_false fr _ p Hl Hc E) as Hcond. rewrite H0 in Hcond.
  unfold execute_data_processing, execute_load_store, execute_branch. cbv zeta.
  destruct (field w 27 26 =? 0).
  { destruct (_ && _); [done|]. by run_head Hcond. }
  destruct (field w 27 26 =? 1); [by run_head Hcond|].
  destruct (field w 27 26 =? 2); [|done].
  destruct (get_bit w 25 =? 0); [done|]. by run_head Hcond.
Qed.
End Execute.
