(* ===== verification/Examples.v ===== *)
(** * Concrete machines

    The states the theorems are applied to: a processor in supervisor mode
    whose register [r] holds [10 * r], r15 the address of the next instruction,
    and a big-endian memory of 64 bytes starting with a program. *)
From S2P Require Import Prelude Util Constants Memory Registers Trace Core.
From S2P Require Import Refine LoadStore Branch Instruction Run Invariant.
From S2P Require Import ArmSpec Correct.

Definition example_block (ws : list Z) : list Z :=
  let code := mjoin (field_bytes true 4 <$> ws) in
  code ++ replicate (64 - length code) 0.

Definition example_core (pc cpsr : Z) (ws : list Z) : arm_core_data := {|
  cycle_count := 0;
  reg := {| r_data := ((fun n => 10 * Z.of_nat n) <$> seq 0 15) ++ [pc; cpsr; 0] |};
  mem := {| mem_is_big_endian := 1; mem_address := example_block ws;
            mem_size := 64 |}
|}.

(** A state of the simulator with every trace enabled. *)
Definition example_sim (pc cpsr : Z) (ws : list Z) : sim := {|
  s_arm := example_core pc cpsr ws;
  s_trace := with_flags 15 trace_init;
  s_log := []
|}.

(** A frame of zeros, but for the variables that matter. *)
Definition frame_of (bits4_11 shift_imm cond : Z) : frame := {|
  fr_instr := 0; fr_bits4_11 := bits4_11; fr_shift_imm := shift_imm;
  fr_cond := cond; fr_index := 0; fr_word := 0; fr_byte := 0
|}.

(** The well-formedness of a concrete state, decided by evaluation. *)
Definition core_wf_dec (p : arm_core_data) : bool :=
  bool_decide (length (r_data (reg p)) = 18%nat) &&
  forallb (fun v => (0 <=? v) && (v <? 2 ^ 32)) (r_data (reg p)) &&
  (mem_size (mem p) =? Z.of_nat (length (mem_address (mem p)))) &&
  (mem_size (mem p) <? 2 ^ 32) &&
  forallb (fun v => (0 <=? v) && (v <? 2 ^ 8)) (mem_address (mem p)) &&
  ((mem_is_big_endian (mem p) =? 0) || (mem_is_big_endian (mem p) =? 1)) &&
  (0 <=? cycle_count p) && (cycle_count p <? 2 ^ 32).

Lemma forallb_range (l : list Z) (m : Z) :
  forallb (fun v => (0 <=? v) && (v <? m)) l = true ->
  Forall (fun v => 0 <= v < m) l.
Proof.
  rewrite forallb_forall. intros H. apply List.Forall_forall.
  intros v Hv. specialize (H v Hv). lia.
Qed.

Lemma core_wf_decided p : core_wf_dec p = true -> core_wf p.
Proof.
  unfold core_wf_dec. rewrite !andb_true_iff.
  intros [[[[[[[Hl Hr] Hs] Hm] Hb] He] Hc1] Hc2].
  apply bool_decide_eq_true in Hl. apply Z.eqb_eq in Hs.
  apply orb_true_iff in He. rewrite !Z.eqb_eq in He.
  split; [split | split |]; try assumption.
  - by apply (forallb_range _ (2 ^ 32)).
  - lia.
  - by apply (forallb_range _ (2 ^ 8)).
  - unfold is_u32. lia.
Qed.

Lemma example_ready pc cpsr ws : ready 2 (example_sim pc cpsr ws).
Proof. split; (reflexivity || (simpl; lia)). Qed.

Instance x86_shift_by_32 : ShiftBy32 (T := x86).
Proof.
  intros v Hv. left. simpl. change (32 mod 32) with 0. rewrite Z.shiftl_0_r.
  by apply u32_small.
Qed.

(** MOV r1,#10; MOV r2,#20; ADD r3,r1,r2; B to the ADD. *)
Definition example_program : list Z :=
  [0xE3A0100A; 0xE3A02014; 0xE0813002; 0xEAFFFFFD].

Lemma example_program_wf : core_wf (example_core 0 0x1d3 example_program).
Proof. by apply core_wf_decided; vm_compute. Qed.
