(* ===== verification/Packets.v ===== *)
(** * The packets of gdb_protocol.c

    A message is framed as a dollar sign, its text, a number sign and the two
    hexadecimal digits of the sum of the text modulo 256.  This file proves
    what [gdb_send_data] sends, what [gdb_packet_analysis] accepts, and the
    encoding of words and of binary data. *)
From S2P Require Import Prelude Util Constants Memory Registers Trace Core.
From S2P Require Import Refine LoadStore Branch Instruction Examples Gdb.

(** ** The specification of a packet *)

Definition checksum (text : list Z) : Z := foldr Z.add 0 text mod 256.
Definition framed (text : list Z) : list Z :=
  36 :: text ++ 35 :: hex2 (checksum text).

(** A character of a C string. *)
Definition is_char (c : Z) : Prop := 0 < c < 256.

Lemma checksum_range text : 0 <= checksum text < 256.
Proof. by apply Z.mod_pos_bound. Qed.

(** ** Messages *)

(** Nothing is debugged on the connection that takes everything. *)
Lemma debug_off {A} line text (k : Gdb A) : (gdb_debug line text;; k) = k.
Proof. done. Qed.
Lemma debug_raw_off {A} text (k : Gdb A) : (gdb_debug_raw text;; k) = k.
Proof. done. Qed.
Lemma debug_if_off {A} (b : bool) text (k : Gdb A) :
  ((if b then gdb_debug_raw text else mret ());; k) = k.
Proof. by destruct b. Qed.

(** ** Writing to the packet *)

Lemma write_at_spec bs : forall (i : nat) p,
  (i + length bs <= length p)%nat ->
  write_at (Z.of_nat i) bs p = Some (take i p ++ bs ++ drop (i + length bs) p).
Proof.
  induction bs as [|b bs IH]; intros i p Hl; simpl in *.
  - by rewrite Nat.add_0_r, take_drop.
  - rewrite buf_set_Some by lia. cbn [mbind option_bind]. rewrite Nat2Z.id.
    replace (Z.of_nat i + 1) with (Z.of_nat (i + 1)) by lia.
    rewrite IH by (rewrite length_insert; lia). f_equal.
    rewrite insert_take_drop by lia.
    rewrite take_app_ge, length_take, Nat.min_l by (rewrite ?length_take; lia).
    replace (i + 1 - i)%nat with 1%nat by lia. cbn [take]. rewrite take_0.
    rewrite drop_app_ge, length_take, Nat.min_l by (rewrite ?length_take; lia).
    replace (i + 1 + length bs - i)%nat with (Datatypes.S (length bs)) by lia.
    cbn [drop]. rewrite drop_drop.
    rewrite <- app_assoc. cbn [app]. do 3 f_equal. f_equal. lia.
Qed.

Lemma write_at_overflow bs : forall i p,
  0 <= i -> Z.of_nat (length p) < i + Z.of_nat (length bs) -> bs <> [] ->
  write_at i bs p = None.
Proof.
  induction bs as [|b bs IH]; intros i p Hi Hl Hne; [done|]. simpl in *.
  destruct (buf_set p i b) as [p'|] eqn:E; [|done]. cbn [mbind option_bind].
  pose proof (buf_set_length _ _ _ _ E) as Hlen.
  destruct bs as [|b' bs].
  - simpl in Hl. apply buf_set_inv in E. lia.
  - apply IH; [lia | simpl in *; lia | done].
Qed.

Lemma scan_packet_spec text : forall rem (pre post : list Z) check,
  Forall is_char text -> (length text <= rem)%nat ->
  scan_packet rem (pre ++ text ++ 0 :: post) (Z.of_nat (length pre)) check =
  Some (Z.of_nat (length pre + length text),
        match text with [] => check | _ => u8 (check + foldr Z.add 0 text) end).
Proof.
  induction text as [|c text IH]; intros rem pre post check Hc Hr; simpl in *.
  - assert (buf_get (pre ++ 0 :: post) (Z.of_nat (length pre)) = Some 0) as E.
    { unfold buf_get, in_block. rewrite length_app. simpl. rewrite Nat2Z.id.
      destruct (Z.leb_spec 0 (Z.of_nat (length pre))); [|lia].
      destruct (Z.ltb_spec (Z.of_nat (length pre))
        (Z.of_nat (length pre + Datatypes.S (length post)))); [|lia].
      cbn [andb]. by apply list_lookup_middle. }
    rewrite Nat.add_0_r. destruct rem; simpl; by rewrite E.
  - apply Forall_cons_1 in Hc as [Hc Hcs].
    assert (buf_get (pre ++ c :: text ++ 0 :: post) (Z.of_nat (length pre)) = Some c) as E.
    { unfold buf_get, in_block. rewrite !length_app. simpl. rewrite Nat2Z.id.
      destruct (Z.leb_spec 0 (Z.of_nat (length pre))); [|lia].
      destruct (Z.ltb_spec (Z.of_nat (length pre))
        (Z.of_nat (length pre + Datatypes.S (length (text ++ 0 :: post))))); [|lia].
      cbn [andb]. by apply list_lookup_middle. }
    destruct rem as [|rem]; [lia|]. simpl. rewrite E. cbn [mbind option_bind].
    unfold is_char in Hc. destruct (Z.eqb_spec c 0); [lia|].
    replace (pre ++ c :: text ++ 0 :: post) with ((pre ++ [c]) ++ text ++ 0 :: post)
      by (by rewrite <- app_assoc).
    replace (Z.of_nat (length pre) + 1) with (Z.of_nat (length (pre ++ [c])))
      by (rewrite length_app; simpl; lia).
    rewrite IH by (done || lia). f_equal. f_equal.
    + rewrite length_app. simpl. lia.
    + destruct text as [|c' text]; simpl.
      * by rewrite Z.add_0_r.
      * unfold u8, wrap. rewrite Zplus_mod_idemp_l. f_equal. lia.
Qed.

(** The bytes of the socket, after [gdb_send_data]. *)
Definition sent (g : gdbs) (bs : list Z) (p : list Z) (n : Z) : gdbs := {|
  g_sim := g_sim g;
  g_data := {| target_exception := target_exception (g_data g); packet := p; len := n |};
  g_out := g_out g ++ bs; g_shut := g_shut g |}.

Lemma buf_set_middle {A} (pre post : list A) x v :
  buf_set (pre ++ x :: post) (Z.of_nat (length pre)) v = Some (pre ++ v :: post).
Proof.
  rewrite buf_set_Some by (rewrite length_app; simpl; lia). rewrite Nat2Z.id.
  f_equal. by rewrite insert_app_r_alt, Nat.sub_diag by lia.
Qed.

Lemma write_at_block (pre old post bs : list Z) :
  length old = length bs ->
  write_at (Z.of_nat (length pre)) bs (pre ++ old ++ post) = Some (pre ++ bs ++ post).
Proof.
  intros Hl. rewrite write_at_spec by (rewrite !length_app; lia).
  rewrite take_app_length. f_equal. f_equal. f_equal.
  rewrite <- Hl, <- length_app, app_assoc. by rewrite drop_app_length.
Qed.

(** A list of at least [n] elements, cut after [n]. *)
Lemma cut {A} (l : list A) n :
  (n <= length l)%nat -> exists l1 l2, l = l1 ++ l2 /\ length l1 = n.
Proof.
  intros. exists (take n l), (drop n l). split; [by rewrite take_drop|].
  rewrite length_take. lia.
Qed.

Lemma checksum_scan text :
  match text with [] => 0 | _ => u8 (0 + foldr Z.add 0 text) end = checksum text.
Proof. by destruct text. Qed.

(** What [gdb_send_buffer] does to a packet holding a text. *)
Lemma send_buffer_spec g (x y a b z : Z) text post :
  packet (g_data g) = x :: text ++ 0 :: y :: a :: b :: post ->
  Forall is_char text -> (length text <= 1023)%nat ->
  gdb_send_buffer g =
  Ok () (sent g (framed text) (framed text ++ 0 :: post) (Z.of_nat (length text) + 4)).
Proof.
  intros Hp Hc Hl. unfold gdb_send_buffer. rewrite (bind_ok _ _ g (g_data g) g) by done.
  rewrite Hp. set (p1 := y :: a :: b :: post).
  pose proof (buf_set_middle [] (text ++ 0 :: p1) x 36) as E0.
  cbn [app length] in E0. change (Z.of_nat 0) with 0 in E0.
  rewrite E0. cbn [of_option]. rewrite (bind_ok _ _ g (36 :: text ++ 0 :: p1) g) by done.
  pose proof (scan_packet_spec text 1024 [36] p1 0 Hc ltac:(lia)) as Es.
  rewrite checksum_scan in Es. cbn [app length] in Es.
  change (Z.of_nat 1) with 1 in Es. rewrite Es. cbn [of_option].
  change (1 + length text)%nat with (Datatypes.S (length text)).
  set (n := Z.of_nat (Datatypes.S (length text))).
  rewrite (bind_ok _ _ g (n, checksum text) g) by done.
  pose proof (buf_set_middle (36 :: text) p1 0 35) as E1. cbn [app length] in E1.
  fold n in E1. rewrite E1. cbn [of_option].
  rewrite (bind_ok _ _ g (36 :: text ++ 35 :: p1) g) by done.
  pose proof (write_at_block (36 :: text ++ [35]) [y; a; b] post
    (hex2 (checksum text) ++ [0]) eq_refl) as E2.
  cbn [app length] in E2. rewrite <- app_assoc in E2. cbn [app] in E2.
  replace (Z.of_nat (Datatypes.S (length (text ++ [35])))) with (n + 1) in E2
    by (unfold n; rewrite length_app; simpl; lia).
  unfold p1. rewrite E2. cbn [of_option].
  set (p2 := 36 :: _). rewrite (bind_ok _ _ g p2 g) by done. cbv zeta.
  assert (p2 = framed text ++ 0 :: post) as ->.
  { unfold p2, framed. simpl. f_equal. rewrite <- !app_assoc. f_equal. }
  assert (length (framed text) = (length text + 4)%nat) as Hlen.
  { unfold framed. simpl. rewrite length_app. simpl. lia. }
  pose proof (buf_set_middle (framed text) post 0 0) as E3. rewrite Hlen in E3.
  replace (n + 3) with (Z.of_nat (length text + 4)) by lia. rewrite E3.
  cbn [of_option]. rewrite (bind_ok _ _ g (framed text ++ 0 :: post) g) by done.
  unfold gdb_transmit_packet. rewrite bind_eq. cbn [put_data gdb_connection].
  rewrite bind_eq. cbn [get_data gdb_connection]. rewrite bind_eq.
  cbn [get_state with_data g_data len packet mret ST_ret].
  rewrite debug_off. cbn [len packet].
  rewrite length_app, Hlen.
  destruct (Z.leb_spec (Z.of_nat (length text + 4))
    (Z.of_nat (length text + 4 + length (0 :: post)))); [|lia].
  cbn [of_option]. rewrite bind_eq. cbn [mret ST_ret].
  rewrite Nat2Z.id, <- Hlen, take_app_length. unfold sent. cbn.
  repeat f_equal. rewrite length_app. simpl. lia.
Qed.

(** [g'] is [g] with [text] as the text of its packet, before it is framed. *)
Definition holds_text (g g' : gdbs) (text : list Z) : Prop :=
  g_sim g' = g_sim g /\ g_out g' = g_out g /\ g_shut g' = g_shut g /\
  target_exception (g_data g') = target_exception (g_data g) /\
  exists x y a b post,
    packet (g_data g') = x :: text ++ 0 :: y :: a :: b :: post /\
    (length post + length text = 1019)%nat.

Lemma put_text_spec g text :
  length (packet (g_data g)) = 1024%nat -> (length text <= 1019)%nat ->
  exists g', put_text 1 text g = Ok () g' /\ holds_text g g' text.
Proof.
  intros Hp Hl. destruct (packet (g_data g)) as [|x q] eqn:Eq; [done|].
  simpl in Hp. destruct (cut q (length text)) as (old & q' & -> & Hold); [lia|].
  rewrite length_app in Hp.
  destruct q' as [|w [|y [|a [|b post]]]]; simpl in Hp; try lia.
  unfold put_text.
  rewrite (bind_ok _ _ g (g_data g) g) by done. rewrite Eq.
  pose proof (write_at_block [x] (old ++ [w]) (y :: a :: b :: post) (text ++ [0])) as E.
  rewrite !length_app, Hold in E. specialize (E eq_refl). rewrite <- !app_assoc in E.
  cbn [app length] in E. change (Z.of_nat 1) with 1 in E. rewrite E. cbn [of_option].
  set (p1 := x :: _). rewrite (bind_ok _ _ g p1 g) by done.
  unfold put_packet. rewrite (bind_ok _ _ g (g_data g) g) by done. cbn [put_data].
  eexists. split; [done|]. repeat (split; [done|]). exists x, y, a, b, post.
  split; [done|]. lia.
Qed.

(** Sending the text a packet holds. *)
Lemma send_buffer_text g g1 text :
  holds_text g g1 text -> Forall is_char text ->
  exists p, length p = 1024%nat /\
    gdb_send_buffer g1 =
    Ok () (sent g (framed text) p (Z.of_nat (length text) + 4)).
Proof.
  intros (Hs & Ho & Hsh & Hx & x & y & a & b & post & Hp & Hl) Hc.
  exists (framed text ++ 0 :: post). split.
  { unfold framed. simpl. rewrite length_app. simpl. rewrite length_app. simpl. lia. }
  rewrite (send_buffer_spec _ x y a b 0 text post Hp Hc) by lia.
  unfold sent. by rewrite Hs, Ho, Hsh, Hx.
Qed.

(** [gdb_send_data] with a text that fits in the packet. *)
Lemma send_data_spec g text :
  length (packet (g_data g)) = 1024%nat -> Forall is_char text ->
  (length text <= 1019)%nat ->
  exists p, length p = 1024%nat /\
    gdb_send_data text g =
    Ok () (sent g (framed text) p (Z.of_nat (length text) + 4)).
Proof.
  intros Hp Hc Hl. destruct (put_text_spec g text Hp Hl) as (g1 & E & H).
  unfold gdb_send_data. rewrite (bind_ok _ _ _ _ _ E). by apply send_buffer_text.
Qed.

(** ** Hexadecimal text *)

Lemma scan_hex2_all :
  forall b, 0 <= b < 256 -> forall s, scan_hex 2 (hex2 b ++ s) = Some (b, s).
Proof.
  apply (range_cases (fun b => forall s, scan_hex 2 (hex2 b ++ s) = Some (b, s)) 256).
  cbv [seq fmap list_fmap].
  repeat (apply Forall_cons_2; [intros s; reflexivity|]). apply Forall_nil_2.
Qed.

Lemma hex2_chars b : 0 <= b < 256 -> Forall is_char (hex2 b).
Proof.
  intros Hb. pose proof (Z.mod_pos_bound b 16 ltac:(lia)).
  assert (0 <= b / 16 < 16) by (split; [apply Z.div_pos; lia | apply Z.div_lt_upper_bound; lia]).
  unfold hex2, hex_digit, is_char.
  repeat apply Forall_cons_2; try apply Forall_nil_2; case_match; lia.
Qed.

(** A C string followed by its 0. *)
Lemma cstring_chars text rest :
  Forall is_char text -> cstring (text ++ 0 :: rest) = Some text.
Proof.
  induction 1 as [|c text Hc _ IH]; [done|]. unfold is_char in Hc. simpl.
  rewrite IH. by destruct c; [lia|..].
Qed.
Lemma cstring_app text rest t :
  Forall is_char text -> cstring rest = Some t ->
  cstring (text ++ rest) = Some (text ++ t).
Proof.
  intros Hc Hr. induction Hc as [|c text Hc _ IH]; [done|]. unfold is_char in Hc.
  simpl. rewrite IH. by destruct c; [lia|..].
Qed.

(** The digits of a checksum are read back, by %x as well. *)
Lemma sscanf_hex2 b rest v0 :
  0 <= b < 256 -> sscanf_x (hex2 b ++ 0 :: rest) v0 = Some b.
Proof.
  intros Hb. unfold sscanf_x. rewrite cstring_chars by (by apply hex2_chars).
  cbn [mbind option_bind]. f_equal. revert b Hb. apply (range_cases _ 256).
  cbv [seq fmap list_fmap].
  repeat (apply Forall_cons_2; [vm_compute; reflexivity|]). apply Forall_nil_2.
Qed.

(** ** The checksum of a received packet *)

Lemma sum_chars_spec text : forall pre post check,
  sum_chars (length text) (pre ++ text ++ post) (Z.of_nat (length pre)) check =
  Some (match text with [] => check | _ => u8 (check + foldr Z.add 0 text) end).
Proof.
  induction text as [|c text IH]; intros pre post check; [done|].
  cbn [length sum_chars app].
  assert (buf_get (pre ++ c :: text ++ post) (Z.of_nat (length pre)) = Some c) as ->.
  { unfold buf_get, in_block. rewrite length_app, Nat2Z.id. simpl.
    destruct (Z.leb_spec 0 (Z.of_nat (length pre))); [|lia].
    destruct (Z.ltb_spec (Z.of_nat (length pre))
      (Z.of_nat (length pre + Datatypes.S (length (text ++ post))))); [|lia].
    cbn [andb]. by apply list_lookup_middle. }
  cbn [mbind option_bind].
  replace (pre ++ c :: text ++ post) with ((pre ++ [c]) ++ text ++ post)
    by (by rewrite <- app_assoc).
  replace (Z.of_nat (length pre) + 1) with (Z.of_nat (length (pre ++ [c])))
    by (rewrite length_app; simpl; lia).
  rewrite IH. f_equal. destruct text as [|c' text]; simpl.
  - by rewrite Z.add_0_r.
  - unfold u8, wrap. rewrite Zplus_mod_idemp_l. f_equal. lia.
Qed.

(** A packet with the text [c :: text] and any checksum byte [k], as the
    scanner hands it over: the block goes on with a 0 and anything. *)
Definition received (c : Z) (text : list Z) (k : Z) (rest : list Z) : list Z :=
  36 :: c :: text ++ 35 :: hex2 k ++ 0 :: rest.

(** Without other threads the lock is always free. *)
Lemma locked (m : Gdb unit) g : (mutex_lock;; m;; mutex_unlock) g = m g.
Proof. rewrite (bind_ok _ _ g () g), bind_eq by done. by destruct (m g) as [[]|]. Qed.

Section Analysis.
Context `{T : Target}.

Lemma packet_analysis_eq fuel fr g c text k rest :
  0 <= k < 256 ->
  let n := Z.of_nat (length text) + 5 in
  gdb_packet_analysis fuel fr (received c text k rest) n g =
  if checksum (c :: text) =? k then
    (gdb_send_ack;;
     match handler c with
     | Some cmd => run_handler fuel fr cmd (text ++ 0 :: hex2 k ++ 0 :: rest)
     | None => gdb_send_data []
     end) g
  else gdb_require_retransmission g.
Proof.
  intros Hk n. unfold gdb_packet_analysis, n. cbv zeta.
  replace (Z.max 1 (Z.of_nat (length text) + 5 - 3))
    with (Z.of_nat (length (36 :: c :: text))) by (simpl; lia).
  replace (Z.to_nat (Z.of_nat (length (36 :: c :: text)) - 1))
    with (length (c :: text)) by (simpl; lia).
  pose proof (sum_chars_spec (c :: text) [36] (35 :: hex2 k ++ 0 :: rest) 0) as E.
  cbn [length app] in E. change (Z.of_nat 1) with 1 in E.
  cbn [length]. unfold received. rewrite E. cbn [of_option].
  change (u8 (0 + foldr Z.add 0 (c :: text))) with (checksum (c :: text)).
  rewrite (bind_ok _ _ g (checksum (c :: text)) g) by done.
  assert (drop (Z.to_nat (Z.of_nat (Datatypes.S (Datatypes.S (length text))) + 1))
    (36 :: c :: text ++ 35 :: hex2 k ++ 0 :: rest) = hex2 k ++ 0 :: rest) as ->.
  { replace (Z.to_nat _) with (Datatypes.S (Datatypes.S (length text + 1))) by lia.
    cbn [drop]. rewrite <- drop_drop, drop_app_length. done. }
  rewrite sscanf_hex2 by done. cbn [of_option].
  rewrite (bind_ok _ _ g k g) by done.
  rewrite debug_off, debug_raw_off.
  destruct (checksum (c :: text) =? k); [rewrite debug_raw_off|done].
  rewrite !bind_eq. unfold gdb_send_ack. cbn [Rio_writen gdb_connection].
  pose proof (buf_set_middle (36 :: c :: text) (hex2 k ++ 0 :: rest) 35 0) as Eb.
  cbn [app length] in Eb. rewrite Eb. cbn [of_option].
  set (g' := Build_gdbs _ _ _ _).
  rewrite (bind_ok _ _ g' (36 :: c :: text ++ 0 :: hex2 k ++ 0 :: rest) g') by done.
  change (buf_get (36 :: c :: text ++ 0 :: hex2 k ++ 0 :: rest) 1)
    with (buf_get (36 :: c :: text ++ 0 :: hex2 k ++ 0 :: rest) (Z.of_nat 1)).
  rewrite (bind_ok _ _ g' c g'); [destruct (handler c); [apply locked|done]|].
  unfold buf_get, in_block. cbn [length]. destruct (Z.ltb_spec (Z.of_nat 1)
    (Z.of_nat (Datatypes.S (Datatypes.S (length (text ++ 0 :: hex2 k ++ 0 :: rest))))));
    [done | lia].
Qed.
(** C24. A received packet is accepted exactly when its two digits are the
    sum of its text modulo 256: it is then acknowledged and its command, if the
    table has one, runs on the text that follows the command character; without
    a command the answer is the empty packet.  Otherwise a retransmission is
    required and nothing else happens. *)
Theorem packet_analysis_spec fuel fr g c text k rest :
  0 <= k < 256 ->
  let n := Z.of_nat (length text) + 5 in
  gdb_packet_analysis fuel fr (received c text k rest) n g =
  if checksum (c :: text) =? k then
    (gdb_send_ack;;
     match handler c with
     | Some cmd => run_handler fuel fr cmd (text ++ 0 :: hex2 k ++ 0 :: rest)
     | None => gdb_send_data []
     end) g
  else gdb_require_retransmission g.
Proof. apply packet_analysis_eq. Qed.

(** C26. What one end sends the other accepts.  [gdb_send_data] of a text of 1
    to 1019 characters writes its framed text to the socket, and nothing else
    changes but the packet.  A receiver that is handed these bytes (with the 0 the
    scanner puts behind them), in whatever state it is, finds the checksum right:
    [gdb_packet_analysis] acknowledges the packet and runs the command of its
    first character on the rest of the text, or answers the empty packet. *)
Theorem gdb_send_data_spec g c text :
  length (packet (g_data g)) = 1024%nat -> Forall is_char (c :: text) ->
  (length (c :: text) <= 1019)%nat ->
  let sent_bytes := framed (c :: text) in
  (exists p, length p = 1024%nat /\
     gdb_send_data (c :: text) g =
       Ok () (sent g sent_bytes p (Z.of_nat (length (c :: text)) + 4))) /\
  forall fuel fr rest g2,
    gdb_packet_analysis fuel fr (sent_bytes ++ 0 :: rest) (Z.of_nat (length sent_bytes)) g2 =
    (gdb_send_ack;;
     match handler c with
     | Some cmd => run_handler fuel fr cmd
                     (text ++ 0 :: hex2 (checksum (c :: text)) ++ 0 :: rest)
     | None => gdb_send_data []
     end) g2.
Proof.
  intros Hp Hc Hl sent_bytes. split; [by apply send_data_spec|]. intros fuel fr rest g2.
  assert (0 <= checksum (c :: text) < 256) as Hk by apply checksum_range.
  assert (sent_bytes ++ 0 :: rest = received c text (checksum (c :: text)) rest) as ->.
  { unfold sent_bytes, framed, received. simpl. do 2 f_equal.
    by rewrite <- app_assoc. }
  assert (Z.of_nat (length sent_bytes) = Z.of_nat (length text) + 5) as ->.
  { unfold sent_bytes, framed. simpl. rewrite length_app. simpl. lia. }
  rewrite (packet_analysis_eq fuel fr g2 c text _ rest Hk).
  by rewrite Z.eqb_refl.
Qed.
End Analysis.

(** The packet buffer overflows for longer texts: from 1023 characters
    on, the strcpy of [gdb_send_data] writes outside of the 1024 bytes. *)
Lemma gdb_send_data_overflow g text :
  length (packet (g_data g)) = 1024%nat -> (1023 <= length text)%nat ->
  gdb_send_data text g = Fault OutOfBounds.
Proof.
  intros Hp Hl. unfold gdb_send_data, put_text. apply bind_fault.
  rewrite (bind_ok _ _ g (g_data g) g) by done.
  rewrite write_at_overflow; [done | lia | rewrite length_app, Hp; simpl; lia |].
  by destruct text.
Qed.

(** ** Words *)

Section WordText.
Context `{T : Target}.

(** The word in the byte order of the simulated machine, whatever the host's. *)
Definition word_text (v : Z) : list Z :=
  mjoin (hex2 <$> field_bytes big_endian_simulator 4 v).

(** The bytes the loops visit, in their order. *)
Lemma indices_spec :
  uint32_indices = Some (if Bool.eqb host_big_endian big_endian_simulator
                         then [0; 1; 2; 3] else [3; 2; 1; 0]).
Proof.
  unfold uint32_indices, is_big_endian, host_bytes.
  by destruct host_big_endian, big_endian_simulator.
Qed.

Lemma bytes_4 v :
  exists b0 b1 b2 b3, is_u8 b0 /\ is_u8 b1 /\ is_u8 b2 /\ is_u8 b3 /\
    Z_to_little_endian 4 8 v = [b0; b1; b2; b3] /\
    [u8 v; u8 (Z.shiftr v 8); u8 (Z.shiftr v 16); u8 (Z.shiftr v 24)] = [b0; b1; b2; b3].
Proof.
  exists (u8 v), (u8 (Z.shiftr v 8)), (u8 (Z.shiftr v 16)), (u8 (Z.shiftr v 24)).
  repeat (split; [apply u8_range|]). split; [|done].
  pose proof (field_bytes_4 false v) as E. unfold field_bytes in E. rewrite E. done.
Qed.

Lemma write_uint32_text v : write_uint32 v = Some (word_text v).
Proof.
  unfold write_uint32, word_text, field_bytes, host_bytes. rewrite indices_spec.
  cbn [mbind option_bind].
  destruct (bytes_4 v) as (b0 & b1 & b2 & b3 & _ & _ & _ & _ & -> & ->).
  by destruct host_big_endian, big_endian_simulator.
Qed.

Lemma read_bytes_step i idx b rest t value bytes :
  is_u8 b -> cstring rest = Some t ->
  read_bytes (i :: idx) (hex2 b ++ rest) value bytes =
  (bytes ← buf_set bytes i b; read_bytes idx rest b bytes).
Proof.
  intros Hb Hr. cbn [read_bytes].
  rewrite (cstring_app (hex2 b) rest t (hex2_chars b Hb) Hr).
  cbn [mbind option_bind]. rewrite scan_hex2_all by exact Hb. by rewrite u8_small.
Qed.

Lemma hex2_cstring b rest t :
  is_u8 b -> cstring rest = Some t -> exists t', cstring (hex2 b ++ rest) = Some t'.
Proof. intros Hb Hr. eexists. by apply cstring_app; [apply hex2_chars|]. Qed.

Lemma read_bytes_4 i0 i1 i2 i3 b0 b1 b2 b3 rest t value bytes :
  is_u8 b0 -> is_u8 b1 -> is_u8 b2 -> is_u8 b3 -> cstring rest = Some t ->
  read_bytes [i0; i1; i2; i3] (mjoin (hex2 <$> [b0; b1; b2; b3]) ++ rest) value bytes =
  (bytes ← buf_set bytes i0 b0; bytes ← buf_set bytes i1 b1;
   bytes ← buf_set bytes i2 b2; buf_set bytes i3 b3).
Proof.
  intros H0 H1 H2 H3 Hr.
  destruct (hex2_cstring b3 rest t H3 Hr) as (t3 & E3).
  destruct (hex2_cstring b2 _ t3 H2 E3) as (t2 & E2).
  destruct (hex2_cstring b1 _ t2 H1 E2) as (t1 & E1).
  change (mjoin (hex2 <$> [b0; b1; b2; b3]) ++ rest)
    with (hex2 b0 ++ hex2 b1 ++ hex2 b2 ++ hex2 b3 ++ rest).
  rewrite (read_bytes_step _ _ _ _ t1) by done.
  destruct (buf_set bytes i0 b0) as [bs|]; [|done]. cbn [mbind option_bind].
  rewrite (read_bytes_step _ _ _ _ t2) by done.
  destruct (buf_set bs i1 b1) as [bs1|]; [|done]. cbn [mbind option_bind].
  rewrite (read_bytes_step _ _ _ _ t3) by done.
  destruct (buf_set bs1 i2 b2) as [bs2|]; [|done]. cbn [mbind option_bind].
  rewrite (read_bytes_step _ _ _ _ t) by done.
  by destruct (buf_set bs2 i3 b3).
Qed.

Lemma read_uint32_text v rest t v0 :
  is_u32 v -> cstring rest = Some t ->
  read_uint32 (word_text v ++ rest) v0 = Some v.
Proof.
  intros Hv Hr. unfold read_uint32. rewrite indices_spec. cbn [mbind option_bind].
  assert (host_integer (field_bytes host_big_endian 4 v) = v) as Hi.
  { change (field_value host_big_endian (field_bytes host_big_endian 4 v) = v).
    rewrite field_roundtrip by lia. by apply Z.mod_small. }
  unfold word_text, field_bytes in *.
  destruct (bytes_4 v) as (b0 & b1 & b2 & b3 & H0 & H1 & H2 & H3 & E & _).
  rewrite E in *.
  destruct big_endian_simulator, host_big_endian; cbn [Bool.eqb reverse] in *;
    rewrite ?reverse_cons in *; cbn [reverse app rev_append] in *;
    unfold reverse in *; cbn [rev_append] in *;
    rewrite (read_bytes_4 _ _ _ _ _ _ _ _ _ t) by done;
    rewrite <- Hi; reflexivity.
Qed.

Lemma word_text_chars v : Forall is_char (word_text v) /\ length (word_text v) = 8%nat.
Proof.
  unfold word_text, field_bytes.
  destruct (bytes_4 v) as (b0 & b1 & b2 & b3 & H0 & H1 & H2 & H3 & -> & _).
  assert (forall l, Forall is_u8 l -> Forall is_char (mjoin (hex2 <$> l))) as Hj.
  { induction 1 as [|b l Hb _ IH]; [constructor|].
    change (Forall is_char (hex2 b ++ mjoin (hex2 <$> l))).
    apply Forall_app. split; [by apply hex2_chars | done]. }
  split; [apply Hj | by destruct big_endian_simulator].
  destruct big_endian_simulator; repeat apply Forall_cons_2; (done || constructor).
Qed.

(** The words of the protocol: [write_uint32] writes the eight
    hexadecimal digits of the four bytes in the byte order of the simulated
    machine, and [read_uint32] reads them back, on hosts of both byte orders,
    whatever follows and whatever its variables held. *)
Lemma uint32_roundtrip v rest t v0 :
  is_u32 v -> cstring rest = Some t ->
  exists text, write_uint32 v = Some text /\ length text = 8%nat /\
    text = mjoin (hex2 <$> field_bytes big_endian_simulator 4 v) /\
    read_uint32 (text ++ rest) v0 = Some v.
Proof.
  intros Hv Hr. exists (word_text v). split; [apply write_uint32_text|].
  split; [apply word_text_chars|]. split; [done|].
  by eapply read_uint32_text.
Qed.
End WordText.
