(* ===== verification/Handlers.v ===== *)
(** * The handlers of gdb_protocol.c

    What the handlers do to the processor and what they answer, run on a
    connection whose simulator is [ready], well formed, and whose packet is
    the 1024-byte array of the C struct ([gdb_ready]). *)
From S2P Require Import Prelude Util Constants Memory Registers Trace Core.
From S2P Require Import Refine LoadStore Branch Instruction Run Invariant.
From S2P Require Import ArmSpec Correct Execute Examples Gdb Packets.

Definition g_arm (g : gdbs) : arm_core_data := s_arm (g_sim g).

Record gdb_ready (g : gdbs) : Prop := {
  gr_ready : ready 2 (g_sim g);
  gr_wf : core_wf (g_arm g);
  gr_packet : length (packet (g_data g)) = 1024%nat
}.

Definition with_sim (s : sim) (g : gdbs) : gdbs := {|
  g_sim := s; g_data := g_data g; g_out := g_out g; g_shut := g_shut g |}.

(** ** Printing the state leaves the processor alone *)

Definition Quiet {A} (m : Sim A) : Prop :=
  forall s, ready 0 s ->
    exists a s', m s = Ok a s' /\ s_arm s' = s_arm s /\ evolves 0 s s'.

Lemma quiet_ret {A} (a : A) : Quiet (mret a).
Proof. intros s _. exists a, s. split; [done|]. split; [done|apply evolves_refl]. Qed.

Lemma quiet_bind {A B} (m : Sim A) (k : A -> Sim B) :
  Quiet m -> (forall a, Quiet (k a)) -> Quiet (m ≫= k).
Proof.
  intros Hm Hk s Hs. destruct (Hm s Hs) as (a & s1 & E1 & Ea1 & H1).
  destruct (Hk a s1 (ready_evolves _ _ _ Hs H1)) as (b & s2 & E2 & Ea2 & H2).
  exists b, s2. rewrite (bind_ok _ _ _ _ _ E1). split; [exact E2|].
  split; [congruence | by transitivity s1].
Qed.

Lemma quiet_if {A} (b : bool) (m1 m2 : Sim A) :
  Quiet m1 -> Quiet m2 -> Quiet (if b then m1 else m2).
Proof. by destruct b. Qed.

Lemma quiet_emit e : Quiet (emit e).
Proof. intros s _. eexists _, _. split; [done|]. split; [done|apply evolves_emit]. Qed.

Lemma quiet_of_option {A} (o : option A) : is_Some o -> Quiet (of_option o).
Proof. intros [a ->]. apply quiet_ret. Qed.

(** A read of the processor. *)
Lemma quiet_refines {A} (m : Sim A) (f : Arch A) :
  Refines 0 m f ->
  (forall p, has_regs p -> exists a, f p = Ok a p) -> Quiet m.
Proof.
  intros Hm Hf s Hs. specialize (Hm s Hs).
  destruct (Hf (s_arm s)) as [a E]; [apply Hs|]. rewrite E in Hm.
  destruct Hm as (s' & Es & Ea & Hev). by exists a, s'.
Qed.

Lemma quiet_read_register r : 0 <= r < 16 -> Quiet (Core.arm_read_register r).
Proof.
  intros Hr. apply (quiet_refines _ _ (refines_read_register 0 r)).
  intros p Hp. eexists. by apply run_read.
Qed.

Lemma quiet_read_cpsr : Quiet arm_read_cpsr.
Proof.
  apply (quiet_refines _ _ (refines_read_cpsr 0)). intros p Hp. eexists.
  by apply run_read_cpsr.
Qed.

Lemma quiet_read_usr_register r : 0 <= r < 16 -> Quiet (arm_read_usr_register r).
Proof.
  intros Hr. apply (quiet_refines _ _ (refines_read_usr_register 0 r ltac:(lia))).
  intros p Hp. simpl. unfold arch_regs, read_usr_register, in_a_privileged_mode.
  rewrite bind_eq. simpl. rewrite get_mode_spec by exact Hp. simpl.
  rewrite u8_small by (unfold is_u8; lia). rewrite (reg_get _ r Hp) by lia.
  destruct (c_true _); by eexists.
Qed.

Create HintDb quiet discriminated.
#[export] Hint Constants Opaque : quiet.
#[export] Hint Resolve quiet_ret quiet_bind quiet_if quiet_emit quiet_of_option
  quiet_read_register quiet_read_cpsr quiet_read_usr_register : quiet.

Lemma quiet_print_one mode r count :
  0 <= r < 16 -> Quiet (print_one_register mode r count).
Proof.
  intros Hr. unfold print_one_register, fprintf.
  assert (is_Some (arm_get_register_name r)) by (apply register_name_ok; lia).
  apply quiet_bind; [by apply quiet_of_option|]. intros name.
  destruct (mode =? USR); auto 8 with quiet.
Qed.

Lemma quiet_print_registers mode regs count :
  Forall (fun r => 0 <= r < 16) regs -> Quiet (print_registers mode regs count).
Proof.
  intros H. revert count. induction H as [|r regs Hr _ IH]; intros count;
    cbn [print_registers]; [apply quiet_ret|].
  apply quiet_bind; [by apply quiet_print_one | exact IH].
Qed.

Lemma quiet_print_mode mode : 0 <= mode < 32 -> Quiet (print_mode mode).
Proof.
  intros Hm. unfold print_mode, fprintf. destruct (mode_name_fits mode Hm) as (o & -> & _).
  apply quiet_bind; [by apply quiet_of_option|]. intros [name|]; [|apply quiet_ret].
  apply quiet_bind; [auto with quiet|]. intros _.
  apply quiet_bind; [apply quiet_print_registers|intros _].
  { cbv [seq fmap list_fmap]. repeat apply Forall_cons_2; try apply Forall_nil_2; lia. }
  auto 8 with quiet.
Qed.

Lemma quiet_print_modes modes :
  Forall (fun m => 0 <= m < 32) modes -> Quiet (print_modes modes).
Proof.
  induction 1 as [|m modes Hm _ IH]; cbn [print_modes]; [apply quiet_ret|].
  apply quiet_bind; [by apply quiet_print_mode | by intros _].
Qed.

Lemma quiet_get_trace : Quiet get_trace.
Proof. intros s _. exists (s_trace s), s. split; [done|]. split; [done|apply evolves_refl]. Qed.

Lemma quiet_trace_arm_state : Quiet trace_arm_state.
Proof.
  unfold trace_arm_state. apply quiet_bind; [apply quiet_get_trace|]. intros t.
  apply quiet_if; [|apply quiet_ret]. apply quiet_print_modes.
  cbv [seq fmap list_fmap]. repeat apply Forall_cons_2; try apply Forall_nil_2; lia.
Qed.

(** ** Operations of the simulator inside of a handler *)

(** [g'] is [g] with another state of the simulator, whose processor is [p]. *)
Definition moved (g g' : gdbs) (p : arm_core_data) : Prop :=
  exists s, g' = with_sim s g /\ s_arm s = p /\
    forall n, ready n (g_sim g) -> ready n s.

Lemma moved_trans g1 g2 g3 p q : moved g1 g2 p -> moved g2 g3 q -> moved g1 g3 q.
Proof.
  intros (s1 & -> & _ & H1) (s2 & -> & E & H2). exists s2.
  split; [done|]. split; [done|]. auto.
Qed.

Lemma moved_arm g g' p : moved g g' p -> g_arm g' = p.
Proof. by intros (s & -> & <- & _). Qed.
Lemma moved_data g g' p : moved g g' p -> g_data g' = g_data g.
Proof. by intros (s & -> & _). Qed.
Lemma moved_out g g' p : moved g g' p -> g_out g' = g_out g.
Proof. by intros (s & -> & _). Qed.
Lemma moved_ready n g g' p : moved g g' p -> ready n (g_sim g) -> ready n (g_sim g').
Proof. intros (s & -> & _ & H). apply H. Qed.

Lemma moved_gdb_ready g g' p :
  moved g g' p -> core_wf p -> gdb_ready g -> gdb_ready g'.
Proof.
  intros Hm Hp [Hr _ Hl]. split.
  - by eapply moved_ready.
  - by rewrite (moved_arm _ _ _ Hm).
  - by rewrite (moved_data _ _ _ Hm).
Qed.

Lemma on_sim_refines {A} n (m : Sim A) (f : Arch A) g a p :
  Refines n m f -> ready n (g_sim g) -> f (g_arm g) = Ok a p ->
  exists g', on_sim m g = Ok a g' /\ moved g g' p.
Proof.
  intros Hm Hr E. specialize (Hm _ Hr). unfold g_arm in E. rewrite E in Hm.
  destruct Hm as (s & Es & Ea & Hev). cbn [on_sim gdb_connection]. unfold gdb_sim. rewrite Es.
  eexists. split; [done|]. exists s. split; [done|]. split; [done|].
  intros n' Hn'. by eapply ready_evolves.
Qed.

Lemma on_sim_quiet {A} (m : Sim A) g :
  Quiet m -> ready 0 (g_sim g) ->
  exists a g', on_sim m g = Ok a g' /\ moved g g' (g_arm g).
Proof.
  intros Hm Hr. destruct (Hm _ Hr) as (a & s & Es & Ea & Hev).
  cbn [on_sim gdb_connection]. unfold gdb_sim. rewrite Es. eexists a, _. split; [done|]. exists s.
  split; [done|]. split; [done|]. intros n' Hn'. by eapply ready_evolves.
Qed.

Lemma on_sim_enabled e g :
  exists g', on_sim (t ← get_trace; put_trace (with_enabled e t)) g = Ok () g' /\
    moved g g' (g_arm g).
Proof.
  eexists. split; [reflexivity|]. eexists. split; [reflexivity|]. split; [reflexivity|].
  intros n []. by split.
Qed.
Lemma on_sim_disable g :
  exists g', on_sim trace_disable g = Ok () g' /\ moved g g' (g_arm g).
Proof. apply on_sim_enabled. Qed.
Lemma on_sim_enable g :
  exists g', on_sim trace_enable g = Ok () g' /\ moved g g' (g_arm g).
Proof. apply on_sim_enabled. Qed.

(** A located access to the processor. *)
Lemma located_gdb_refines {A} line (m : Sim A) (f : Arch A) g a p :
  Refines 0 m f -> ready 1 (g_sim g) -> f (g_arm g) = Ok a p ->
  exists g', located_gdb line m g = Ok a g' /\ moved g g' p.
Proof.
  intros Hm Hr E. unfold located_gdb.
  apply (on_sim_refines 1 _ (core_located "gdb_protocol.c" line f)); [|done|done].
  by apply (refines_located 0 "gdb_protocol.c" line).
Qed.

(** [run_in H g1 M]: run the head by [H], which ends in [g1], moved by [M]. *)
Tactic Notation "run_in" constr(H) "as" ident(g1) ident(M) :=
  let E := fresh "E" in
  destruct H as (g1 & E & M); [..|rewrite (bind_ok _ _ _ _ _ E); clear E].

(** ** The answer to a stop *)

Definition stop_text (exception : Z) : list Z :=
  if exception =? UNDEFINED_INSTRUCTION then bytes_of "S04"
  else if (exception =? PREFETCH_ABORT) || (exception =? DATA_ABORT)
  then bytes_of "S10" else bytes_of "S05".

(** An answer sent: the processor is untouched and the framed text is out. *)
Definition answered (g g' : gdbs) (text : list Z) : Prop :=
  g_sim g' = g_sim g /\ g_out g' = g_out g ++ framed text /\
  length (packet (g_data g')) = 1024%nat /\
  target_exception (g_data g') = target_exception (g_data g).

Lemma send_data_answers g text :
  length (packet (g_data g)) = 1024%nat -> Forall is_char text ->
  (length text <= 1019)%nat ->
  exists g', gdb_send_data text g = Ok () g' /\ answered g g' text.
Proof.
  intros Hp Hc Hl. destruct (send_data_spec g text Hp Hc Hl) as (p & Hlen & E).
  eexists. split; [exact E|]. by repeat split.
Qed.

(** The reason of the last stop is what it was. *)
Definition same_exception (g g' : gdbs) : Prop :=
  target_exception (g_data g') = target_exception (g_data g).
#[export] Instance same_exception_preorder : PreOrder same_exception.
Proof. split; [done|]. intros g1 g2 g3 H1 H2. unfold same_exception in *. congruence. Qed.
Lemma moved_exception g g' p : moved g g' p -> same_exception g g'.
Proof. intros M. unfold same_exception. by rewrite (moved_data _ _ _ M). Qed.

Lemma answered_out g g' text : answered g g' text -> g_out g' = g_out g ++ framed text.
Proof. by intros (_ & O & _). Qed.
Lemma answered_arm g g' text : answered g g' text -> g_arm g' = g_arm g.
Proof. intros (S & _). unfold g_arm. by rewrite S. Qed.
Lemma answered_exception g g' text : answered g g' text -> same_exception g g'.
Proof. by intros (_ & _ & _ & X). Qed.
Lemma answered_ready g g' text : answered g g' text -> gdb_ready g -> gdb_ready g'.
Proof.
  intros (S & _ & P & _) [Hr Hw _].
  split; [by rewrite S | by unfold g_arm; rewrite S | done].
Qed.

Lemma bytes_of_chars s :
  forallb (fun c => (0 <? c) && (c <? 256)) (bytes_of s) = true ->
  Forall is_char (bytes_of s).
Proof.
  rewrite forallb_forall. intros H. apply List.Forall_forall.
  intros c Hc. specialize (H c Hc). unfold is_char. lia.
Qed.

Lemma stop_reason_answers g :
  length (packet (g_data g)) = 1024%nat ->
  exists g', gdb_send_stop_reason g = Ok () g' /\
    answered g g' (stop_text (target_exception (g_data g))).
Proof.
  intros Hp. unfold gdb_send_stop_reason, stop_text.
  rewrite (bind_ok _ _ g (g_data g) g) by done.
  repeat case_match; apply send_data_answers; try done;
    try (apply bytes_of_chars; reflexivity); simpl; lia.
Qed.

(** ** step and cont *)

Definition is_breakpoint (w : Z) : bool := Z.land w 0xFFF000F0 =? 0xE7F000F0.

Section Running.
Context `{T : Target}.

(** [run_until fr k n p q]: [q] is the first of the states [p] and its
    successors whose next instruction is a breakpoint, [n] steps away.  [k] is
    the number of the first step. *)
Inductive run_until (fr : gframe) : nat -> nat -> arm_core_data -> arm_core_data -> Prop :=
  | until_here k p w :
      word_at (mem p) (fetch_address p) = Some w -> is_breakpoint w = true ->
      run_until fr k 0 p p
  | until_step k n p p1 q w :
      word_at (mem p) (fetch_address p) = Some w -> is_breakpoint w = false ->
      arm_step (M := Arch) (gf_step fr k) p = Ok 0 p1 ->
      run_until fr (Datatypes.S k) n p1 q ->
      run_until fr k (Datatypes.S n) p q.

Lemma step_wf fr p p' :
  core_wf p -> arm_step (M := Arch) fr p = Ok 0 p' -> core_wf p'.
Proof.
  intros Hp E.
  pose proof (step_inv_preserved True _ _ _ fr _ (core_wf_inv _ Hp) (or_introl I)) as H.
  rewrite E in H. apply H.
Qed.

Lemma step_and_trace_spec fr g p :
  gdb_ready g -> arm_step (M := Arch) fr (g_arm g) = Ok 0 p ->
  exists g', step_and_trace fr g = Ok () g' /\ g_arm g' = p /\ gdb_ready g' /\
    g_out g' = g_out g /\ target_exception (g_data g') = 0.
Proof.
  intros Hg E. unfold step_and_trace. pose proof (step_wf fr _ p (gr_wf g Hg) E) as Hp.
  destruct (on_sim_refines 2 _ _ g 0 p (refines_step 0 fr) (gr_ready g Hg) E)
    as (g1 & E1 & M1).
  rewrite (bind_ok _ _ _ _ _ E1).
  pose proof (moved_gdb_ready _ _ _ M1 Hp Hg) as Hg1.
  set (g2 := {| g_sim := g_sim g1;
    g_data := {| target_exception := 0; packet := packet (g_data g1); len := len (g_data g1) |};
    g_out := g_out g1; g_shut := g_shut g1 |}).
  rewrite (bind_ok _ _ g1 () g2) by done.
  assert (gdb_ready g2) as Hg2 by (destruct Hg1; by split).
  destruct (on_sim_quiet trace_arm_state g2 quiet_trace_arm_state)
    as (a & g3 & E3 & M3); [by eapply ready_0, gr_ready|].
  rewrite E3. destruct a. exists g3. split; [done|].
  split; [by rewrite (moved_arm _ _ _ M3); apply (moved_arm _ _ _ M1)|].
  split; [by eapply moved_gdb_ready; [exact M3 | apply Hg2 | ]|].
  rewrite (moved_out _ _ _ M3), (moved_data _ _ _ M3). split; [|done].
  apply (moved_out _ _ _ M1).
Qed.

(** One turn of the loop, up to the test of the instruction. *)
Lemma cont_head fuel fr k x g :
  gdb_ready g ->
  match memory_read_word (mem (g_arm g)) (fetch_address (g_arm g)) x with
  | Some (_, w) =>
      exists g', moved g g' (g_arm g) /\
        cont_loop (Datatypes.S fuel) fr k x g =
        (if is_breakpoint w then mret ()
         else step_and_trace (gf_step fr k);; cont_loop fuel fr (Datatypes.S k) w) g'
  | None => cont_loop (Datatypes.S fuel) fr k x g = Fault OutOfBounds
  end.
Proof.
  intros Hg. cbn [cont_loop]. pose proof (gr_wf g Hg) as Hp.
  pose proof (wf_has_regs _ Hp) as Hl.
  assert (ready 1 (g_sim g)) as Hr by (eapply ready_le; [|apply Hg]; lia).
  destruct (on_sim_disable g) as (g1 & E1 & M1). rewrite (bind_ok _ _ _ _ _ E1).
  pose proof (moved_arm _ _ _ M1) as A1.
  destruct (located_gdb_refines 169 _ _ g1 (gpr_view (g_arm g) 15) (g_arm g)
    (refines_read_register 0 15)) as (g2 & E2 & M2);
    [by eapply moved_ready | rewrite A1; apply run_read; [done | lia]|].
  rewrite (bind_ok _ _ _ _ _ E2). cbv zeta.
  pose proof (moved_trans _ _ _ _ _ M1 M2) as M02.
  change (u32 (gpr_view (g_arm g) 15 - 4)) with (fetch_address (g_arm g)).
  pose proof (refines_read_word 0 (fetch_address (g_arm g)) x) as Rw.
  assert (ready 1 (g_sim g2)) as Hr2 by (by eapply moved_ready).
  destruct (memory_read_word _ _ x) as [[r w]|] eqn:Er.
  - destruct (located_gdb_refines 170 _ _ g2 (r, w) (g_arm g) Rw Hr2) as (g3 & E3 & M3).
    { rewrite (moved_arm _ _ _ M2). by apply run_read_word. }
    rewrite (bind_ok _ _ _ _ _ E3). pose proof (moved_trans _ _ _ _ _ M02 M3) as M03.
    destruct (on_sim_enable g3) as (g4 & E4 & M4). rewrite (bind_ok _ _ _ _ _ E4).
    rewrite (moved_arm _ _ _ M3) in M4.
    exists g4. split; [by eapply moved_trans|]. done.
  - apply bind_fault. unfold located_gdb. cbn [on_sim gdb_connection]. unfold gdb_sim.
    pose proof (refines_located 0 "gdb_protocol.c" 170 _ _ Rw (g_sim g2) Hr2) as Hf.
    cbn [core_located arch_core core_read_word] in Hf. unfold arch_read in Hf.
    rewrite bind_eq in Hf. cbn [get_state] in Hf. fold (g_arm g2) in Hf.
    rewrite (moved_arm _ _ _ M2), Er in Hf.
    assert (located "gdb_protocol.c" 170 (arm_read_word (fetch_address (g_arm g)) x)
      (g_sim g2) = Fault OutOfBounds) as -> by exact Hf. done.
Qed.

Lemma cont_turn fuel fr k x g w :
  gdb_ready g -> word_at (mem (g_arm g)) (fetch_address (g_arm g)) = Some w ->
  exists g', moved g g' (g_arm g) /\
    cont_loop (Datatypes.S fuel) fr k x g =
    (if is_breakpoint w then mret ()
     else step_and_trace (gf_step fr k);; cont_loop fuel fr (Datatypes.S k) w) g'.
Proof.
  intros Hg Hw. pose proof (cont_head fuel fr k x g Hg) as H.
  rewrite (read_word_at _ _ w) in H; [exact H|apply (gr_wf g Hg)|done].
Qed.

Lemma cont_loop_spec fr k n p q :
  run_until fr k n p q -> forall x g fuel,
  gdb_ready g -> g_arm g = p ->
  if (n <? fuel)%nat then
    exists g', cont_loop fuel fr k x g = Ok () g' /\ g_arm g' = q /\ gdb_ready g' /\
      g_out g' = g_out g /\
      target_exception (g_data g') =
        match n with O => target_exception (g_data g) | _ => 0 end
  else cont_loop fuel fr k x g = Fault Running.
Proof.
  induction 1 as [k p w Hw Hb | k n p p1 q w Hw Hb Es _ IH]; intros x g fuel Hg Hp;
    destruct fuel as [|fuel]; try done; subst p.
  - simpl Nat.ltb. cbv iota. destruct (cont_turn fuel fr k x g w Hg Hw) as (g' & M & ->).
    rewrite Hb. exists g'. split; [done|]. split; [apply (moved_arm _ _ _ M)|].
    split; [by eapply moved_gdb_ready; [exact M | apply Hg|]|].
    split; [apply (moved_out _ _ _ M)|]. by rewrite (moved_data _ _ _ M).
  - destruct (cont_turn fuel fr k x g w Hg Hw) as (g' & M & ->). rewrite Hb.
    pose proof (moved_gdb_ready _ _ _ M (gr_wf g Hg) Hg) as Hg'.
    rewrite <- (moved_arm _ _ _ M) in Es.
    destruct (step_and_trace_spec _ g' p1 Hg' Es) as (g2 & E2 & A2 & Hg2 & O2 & X2).
    rewrite (bind_ok _ _ _ _ _ E2). specialize (IH w g2 fuel Hg2 A2).
    change (Datatypes.S n <? Datatypes.S fuel)%nat with (n <? fuel)%nat.
    destruct (n <? fuel)%nat; [|exact IH].
    destruct IH as (g3 & E3 & A3 & Hg3 & O3 & X3). exists g3.
    split; [exact E3|]. split; [exact A3|]. split; [exact Hg3|].
    split; [by rewrite O3, O2, (moved_out _ _ _ M)|].
    rewrite X3. destruct n; [exact X2 | reflexivity].
Qed.

(** C23. The continue command runs the processor to the first breakpoint and no
    further: if the first state whose next instruction is gdb's undefined
    instruction is [n] steps away, the loop takes exactly [n] steps (with [n]
    turns or less it is still running), leaves the processor in that state and
    answers S05, or for [n] = 0 the reason of the last stop. *)
Theorem cont_stops fr n g q fuel :
  gdb_ready g -> run_until fr 0 n (g_arm g) q ->
  (fuel <= n -> cont fuel fr g = Fault Running)%nat /\
  ((n < fuel)%nat -> exists g', cont fuel fr g = Ok () g' /\ g_arm g' = q /\
     g_out g' = g_out g ++
       framed (stop_text (match n with O => target_exception (g_data g) | _ => 0 end))).
Proof.
  intros Hg Hrun. unfold cont.
  pose proof (cont_loop_spec fr 0 n _ q Hrun (gf_instruction fr) g fuel Hg eq_refl) as H.
  split; intros Hf.
  - destruct (Nat.ltb_spec n fuel); [lia|]. by apply bind_fault.
  - destruct (Nat.ltb_spec n fuel); [|lia].
    destruct H as (g1 & E1 & A1 & Hg1 & O1 & X1). rewrite (bind_ok _ _ _ _ _ E1).
    destruct (stop_reason_answers g1 (gr_packet g1 Hg1)) as (g2 & E2 & S2 & O2 & _).
    exists g2. split; [exact E2|]. split.
    + unfold g_arm in *. by rewrite S2.
    + by rewrite O2, O1, X1.
Qed.
End Running.
