(* ===== verification/Access.v ===== *)
(** * gdb's access to registers and memory

    The handlers P, p, X and m of gdb_protocol.c: what they write, what they
    answer, and where they leave their buffers.  General.v has g and G. *)
From S2P Require Import Prelude Util Constants Memory Registers Trace Core.
From S2P Require Import Refine LoadStore Branch Instruction Run Invariant.
From S2P Require Import ArmSpec Correct Execute Examples Gdb Packets Handlers.

(** ** Registers *)

(** The number of a register as gdb writes it: hexadecimal in a P packet. *)
Lemma scan_register r :
  0 <= r < 16 -> forall tail n,
  scan_hex (Datatypes.S (Datatypes.S (Datatypes.S (Datatypes.S n))))
    (hex_digit r :: 61 :: tail) = Some (r, 61 :: tail).
Proof.
  revert r. apply (range_cases (fun r => forall tail n,
    scan_hex (Datatypes.S (Datatypes.S (Datatypes.S (Datatypes.S n))))
      (hex_digit r :: 61 :: tail) = Some (r, 61 :: tail)) 16).
  cbv [seq fmap list_fmap].
  repeat (apply Forall_cons_2; [intros tail n; reflexivity|]). apply Forall_nil_2.
Qed.

Lemma hex_digit_char r : 0 <= r < 16 -> 47 < hex_digit r < 256 /\ hex_digit r <> 61.
Proof.
  revert r. apply (range_cases (fun r => 47 < hex_digit r < 256 /\ hex_digit r <> 61) 16).
  cbv [seq fmap list_fmap].
  repeat (apply Forall_cons_2; [by repeat split|]). apply Forall_nil_2.
Qed.

(** ... and decimal, for atoi, in a p packet. *)
Definition decimal (r : Z) : list Z := if r <? 10 then [48 + r] else [49; 38 + r].

Lemma atoi_decimal r : 0 <= r < 16 -> atoi (decimal r) = r.
Proof.
  revert r. apply (range_cases _ 16). cbv [seq fmap list_fmap].
  repeat (apply Forall_cons_2; [reflexivity|]). apply Forall_nil_2.
Qed.
Lemma decimal_chars r : 0 <= r < 16 -> Forall is_char (decimal r).
Proof.
  intros Hr. unfold decimal, is_char.
  destruct (Z.ltb_spec r 10); repeat apply Forall_cons_2; try apply Forall_nil_2; lia.
Qed.

Section Registers.
Context `{T : Target}.

(** The value a p packet reports: the program counter is corrected by 4. *)
Definition reported (p : arm_core_data) (r : Z) : Z :=
  u32 (gpr_view p r - (if r =? 15 then 4 else 0)).

(** A P packet, whatever its text: [d] is what follows the equal sign. *)
Lemma write_register_any fr g data d r v :
  gdb_ready g -> 0 <= r < 16 -> is_u32 v ->
  sscanf_x data (gf_reg fr) = Some r -> after_char 61 data = Some d ->
  read_uint32 d (gf_value fr 0) = Some v ->
  exists g', gdb_write_register fr data g = Ok () g' /\
    g_arm g' = set_gpr r v (g_arm g) /\ gdb_ready g' /\
    g_out g' = g_out g ++ framed (bytes_of "OK") /\ same_exception g g'.
Proof.
  intros Hg Hr Hv Er Ed Ev. unfold gdb_write_register. pose proof (gr_wf g Hg) as Hp.
  pose proof (wf_has_regs _ Hp) as Hl.
  assert (ready 1 (g_sim g)) as Hr1 by (eapply ready_le; [|apply Hg]; lia).
  rewrite Er, Ed. cbn [of_option]. rewrite (bind_ok _ _ g r g) by done.
  rewrite (bind_ok _ _ g d g), Ev by done. cbn [of_option].
  rewrite (bind_ok _ _ g v g) by done.
  unfold assert. destruct (Z.ltb_spec r 16); [|lia].
  rewrite (bind_ok _ _ g () g) by done.
  destruct (on_sim_disable g) as (g1 & E1 & M1). rewrite (bind_ok _ _ _ _ _ E1).
  destruct (located_gdb_refines 365 _ _ g1 () (set_gpr r v (g_arm g))
    (refines_write_register 0 r v)) as (g2 & E2 & M2).
  { by eapply moved_ready. }
  { rewrite (moved_arm _ _ _ M1). by apply run_write. }
  rewrite (bind_ok _ _ _ _ _ E2). pose proof (moved_trans _ _ _ _ _ M1 M2) as M02.
  destruct (on_sim_enable g2) as (g3 & E3 & M3). rewrite (bind_ok _ _ _ _ _ E3).
  rewrite (moved_arm _ _ _ M2) in M3. pose proof (moved_trans _ _ _ _ _ M02 M3) as M.
  assert (core_wf (set_gpr r v (g_arm g))) as Hp' by (apply set_gpr_wf; (done || lia)).
  pose proof (moved_gdb_ready _ _ _ M Hp' Hg) as Hg3.
  destruct (send_data_answers g3 (bytes_of "OK") (gr_packet _ Hg3)) as (g4 & E4 & H4);
    [by apply bytes_of_chars | simpl; lia|].
  exists g4. split; [exact E4|].
  rewrite (answered_out _ _ _ H4), (answered_arm _ _ _ H4), (moved_out _ _ _ M).
  split; [apply (moved_arm _ _ _ M)|]. split; [by eapply answered_ready|].
  split; [done|]. transitivity g3; [by eapply moved_exception|by eapply answered_exception].
Qed.

Lemma write_register_run fr g r v tail t :
  gdb_ready g -> 0 <= r < 16 -> is_u32 v -> cstring tail = Some t ->
  exists g', gdb_write_register fr (hex_digit r :: 61 :: word_text v ++ tail) g = Ok () g' /\
    g_arm g' = set_gpr r v (g_arm g) /\ gdb_ready g' /\
    g_out g' = g_out g ++ framed (bytes_of "OK") /\ same_exception g g'.
Proof.
  intros Hg Hr Hv Ht. destruct (hex_digit_char r Hr) as [Hc Hc61].
  assert (cstring (hex_digit r :: 61 :: word_text v ++ tail) =
          Some (hex_digit r :: 61 :: word_text v ++ t)) as Ec.
  { apply (cstring_app (hex_digit r :: 61 :: word_text v) tail t); [|done].
    repeat apply Forall_cons_2; try apply word_text_chars; unfold is_char; lia. }
  apply (write_register_any fr g _ (word_text v ++ tail)); try done.
  - unfold sscanf_x. rewrite Ec. cbn [mbind option_bind].
    cbn [length Nat.add]. by rewrite (scan_register r Hr).
  - cbn [after_char]. destruct (Z.eqb_spec (hex_digit r) 61); [done|].
    destruct (Z.eqb_spec (hex_digit r) 0); [lia|done].
  - by apply (read_uint32_text v tail t).
Qed.

(** A p packet, whatever its text. *)
Lemma read_register_any g data t :
  let r := u32 (atoi t) in
  gdb_ready g -> r < 16 -> cstring data = Some t ->
  exists g', gdb_read_register data g = Ok () g' /\
    g_arm g' = g_arm g /\ gdb_ready g' /\
    g_out g' = g_out g ++ framed (word_text (reported (g_arm g) r)) /\ same_exception g g'.
Proof.
  intros r Hg Hr16 Ec. unfold gdb_read_register. pose proof (gr_wf g Hg) as Hp.
  pose proof (wf_has_regs _ Hp) as Hl.
  assert (0 <= r < 16) as Hr by (pose proof (u32_range (atoi t)); unfold is_u32 in *; lia).
  rewrite Ec. cbn [of_option]. rewrite (bind_ok _ _ g t g) by done. cbv zeta. fold r.
  unfold assert. destruct (Z.ltb_spec r 16); [|lia].
  rewrite (bind_ok _ _ g () g) by done.
  destruct (on_sim_disable g) as (g1 & E1 & M1). rewrite (bind_ok _ _ _ _ _ E1).
  rewrite u8_small by (unfold is_u8; lia).
  destruct (located_gdb_refines 260 _ _ g1 (gpr_view (g_arm g) r) (g_arm g)
    (refines_read_register 0 r)) as (g2 & E2 & M2).
  { eapply moved_ready; [exact M1|]. eapply ready_le; [|apply Hg]. lia. }
  { rewrite (moved_arm _ _ _ M1). by apply run_read. }
  rewrite (bind_ok _ _ _ _ _ E2). pose proof (moved_trans _ _ _ _ _ M1 M2) as M02.
  unfold put_uint32. rewrite write_uint32_text. cbn [of_option].
  rewrite bind_eq. rewrite (bind_ok _ _ g2 (word_text (reported (g_arm g) r)) g2) by done.
  pose proof (moved_gdb_ready _ _ _ M02 Hp Hg) as Hg2.
  destruct (word_text_chars (reported (g_arm g) r)) as [Hc Hlen].
  destruct (put_text_spec g2 (word_text (reported (g_arm g) r)) (gr_packet _ Hg2)
    ltac:(lia)) as (g3 & E3 & H3).
  rewrite E3. destruct (on_sim_enable g3) as (g4 & E4 & M4).
  rewrite (bind_ok _ _ _ _ _ E4).
  destruct H3 as (S3 & O3 & Sh3 & X3 & H3).
  destruct (send_buffer_text g4 g4 (word_text (reported (g_arm g) r))) as (p & Hlp & E5).
  { repeat (split; [done|]). rewrite (moved_data _ _ _ M4). exact H3. }
  { exact Hc. }
  rewrite E5. eexists. split; [done|]. unfold g_arm. cbn [sent g_sim g_out].
  pose proof (moved_arm _ _ _ M4) as A4. unfold g_arm in A4. rewrite S3 in A4.
  pose proof (moved_arm _ _ _ M02) as A2. unfold g_arm in A2.
  split; [congruence|]. split.
  - split; cbn [sent g_sim g_data packet]; [| |exact Hlp].
    + eapply moved_ready; [exact M4|]. rewrite S3. by apply Hg2.
    + unfold g_arm. cbn [sent g_sim]. rewrite A4, A2. exact Hp.
  - split; [by rewrite (moved_out _ _ _ M4), O3, (moved_out _ _ _ M02)|].
    unfold same_exception. cbn [sent g_data target_exception].
    by rewrite (moved_data _ _ _ M4), X3, (moved_data _ _ _ M02).
Qed.

Lemma read_register_run g r rest :
  gdb_ready g -> 0 <= r < 16 ->
  exists g', gdb_read_register (decimal r ++ 0 :: rest) g = Ok () g' /\
    g_arm g' = g_arm g /\ gdb_ready g' /\
    g_out g' = g_out g ++ framed (word_text (reported (g_arm g) r)) /\ same_exception g g'.
Proof.
  intros Hg Hr. pose proof (read_register_any g (decimal r ++ 0 :: rest) (decimal r)) as H.
  cbv zeta in H. rewrite atoi_decimal, u32_small in H by (done || unfold is_u32; lia).
  apply H; [done|lia|]. apply cstring_chars. by apply decimal_chars.
Qed.

(** What is reported of a register just written. *)
Lemma reported_written p r v :
  has_regs p -> 0 <= r < 16 -> is_u32 v -> (r = 15 -> v mod 4 = 0) ->
  reported (set_gpr r v p) r = v.
Proof.
  intros Hp Hr Hv H15. unfold reported, gpr_view. rewrite gpr_set_eq by (done || lia).
  destruct (Z.eqb_spec r 15) as [->|Hne].
  - rewrite pc_view_aligned by auto. rewrite u32_sub_l.
    replace (v + 4 - 4) with v by lia. by apply u32_small.
  - unfold pc_view. rewrite (proj2 (Z.eqb_neq r 15) Hne), Z.sub_0_r.
    by apply u32_small.
Qed.

(** gdb reads back the register it wrote: a P packet sets the register and
    nothing else and answers OK, and a p packet then answers the digits of the
    value; this includes the program counter, for aligned addresses. *)
Lemma gdb_register_roundtrip fr g r v tail t rest :
  gdb_ready g -> 0 <= r < 16 -> is_u32 v -> (r = 15 -> v mod 4 = 0) ->
  cstring tail = Some t ->
  exists g', (gdb_write_register fr (hex_digit r :: 61 :: word_text v ++ tail);;
              gdb_read_register (decimal r ++ 0 :: rest)) g = Ok () g' /\
    g_arm g' = set_gpr r v (g_arm g) /\
    g_out g' = g_out g ++ framed (bytes_of "OK") ++ framed (word_text v).
Proof.
  intros Hg Hr Hv H15 Ht.
  destruct (write_register_run fr g r v tail t Hg Hr Hv Ht) as (g1 & E1 & A1 & Hg1 & O1 & _).
  rewrite (bind_ok _ _ _ _ _ E1).
  destruct (read_register_run g1 r rest Hg1 Hr) as (g2 & E2 & A2 & _ & O2 & _).
  exists g2. split; [exact E2|]. split; [congruence|].
  rewrite O2, O1, A1, reported_written, <- app_assoc;
    [done | by apply wf_has_regs, gr_wf | done..].
Qed.
End Registers.

(** ** Binary data *)

(** gdb's escapes: the characters of the protocol are sent as a right brace and
    the character with bit 5 flipped. *)
Definition escaped (b : Z) : list Z :=
  if (b =? 0x23) || (b =? 0x24) || (b =? 0x2a) || (b =? 0x7d)
  then [0x7d; Z.lxor b 0x20] else [b].
Definition escape (bs : list Z) : list Z := mjoin (escaped <$> bs).

Lemma lxor_twice b : Z.lxor (Z.lxor b 0x20) 0x20 = b.
Proof. by rewrite Z.lxor_assoc, Z.lxor_nilpotent, Z.lxor_0_r. Qed.

(** [g] with another memory. *)
Definition with_memory (m : memory_data) (g : gdbs) : gdbs :=
  with_sim {| s_arm := with_mem m (g_arm g); s_trace := s_trace (g_sim g);
              s_log := s_log (g_sim g) |} g.

(** One byte of [store_memory], escaped or not. *)
Lemma store_memory_byte b content i count a g m :
  is_u8 b -> count <> 0 ->
  memory_write_byte (mem (g_arm g)) a b = Some (0, m) ->
  store_memory (escaped b ++ content) i count a g =
  store_memory content (i + 1) (count - 1) (u32 (a + 1)) (with_memory m g).
Proof.
  intros Hb Hc E.
  assert (forall rest : Gdb bool,
    (p ← on_sim get_arm;
     '(r, m) ← of_option (memory_write_byte (mem p) a (u8 b));
     on_sim (put_arm (with_mem m p));;
     (if i <? 32 then gdb_debug_raw (Some (fmt_02x (u8 b))) else mret ());;
     if r =? 0 then rest else mret false) g = rest (with_memory m g)) as Hstore.
  { intros rest. rewrite (bind_ok _ _ g (g_arm g) g) by (by destruct g).
    rewrite u8_small, E by done. by destruct (i <? 32). }
  unfold escaped. destruct ((b =? 0x23) || _ || _ || _) eqn:Hspecial.
  - cbn [app store_memory]. destruct (Z.eqb_spec count 0); [done|].
    rewrite lxor_twice. apply Hstore.
  - rewrite !orb_false_iff in Hspecial. destruct Hspecial as [[[_ _] _] H7d].
    apply Z.eqb_neq in H7d. cbn [app store_memory].
    destruct (Z.eqb_spec count 0); [done|].
    repeat case_match; try done; apply Hstore.
Qed.

Lemma with_memory_wf m g :
  gdb_ready g -> mem_wf m -> gdb_ready (with_memory m g).
Proof.
  intros [[] [] Hp] Hm. split; [by split | by split | exact Hp].
Qed.

(** The memory after storing one byte and then some. *)
Lemma stored_cons m m1 m2 a b bs :
  stored m m1 a [b] -> stored m1 m2 (a + 1) bs -> stored m m2 a (b :: bs).
Proof.
  intros (E1 & S1 & L1 & H1) (E2 & S2 & L2 & H2).
  split; [congruence|]. split; [congruence|]. split; [congruence|].
  intros j. rewrite H2, H1. cbn [length].
  destruct (Z.leb_spec (a + 1) j), (Z.ltb_spec j (a + 1 + Z.of_nat (length bs)));
    destruct (Z.leb_spec a j), (Z.ltb_spec j (a + Z.of_nat 1));
    destruct (Z.ltb_spec j (a + Z.of_nat (Datatypes.S (length bs)))); try lia; cbn [andb].
  all: try done.
  - replace (Z.to_nat (j - a)) with (Datatypes.S (Z.to_nat (j - (a + 1)))) by lia. done.
  - by replace j with a by lia; rewrite Z.sub_diag.
Qed.

Lemma stored_nil m a : stored m m a [].
Proof.
  repeat (split; [done|]). intros j. cbn [length].
  destruct (Z.leb_spec a j), (Z.ltb_spec j (a + Z.of_nat 0)); (done || lia).
Qed.

Lemma store_memory_spec bs rest : forall i a g,
  gdb_ready g -> Forall is_u8 bs -> 0 <= a ->
  a + Z.of_nat (length bs) <= mem_size (mem (g_arm g)) ->
  exists m, store_memory (escape bs ++ rest) i (Z.of_nat (length bs)) a g =
              Ok true (with_memory m g) /\
    stored (mem (g_arm g)) m a bs /\ mem_wf m.
Proof.
  induction bs as [|b bs IH]; intros i a g Hg Hbs Ha Hs.
  - exists (mem (g_arm g)). split; [|split; [apply stored_nil | apply Hg]].
    destruct g as [[[] ? ?] ? ? ?].
    destruct (escape [] ++ rest); reflexivity.
  - apply Forall_cons_1 in Hbs as [Hb Hbs]. cbn [length] in Hs.
    pose proof (wf_mem _ (gr_wf g Hg)) as Hm. pose proof (mem_wf_limit _ Hm).
    destruct (write_byte_stored (mem (g_arm g)) a b Hm ltac:(lia) Hb)
      as (m1 & E1 & Hst & Hm1).
    change (escape (b :: bs)) with (escaped b ++ escape bs).
    rewrite <- app_assoc, (store_memory_byte b _ _ _ a g m1) by (done || lia).
    pose proof (with_memory_wf m1 g Hg Hm1) as Hg1.
    assert (mem_size m1 = mem_size (mem (g_arm g))) as Hsz by apply Hst.
    replace (Z.of_nat (length (b :: bs)) - 1) with (Z.of_nat (length bs)) by (simpl; lia).
    rewrite u32_small by (unfold is_u32; lia).
    destruct (IH (i + 1) (a + 1) (with_memory m1 g) Hg1 Hbs) as (m & E & Hst2 & Hm2);
      [lia | simpl; lia|].
    exists m. rewrite E. split; [done|]. split; [|exact Hm2].
    eapply stored_cons; [exact Hst | exact Hst2].
Qed.

Lemma store_memory_fault b content i count a g :
  is_u8 b -> count <> 0 -> memory_write_byte (mem (g_arm g)) a b = None ->
  store_memory (escaped b ++ content) i count a g = Fault OutOfBounds.
Proof.
  intros Hb Hc E.
  assert (forall rest : Gdb bool,
    (p ← on_sim get_arm;
     '(r, m) ← of_option (memory_write_byte (mem p) a (u8 b));
     on_sim (put_arm (with_mem m p));;
     (if i <? 32 then gdb_debug_raw (Some (fmt_02x (u8 b))) else mret ());;
     if r =? 0 then rest else mret false) g = Fault OutOfBounds) as Hstore.
  { intros rest. rewrite (bind_ok _ _ g (g_arm g) g) by (by destruct g).
    by rewrite u8_small, E by done. }
  unfold escaped. destruct ((b =? 0x23) || _ || _ || _) eqn:Hspecial.
  - cbn [app store_memory]. destruct (Z.eqb_spec count 0); [done|].
    rewrite lxor_twice. apply Hstore.
  - rewrite !orb_false_iff in Hspecial. destruct Hspecial as [[[_ _] _] H7d].
    apply Z.eqb_neq in H7d. cbn [app store_memory].
    destruct (Z.eqb_spec count 0); [done|].
    repeat case_match; try done; apply Hstore.
Qed.

Lemma write_byte_outside m a v :
  mem_wf m -> mem_size m <= a -> memory_write_byte m a v = None.
Proof.
  intros Hm Ha. unfold memory_write_byte.
  by rewrite buf_set_None by (rewrite <- (mem_wf_size m Hm); lia).
Qed.

Lemma store_memory_overflow bs rest : forall i a g,
  gdb_ready g -> Forall is_u8 bs -> 0 <= a <= mem_size (mem (g_arm g)) ->
  mem_size (mem (g_arm g)) < a + Z.of_nat (length bs) ->
  store_memory (escape bs ++ rest) i (Z.of_nat (length bs)) a g = Fault OutOfBounds.
Proof.
  induction bs as [|b bs IH]; intros i a g Hg Hbs Ha Hs; cbn [length] in Hs; [lia|].
  apply Forall_cons_1 in Hbs as [Hb Hbs].
  pose proof (wf_mem _ (gr_wf g Hg)) as Hm. pose proof (mem_wf_limit _ Hm).
  change (escape (b :: bs)) with (escaped b ++ escape bs). rewrite <- app_assoc.
  destruct (Z.eq_dec a (mem_size (mem (g_arm g)))) as [Ea|].
  { apply store_memory_fault; [done | simpl; lia | by apply write_byte_outside; [|lia]]. }
  destruct (write_byte_stored (mem (g_arm g)) a b Hm ltac:(lia) Hb)
    as (m1 & E1 & Hst & Hm1).
  rewrite (store_memory_byte b _ _ _ a g m1) by (done || (simpl; lia)).
  replace (Z.of_nat (length (b :: bs)) - 1) with (Z.of_nat (length bs)) by (simpl; lia).
  rewrite u32_small by (unfold is_u32; lia).
  assert (mem_size m1 = mem_size (mem (g_arm g))) as Hsz by apply Hst.
  apply IH; [by apply with_memory_wf | done | simpl; lia | simpl; lia].
Qed.

Section MemoryAccess.
Context `{T : Target}.

Lemma write_memory_run fr g data a bs rest :
  gdb_ready g -> Forall is_u8 bs -> 0 <= a < mem_size (mem (g_arm g)) ->
  a + Z.of_nat (length bs) <= mem_size (mem (g_arm g)) ->
  sscanf_x_x data (gf_address fr) (gf_size fr) = Some (a, Z.of_nat (length bs)) ->
  after_char 58 data = Some (escape bs ++ rest) ->
  exists g' m, write_memory_binary fr data g = Ok () g' /\
    g_arm g' = with_mem m (g_arm g) /\ stored (mem (g_arm g)) m a bs /\
    g_out g' = g_out g ++ framed (bytes_of "OK") /\ gdb_ready g' /\ same_exception g g'.
Proof.
  intros Hg Hbs Ha Hs Ex Ec. unfold write_memory_binary. rewrite Ex, Ec. cbn [of_option].
  rewrite (bind_ok _ _ g (a, Z.of_nat (length bs)) g) by done.
  rewrite (bind_ok _ _ g (escape bs ++ rest) g) by done. rewrite debug_off.
  rewrite (bind_ok _ _ g (g_arm g) g) by (by destruct g).
  unfold memory_get_size. destruct (Z.ltb_spec a (mem_size (mem (g_arm g)))); [|lia].
  destruct (store_memory_spec bs rest 0 a g Hg Hbs ltac:(lia) Hs) as (m & E & Hst & Hm).
  rewrite (bind_ok _ _ _ _ _ E).
  pose proof (with_memory_wf m g Hg Hm) as Hg1.
  destruct (send_data_answers _ (bytes_of "OK") (gr_packet _ Hg1)) as (g2 & E2 & H2);
    [by apply bytes_of_chars | simpl; lia|].
  exists g2, m. split; [exact E2|]. split; [by rewrite (answered_arm _ _ _ H2)|].
  split; [done|]. split; [by rewrite (answered_out _ _ _ H2)|].
  split; [by eapply answered_ready|]. exact (answered_exception _ _ _ H2).
Qed.

(** Binary writes decode gdb's escapes: an X packet for an area of the
    memory stores exactly the bytes whose escaped form it carries, at the
    address and nowhere else, changes no register, and answers OK. *)
Lemma gdb_write_memory fr g data a bs rest :
  gdb_ready g -> Forall is_u8 bs -> 0 <= a < mem_size (mem (g_arm g)) ->
  a + Z.of_nat (length bs) <= mem_size (mem (g_arm g)) ->
  sscanf_x_x data (gf_address fr) (gf_size fr) = Some (a, Z.of_nat (length bs)) ->
  after_char 58 data = Some (escape bs ++ rest) ->
  exists g' m, write_memory_binary fr data g = Ok () g' /\
    g_arm g' = with_mem m (g_arm g) /\ stored (mem (g_arm g)) m a bs /\
    g_out g' = g_out g ++ framed (bytes_of "OK").
Proof.
  intros Hg Hbs Ha Hs Ex Ec.
  destruct (write_memory_run fr g data a bs rest) as (g' & m & E & A & Hst & O & _); [done..|].
  by exists g', m.
Qed.

(** Only the first address of a binary write is checked: an area that
    begins inside of the memory and ends outside of it is written past the end
    of the block; an area that begins outside is refused with E02. *)
Lemma gdb_write_memory_bounds fr g data a bs rest :
  gdb_ready g -> Forall is_u8 bs -> 0 <= a ->
  sscanf_x_x data (gf_address fr) (gf_size fr) = Some (a, Z.of_nat (length bs)) ->
  after_char 58 data = Some (escape bs ++ rest) ->
  (a < mem_size (mem (g_arm g)) < a + Z.of_nat (length bs) ->
     write_memory_binary fr data g = Fault OutOfBounds) /\
  (mem_size (mem (g_arm g)) <= a ->
     exists g', write_memory_binary fr data g = Ok () g' /\
       g_arm g' = g_arm g /\ g_out g' = g_out g ++ framed (bytes_of "E02")).
Proof.
  intros Hg Hbs Ha Ex Ec. unfold write_memory_binary. rewrite Ex, Ec. cbn [of_option].
  rewrite (bind_ok _ _ g (a, Z.of_nat (length bs)) g) by done.
  rewrite (bind_ok _ _ g (escape bs ++ rest) g) by done. rewrite debug_off.
  rewrite (bind_ok _ _ g (g_arm g) g) by (by destruct g).
  unfold memory_get_size. split; intros Hs.
  - destruct (Z.ltb_spec a (mem_size (mem (g_arm g)))); [|lia].
    apply bind_fault. apply store_memory_overflow; (done || lia).
  - destruct (Z.ltb_spec a (mem_size (mem (g_arm g)))); [lia|].
    rewrite (bind_ok _ _ g false g) by done.
    destruct (send_data_answers g (bytes_of "E02") (gr_packet _ Hg)) as (g2 & E2 & S2 & O2 & _);
      [by apply bytes_of_chars | simpl; lia|].
    exists g2. split; [exact E2|]. unfold g_arm. by rewrite S2, O2.
Qed.
End MemoryAccess.

(** ** Reading memory *)

(** [g'] is [g] with a packet that begins with [text]. *)
Definition draft (g g' : gdbs) (text : list Z) : Prop :=
  g_sim g' = g_sim g /\ g_out g' = g_out g /\ g_shut g' = g_shut g /\
  target_exception (g_data g') = target_exception (g_data g) /\
  exists x post, packet (g_data g') = x :: text ++ 0 :: post /\
    (length text + length post = 1022)%nat.

(** Text is put after what the packet holds, [rest] being what follows. *)
Lemma put_text_at g x text rest t :
  packet (g_data g) = x :: text ++ rest -> (length t < length rest)%nat ->
  exists rest', put_text (1 + Z.of_nat (length text)) t g =
      Ok () {| g_sim := g_sim g;
               g_data := {| target_exception := target_exception (g_data g);
                            packet := x :: (text ++ t) ++ 0 :: rest'; len := len (g_data g) |};
               g_out := g_out g; g_shut := g_shut g |} /\
    (length t + length rest' + 1 = length rest)%nat.
Proof.
  intros Hp Ht.
  destruct (cut rest (length t + 1)) as (old & post' & -> & Hold); [lia|].
  unfold put_text. rewrite (bind_ok _ _ g (g_data g) g) by done.
  rewrite Hp.
  pose proof (write_at_block (x :: text) old post' (t ++ [0])) as E.
  rewrite length_app in E. specialize (E Hold). cbn [app length] in E.
  replace (Z.of_nat (Datatypes.S (length text))) with (1 + Z.of_nat (length text)) in E by lia.
  rewrite E. cbn [of_option].
  set (p1 := x :: _). rewrite (bind_ok _ _ g p1 g) by done.
  exists post'. split; [|rewrite length_app; lia].
  unfold p1. rewrite <- !app_assoc. cbn [app]. done.
Qed.

Lemma draft_append g g1 text t :
  draft g g1 text -> (length text + length t <= 1022)%nat ->
  exists g2, put_text (1 + Z.of_nat (length text)) t g1 = Ok () g2 /\
    draft g g2 (text ++ t).
Proof.
  intros (Hs & Ho & Hsh & Hx & x & post & Hp & Hl) Ht.
  destruct (put_text_at g1 x text (0 :: post) t Hp) as (post' & E & Hl'); [simpl; lia|].
  rewrite E. eexists. split; [done|]. repeat (split; [done|]). exists x, post'.
  split; [done|]. rewrite length_app. simpl in Hl'. lia.
Qed.

Lemma draft_overflow g g1 text t :
  draft g g1 text -> (1022 < length text + length t)%nat ->
  put_text (1 + Z.of_nat (length text)) t g1 = Fault OutOfBounds.
Proof.
  intros (_ & _ & _ & _ & x & post & Hp & Hl) Ht. unfold put_text.
  rewrite (bind_ok _ _ g1 (g_data g1) g1) by done. rewrite Hp.
  rewrite write_at_overflow; [done | lia | |by destruct t].
  cbn [length]. rewrite !length_app. simpl. lia.
Qed.

(** The [n] bytes of the memory at address [a]. *)
Definition area (m : memory_data) (a : Z) (n : nat) : list Z :=
  take n (drop (Z.to_nat a) (mem_address m)).

Lemma area_cons m a n :
  mem_wf m -> 0 <= a < mem_size m ->
  exists b, is_u8 b /\ byte_at m a = Some b /\
    area m a (Datatypes.S n) = b :: area m (a + 1) n.
Proof.
  intros Hm Ha. destruct (mem_get m a Hm Ha) as (b & Eb & Hb). exists b.
  split; [done|]. split; [done|]. unfold area.
  assert (mem_address m !! Z.to_nat a = Some b) as El.
  { unfold buf_get in Eb. destruct (in_block _ _); [done|discriminate]. }
  rewrite (drop_S _ _ _ El). cbn [take]. f_equal. f_equal. f_equal. lia.
Qed.

Lemma area_length m a n :
  mem_wf m -> 0 <= a -> a + Z.of_nat n <= mem_size m -> length (area m a n) = n.
Proof.
  intros Hm Ha Hs. unfold area. rewrite length_take, length_drop.
  pose proof (mem_wf_size m Hm). lia.
Qed.

Lemma dump_memory_spec n : forall fuel a v text g g1,
  gdb_ready g -> draft g g1 text -> 0 <= a ->
  a + Z.of_nat n <= mem_size (mem (g_arm g)) ->
  (n < fuel \/ 1022 < length text + 2 * fuel)%nat ->
  if (length text + 2 * n <=? 1022)%nat then
    exists g2, dump_memory fuel (Z.of_nat n) a v (1 + Z.of_nat (length text)) g1 = Ok () g2 /\
      draft g g2 (text ++ mjoin (hex2 <$> area (mem (g_arm g)) a n))
  else (length text <= 1022)%nat ->
    dump_memory fuel (Z.of_nat n) a v (1 + Z.of_nat (length text)) g1 = Fault OutOfBounds.
Proof.
  induction n as [|n IH]; intros fuel a v text g g1 Hg Hd Ha Hs Hf;
    destruct fuel as [|fuel];
    try (destruct (_ <=? _)%nat eqn:El; [apply Nat.leb_le in El|]; intros; lia);
    cbn [dump_memory].
  - destruct (Nat.leb_spec (length text + 2 * 0) 1022); [|lia].
    exists g1. split; [done|]. unfold area. cbn. by rewrite app_nil_r.
  - pose proof (wf_mem _ (gr_wf g Hg)) as Hm. pose proof (mem_wf_limit _ Hm).
    destruct (area_cons (mem (g_arm g)) a n Hm) as (b & Hb & Eb & Earea); [lia|].
    destruct (Z.eqb_spec (Z.of_nat (Datatypes.S n)) 0); [lia|].
    assert (g_arm g1 = g_arm g) as Ea by (unfold g_arm; by rewrite (proj1 Hd)).
    rewrite (bind_ok _ _ g1 (g_arm g) g1) by (rewrite <- Ea; by destruct g1).
    assert (memory_read_byte (mem (g_arm g)) a v = Some (b, b)) as ->.
    { unfold memory_read_byte. destruct (Z.leb_spec a (mem_size (mem (g_arm g)))); [|lia].
      unfold byte_at in Eb. by rewrite Eb. }
    cbn [of_option]. rewrite (bind_ok _ _ g1 (b, b) g1) by done.
    unfold is_u8 in Hb. destruct (Z.eqb_spec b (-1)); [lia|].
    assert (length (text ++ hex2 b) = length text + 2)%nat as H2
      by (by rewrite length_app).
    destruct (Nat.leb_spec (length text + 2 * Datatypes.S n) 1022) as [Hfit|Hfit].
    + destruct (draft_append g g1 text (hex2 b) Hd) as (g2 & E2 & Hd2); [simpl; lia|].
      rewrite (bind_ok _ _ _ _ _ E2). rewrite u32_small by (unfold is_u32; lia).
      replace (Z.of_nat (Datatypes.S n) - 1) with (Z.of_nat n) by lia.
      replace (1 + Z.of_nat (length text) + 2)
        with (1 + Z.of_nat (length (text ++ hex2 b))) by lia.
      specialize (IH fuel (a + 1) b (text ++ hex2 b) g g2 Hg Hd2 ltac:(lia) ltac:(lia)
        ltac:(lia)).
      destruct (Nat.leb_spec (length (text ++ hex2 b) + 2 * n) 1022); [|lia].
      destruct IH as (g3 & E3 & Hd3). exists g3. split; [exact E3|].
      rewrite Earea. cbn [fmap list_fmap mjoin]. rewrite <- app_assoc in Hd3. exact Hd3.
    + intros Htext. destruct (Nat.le_gt_cases (length text + 2) 1022).
      * destruct (draft_append g g1 text (hex2 b) Hd) as (g2 & E2 & Hd2); [simpl; lia|].
        rewrite (bind_ok _ _ _ _ _ E2). rewrite u32_small by (unfold is_u32; lia).
        replace (Z.of_nat (Datatypes.S n) - 1) with (Z.of_nat n) by lia.
        replace (1 + Z.of_nat (length text) + 2)
          with (1 + Z.of_nat (length (text ++ hex2 b))) by lia.
        specialize (IH fuel (a + 1) b (text ++ hex2 b) g g2 Hg Hd2 ltac:(lia) ltac:(lia)
          ltac:(lia)).
        destruct (Nat.leb_spec (length (text ++ hex2 b) + 2 * n) 1022); [lia|].
        apply IH. lia.
      * apply bind_fault. by apply (draft_overflow g); [|simpl; lia].
Qed.

Section Reading.
Context `{T : Target}.

Lemma hex_text_chars bs : Forall is_u8 bs -> Forall is_char (mjoin (hex2 <$> bs)).
Proof.
  induction 1 as [|b l Hb _ IH]; [constructor|].
  change (Forall is_char (hex2 b ++ mjoin (hex2 <$> l))).
  apply Forall_app. split; [by apply hex2_chars | done].
Qed.
Lemma hex_text_length bs : length (mjoin (hex2 <$> bs)) = (2 * length bs)%nat.
Proof.
  induction bs as [|b l IH]; [done|].
  change (length (hex2 b ++ mjoin (hex2 <$> l)) = 2 * Datatypes.S (length l))%nat.
  rewrite length_app, IH. simpl. lia.
Qed.

Lemma read_memory_drafts fr g data a n :
  gdb_ready g -> sscanf_x_x data (gf_address fr) (gf_size fr) = Some (a, n) ->
  exists g1, draft g g1 [] /\
    read_memory fr data g = (dump_memory 1024 n a (gf_byte fr) 1;; gdb_send_buffer) g1.
Proof.
  intros Hg Ex. unfold read_memory. rewrite Ex. cbn [of_option].
  rewrite (bind_ok _ _ g (a, n) g) by done.
  destruct (put_text_spec g [] (gr_packet g Hg)) as (g1 & E1 & H1); [simpl; lia|].
  rewrite (bind_ok _ _ _ _ _ E1). exists g1. split; [|done].
  destruct H1 as (S1 & O1 & Sh1 & X1 & x & y & a' & b' & post & Hp & Hl).
  repeat (split; [done|]). exists x, (y :: a' :: b' :: post).
  split; [exact Hp|]. simpl in *. lia.
Qed.

Lemma read_memory_run fr g data a n :
  gdb_ready g -> 0 <= a -> a + Z.of_nat n <= mem_size (mem (g_arm g)) ->
  sscanf_x_x data (gf_address fr) (gf_size fr) = Some (a, Z.of_nat n) -> (n <= 509)%nat ->
  exists g', read_memory fr data g = Ok () g' /\ g_arm g' = g_arm g /\ gdb_ready g' /\
    g_out g' = g_out g ++ framed (mjoin (hex2 <$> area (mem (g_arm g)) a n)) /\
    same_exception g g'.
Proof.
  intros Hg Ha Hs Ex Hn.
  destruct (read_memory_drafts fr g data a (Z.of_nat n) Hg Ex) as (g1 & Hd & ->).
  pose proof (dump_memory_spec n 1024 a (gf_byte fr) [] g g1 Hg Hd Ha Hs ltac:(lia)) as H.
  cbn [length app] in H. change (1 + Z.of_nat 0) with 1 in H.
  destruct (Nat.leb_spec (0 + 2 * n) 1022); [|lia].
  destruct H as (g2 & E2 & Hd2). rewrite (bind_ok _ _ _ _ _ E2).
  set (text := mjoin _) in *. pose proof (wf_mem _ (gr_wf g Hg)) as Hm.
  assert (length text = (2 * n)%nat) as Hlen.
  { unfold text. by rewrite hex_text_length, area_length. }
  destruct Hd2 as (S2 & O2 & Sh2 & X2 & x & post & Hp2 & Hl2).
  destruct post as [|y [|a' [|b' post]]]; simpl in Hl2; try lia.
  destruct (send_buffer_text g g2 text) as (q & Hq & E3).
  { repeat (split; [done|]). exists x, y, a', b', post. split; [done|lia]. }
  { unfold text. apply hex_text_chars. apply Forall_take, Forall_drop, Hm. }
  eexists. split; [exact E3|]. split; [done|]. split; [|by split].
  destruct Hg as [Hr Hw _]. by split.
Qed.

(** C29. A memory read answers the hexadecimal digits of the bytes asked for
    and changes nothing, for up to 509 bytes inside of the memory; from 512
    bytes on the answer is written past the end of the packet, though the
    PacketSize the stub announces allows gdb to ask for them. *)
Theorem gdb_read_memory fr g data a n :
  gdb_ready g -> 0 <= a -> a + Z.of_nat n <= mem_size (mem (g_arm g)) ->
  sscanf_x_x data (gf_address fr) (gf_size fr) = Some (a, Z.of_nat n) ->
  ((n <= 509)%nat -> exists g', read_memory fr data g = Ok () g' /\
     g_arm g' = g_arm g /\
     g_out g' = g_out g ++ framed (mjoin (hex2 <$> area (mem (g_arm g)) a n))) /\
  ((512 <= n)%nat -> read_memory fr data g = Fault OutOfBounds).
Proof.
  intros Hg Ha Hs Ex. split; intros Hn.
  - destruct (read_memory_run fr g data a n) as (g' & E & A & _ & O & _); [done..|].
    by exists g'.
  - destruct (read_memory_drafts fr g data a (Z.of_nat n) Hg Ex) as (g1 & Hd & ->).
    pose proof (dump_memory_spec n 1024 a (gf_byte fr) [] g g1 Hg Hd Ha Hs ltac:(lia)) as H.
    cbn [length app] in H. destruct (Nat.leb_spec (0 + 2 * n) 1022); [lia|].
    apply bind_fault, H. lia.
Qed.
End Reading.
