(* ===== verification/General.v ===== *)
(** * All the registers at once: the g and G packets

    [read_general_registers] answers the text of the whole register file and
    [write_general_registers] sets it; [registers_text] is that text, with the
    places of the floating point registers, which are not there. *)
From S2P Require Import Prelude Util Constants Memory Registers Trace Core.
From S2P Require Import Refine LoadStore Branch Instruction Run Invariant.
From S2P Require Import ArmSpec Correct Execute Examples Gdb Packets Handlers.
From S2P Require Import Access.

Section General.
Context `{T : Target}.

(** The same processor, and a packet that begins with [text], [rest] being what
    follows it. *)
Definition drafting (g g' : gdbs) (text rest : list Z) : Prop :=
  g_arm g' = g_arm g /\ (forall n, ready n (g_sim g) -> ready n (g_sim g')) /\
  g_out g' = g_out g /\ same_exception g g' /\
  exists x, packet (g_data g') = x :: text ++ rest /\
    (length text + length rest = 1023)%nat.

Lemma drafting_start g : gdb_ready g -> exists rest, drafting g g [] rest.
Proof.
  intros [_ _ Hl]. destruct (packet (g_data g)) as [|x rest] eqn:E; [done|].
  exists rest. repeat (split; [done|]). exists x. simpl in *. split; [done|lia].
Qed.

Lemma drafting_moved g g1 g2 text rest :
  drafting g g1 text rest -> moved g1 g2 (g_arm g1) -> drafting g g2 text rest.
Proof.
  intros (Ha & Hr & Ho & Hx & x & Hp & Hl) M.
  split; [by rewrite (moved_arm _ _ _ M)|].
  split; [intros n Hn; eapply moved_ready; eauto|].
  split; [by rewrite (moved_out _ _ _ M)|].
  split; [transitivity g1; [done|by eapply moved_exception]|].
  exists x. by rewrite (moved_data _ _ _ M).
Qed.

Lemma drafting_put g g1 text rest t :
  drafting g g1 text rest -> (length t < length rest)%nat ->
  exists g2 rest', put_text (1 + Z.of_nat (length text)) t g1 = Ok () g2 /\
    drafting g g2 (text ++ t) (0 :: rest').
Proof.
  intros (Ha & Hr & Ho & Hx & x & Hp & Hl) Ht.
  destruct (put_text_at g1 x text rest t Hp Ht) as (rest' & E & Hl').
  rewrite E. eexists _, rest'. split; [done|]. repeat (split; [done|]).
  exists x. split; [done|]. rewrite length_app. simpl. lia.
Qed.

Lemma drafting_send g g1 text rest :
  gdb_ready g -> drafting g g1 text (0 :: rest) -> (3 <= length rest)%nat ->
  Forall is_char text ->
  exists g2, gdb_send_buffer g1 = Ok () g2 /\ g_arm g2 = g_arm g /\ gdb_ready g2 /\
    g_out g2 = g_out g ++ framed text /\ same_exception g g2.
Proof.
  intros Hg (Ha & Hr & Ho & Hx & x & Hp & Hl) Hrest Hc.
  destruct rest as [|y [|a [|b post]]]; simpl in Hrest, Hl; try lia.
  destruct (send_buffer_text g1 g1 text) as (q & Hq & E).
  { repeat (split; [done|]). exists x, y, a, b, post. split; [done|lia]. }
  { done. }
  eexists. split; [exact E|]. split; [done|]. split.
  - split; [by apply Hr, Hg| |done]. change (core_wf (g_arm g1)). rewrite Ha. apply Hg.
  - cbn [sent g_out]. rewrite Ho. by split.
Qed.

(** One word of the answer. *)
Lemma put_word g g1 text rest v :
  drafting g g1 text rest -> (8 < length rest)%nat ->
  exists g2 rest', put_uint32 (1 + Z.of_nat (length text)) v g1 = Ok () g2 /\
    drafting g g2 (text ++ word_text v) (0 :: rest').
Proof.
  intros Hd Hl. unfold put_uint32. rewrite write_uint32_text. cbn [of_option].
  rewrite (bind_ok _ _ g1 (word_text v) g1) by done.
  apply (drafting_put _ _ _ rest); [done|]. by rewrite (proj2 (word_text_chars v)).
Qed.

(** ** The answer to g *)

Definition words (vs : list Z) : list Z := mjoin (word_text <$> vs).
(** Sixteen registers, the 25 words the processor does not have, the CPSR. *)
Definition registers_text (vs : list Z) (cpsr : Z) : list Z :=
  words vs ++ replicate 200 120 ++ word_text cpsr.
Definition reported_registers (p : arm_core_data) : list Z :=
  reported p <$> (Z.of_nat <$> seq 0 16).

Lemma words_app vs1 vs2 : words (vs1 ++ vs2) = words vs1 ++ words vs2.
Proof. unfold words. by rewrite fmap_app, join_app. Qed.
Lemma words_cons v vs : words (v :: vs) = word_text v ++ words vs.
Proof. done. Qed.
Lemma words_length vs : length (words vs) = (8 * length vs)%nat.
Proof.
  induction vs as [|v vs IH]; [done|].
  rewrite words_cons, length_app, IH, (proj2 (word_text_chars v)). simpl. lia.
Qed.
Lemma words_chars vs : Forall is_char (words vs).
Proof.
  induction vs as [|v vs IH]; [constructor|]. rewrite words_cons.
  apply Forall_app. split; [apply word_text_chars|done].
Qed.

Lemma put_registers_run regs : forall g g1 text rest,
  gdb_ready g -> drafting g g1 text rest -> Forall (fun i => 0 <= i < 16) regs ->
  (8 * length regs < length rest)%nat ->
  exists g2 rest', put_registers regs (1 + Z.of_nat (length text)) g1
      = Ok (1 + Z.of_nat (length (text ++ words (gpr_view (g_arm g) <$> regs)))) g2 /\
    drafting g g2 (text ++ words (gpr_view (g_arm g) <$> regs)) rest'.
Proof.
  induction regs as [|i regs IH]; intros g g1 text rest Hg Hd Hi Hl.
  { exists g1, rest. cbn. rewrite app_nil_r. by split. }
  apply Forall_cons_1 in Hi as [Hi His]. cbn [length] in Hl.
  pose proof (wf_has_regs _ (gr_wf g Hg)) as Hregs. destruct Hd as (Ha & Hr & Hrest).
  destruct (located_gdb_refines 217 _ _ g1 (gpr_view (g_arm g) i) (g_arm g1)
    (refines_read_register 0 i)) as (g2 & E2 & M2).
  { apply Hr. eapply ready_le; [|apply Hg]. lia. }
  { rewrite Ha. by apply run_read. }
  pose proof (drafting_moved g g1 g2 text rest (conj Ha (conj Hr Hrest)) M2) as Hd2.
  destruct (put_word g g2 text rest (gpr_view (g_arm g) i) Hd2)
    as (g3 & rest3 & E3 & Hd3); [lia|].
  pose proof (word_text_chars (gpr_view (g_arm g) i)) as [_ Hw].
  assert (length rest3 + 9 = length rest)%nat as Hl3.
  { destruct Hd2 as (_ & _ & _ & _ & x & _ & L1). destruct Hd3 as (_ & _ & _ & _ & y & _ & L2).
    rewrite length_app in L2. simpl in L2. lia. }
  destruct (IH g g3 (text ++ word_text (gpr_view (g_arm g) i)) (0 :: rest3) Hg Hd3 His)
    as (g4 & rest4 & E4 & Hd4); [simpl; lia|].
  exists g4, rest4. cbn [put_registers fmap list_fmap]. rewrite words_cons.
  rewrite app_assoc. split; [|exact Hd4].
  rewrite (bind_ok _ _ _ _ _ E2), (bind_ok _ _ _ _ _ E3).
  replace (1 + Z.of_nat (length text) + 8) with
    (1 + Z.of_nat (length (text ++ word_text (gpr_view (g_arm g) i))))
    by (rewrite length_app, Hw; lia).
  exact E4.
Qed.

Lemma put_unknown_run n : forall g g1 text rest,
  drafting g g1 text rest -> (8 * n < length rest)%nat ->
  exists g2 rest', put_unknown n (1 + Z.of_nat (length text)) g1
      = Ok (1 + Z.of_nat (length (text ++ replicate (8 * n) 120))) g2 /\
    drafting g g2 (text ++ replicate (8 * n) 120) rest'.
Proof.
  induction n as [|n IH]; intros g g1 text rest Hd Hl.
  { exists g1, rest. rewrite Nat.mul_0_r. cbn [replicate]. rewrite app_nil_r. by split. }
  destruct (drafting_put g g1 text rest (replicate 8 120) Hd) as (g2 & rest2 & E2 & Hd2);
    [simpl; lia|].
  assert (length rest2 + 9 = length rest)%nat as Hl2.
  { destruct Hd as (_ & _ & _ & _ & x & _ & L1). destruct Hd2 as (_ & _ & _ & _ & y & _ & L2).
    rewrite length_app in L2. simpl in L2. lia. }
  destruct (IH g g2 _ _ Hd2) as (g3 & rest3 & E3 & Hd3); [simpl; lia|].
  exists g3, rest3. replace (8 * Datatypes.S n)%nat with (8 + 8 * n)%nat by lia.
  rewrite replicate_add, app_assoc. split; [|exact Hd3].
  cbn [put_unknown]. change (bytes_of "xxxxxxxx") with (replicate 8 120).
  rewrite (bind_ok _ _ _ _ _ E2).
  replace (1 + Z.of_nat (length text) + 8) with
    (1 + Z.of_nat (length (text ++ replicate 8 120)))
    by (rewrite length_app, length_replicate; lia).
  exact E3.
Qed.

(** An access to the processor while the answer is written. *)
Lemma drafting_access {A} line (m : Sim A) (f : Arch A) g g1 text rest (v : A) :
  gdb_ready g -> drafting g g1 text rest -> Refines 0 m f -> f (g_arm g) = Ok v (g_arm g) ->
  exists g2, located_gdb line m g1 = Ok v g2 /\ drafting g g2 text rest.
Proof.
  intros Hg Hd Hm Hf. pose proof Hd as (Ha & Hr & _).
  destruct (located_gdb_refines line m f g1 v (g_arm g1) Hm) as (g2 & E2 & M2).
  { apply Hr. eapply ready_le; [|apply Hg]. lia. }
  { by rewrite Ha. }
  exists g2. split; [exact E2|by eapply drafting_moved].
Qed.

Lemma reported_low p i : core_wf p -> 0 <= i < 15 -> reported p i = gpr_view p i.
Proof.
  intros Hp Hi. unfold reported, gpr_view, pc_view.
  destruct (Z.eqb_spec i 15); [lia|]. rewrite Z.sub_0_r.
  apply u32_small. apply reg_value_u32, Hp.
Qed.

Lemma reported_split p :
  core_wf p ->
  words (gpr_view p <$> (Z.of_nat <$> seq 0 15)) ++ word_text (u32 (gpr_view p 15 - 4)) =
  words (reported_registers p).
Proof.
  intros Hp. unfold reported_registers. change (seq 0 16) with (seq 0 15 ++ [15%nat]).
  rewrite !fmap_app, words_app. f_equal.
  - f_equal. apply list_fmap_ext. intros k i Hk. symmetry. apply reported_low; [done|].
    apply list_lookup_fmap_Some in Hk as (n & -> & Hn).
    apply lookup_seq in Hn. lia.
  - unfold words. cbn [fmap list_fmap mjoin list_join]. by rewrite app_nil_r.
Qed.

Lemma drafting_length g g1 text rest :
  drafting g g1 text rest -> (length text + length rest = 1023)%nat.
Proof. by intros (_ & _ & _ & _ & x & _ & H). Qed.

Lemma registers_text_length vs c :
  length vs = 16%nat -> length (registers_text vs c) = 336%nat.
Proof.
  intros Hv. unfold registers_text.
  rewrite !length_app, words_length, length_replicate, (proj2 (word_text_chars c)). lia.
Qed.
Lemma registers_text_chars vs c : Forall is_char (registers_text vs c).
Proof.
  unfold registers_text. rewrite !Forall_app. split; [apply words_chars|].
  split; [apply Forall_replicate; by split|apply word_text_chars].
Qed.

(** The sixteen registers: the part of the handler before the places of f0. *)
Lemma put_reported g g1 rest (k : Z -> Gdb unit) :
  gdb_ready g -> drafting g g1 [] rest ->
  exists g2 rest',
    (position ← put_registers (Z.of_nat <$> seq 0 15) 1;
     pc ← located_gdb 221 (Core.arm_read_register 15);
     put_uint32 position (u32 (pc - 4));; k position) g1 = k 121 g2 /\
    drafting g g2 (words (reported_registers (g_arm g))) rest'.
Proof.
  intros Hg Hd. pose proof (gr_wf g Hg) as Hp. pose proof (wf_has_regs _ Hp) as Hregs.
  pose proof (drafting_length _ _ _ _ Hd) as L1. simpl in L1.
  destruct (put_registers_run (Z.of_nat <$> seq 0 15) g g1 [] rest Hg Hd)
    as (g2 & rest2 & E2 & Hd2).
  { apply Forall_fmap, Forall_seq. intros j Hj. simpl. lia. }
  { simpl. lia. }
  cbn [app] in E2, Hd2. set (t2 := words _) in *.
  assert (length t2 = 120%nat) as Ht2 by (unfold t2; by rewrite words_length).
  change (1 + Z.of_nat (length [])) with 1 in E2. rewrite (bind_ok _ _ _ _ _ E2).
  destruct (drafting_access 221 _ _ g g2 t2 rest2 (gpr_view (g_arm g) 15) Hg Hd2
    (refines_read_register 0 15)) as (g3 & E3 & Hd3); [by apply run_read|].
  rewrite (bind_ok _ _ _ _ _ E3).
  pose proof (drafting_length _ _ _ _ Hd3) as L3.
  destruct (put_word g g3 t2 rest2 (u32 (gpr_view (g_arm g) 15 - 4)) Hd3)
    as (g4 & rest4 & E4 & Hd4); [lia|].
  rewrite (bind_ok _ _ _ _ _ E4). rewrite Ht2. exists g4. eexists. split; [done|].
  by rewrite <- (reported_split _ Hp).
Qed.

(** The 25 words that are not there. *)
Lemma put_missing g g1 text rest (k : Z -> Gdb unit) :
  drafting g g1 text rest -> (200 < length rest)%nat ->
  exists g2 rest',
    (position ← put_unknown 24 (1 + Z.of_nat (length text));
     put_text position (bytes_of "xxxxxxxx");; k position) g1
      = k (1 + Z.of_nat (length text) + 192) g2 /\
    drafting g g2 (text ++ replicate 200 120) rest'.
Proof.
  intros Hd Hl.
  destruct (put_unknown_run 24 g g1 text rest Hd) as (g2 & rest2 & E2 & Hd2); [lia|].
  rewrite (bind_ok _ _ _ _ _ E2).
  pose proof (drafting_length _ _ _ _ Hd) as L1.
  pose proof (drafting_length _ _ _ _ Hd2) as L2. rewrite length_app, length_replicate in L2.
  destruct (drafting_put g g2 _ rest2 (replicate 8 120) Hd2) as (g3 & rest3 & E3 & Hd3).
  { rewrite length_replicate. lia. }
  change (bytes_of "xxxxxxxx") with (replicate 8 120).
  rewrite (bind_ok _ _ _ _ _ E3). exists g3. eexists.
  rewrite length_app, length_replicate. rewrite <- app_assoc in Hd3.
  split; [f_equal; lia|exact Hd3].
Qed.

Lemma read_general_run g :
  gdb_ready g ->
  exists g', read_general_registers g = Ok () g' /\ g_arm g' = g_arm g /\ gdb_ready g' /\
    g_out g' = g_out g ++
      framed (registers_text (reported_registers (g_arm g)) (cpsr_of (g_arm g))) /\
    same_exception g g'.
Proof.
  intros Hg. pose proof (wf_has_regs _ (gr_wf g Hg)) as Hregs.
  unfold read_general_registers.
  destruct (on_sim_disable g) as (g1 & E1 & M1). rewrite (bind_ok _ _ _ _ _ E1). clear E1.
  destruct (drafting_start g Hg) as (rest0 & Hd0).
  pose proof (drafting_moved _ _ _ _ _ Hd0 M1) as Hd1.
  edestruct (put_reported g g1 rest0) as (g2 & rest2 & -> & Hd2); [done..|].
  set (t2 := words _) in *.
  assert (length t2 = 128%nat) as Ht2 by (unfold t2; by rewrite words_length).
  pose proof (drafting_length _ _ _ _ Hd2) as L2.
  replace (121 + 8) with (1 + Z.of_nat (length t2)) by lia.
  edestruct (put_missing g g2 t2 rest2) as (g3 & rest3 & -> & Hd3); [done|lia|].
  pose proof (drafting_length _ _ _ _ Hd3) as L3. rewrite length_app, length_replicate in L3.
  destruct (drafting_access 235 _ _ g g3 _ _ (cpsr_of (g_arm g)) Hg Hd3
    (refines_read_cpsr 0)) as (g4 & E4 & Hd4); [by apply run_read_cpsr|].
  rewrite (bind_ok _ _ _ _ _ E4). clear E4.
  destruct (put_word g g4 _ _ (cpsr_of (g_arm g)) Hd4) as (g5 & rest5 & E5 & Hd5); [lia|].
  replace (1 + Z.of_nat (length t2) + 192 + 8) with
    (1 + Z.of_nat (length (t2 ++ replicate 200 120)))
    by (rewrite length_app, length_replicate; lia).
  rewrite (bind_ok _ _ _ _ _ E5). clear E5. rewrite <- app_assoc in Hd5.
  change (t2 ++ _) with (registers_text (reported_registers (g_arm g)) (cpsr_of (g_arm g)))
    in Hd5.
  destruct (on_sim_enable g5) as (g6 & E6 & M6).
  rewrite (bind_ok _ _ _ _ _ E6). clear E6.
  pose proof (drafting_moved _ _ _ _ _ Hd5 M6) as Hd6.
  pose proof (drafting_length _ _ _ _ Hd6) as L6.
  rewrite registers_text_length in L6 by done. simpl in L6.
  apply (drafting_send g g6 _ rest5 Hg Hd6); [lia|apply registers_text_chars].
Qed.

(** ** The effect of G *)

(** The registers from [i] on set to [vs]. *)
Fixpoint set_gprs (i : Z) (vs : list Z) (p : arm_core_data) : arm_core_data :=
  match vs with
  | [] => p
  | v :: vs => set_gprs (i + 1) vs (set_gpr i v p)
  end.
Definition set_all (vs : list Z) (cpsr : Z) (p : arm_core_data) : arm_core_data :=
  set_gpr 16 cpsr (set_gprs 0 vs p).

Lemma set_gprs_wf vs : forall i p,
  core_wf p -> 0 <= i -> i + Z.of_nat (length vs) <= 18 -> Forall is_u32 vs ->
  core_wf (set_gprs i vs p).
Proof.
  induction vs as [|v vs IH]; intros i p Hp Hi Hl Hv; [done|].
  apply Forall_cons_1 in Hv as [Hv Hvs]. cbn [length] in Hl. cbn [set_gprs].
  apply IH; [|lia..|done]. apply set_gpr_wf; (done || lia).
Qed.

Lemma set_gprs_get vs : forall i p j,
  core_wf p -> 0 <= i -> i + Z.of_nat (length vs) <= 18 -> Forall is_u32 vs ->
  gpr (set_gprs i vs p) j =
  if (i <=? j) && (j <? i + Z.of_nat (length vs))
  then default 0 (vs !! Z.to_nat (j - i)) else gpr p j.
Proof.
  induction vs as [|v vs IH]; intros i p j Hp Hi Hl Hv.
  { simpl. cmp_cases; done. }
  apply Forall_cons_1 in Hv as [Hv Hvs]. cbn [length] in *. cbn [set_gprs].
  rewrite IH; [|apply set_gpr_wf; (done || lia)|lia..|done].
  rewrite gpr_set_gpr by (try apply wf_has_regs; (done || lia)).
  destruct (Z.eq_dec j i) as [->|Hne].
  - rewrite Z.eqb_refl, Z.sub_diag. cmp_cases. done.
  - rewrite (proj2 (Z.eqb_neq j i)) by done. cmp_cases; try done.
    replace (Z.to_nat (j - i)) with (Datatypes.S (Z.to_nat (j - (i + 1)))) by lia. done.
Qed.

Lemma run_write_cpsr v p :
  has_regs p -> core_write_cpsr v p = Ok () (set_gpr 16 v p).
Proof.
  intros Hp. simpl. unfold arch_set_regs, write_cpsr, store_register.
  rewrite bind_eq. simpl. by rewrite buf_set_Some by (rewrite Hp; lia).
Qed.

Lemma words_cstring vs rest t :
  cstring rest = Some t -> cstring (words vs ++ rest) = Some (words vs ++ t).
Proof. intros Ht. apply cstring_app; [apply words_chars|exact Ht]. Qed.

Lemma moved_self g : moved g g (g_arm g).
Proof. exists (g_sim g). split; [by destruct g|]. by split. Qed.

Lemma set_registers_run fr vs : forall (i : nat) g rest t,
  gdb_ready g -> (i + length vs <= 16)%nat -> Forall is_u32 vs -> cstring rest = Some t ->
  exists g', set_registers fr (Z.of_nat <$> seq i (length vs)) (words vs ++ rest) g = Ok () g' /\
    moved g g' (set_gprs (Z.of_nat i) vs (g_arm g)) /\ gdb_ready g'.
Proof.
  induction vs as [|v vs IH]; intros i g rest t Hg Hl Hv Ht.
  { exists g. split; [done|]. split; [apply moved_self|done]. }
  apply Forall_cons_1 in Hv as [Hv Hvs]. cbn [length seq fmap list_fmap set_registers] in *.
  rewrite words_cons, <- app_assoc.
  rewrite (read_uint32_text v _ (words vs ++ t)) by (done || by apply words_cstring).
  cbn [of_option]. rewrite (bind_ok _ _ g v g) by done.
  pose proof (gr_wf g Hg) as Hp.
  destruct (located_gdb_refines 297 _ _ g () (set_gpr (Z.of_nat i) v (g_arm g))
    (refines_write_register 0 (Z.of_nat i) v)) as (g1 & E1 & M1).
  { eapply ready_le; [|apply Hg]. lia. }
  { apply run_write; [by apply wf_has_regs|lia]. }
  rewrite (bind_ok _ _ _ _ _ E1).
  rewrite drop_app_length' by (by rewrite (proj2 (word_text_chars v))).
  assert (core_wf (set_gpr (Z.of_nat i) v (g_arm g))) as Hp1
    by (apply set_gpr_wf; (done || lia)).
  pose proof (moved_gdb_ready _ _ _ M1 Hp1 Hg) as Hg1.
  destruct (IH (Datatypes.S i) g1 rest t Hg1) as (g2 & E2 & M2 & Hg2); [lia|done..|].
  exists g2. rewrite debug_off, debug_if_off. split; [exact E2|]. split; [|done].
  rewrite (moved_arm _ _ _ M1) in M2. cbn [set_gprs].
  replace (Z.of_nat i + 1) with (Z.of_nat (Datatypes.S i)) by lia.
  by eapply moved_trans.
Qed.

(** A word of any eight characters is read as some value. *)
Lemma read_bytes_chars (idx : list Z) : forall text more t v bytes,
  Forall is_char text -> length text = (2 * length idx)%nat -> cstring more = Some t ->
  Forall (fun i => 0 <= i < Z.of_nat (length bytes)) idx ->
  exists bs, read_bytes idx (text ++ more) v bytes = Some bs.
Proof.
  induction idx as [|i idx IH]; intros text more t v bytes Hc Hl Hm Hi; [by exists bytes|].
  apply Forall_cons_1 in Hi as [Hi Hidx]. cbn [length] in Hl.
  destruct text as [|c1 [|c2 text]]; simpl in Hl; try lia.
  cbn [read_bytes]. rewrite (cstring_app (c1 :: c2 :: text) more t Hc Hm).
  cbn [mbind option_bind]. rewrite buf_set_Some by done. cbn [mbind option_bind app drop].
  apply Forall_cons_1 in Hc as [_ Hc]. apply Forall_cons_1 in Hc as [_ Hc].
  apply (IH text more t); [done|lia|done|]. by rewrite length_insert.
Qed.

Lemma read_uint32_chars text more t v0 :
  Forall is_char text -> length text = 8%nat -> cstring more = Some t ->
  exists v, read_uint32 (text ++ more) v0 = Some v.
Proof.
  intros Hc Hl Hm. unfold read_uint32. rewrite indices_spec. cbn [mbind option_bind].
  edestruct (read_bytes_chars (if Bool.eqb host_big_endian big_endian_simulator
    then [0; 1; 2; 3] else [3; 2; 1; 0]) text more t v0 [0; 0; 0; 0]) as (bs & ->);
    [done|by destruct (Bool.eqb _ _)|done| |by eexists].
  destruct (Bool.eqb _ _); repeat apply Forall_cons_2; try apply Forall_nil_2; simpl; lia.
Qed.

Lemma drop_words_run fr n : forall junk more t (g : gdbs),
  Forall is_char junk -> length junk = (8 * n)%nat -> cstring more = Some t ->
  drop_words fr n (junk ++ more) g = Ok () g.
Proof.
  induction n as [|n IH]; intros junk more t g Hc Hl Hm; [done|].
  destruct (cut junk 8) as (text & junk' & -> & Htext); [lia|].
  rewrite length_app in Hl. apply Forall_app in Hc as [Hc1 Hc2]. rewrite <- app_assoc.
  destruct (read_uint32_chars text (junk' ++ more) (junk' ++ t) (gf_value fr 16)) as (v & Ev);
    [done..|by apply cstring_app|].
  cbn [drop_words]. rewrite Ev. cbn [of_option]. rewrite (bind_ok _ _ g v g) by done.
  rewrite drop_app_length' by done. apply (IH junk' more t); [done|lia|done].
Qed.

Lemma write_general_run fr g vs junk c tail t :
  gdb_ready g -> length vs = 16%nat -> Forall is_u32 vs -> is_u32 c ->
  Forall is_char junk -> length junk = 200%nat -> cstring tail = Some t ->
  exists g', write_general_registers fr (words vs ++ junk ++ word_text c ++ tail) g
      = Ok () g' /\
    g_arm g' = set_all vs c (g_arm g) /\ gdb_ready g' /\
    g_out g' = g_out g ++ framed (bytes_of "OK") /\ same_exception g g'.
Proof.
  intros Hg Hl Hv Hc Hj Hjl Ht. pose proof (gr_wf g Hg) as Hp.
  unfold write_general_registers.
  destruct (on_sim_disable g) as (g1 & E1 & M1). rewrite (bind_ok _ _ _ _ _ E1).
  pose proof (moved_gdb_ready _ _ _ M1 Hp Hg) as Hg1.
  assert (cstring (word_text c ++ tail) = Some (word_text c ++ t)) as Ht2
    by (apply cstring_app; [apply word_text_chars|done]).
  destruct (set_registers_run fr vs 0 g1 (junk ++ word_text c ++ tail)
    (junk ++ word_text c ++ t) Hg1) as (g2 & E2 & M2 & Hg2);
    [lia|done|by apply cstring_app|].
  rewrite Hl in E2. rewrite (bind_ok _ _ _ _ _ E2).
  rewrite (drop_app_length' (words vs) _ 128) by (rewrite words_length; lia).
  rewrite (bind_ok _ _ g2 () g2) by (by eapply drop_words_run).
  rewrite app_assoc, (drop_app_length' (words vs ++ junk) _ 328)
    by (rewrite length_app, words_length; lia).
  rewrite (read_uint32_text c tail t) by done. cbn [of_option].
  rewrite (bind_ok _ _ g2 c g2) by done.
  destruct (located_gdb_refines 322 _ _ g2 () (set_gpr 16 c (g_arm g2))
    (refines_write_cpsr 0 c)) as (g3 & E3 & M3).
  { eapply ready_le; [|apply Hg2]. lia. }
  { apply run_write_cpsr, wf_has_regs, Hg2. }
  rewrite (bind_ok _ _ _ _ _ E3).
  destruct (on_sim_enable g3) as (g4 & E4 & M4). rewrite debug_off, (bind_ok _ _ _ _ _ E4).
  rewrite (moved_arm _ _ _ M3) in M4.
  pose proof (moved_trans _ _ _ _ _ M3 M4) as M24.
  assert (core_wf (set_gpr 16 c (g_arm g2))) as Hp2 by (apply set_gpr_wf; [apply Hg2|lia|done]).
  pose proof (moved_gdb_ready _ _ _ M24 Hp2 Hg2) as Hg4.
  destruct (send_data_answers g4 (bytes_of "OK") (gr_packet _ Hg4)) as (g5 & E5 & H5);
    [by apply bytes_of_chars | simpl; lia|].
  exists g5. split; [exact E5|]. rewrite (answered_arm _ _ _ H5), (answered_out _ _ _ H5).
  rewrite (moved_arm _ _ _ M24), (moved_arm _ _ _ M2), (moved_arm _ _ _ M1).
  split; [done|]. split; [by eapply answered_ready|].
  rewrite (moved_out _ _ _ M24), (moved_out _ _ _ M2), (moved_out _ _ _ M1).
  split; [done|]. transitivity g4; [|by eapply answered_exception].
  transitivity g2; [|by eapply moved_exception].
  transitivity g1; by eapply moved_exception.
Qed.

Lemma set_all_wf vs c p :
  core_wf p -> length vs = 16%nat -> Forall is_u32 vs -> is_u32 c -> core_wf (set_all vs c p).
Proof. intros. apply set_gpr_wf; [apply set_gprs_wf; (done || lia)|lia|done]. Qed.

Lemma set_all_cpsr vs c p :
  core_wf p -> length vs = 16%nat -> Forall is_u32 vs -> cpsr_of (set_all vs c p) = c.
Proof.
  intros Hp Hl Hv. apply gpr_set_eq; [|lia].
  apply wf_has_regs, set_gprs_wf; (done || lia).
Qed.

Lemma reported_set_all vs c p :
  core_wf p -> length vs = 16%nat -> Forall is_u32 vs -> is_u32 c ->
  (forall pc, vs !! 15%nat = Some pc -> pc mod 4 = 0) ->
  reported_registers (set_all vs c p) = vs.
Proof.
  intros Hp Hl Hv Hc Hpc. apply list_eq. intros k.
  unfold reported_registers. rewrite !list_lookup_fmap.
  destruct (Nat.lt_ge_cases k 16) as [Hk|Hk].
  2:{ rewrite lookup_ge_None_2 by (rewrite length_seq; lia).
      by rewrite lookup_ge_None_2 by lia. }
  rewrite lookup_seq_lt by done. cbn [Nat.add fmap option_fmap option_map].
  destruct (lookup_lt_is_Some_2 vs k) as [v Ev]; [lia|]. rewrite Ev. f_equal.
  assert (gpr (set_all vs c p) (Z.of_nat k) = v) as E.
  { unfold set_all. rewrite gpr_set_ne;
      [|by apply wf_has_regs, set_gprs_wf; (done || lia)|lia..].
    rewrite set_gprs_get by (done || lia). rewrite Z.sub_0_r, Nat2Z.id, Ev. cmp_cases. done. }
  assert (is_u32 v) as Hu by (by eapply Forall_lookup_1).
  unfold reported, gpr_view. rewrite E. destruct (Z.eqb_spec (Z.of_nat k) 15) as [E15|Hne].
  - assert (k = 15)%nat as -> by lia. change (Z.of_nat 15) with 15.
    rewrite pc_view_aligned by auto. rewrite u32_sub_l.
    replace (v + 4 - 4) with v by lia. by apply u32_small.
  - unfold pc_view. rewrite (proj2 (Z.eqb_neq (Z.of_nat k) 15) Hne), Z.sub_0_r.
    by apply u32_small.
Qed.

(** C27. gdb sees the whole register file and can restore it: a g packet
    changes nothing and answers the sixteen registers, 25 words of x and the
    CPSR; a G packet sets the sixteen registers and the CPSR to the words it
    carries, whatever the 25 words between them are, and a g packet after it
    answers the same words, the program counter, when aligned, included. *)
Theorem gdb_registers_roundtrip fr g vs junk c tail t :
  gdb_ready g -> length vs = 16%nat -> Forall is_u32 vs -> is_u32 c ->
  (forall pc, vs !! 15%nat = Some pc -> pc mod 4 = 0) ->
  Forall is_char junk -> length junk = 200%nat -> cstring tail = Some t ->
  (exists g', read_general_registers g = Ok () g' /\ g_arm g' = g_arm g /\
     g_out g' = g_out g ++
       framed (registers_text (reported_registers (g_arm g)) (cpsr_of (g_arm g)))) /\
  (exists g', (write_general_registers fr (words vs ++ junk ++ word_text c ++ tail);;
               read_general_registers) g = Ok () g' /\
     g_arm g' = set_all vs c (g_arm g) /\
     g_out g' = g_out g ++ framed (bytes_of "OK") ++ framed (registers_text vs c)).
Proof.
  intros Hg Hl Hv Hc Hpc Hj Hjl Ht. split.
  { destruct (read_general_run g Hg) as (g1 & E1 & A1 & _ & O1 & _). by exists g1. }
  destruct (write_general_run fr g vs junk c tail t) as (g1 & E1 & A1 & Hg1 & O1 & _); [done..|].
  destruct (read_general_run g1 Hg1) as (g2 & E2 & A2 & _ & O2 & _).
  exists g2. rewrite (bind_ok _ _ _ _ _ E1). split; [exact E2|]. split; [congruence|].
  pose proof (gr_wf g Hg) as Hp.
  rewrite O2, O1, A1, reported_set_all, set_all_cpsr, <- app_assoc by done. done.
Qed.
End General.
