(* ===== verification/GdbExamples.v ===== *)
(** * Concrete connections

    The gdb theorems applied: a connection to a machine of Examples.v whose
    program is [MOV r1,#10] followed by gdb's breakpoint. *)
From S2P Require Import Prelude Util Constants Memory Registers Trace Core.
From S2P Require Import Refine LoadStore Branch Instruction Run Invariant.
From S2P Require Import ArmSpec Correct Execute Examples Gdb Packets Handlers.
From S2P Require Import Access General.

Definition example_words : list Z := [0xE3A0100A; 0xE7F000F0].

Definition example_gdb : gdbs := {|
  g_sim := example_sim 0 0x1d3 example_words;
  g_data := gdb_init_data (replicate 1024 0);
  g_out := [];
  g_shut := false
|}.

Definition example_gframe (address size : Z) : gframe := {|
  gf_step := fun _ => frame_of 0 0 0; gf_instruction := 0;
  gf_value := fun _ => 0; gf_address := address; gf_size := size;
  gf_reg := 0; gf_given := 0; gf_byte := 0
|}.

Lemma example_gdb_ready : gdb_ready example_gdb.
Proof.
  split; [apply example_ready | apply core_wf_decided; vm_compute; reflexivity
    | reflexivity].
Qed.

(** The packet "$?#3f", received, and the same one with other digits. *)
Lemma packet_analysis_spec_witness :
  gdb_packet_analysis (T := x86) 1 (example_gframe 0 0) (received 63 [] 0x3f []) 5
    example_gdb =
  (gdb_send_ack;; run_handler (T := x86) 1 (example_gframe 0 0) CmdReason
     (0 :: hex2 0x3f ++ [0])) example_gdb /\
  gdb_packet_analysis (T := x86) 1 (example_gframe 0 0) (received 63 [] 0x3e []) 5
    example_gdb = gdb_require_retransmission example_gdb.
Proof.
  split.
  - apply (packet_analysis_spec (T := x86) 1 (example_gframe 0 0) example_gdb 63 [] 0x3f []).
    split; [discriminate | reflexivity].
  - apply (packet_analysis_spec (T := x86) 1 (example_gframe 0 0) example_gdb 63 [] 0x3e []).
    split; [discriminate | reflexivity].
Defined.

(** "OK" is sent; the same machine answers it with an acknowledgement and the
    empty packet. *)
Lemma gdb_send_data_spec_witness :
  (exists p, gdb_send_data (bytes_of "OK") example_gdb =
     Ok () (sent example_gdb (bytes_of "$OK#9a") p 6)) /\
  g_out <$> final (gdb_packet_analysis (T := x86) 1 (example_gframe 0 0)
    (bytes_of "$OK#9a" ++ [0]) 6 example_gdb) = Some (bytes_of "+$#00").
Proof.
  destruct (gdb_send_data_spec (T := x86) example_gdb 79 [75]) as ((p & _ & E) & R).
  - reflexivity.
  - repeat constructor.
  - simpl. lia.
  - split; [exists p; exact E|].
    specialize (R 1%nat (example_gframe 0 0) [] example_gdb).
    change (framed [79; 75]) with (bytes_of "$OK#9a") in R.
    change (Z.of_nat (length (bytes_of "$OK#9a"))) with 6 in R. rewrite R.
    vm_compute. reflexivity.
Defined.

Lemma gdb_send_data_overflow_witness :
  gdb_send_data (replicate 1023 65) example_gdb = Fault OutOfBounds.
Proof.
  apply (gdb_send_data_overflow example_gdb (replicate 1023 65)).
  - reflexivity.
  - rewrite length_replicate. apply le_n.
Defined.

Lemma uint32_roundtrip_witness :
  exists text, write_uint32 (T := x86) 0x11223344 = Some text /\
    read_uint32 (T := x86) (text ++ [0]) 7 = Some 0x11223344.
Proof.
  destruct (uint32_roundtrip (T := x86) 0x11223344 [0] [] 7) as (text & E & _ & _ & R).
  - split; [discriminate | reflexivity].
  - reflexivity.
  - exists text. split; [exact E | exact R].
Defined.

Lemma cont_stops_witness :
  exists g', cont (T := x86) 5 (example_gframe 0 0) example_gdb = Ok () g' /\
    gpr (g_arm g') 1 = 10 /\ g_out g' = bytes_of "$S05#b8".
Proof.
  pose (q := set_gpr 1 10 (after_fetch (example_core 0 0x1d3 example_words))).
  destruct (cont_stops (T := x86) (example_gframe 0 0) 1 example_gdb q 5) as [_ H].
  - apply example_gdb_ready.
  - eapply (until_step (T := x86) _ 0 0 _ q q 0xE3A0100A);
      [vm_compute; reflexivity | reflexivity | vm_compute; reflexivity |].
    eapply (until_here (T := x86) _ _ _ 0xE7F000F0); vm_compute; reflexivity.
  - destruct H as (g' & E & A & O); [apply le_S, le_S, le_S, le_n|].
    exists g'. split; [exact E|]. rewrite A, O. split; vm_compute; reflexivity.
Defined.

Lemma gdb_register_roundtrip_witness :
  exists g', (gdb_write_register (T := x86) (example_gframe 0 0)
                (hex_digit 15 :: 61 :: word_text (T := x86) 0x8000 ++ [0]);;
              gdb_read_register (T := x86) (decimal 15 ++ [0])) example_gdb = Ok () g' /\
    g_arm g' = set_gpr 15 0x8000 (g_arm example_gdb) /\
    g_out g' = bytes_of "$OK#9a$00008000#88".
Proof.
  destruct (gdb_register_roundtrip (T := x86) (example_gframe 0 0) example_gdb 15
    0x8000 [0] [] []) as (g' & E & A & O).
  - apply example_gdb_ready.
  - split; [discriminate | reflexivity].
  - split; [discriminate | reflexivity].
  - reflexivity.
  - reflexivity.
  - exists g'. split; [exact E|]. split; [exact A|]. rewrite O. vm_compute. reflexivity.
Defined.

(** "8,3:" and the bytes 0x41, 0x7d and 0x23, two of them escaped. *)
Lemma gdb_write_memory_witness :
  exists g' m, write_memory_binary (example_gframe 0 0)
      (bytes_of "8,3:A}]}" ++ [3; 35; 0]) example_gdb = Ok () g' /\
    stored (mem (g_arm example_gdb)) m 8 [0x41; 0x7d; 0x23] /\
    mem (g_arm g') = m.
Proof.
  destruct (gdb_write_memory (example_gframe 0 0) example_gdb
    (bytes_of "8,3:A}]}" ++ [3; 35; 0]) 8 [0x41; 0x7d; 0x23] [35; 0])
    as (g' & m & E & A & Hst & _).
  - apply example_gdb_ready.
  - repeat apply Forall_cons_2; try apply Forall_nil_2; by split.
  - split; [discriminate | reflexivity].
  - vm_compute. discriminate.
  - vm_compute. reflexivity.
  - vm_compute. reflexivity.
  - exists g', m. split; [exact E|]. split; [exact Hst|]. rewrite A. reflexivity.
Defined.

Lemma gdb_write_memory_bounds_witness :
  write_memory_binary (example_gframe 0 0) (bytes_of "3f,2:AB" ++ [0]) example_gdb =
  Fault OutOfBounds.
Proof.
  destruct (gdb_write_memory_bounds (example_gframe 0 0) example_gdb
    (bytes_of "3f,2:AB" ++ [0]) 63 [65; 66] [0]) as [H _].
  - apply example_gdb_ready.
  - repeat apply Forall_cons_2; try apply Forall_nil_2; by split.
  - discriminate.
  - vm_compute. reflexivity.
  - vm_compute. reflexivity.
  - apply H. split; reflexivity.
Defined.

Lemma gdb_read_memory_witness :
  exists g', read_memory (example_gframe 0 0) (bytes_of "0,4" ++ [0]) example_gdb =
      Ok () g' /\ g_out g' = bytes_of "$e3a0100a#1b".
Proof.
  destruct (gdb_read_memory (example_gframe 0 0) example_gdb (bytes_of "0,4" ++ [0]) 0 4)
    as [H _].
  - apply example_gdb_ready.
  - discriminate.
  - vm_compute. discriminate.
  - vm_compute. reflexivity.
  - destruct H as (g' & E & _ & O); [lia|]. exists g'. split; [exact E|].
    rewrite O. vm_compute. reflexivity.
Defined.

(** The registers 0, 4, ..., 60 and a CPSR, the words in between being x. *)
Definition example_registers : list Z := (fun i => 4 * Z.of_nat i) <$> seq 0 16.

Lemma gdb_registers_roundtrip_witness :
  exists g', (write_general_registers (T := x86) (example_gframe 0 0)
                (words (T := x86) example_registers ++ replicate 200 120
                   ++ word_text (T := x86) 0x1d3 ++ [0]);;
              read_general_registers (T := x86)) example_gdb = Ok () g' /\
    gpr (g_arm g') 15 = 60 /\
    g_out g' = bytes_of "$OK#9a" ++ framed (registers_text (T := x86) example_registers 0x1d3).
Proof.
  destruct (gdb_registers_roundtrip (T := x86) (example_gframe 0 0) example_gdb
    example_registers (replicate 200 120) 0x1d3 [0] []) as (_ & g' & E & A & O).
  - apply example_gdb_ready.
  - reflexivity.
  - unfold example_registers. apply Forall_fmap, Forall_seq. intros j Hj.
    simpl. unfold is_u32. lia.
  - by split.
  - intros pc [= <-]. reflexivity.
  - apply Forall_replicate. by split.
  - apply length_replicate.
  - reflexivity.
  - exists g'. split; [exact E|]. rewrite A, O. split; reflexivity.
Defined.
