(* ===== verification/Isa.v ===== *)
(** * The instruction set as a specification

    [isa_step] is one instruction of the ARM manual, for the subset the
    decoder implements: the condition, the data-processing instructions that
    leave the flags alone (S bit clear) with an immediate operand or a register
    shifted left by an immediate, B and BL.  [None] is what the specification
    leaves out.  The registers and the memory are finite maps; r15 holds the
    address of the current instruction, so an instruction reads it as 8 more.

    [abs] is the abstraction function from the processor of the C code. *)
From stdpp Require Import gmap.
From S2P Require Import Prelude Util Constants Memory Registers Trace Core Run.
From S2P Require Import ArmSpec.

Record isa := {
  i_reg : gmap Z Z;
  i_cpsr : Z;
  i_mem : gmap Z Z;
  i_big : bool
}.

Definition isa_set (r v : Z) (x : isa) : isa := {|
  i_reg := <[r := v]> (i_reg x); i_cpsr := i_cpsr x; i_mem := i_mem x;
  i_big := i_big x |}.

Definition isa_word (x : isa) (a : Z) : option Z :=
  b0 ← i_mem x !! a; b1 ← i_mem x !! (a + 1);
  b2 ← i_mem x !! (a + 2); b3 ← i_mem x !! (a + 3);
  Some (field_value (i_big x) [b0; b1; b2; b3]).

Definition isa_fetch (x : isa) : option Z := a ← i_reg x !! 15; isa_word x a.

(** A register as an instruction at address [a] reads it. *)
Definition isa_get (x : isa) (a r : Z) : option Z :=
  if r =? 15 then Some ((a + 8) mod 2 ^ 32) else i_reg x !! r.

Definition isa_operand (x : isa) (a w : Z) : option Z :=
  if Z.testbit w 25 then Some (immediate_operand w)
  else if field w 6 4 =? 0 then
    rm ← isa_get x a (field w 3 0); Some (lsl_operand w rm)
  else None.

Definition isa_carry (x : isa) : Z := Z.b2z (flag_C (i_cpsr x)).

(** Data processing with the S bit clear. *)
Definition isa_plain (w : Z) : bool :=
  (field w 27 26 =? 0) && negb (Z.testbit w 20) && negb (field w 24 23 =? 2).

(** The instruction [w] at address [a], its condition being true. *)
Definition isa_execute (a w : Z) (x : isa) : option isa :=
  let next := isa_set 15 ((a + 4) mod 2 ^ 32) x in
  if isa_plain w then
    rn ← isa_get x a (field w 19 16);
    b ← isa_operand x a w;
    v ← dp_result (field w 24 21) rn b (isa_carry x);
    Some (isa_set (field w 15 12) v next)
  else if field w 27 25 =? 5 then
    let next := if Z.testbit w 24 then isa_set 14 (link_value a) next else next in
    Some (isa_set 15 (branch_target w a) next)
  else None.

Definition isa_step (x : isa) : option isa :=
  a ← i_reg x !! 15;
  w ← isa_word x a;
  if negb (a mod 4 =? 0) || (field w 31 28 =? 15) then None
  else if condition_holds (field w 31 28) (i_cpsr x) then isa_execute a w x
  else Some (isa_set 15 ((a + 4) mod 2 ^ 32) x).

(** The instructions on which the C code follows the manual: not the condition
    LS, BIC, MVN, a shifted register or the link of BL. *)
Definition supported (w : Z) : bool :=
  negb (field w 31 28 =? 9) &&
  (if field w 27 26 =? 0 then
     (Z.testbit w 25 || (field w 11 4 =? 0)) &&
     negb (field w 24 21 =? 14) && negb (field w 24 21 =? 15)
   else negb (Z.testbit w 24)).
Definition isa_supported (x : isa) : bool :=
  match isa_fetch x with Some w => supported w | None => false end.

(** [n] steps, through supported instructions only. *)
Fixpoint isa_run (n : nat) (x : isa) : option isa :=
  match n with
  | O => Some x
  | Datatypes.S n => if isa_supported x then isa_step x ≫= isa_run n else None
  end.

(** ** The abstraction *)

Definition abs (p : arm_core_data) : isa := {|
  i_reg := map_seqZ 0 (take 16 (r_data (reg p)));
  i_cpsr := cpsr_of p;
  i_mem := map_seqZ 0 (mem_address (mem p));
  i_big := big (mem p) |}.

Lemma lookup_seqZ (l : list Z) (i : Z) :
  (map_seqZ 0 l : gmap Z Z) !! i = buf_get l i.
Proof.
  rewrite lookup_map_seqZ. unfold buf_get, in_block. rewrite Z.sub_0_r.
  destruct (Z.leb_spec 0 i); cbn [andb].
  - rewrite option_guard_True by lia.
    destruct (Z.ltb_spec i (Z.of_nat (length l))); [done|].
    by apply lookup_ge_None_2; lia.
  - by rewrite option_guard_False by lia.
Qed.

Lemma abs_mem p a : i_mem (abs p) !! a = byte_at (mem p) a.
Proof. apply lookup_seqZ. Qed.

Lemma abs_word p a : isa_word (abs p) a = word_at (mem p) a.
Proof. unfold isa_word. by rewrite !abs_mem. Qed.

Lemma abs_reg p r :
  has_regs p -> i_reg (abs p) !! r =
    if (0 <=? r) && (r <? 16) then Some (gpr p r) else None.
Proof.
  intros Hp. simpl. rewrite lookup_seqZ. unfold buf_get, in_block.
  rewrite length_take, Hp. change (16 `min` 18)%nat with 16%nat.
  change (Z.of_nat 16) with 16.
  destruct (Z.leb_spec 0 r), (Z.ltb_spec r 16); try done. cbn [andb].
  rewrite lookup_take_lt by lia.
  pose proof (reg_get (reg p) r Hp ltac:(lia)) as E.
  unfold buf_get in E. destruct (in_block _ _); [by rewrite E | done].
Qed.

Lemma abs_set_gpr p r v :
  has_regs p -> 0 <= r < 16 -> abs (set_gpr r v p) = isa_set r v (abs p).
Proof.
  intros Hp Hr. unfold isa_set.
  assert (i_reg (abs (set_gpr r v p)) = <[r := v]> (i_reg (abs p))) as E.
  { apply map_eq. intros j. rewrite abs_reg by (by apply has_regs_set).
    rewrite gpr_set_gpr by (done || lia).
    destruct (Z.eqb_spec j r) as [->|Hne].
    - rewrite lookup_insert_eq. destruct (Z.leb_spec 0 r), (Z.ltb_spec r 16);
        (done || lia).
    - by rewrite lookup_insert_ne, abs_reg. }
  rewrite <- E. unfold abs. simpl. f_equal.
  unfold cpsr_of. by rewrite gpr_set_ne by (done || lia).
Qed.

Lemma abs_cycle c p : abs (with_cycle c p) = abs p.
Proof. done. Qed.

Lemma abs_regs_eq p r :
  has_regs p -> 0 <= r < 16 -> i_reg (abs p) !! r = Some (gpr p r).
Proof.
  intros Hp Hr. rewrite abs_reg by done.
  destruct (Z.leb_spec 0 r), (Z.ltb_spec r 16); (done || lia).
Qed.
