(* ===== verification/Steps.v ===== *)
(** * Theorems about one step of the simulator, and about programs

    The step is [arm_step] of arm_instruction.c on the whole state [sim], with
    its trace; the frame [fr] is arbitrary except where a theorem says what it
    needs of it. *)
From stdpp Require Import gmap.
From S2P Require Import Prelude Util Constants Memory Registers Trace Core.
From S2P Require Import Refine LoadStore Branch Instruction Run Invariant.
From S2P Require Import ArmSpec Correct Execute Isa.

(** The state a step ends in, its processor being [p]. *)
Definition stepped (s s' : sim) (p : arm_core_data) : Prop :=
  s_arm s' = p /\ evolves 0 s s' /\ ready 2 s' /\ core_wf p.

Section Steps.
Context `{T : Target}.

(** The simulator's step from the step of the architecture. *)
Lemma sim_step fr s p :
  ready 2 s -> core_wf (s_arm s) ->
  arm_step (M := Arch) fr (s_arm s) = Ok 0 p ->
  exists s', arm_step (M := Sim) fr s = Ok 0 s' /\ stepped s s' p.
Proof.
  intros Hs Hw E. pose proof (traced_step fr s Hs) as H.
  pose proof (step_inv_preserved True _ _ _ fr _ (core_wf_inv _ Hw)
    (or_introl I)) as Hi.
  rewrite E in H, Hi. destruct H as (s' & Es & Ea & Hev). exists s'.
  split; [exact Es|]. split; [exact Ea|]. split; [exact Hev|].
  split; [by eapply ready_evolves | apply Hi].
Qed.

(** The fetch of a word, in front of its execution. *)
Lemma fetched_step fr s w p :
  ready 2 s -> core_wf (s_arm s) ->
  word_at (mem (s_arm s)) (fetch_address (s_arm s)) = Some w ->
  execute_fetched (M := Arch) fr (s32 w) w (after_fetch (s_arm s)) = Ok 0 p ->
  exists s', arm_step (M := Sim) fr s = Ok 0 s' /\ stepped s s' p.
Proof.
  intros Hs Hw Hword E. apply sim_step; [exact Hs | exact Hw|].
  by rewrite (arch_step fr _ w Hw Hword).
Qed.

Lemma after_fetch_cpsr p : has_regs p -> cpsr_of (after_fetch p) = cpsr_of p.
Proof.
  intros Hp. unfold cpsr_of, after_fetch.
  rewrite gpr_set_ne by (done || lia). done.
Qed.

Lemma after_fetch_mem p : mem (after_fetch p) = mem p.
Proof. done. Qed.

Lemma class_field w k :
  field w 27 26 = k ->
  (field w 27 26 =? 0) = (k =? 0) /\ (field w 27 26 =? 1) = (k =? 1) /\
  (field w 27 26 =? 2) = (k =? 2).
Proof. by intros ->. Qed.

(** A data-processing instruction whose condition holds. *)
Lemma dp_step fr s w b :
  ShiftBy32 -> ready 2 s -> core_wf (s_arm s) ->
  word_at (mem (s_arm s)) (fetch_address (s_arm s)) = Some w ->
  is_data_processing w = true -> 0 <= field w 31 28 < 15 ->
  code_condition (field w 31 28) (cpsr_of (s_arm s)) = true ->
  let p := after_fetch (s_arm s) in
  operand_of fr w p = Some b ->
  exists s', arm_step (M := Sim) fr s = Ok 0 s' /\
    stepped s s' (set_result (field w 15 12)
      (code_result (field w 24 21) (gpr_view p (field w 19 16)) b (carry_of p)) p).
Proof.
  intros HT Hs Hw Hword Hd Hc Hcond p Hb.
  pose proof (after_fetch_wf _ Hw) as Hp. pose proof (wf_has_regs _ Hw) as Hl.
  apply (fetched_step fr s w); [exact Hs | exact Hw | exact Hword|].
  rewrite run_execute_fetched; [|exact Hp | by eapply word_at_u32; [apply Hw|]].
  pose proof Hd as Hd'. unfold is_data_processing in Hd'.
  apply andb_true_iff in Hd' as [-> _].
  rewrite (run_execute_data_processing fr w _ b HT Hp); try assumption.
  - reflexivity.
  - by eapply word_at_u32; [apply Hw|].
  - by rewrite after_fetch_cpsr.
Qed.

(** A branch whose condition holds. *)
Lemma branch_step fr s w :
  ready 2 s -> core_wf (s_arm s) ->
  word_at (mem (s_arm s)) (fetch_address (s_arm s)) = Some w ->
  field w 27 25 = 5 -> 0 <= field w 31 28 < 15 ->
  code_condition (field w 31 28) (cpsr_of (s_arm s)) = true ->
  exists s', arm_step (M := Sim) fr s = Ok 0 s' /\
    stepped s s' (branch_result w (after_fetch (s_arm s))).
Proof.
  intros Hs Hw Hword H5 Hc Hcond.
  pose proof (after_fetch_wf _ Hw) as Hp. pose proof (wf_has_regs _ Hw) as Hl.
  destruct (branch_class w H5) as [Hk H25].
  apply (fetched_step fr s w); [exact Hs | exact Hw | exact Hword|].
  rewrite run_execute_fetched; [|exact Hp | by eapply word_at_u32; [apply Hw|]].
  rewrite Hk. cbn [Z.eqb Pos.eqb].
  rewrite (run_execute_branch fr w _ Hp Hc); [reflexivity| |exact H25].
  by rewrite after_fetch_cpsr.
Qed.

(** A false condition, when the missing return value is 0. *)
Lemma skipped_step fr s w :
  ready 2 s -> core_wf (s_arm s) ->
  word_at (mem (s_arm s)) (fetch_address (s_arm s)) = Some w ->
  0 <= field w 31 28 < 15 ->
  code_condition (field w 31 28) (cpsr_of (s_arm s)) = false -> fr_cond fr = 0 ->
  exists s', arm_step (M := Sim) fr s = Ok 0 s' /\
    stepped s s' (after_fetch (s_arm s)).
Proof.
  intros Hs Hw Hword Hc Hcond H0.
  apply (fetched_step fr s w); [exact Hs | exact Hw | exact Hword|].
  apply execute_skipped; [by apply after_fetch_wf | by eapply word_at_u32; [apply Hw|]
    | exact Hc | | exact H0].
  rewrite after_fetch_cpsr by (by apply wf_has_regs). exact Hcond.
Qed.

(** ** The specification *)

Lemma fetch_at p a :
  core_wf p -> i_reg (abs p) !! 15 = Some a -> a mod 4 = 0 ->
  gpr p 15 = a /\ fetch_address p = a /\
  abs (after_fetch p) = isa_set 15 ((a + 4) mod 2 ^ 32) (abs p) /\
  forall r, 0 <= r < 16 ->
    isa_get (abs p) a r = Some (gpr_view (after_fetch p) r).
Proof.
  intros Hw Ha Hm. pose proof (wf_has_regs p Hw) as Hl.
  rewrite abs_regs_eq in Ha by (done || lia). injection Ha as <-.
  assert (is_u32 (gpr p 15)) as Hu by (by apply reg_value_u32, wf_regs).
  pose proof (fetch_address_aligned p Hu Hm) as Hf. split; [done|]. split; [done|].
  unfold after_fetch. rewrite Hf. split.
  - by rewrite abs_set_gpr, abs_cycle by (done || lia).
  - intros r Hr. unfold isa_get, gpr_view. rewrite gpr_set_gpr by (done || lia).
    destruct (Z.eqb_spec r 15) as [->|Hne].
    + rewrite pc_view_aligned; [|apply u32_range|].
      * rewrite u32_add_l. unfold u32, wrap. f_equal. f_equal. lia.
      * rewrite u32_mod_4. by rewrite <- Z.add_mod_idemp_l, Hm by lia.
    + rewrite abs_regs_eq by (done || lia). unfold pc_view.
      by rewrite (proj2 (Z.eqb_neq r 15) Hne).
Qed.

Lemma operand_isa fr p a w b :
  core_wf p -> i_reg (abs p) !! 15 = Some a -> a mod 4 = 0 ->
  isa_operand (abs p) a w = Some b ->
  Z.testbit w 25 || (field w 11 4 =? 0) = true ->
  operand_of fr w (after_fetch p) = Some b.
Proof.
  intros Hw Ha Hm Hb Hs. destruct (fetch_at p a Hw Ha Hm) as (_ & _ & _ & Hget).
  unfold isa_operand in Hb. unfold operand_of. cbv zeta.
  destruct (Z.testbit w 25); [done|]. cbn [orb] in Hs.
  apply Z.eqb_eq in Hs. destruct (field_split w 11 7 4) as [H0 H1]; [lia..|done|].
  change (7 - 1) with 6 in H0. rewrite H0 in Hb |- *. cbn [Z.eqb] in *.
  rewrite Hget in Hb by (by apply field_4_range). injection Hb as <-.
  destruct (negb _); [|done]. f_equal.
  unfold lsl_operand. rewrite H1, Z.mul_1_r. symmetry.
  apply Z.mod_small. by apply gpr_view_u32, after_fetch_wf.
Qed.

Lemma branch_offset_target w a :
  u32 ((a + 8) mod 2 ^ 32 + branch_offset w) = branch_target w a.
Proof.
  unfold branch_target, branch_offset, field. cbv zeta.
  change (2 ^ 0) with 1. rewrite Z.div_1_r. change (23 - 0 + 1) with 24.
  rewrite u32_mod, u32_add_l.
  rewrite (Z.add_comm (a + 8)), u32_add_l. rewrite <- u32_mod. f_equal. lia.
Qed.

(** The state of the simulator and a state of the specification. *)
Definition implements (s : sim) (x : isa) : Prop :=
  ready 2 s /\ core_wf (s_arm s) /\ abs (s_arm s) = x.

Lemma implements_stepped s s' p x :
  stepped s s' p -> abs p = x -> implements s' x.
Proof. by intros (<- & _ & ? & ?) <-. Qed.

(** A data-processing instruction the decoder gets right. *)
Lemma implements_plain fr s w a x' :
  ShiftBy32 -> ready 2 s -> core_wf (s_arm s) ->
  i_reg (abs (s_arm s)) !! 15 = Some a -> a mod 4 = 0 ->
  word_at (mem (s_arm s)) a = Some w ->
  0 <= field w 31 28 < 15 -> supported w = true -> isa_plain w = true ->
  code_condition (field w 31 28) (cpsr_of (s_arm s)) = true ->
  isa_execute a w (abs (s_arm s)) = Some x' ->
  exists s', arm_step (M := Sim) fr s = Ok 0 s' /\ implements s' x'.
Proof.
  intros HT Hs Hw Ea Hm Ew Hc Hsup Hd Hcond E.
  destruct (fetch_at _ a Hw Ea Hm) as (_ & Hf & Habs & Hget).
  pose proof (wf_has_regs _ Hw) as Hl.
  unfold isa_execute in E. cbv zeta in E. rewrite Hd, <- Habs in E.
  unfold isa_plain in Hd. rewrite !andb_true_iff in Hd. destruct Hd as [[Hk _] H23].
  unfold supported in Hsup. rewrite Hk, !andb_true_iff in Hsup.
  destruct Hsup as [_ [[Hop H14] H15]].
  rewrite Hget in E by (by apply field_4_range). cbn [mbind option_bind] in E.
  destruct (isa_operand _ _ _) as [b|] eqn:Eb; [|done]. cbn [mbind option_bind] in E.
  rewrite <- Hf in Ew.
  destruct (dp_step fr s w b) as (s' & Es & Hst); try assumption.
  { unfold is_data_processing. rewrite Hk. by destruct (field w 24 23 =? 2). }
  { by eapply operand_isa. }
  exists s'. split; [exact Es|]. eapply implements_stepped; [exact Hst|].
  unfold code_result. rewrite (proj1 (negb_true_iff _) H14).
  rewrite (proj1 (negb_true_iff _) H15).
  unfold carry_of. rewrite after_fetch_cpsr by exact Hl.
  change (Z.b2z _) with (isa_carry (abs (s_arm s))).
  destruct (dp_result _ _ _ _) as [v|]; [|done]. injection E as <-.
  apply abs_set_gpr; [by apply has_regs_fetch | by apply field_4_range].
Qed.

(** A branch without link. *)
Lemma implements_branch fr s w a x' :
  ready 2 s -> core_wf (s_arm s) ->
  i_reg (abs (s_arm s)) !! 15 = Some a -> a mod 4 = 0 ->
  word_at (mem (s_arm s)) a = Some w ->
  0 <= field w 31 28 < 15 -> supported w = true -> isa_plain w = false ->
  code_condition (field w 31 28) (cpsr_of (s_arm s)) = true ->
  isa_execute a w (abs (s_arm s)) = Some x' ->
  exists s', arm_step (M := Sim) fr s = Ok 0 s' /\ implements s' x'.
Proof.
  intros Hs Hw Ea Hm Ew Hc Hsup Hd Hcond E.
  destruct (fetch_at _ a Hw Ea Hm) as (_ & Hf & Habs & Hget).
  pose proof (has_regs_fetch _ (wf_has_regs _ Hw)) as Hl'.
  unfold isa_execute in E. cbv zeta in E. rewrite Hd, <- Habs in E.
  destruct (Z.eqb_spec (field w 27 25) 5) as [H5|]; [|done].
  destruct (branch_class w H5) as [Hk _].
  unfold supported in Hsup. rewrite Hk in Hsup. apply andb_true_iff in Hsup as [_ Hsup].
  cbn [Z.eqb Pos.eqb] in Hsup. rewrite <- Hf in Ew.
  destruct (branch_step fr s w) as (s' & Es & Hst); try assumption.
  exists s'. split; [exact Es|]. eapply implements_stepped; [exact Hst|].
  unfold branch_result.
  destruct (Z.testbit w 24); [done|]. injection E as <-.
  rewrite abs_set_gpr by (exact Hl' || lia). f_equal.
  specialize (Hget 15 ltac:(lia)). injection Hget as <-.
  apply branch_offset_target.
Qed.

Lemma implements_step fr s x x' :
  ShiftBy32 -> fr_cond fr = 0 -> implements s x ->
  isa_supported x = true -> isa_step x = Some x' ->
  exists s', arm_step (M := Sim) fr s = Ok 0 s' /\ implements s' x'.
Proof.
  intros HT H0 (Hs & Hw & <-) Hsup E. unfold isa_supported, isa_fetch in Hsup.
  unfold isa_step in E.
  destruct (i_reg (abs (s_arm s)) !! 15) as [a|] eqn:Ea; [|done].
  cbn [mbind option_bind] in E, Hsup. rewrite abs_word in E, Hsup.
  destruct (word_at (mem (s_arm s)) a) as [w|] eqn:Ew; [|done].
  cbn [mbind option_bind] in E.
  destruct (Z.eqb_spec (a mod 4) 0) as [Hm|]; [|done].
  destruct (Z.eqb_spec (field w 31 28) 15) as [|Hc15]; [done|]. cbn [negb orb] in E.
  assert (0 <= field w 31 28 < 15) as Hc
    by (pose proof (field_4_range w 31 28 eq_refl); lia).
  change (i_cpsr (abs (s_arm s))) with (cpsr_of (s_arm s)) in E.
  rewrite <- code_condition_spec in E
    by (intros E9; unfold supported in Hsup; rewrite E9 in Hsup; discriminate).
  destruct (code_condition _ _) eqn:Hcond.
  - destruct (isa_plain w) eqn:Hd.
    + by apply (implements_plain fr s w a).
    + by apply (implements_branch fr s w a).
  - injection E as <-.
    destruct (fetch_at _ a Hw Ea Hm) as (_ & Hf & Habs & _). rewrite <- Hf in Ew.
    destruct (skipped_step fr s w) as (s' & Es & Hst); try assumption.
    exists s'. split; [exact Es|]. by eapply implements_stepped.
Qed.
End Steps.
