(* ===== verification/Theorems.v ===== *)
(** * Properties of the instruction execution

    The theorems about [arm_step] on the simulator: refinement of the
    instruction set specification of Isa.v for the instructions the decoder
    gets right, and what the other ones do. *)
From stdpp Require Import gmap.
From S2P Require Import Prelude Util Constants Memory Registers Trace Core.
From S2P Require Import Refine LoadStore Branch Instruction Run Invariant.
From S2P Require Import ArmSpec Correct Execute Examples Isa Steps.

(** [arm_step] called once for each frame, as the [cont] loop of
    gdb_protocol.c calls it. *)
Fixpoint run_steps `{T : Target} (frs : list frame) : Sim unit :=
  match frs with
  | [] => mret ()
  | fr :: frs => arm_step fr;; run_steps frs
  end.

Section Programs.
Context `{T : Target}.

(** C1. One step implements the instruction set: from every state of the
    simulator whose processor abstracts to [x], if the specification executes
    the instruction at the program counter and it is one of the supported ones,
    [arm_step] returns 0 and leaves a processor that abstracts to the state the
    specification gives.  The uninitialised variables do not matter, but for
    the value [ConditionPassed] delivers for a false condition, where it falls off
    its end: that must be 0 ([fr_cond]).  A left shift by 32 must deliver its
    operand or 0, as processors do ([ShiftBy32]). *)
Theorem step_refines_isa fr s x x' :
  ShiftBy32 -> fr_cond fr = 0 -> implements s x ->
  isa_supported x = true -> isa_step x = Some x' ->
  exists s', arm_step (M := Sim) fr s = Ok 0 s' /\ implements s' x'.
Proof. apply implements_step. Qed.

(** C2. Programs implement the instruction set: any number of supported
    instructions, through branches and loops, runs on the simulator to a state
    that abstracts to the one the specification reaches.  As for one step, the
    value a false condition delivers must be 0 in each ([fr_cond]), and a left
    shift by 32 must deliver its operand or 0 ([ShiftBy32]). *)
Theorem program_refines_isa frs s x x' :
  ShiftBy32 -> Forall (fun fr => fr_cond fr = 0) frs -> implements s x ->
  isa_run (length frs) x = Some x' ->
  exists s', run_steps frs s = Ok () s' /\ implements s' x'.
Proof.
  intros HT Hfr. revert s x. induction Hfr as [|fr frs H0 _ IH]; intros s x Hs E.
  - injection E as <-. by exists s.
  - simpl in E. destruct (isa_supported x) eqn:Hsup; [|discriminate].
    destruct (isa_step x) as [x1|] eqn:E1; [|discriminate].
    destruct (implements_step fr s x x1 HT H0 Hs Hsup E1) as (s1 & Es & Hs1).
    destruct (IH s1 x1 Hs1 E) as (s' & Es' & Hs'). exists s'.
    split; [|exact Hs']. simpl. by rewrite (bind_ok _ _ _ _ _ Es).
Qed.
End Programs.

Lemma example_implements :
  implements (example_sim 0 0x1d3 example_program)
    (abs (example_core 0 0x1d3 example_program)).
Proof.
  split; [apply example_ready|]. split; [apply example_program_wf | reflexivity].
Qed.

Lemma step_refines_isa_witness :
  exists x' s', isa_step (abs (example_core 0 0x1d3 example_program)) = Some x' /\
    i_reg x' !! 1 = Some 10 /\
    arm_step (T := x86) (M := Sim) (frame_of 7 7 0)
      (example_sim 0 0x1d3 example_program) = Ok 0 s' /\ implements s' x'.
Proof.
  assert (exists x', isa_step (abs (example_core 0 0x1d3 example_program)) = Some x' /\
    i_reg x' !! 1 = Some 10) as (x' & E & H1)
    by (eexists; split; vm_compute; reflexivity).
  destruct (step_refines_isa (T := x86) (frame_of 7 7 0)
    (example_sim 0 0x1d3 example_program) _ x' x86_shift_by_32 eq_refl
    example_implements ltac:(by vm_compute) E) as (s' & Es & Hs).
  exists x', s'. repeat (split; [assumption|]). assumption.
Defined.

Lemma program_refines_isa_witness :
  exists s', run_steps (T := x86) (replicate 8 (frame_of 1 1 0))
      (example_sim 0 0x1d3 example_program) = Ok () s' /\
    i_reg (abs (s_arm s')) !! 3 = Some 30 /\ i_reg (abs (s_arm s')) !! 15 = Some 8.
Proof.
  assert (exists x', isa_run 8 (abs (example_core 0 0x1d3 example_program)) = Some x' /\
    i_reg x' !! 3 = Some 30 /\ i_reg x' !! 15 = Some 8) as (x' & E & H3 & H15)
    by (eexists; split; [|split]; vm_compute; reflexivity).
  destruct (program_refines_isa (T := x86) (replicate 8 (frame_of 1 1 0))
    (example_sim 0 0x1d3 example_program) _ x' x86_shift_by_32
    ltac:(by repeat constructor) example_implements E) as (s' & Es & _ & _ & <-).
  exists s'. split; [assumption|]. split; assumption.
Defined.

(** ** Data processing and conditions *)

(** [fetches s w]: the next instruction of the processor is [w], and its
    condition holds (AL or a true test other than LS). *)
Record fetches (s : sim) (w : Z) : Prop := {
  f_ready : ready 2 s;
  f_wf : core_wf (s_arm s);
  f_word : word_at (mem (s_arm s)) (fetch_address (s_arm s)) = Some w;
  f_cond : 0 <= field w 31 28 < 15;
  f_not_ls : field w 31 28 <> 9;
  f_holds : condition_holds (field w 31 28) (cpsr_of (s_arm s)) = true
}.

Section DataProcessing.
Context `{T : Target}.

Lemma fetches_code s w :
  fetches s w -> code_condition (field w 31 28) (cpsr_of (s_arm s)) = true.
Proof. intros Hf. rewrite code_condition_spec by apply Hf. apply Hf. Qed.

Lemma dp_fetched fr s w b :
  ShiftBy32 -> fetches s w -> is_data_processing w = true ->
  let p := after_fetch (s_arm s) in
  operand_of fr w p = Some b ->
  exists s', arm_step (M := Sim) fr s = Ok 0 s' /\
    stepped s s' (set_result (field w 15 12)
      (code_result (field w 24 21) (gpr_view p (field w 19 16)) b (carry_of p)) p).
Proof.
  intros HT Hf Hd p Hb. pose proof (fetches_code s w Hf).
  destruct Hf. by apply dp_step.
Qed.

(** C3. The data-processing instructions: fourteen of the sixteen operations
    compute the result of the manual on the operand the code forms, write it
    to their destination and nothing else; the four comparisons change only
    the program counter.  The operand is the manual's for immediates and for
    LSL by an immediate; see [operand_of] for what the uninitialised variables
    and the register numbers make of the others. *)
Theorem data_processing_step fr s w b :
  ShiftBy32 -> fetches s w -> is_data_processing w = true ->
  field w 24 21 <> 14 -> field w 24 21 <> 15 ->
  let p := after_fetch (s_arm s) in
  operand_of fr w p = Some b ->
  exists s', arm_step (M := Sim) fr s = Ok 0 s' /\
    s_arm s' = match dp_result (field w 24 21) (gpr_view p (field w 19 16)) b
                       (Z.b2z (flag_C (cpsr_of p))) with
               | Some v => set_gpr (field w 15 12) v p
               | None => p
               end.
Proof.
  intros HT Hf Hd H14 H15 p Hb.
  destruct (dp_fetched fr s w b HT Hf Hd Hb) as (s' & Es & Ea & _).
  exists s'. split; [exact Es|]. rewrite Ea. unfold code_result.
  destruct (Z.eqb_spec (field w 24 21) 14); [done|].
  by destruct (Z.eqb_spec (field w 24 21) 15).
Qed.

(** C22. BIC and MVN are wrong: the C code negates the operand with [!], so
    MVN writes 1 or 0 and BIC keeps at most bit 0 of the first operand.  MVN
    is right only when the operand is 0xFFFFFFFF. *)
Theorem bic_mvn_step fr s w b :
  ShiftBy32 -> fetches s w -> is_data_processing w = true ->
  14 <= field w 24 21 ->
  let p := after_fetch (s_arm s) in
  let rn := gpr_view p (field w 19 16) in
  let written := if field w 24 21 =? 14 then Z.land rn (c_not b) else c_not b in
  operand_of fr w p = Some b ->
  (exists s', arm_step (M := Sim) fr s = Ok 0 s' /\
     s_arm s' = set_gpr (field w 15 12) written p) /\
  (written = 0 \/ written = 1) /\
  (field w 24 21 = 15 ->
     (dp_result 15 rn b (carry_of p) = Some written <-> b = 0xFFFFFFFF)).
Proof.
  intros HT Hf Hd Hop p rn written Hb.
  pose proof (field_4_range w 24 21 eq_refl) as Hr.
  pose proof (operand_of_u32 fr w p b (after_fetch_wf _ (f_wf _ _ Hf)) Hb) as Hu.
  assert (c_not b = 0 \/ c_not b = 1) as Hn
    by (unfold c_not; destruct (b =? 0); auto).
  split; [|split].
  - destruct (dp_fetched fr s w b HT Hf Hd Hb) as (s' & Es & Ea & _).
    exists s'. split; [exact Es|]. rewrite Ea. unfold code_result, written.
    destruct (Z.eqb_spec (field w 24 21) 14); [done|].
    destruct (Z.eqb_spec (field w 24 21) 15); [done|lia].
  - unfold written. destruct (_ =? 14); [|exact Hn].
    destruct Hn as [-> | ->]; [left; apply Z.land_0_r|].
    pose proof (Z.land_ones rn 1 ltac:(lia)) as E1.
    change (Z.ones 1) with 1 in E1. change (2 ^ 1) with 2 in E1. rewrite E1.
    pose proof (Z.mod_pos_bound rn 2). lia.
  - intros E. unfold written. rewrite E. cbn [Z.eqb Pos.eqb dp_result].
    unfold c_not, is_u32 in *. split.
    + intros [= H]. destruct (Z.eqb_spec b 0); lia.
    + intros ->. done.
Qed.

(** C21. [ConditionPassed] changes nothing but the output and decides thirteen
    of the fifteen conditions as the manual does, AL included; LS passes only
    when C is clear AND Z is set.  A false test falls off the end of the
    function: its value is what the caller finds. *)
Theorem condition_passed_spec fr cond s :
  ready 1 s -> 0 <= cond < 15 ->
  let cpsr := cpsr_of (s_arm s) in
  exists x s', ConditionPassed (M := Sim) fr cond s = Ok x s' /\
    s_arm s' = s_arm s /\
    (cond <> 9 -> condition_holds cond cpsr = true -> c_true x = true) /\
    (cond <> 9 -> condition_holds cond cpsr = false -> x = fr_cond fr) /\
    (cond = 9 -> condition_holds cond cpsr = false -> x = fr_cond fr) /\
    (cond = 9 -> xorb (flag_C cpsr) (flag_Z cpsr) = false ->
       condition_holds cond cpsr = true /\ x = fr_cond fr).
Proof.
  intros Hs Hc cpsr. pose proof (refines_ConditionPassed 0 fr cond s Hs) as H.
  rewrite run_ConditionPassed in H by (exact Hc || apply Hs).
  destruct H as (s' & E & Ea & _). eexists _, s'.
  split; [exact E|]. split; [exact Ea|]. fold cpsr. unfold code_condition.
  split; [|split; [|split]].
  - intros Hn Hh. destruct (Z.eqb_spec cond 9); [done|]. rewrite Hh.
    by destruct (cond =? 14).
  - intros Hn Hh. destruct (Z.eqb_spec cond 9); [done|]. by rewrite Hh.
  - intros -> Hh. cbn [Z.eqb Pos.eqb]. unfold condition_holds in Hh.
    by destruct (flag_C cpsr), (flag_Z cpsr).
  - intros -> Hx. cbn [Z.eqb Pos.eqb]. unfold condition_holds.
    destruct (flag_C cpsr), (flag_Z cpsr); try discriminate; auto.
Qed.
End DataProcessing.

(** [fetches], decided by evaluation. *)
Definition fetches_dec (s : sim) (w : Z) : bool :=
  core_wf_dec (s_arm s) &&
  bool_decide (word_at (mem (s_arm s)) (fetch_address (s_arm s)) = Some w) &&
  (field w 31 28 <? 15) && negb (field w 31 28 =? 9) &&
  condition_holds (field w 31 28) (cpsr_of (s_arm s)).

Lemma example_fetches pc cpsr ws w :
  fetches_dec (example_sim pc cpsr ws) w = true ->
  fetches (example_sim pc cpsr ws) w.
Proof.
  unfold fetches_dec. rewrite !andb_true_iff. intros [[[[Hw Hf] Hc] Hn] Hh].
  apply bool_decide_eq_true in Hf. pose proof (field_4_range w 31 28 eq_refl).
  split; [apply example_ready | by apply core_wf_decided | exact Hf | | |exact Hh].
  - lia.
  - intros E. by rewrite E in Hn.
Qed.

(** EORS r3,r1,r2; MVN r3,#0; ADD r0,r1,r0,LSL #8. *)
Lemma data_processing_step_witness :
  exists s', arm_step (T := x86) (M := Sim) (frame_of 0 0 0)
      (example_sim 0 0x1d3 [0xE0313002]) = Ok 0 s' /\
    s_arm s' = set_gpr 3 30 (after_fetch (example_core 0 0x1d3 [0xE0313002])).
Proof.
  destruct (data_processing_step (T := x86) (frame_of 0 0 0)
    (example_sim 0 0x1d3 [0xE0313002]) 0xE0313002 20 x86_shift_by_32)
    as (s' & E & Ea).
  - apply example_fetches. vm_compute. reflexivity.
  - reflexivity.
  - discriminate.
  - discriminate.
  - vm_compute. reflexivity.
  - exists s'. split; [exact E|]. rewrite Ea. vm_compute. reflexivity.
Defined.

Lemma bic_mvn_step_witness :
  exists s', arm_step (T := x86) (M := Sim) (frame_of 0 0 0)
      (example_sim 0 0x1d3 [0xE3E03000]) = Ok 0 s' /\
    s_arm s' = set_gpr 3 1 (after_fetch (example_core 0 0x1d3 [0xE3E03000])) /\
    dp_result 15 0 0 0 = Some 0xFFFFFFFF.
Proof.
  destruct (bic_mvn_step (T := x86) (frame_of 0 0 0)
    (example_sim 0 0x1d3 [0xE3E03000]) 0xE3E03000 0 x86_shift_by_32)
    as ((s' & E & Ea) & _).
  - apply example_fetches. vm_compute. reflexivity.
  - reflexivity.
  - vm_compute. discriminate.
  - vm_compute. reflexivity.
  - exists s'. split; [exact E|]. split; [|reflexivity].
    rewrite Ea. vm_compute. reflexivity.
Defined.

Lemma condition_passed_spec_witness :
  exists x s', ConditionPassed (M := Sim) (T := x86) (frame_of 0 0 7) 9
      (example_sim 0 0x1d3 []) = Ok x s' /\ x = 7.
Proof.
  destruct (condition_passed_spec (T := x86) (frame_of 0 0 7) 9
    (example_sim 0 0x1d3 [])) as (x & s' & E & _ & _ & _ & _ & H).
  - eapply ready_le; [|apply example_ready]. lia.
  - lia.
  - exists x, s'. split; [exact E|]. apply H; reflexivity.
Defined.

(** ** Witnesses of the theorems of Invariant.v *)

Lemma arm_step_refines_witness :
  exists s', arm_step (T := x86) (M := Sim) (frame_of 0 0 0)
      (example_sim 0 0x1d3 example_program) = Ok 0 s' /\
    evolves 0 (example_sim 0 0x1d3 example_program) s'.
Proof.
  pose proof (arm_step_refines (T := x86) (frame_of 0 0 0)
    (example_sim 0 0x1d3 example_program) (example_ready _ _ _)) as H.
  destruct (arm_step (M := Arch) _ _) as [r p|f] eqn:E; vm_compute in E; [|discriminate E].
  injection E as <- _. destruct H as (s' & Es & _ & Hev & _).
  exists s'. split; [exact Es | exact Hev].
Defined.

Lemma arm_step_invariant_witness :
  match arm_step (T := x86) (M := Sim) (frame_of 0 0 0)
      (example_sim 0 0xF00001d3 example_program) with
  | Ok r s' => r = 0 /\ cpsr_of (s_arm s') = 0xF00001d3
  | Fault _ => True
  end.
Proof.
  pose proof (arm_step_invariant (T := x86) (frame_of 0 0 0)
    (example_sim 0 0xF00001d3 example_program) (example_ready _ _ _)
    ltac:(apply core_wf_decided; vm_compute; reflexivity)) as H.
  destruct (arm_step (M := Sim) _ _) as [r s'|f]; [|exact I].
  destruct H as (-> & _ & _ & Hc & _). split; [reflexivity | exact Hc].
Defined.

Lemma arm_step_safe_witness :
  exists s', arm_step (T := x86) (M := Sim) (frame_of 0 0 0)
      (example_sim 0 0x1d3 [0xE584300C]) = Ok 0 s' /\ core_wf (s_arm s').
Proof.
  destruct (arm_step_safe (T := x86) (frame_of 0 0 0)
    (example_sim 0 0x1d3 [0xE584300C])) as (s' & E & _ & Hw).
  - apply example_ready.
  - apply core_wf_decided. vm_compute. reflexivity.
  - vm_compute. split; [discriminate | left; reflexivity].
  - intros ret instr E. vm_compute in E. injection E as <- <-. intros _.
    vm_compute. split; [discriminate | reflexivity].
  - exists s'. split; [exact E | exact Hw].
Defined.
