(* ===== verification/Transfers.v ===== *)
(** * Properties of branches, loads, stores and of what is not implemented *)
From stdpp Require Import gmap.
From S2P Require Import Prelude Util Constants Memory Registers Trace Core.
From S2P Require Import Refine LoadStore Branch Instruction Run Invariant.
From S2P Require Import ArmSpec Correct Execute Examples Isa Steps Theorems.

Section Branches.
Context `{T : Target}.

(** C20. B and BL at an aligned address: the new program counter is the target
    of the manual.  BL writes the link register too, but with the address plus
    8, not the address of the next instruction. *)
Theorem branch_link_step fr s w :
  fetches s w -> field w 27 25 = 5 -> gpr (s_arm s) 15 mod 4 = 0 ->
  let pc := gpr (s_arm s) 15 in
  let p := after_fetch (s_arm s) in
  let p := if Z.testbit w 24 then set_gpr 14 (u32 (pc + 8)) p else p in
  (exists s', arm_step (M := Sim) fr s = Ok 0 s' /\
     s_arm s' = set_gpr 15 (branch_target w pc) p) /\
  u32 (pc + 8) = u32 (link_value pc + 4).
Proof.
  intros Hf H5 Hm pc p p'. destruct Hf as [Hs Hw Hword Hc Hn Hh].
  rewrite <- (code_condition_spec _ _ Hn) in Hh.
  pose proof (wf_has_regs _ Hw) as Hl. split.
  - destruct (branch_step fr s w Hs Hw Hword H5 Hc Hh) as (s' & E & Ea & _).
    exists s'. split; [exact E|]. rewrite Ea. unfold branch_result. cbv zeta.
    assert (i_reg (abs (s_arm s)) !! 15 = Some pc) as Hpc
      by (apply abs_regs_eq; (exact Hl || lia)).
    destruct (fetch_at (s_arm s) pc Hw Hpc Hm) as (_ & _ & _ & Hget).
    specialize (Hget 15 ltac:(lia)). injection Hget as Hget. fold p in Hget |- *.
    rewrite <- Hget, branch_offset_target. rewrite u32_mod. reflexivity.
  - unfold link_value. rewrite u32_mod, u32_add_l. f_equal. lia.
Qed.

(** [Extend_30] and its shift compute four times the signed 24-bit offset
    of a branch, modulo 2^32, from every instruction word. *)
Lemma Extend_30_spec ins :
  shl32 (Extend_30 ins) 2 =
  (4 * (if field ins 23 0 <? 2 ^ 23 then field ins 23 0
        else field ins 23 0 - 2 ^ 24)) mod 2 ^ 32.
Proof.
  rewrite Extend_30_offset. unfold branch_offset, field.
  change (2 ^ 0) with 1. by rewrite Z.div_1_r.
Qed.

(** ** Addresses *)

(** RRX, the one shift of addressing mode 2 the code gets wrong. *)
Definition is_rrx (w : Z) : bool :=
  Z.testbit w 25 && (field w 6 5 =? 3) && (field w 11 7 =? 0).

Lemma offset_mode2 w rm carry :
  0 <= rm < 16 -> is_rrx w = false -> offset_spec w rm = mode2_offset w rm carry.
Proof.
  intros Hrm Hx. unfold is_rrx in Hx. unfold offset_spec, mode2_offset.
  assert (Z.shiftr w 7 mod 32 = field w 11 7) as ->
    by (by rewrite Z.shiftr_div_pow2 by lia).
  assert (Z.shiftr w 5 mod 4 = field w 6 5) as ->
    by (by rewrite Z.shiftr_div_pow2 by lia).
  pose proof (field_range w 11 7 ltac:(lia)) as Hi.
  change (2 ^ (11 - 7 + 1)) with 32 in Hi.
  pose proof (field_range w 6 5 ltac:(lia)) as Hk.
  change (2 ^ (6 - 5 + 1)) with 4 in Hk.
  destruct (Z.testbit w 25); cbn [negb andb] in *.
  2:{ unfold field. change (2 ^ 0) with 1. by rewrite Z.div_1_r. }
  generalize dependent (field w 6 5). intros kind Hx Hk.
  generalize dependent (field w 11 7). intros imm Hi Hx.
  assert (kind = 0 \/ kind = 1 \/ kind = 2 \/ kind = 3) as Hc by lia.
  destruct Hc as [-> | [-> | [-> | ->]]]; cbn [Z.eqb Pos.eqb andb] in Hx.
  - by rewrite Z.shiftl_mul_pow2 by lia.
  - destruct (imm =? 0); [done|]. by rewrite Z.shiftr_div_pow2 by lia.
  - destruct (Z.ltb_spec rm (2 ^ 31)); [|lia].
    destruct (Z.eqb_spec imm 0).
    + by rewrite Z.div_small by lia.
    + rewrite Z.shiftr_div_pow2 by lia. symmetry. apply u32_small.
      rewrite <- Z.shiftr_div_pow2 by lia. apply shiftr_u32; [lia|].
      unfold is_u32. lia.
  - rewrite Hx. apply ror_rotate; [unfold is_u32; lia|].
    destruct (Z.eqb_spec imm 0); [done|lia].
Qed.

Lemma ls_address_mode2 w carry :
  is_rrx w = false ->
  ls_address w = mode2_address w (field w 19 16) (field w 3 0) carry.
Proof.
  intros Hx. unfold ls_address, mode2_address. cbv zeta.
  rewrite !get_bits_field by lia.
  by rewrite (offset_mode2 w (field w 3 0) carry (field_4_range w 3 0 eq_refl) Hx).
Qed.

(** C19. The address of a load or a store is the one of ARM's addressing mode 2
    computed on the NUMBERS of the base and index registers, where the manual
    takes their contents, for every instruction but RRX; it does not depend on
    the P and W bits (no post-indexing), on any register, or on the
    uninitialised [index].  RRX adds or subtracts 0 or 1. *)
Theorem load_store_address index0 w carry :
  let rn := field w 19 16 in
  let rm := field w 3 0 in
  u32 (arm_load_store index0 w) =
  if is_rrx w then
    let bit := Z.b2z (Z.testbit w 29 || (2 <=? rm)) in
    u32 (if Z.testbit w 23 then rn + bit else rn - bit)
  else mode2_address w rn rm carry.
Proof.
  intros rn rm. rewrite arm_load_store_address, u32_s32.
  rewrite u32_small by apply ls_address_u32.
  destruct (is_rrx w) eqn:Hx; [|by apply ls_address_mode2].
  unfold is_rrx in Hx. rewrite !andb_true_iff, !Z.eqb_eq in Hx.
  destruct Hx as [[H25 Hk] Hi]. unfold ls_address, offset_spec. cbv zeta.
  rewrite H25, !get_bits_field by lia. fold rn rm.
  assert (Z.shiftr w 7 mod 32 = 0) as -> by (by rewrite Z.shiftr_div_pow2 by lia).
  assert (Z.shiftr w 5 mod 4 = 3) as -> by (by rewrite Z.shiftr_div_pow2 by lia).
  cbn [Z.eqb]. by destruct (Z.testbit w 29 || _).
Qed.
End Branches.

(** ** Loads and stores *)

Section Accesses.
Context `{T : Target}.

(** A load or a store, up to its memory access. *)
Lemma access_step fr s w p :
  fetches s w -> field w 27 26 = 1 ->
  loadStoreByteOrWord (M := Arch) fr (ls_address w)
    (gpr_view (after_fetch (s_arm s)) (field w 15 12)) (get_bit w 20)
    (get_bit w 22) (field w 15 12) (after_fetch (s_arm s)) = Ok () p ->
  exists s', arm_step (M := Sim) fr s = Ok 0 s' /\ stepped s s' p.
Proof.
  intros Hf Hk E. pose proof (fetches_code s w Hf) as Hh.
  destruct Hf as [Hs Hw Hword Hc _ _]. pose proof (wf_has_regs _ Hw) as Hl.
  pose proof (after_fetch_wf _ Hw) as Hp.
  apply (fetched_step fr s w); [exact Hs | exact Hw | exact Hword|].
  rewrite run_execute_fetched; [|exact Hp | by eapply word_at_u32; [apply Hw|]].
  rewrite Hk. cbn [Z.eqb Pos.eqb].
  rewrite run_execute_load_store; [by rewrite E | exact Hp | exact Hc|].
  by rewrite after_fetch_cpsr.
Qed.

Lemma c_true_flag w i : 0 <= i < 32 -> c_true (get_bit w i) = Z.testbit w i.
Proof. apply c_true_get_bit. Qed.

Lemma read_byte_at m a b x :
  mem_wf m -> byte_at m a = Some b -> memory_read_byte m a x = Some (b, b).
Proof.
  intros Hm E. pose proof (byte_at_bounds m a b Hm E).
  unfold memory_read_byte, byte_at in *. destruct (Z.leb_spec a (mem_size m)); [|lia].
  by rewrite E.
Qed.

(** The bytes a store writes. *)
Definition store_bytes (be byte : bool) (v : Z) : list Z :=
  if byte then [field v 7 0] else field_bytes be 4 v.

Lemma memory_write_stored m a v :
  mem_wf m -> 0 <= a -> a + 3 < mem_size m -> is_u32 v ->
  exists m' x, memory_write_word m a v = Some (0, m') /\
    (forall y, memory_read_word m' a y = Some x) /\
    stored m m' a (field_bytes (big m) 4 v).
Proof.
  intros Hm Ha Hs Hv. destruct (write_word_stored m a v) as (m' & E & Hst & Hm'); [done..|].
  exists m', (s32 v, v). split; [done|]. split; [|done]. intros y.
  eapply read_word_stored; try done. by destruct Hst as (_ & -> & _).
Qed.

(** C7. STR and STRB store the register in the bytes at the address, in the
    byte order of the memory, and change nothing else: no write-back, and the
    program counter is stored as the register readers give it. *)
Theorem store_step fr s w :
  fetches s w -> field w 27 26 = 1 -> Z.testbit w 20 = false ->
  let a := u32 (arm_load_store (fr_index fr) w) in
  let p := after_fetch (s_arm s) in
  let bs := store_bytes (big (mem p)) (Z.testbit w 22)
              (gpr_view p (field w 15 12)) in
  a + Z.of_nat (length bs) <= mem_size (mem p) ->
  exists s' m', arm_step (M := Sim) fr s = Ok 0 s' /\
    s_arm s' = with_mem m' p /\ stored (mem p) m' a bs.
Proof.
  intros Hf Hk H20 a p bs Ha. unfold a in *. rewrite run_address in *. clear a.
  pose proof (ls_address_u32 w) as Hu. unfold is_u32 in Hu.
  pose proof (after_fetch_wf _ (f_wf _ _ Hf)) as Hp. pose proof (wf_mem _ Hp) as Hm.
  pose proof (gpr_view_u32 p (field w 15 12) Hp) as Hv.
  assert (c_true (get_bit w 20) = false) as Hb20 by (rewrite c_true_flag by lia; exact H20).
  unfold bs, store_bytes in *. destruct (Z.testbit w 22) eqn:H22.
  - simpl in Ha.
    destruct (write_byte_stored (mem p) (ls_address w)
      (field (gpr_view p (field w 15 12)) 7 0)) as (m' & E & Hst & Hm').
    { exact Hm. } { unfold p in *; simpl in *; lia. }
    { apply (field_range _ 7 0); lia. }
    destruct (access_step fr s w (with_mem m' p) Hf Hk) as (s' & Es & Ea & _).
    + eapply (run_STRB _ _ _ _ _ _ _ m'); [exact Hb20 | by rewrite c_true_flag | exact E|].
      eapply read_byte_at; [exact Hm'|]. destruct Hst as (_ & _ & _ & Hj). rewrite Hj.
      cbn [length]. destruct (Z.leb_spec (ls_address w) (ls_address w)); [|lia].
      destruct (Z.ltb_spec (ls_address w) (ls_address w + Z.of_nat 1)); [|lia].
      cbn [andb]. rewrite Z.sub_diag. reflexivity.
    + exists s', m'. split; [exact Es|]. split; [exact Ea | exact Hst].
  - rewrite field_bytes_length in Ha by lia.
    destruct (memory_write_stored (mem p) (ls_address w)
      (gpr_view p (field w 15 12))) as (m' & x & E & Er & Hst);
      [exact Hm | lia | unfold p in *; simpl in *; lia | exact Hv|].
    destruct (access_step fr s w (with_mem m' p) Hf Hk) as (s' & Es & Ea & _).
    + eapply (run_STR _ _ _ _ _ _ _ m'); [exact Hb20 | by rewrite c_true_flag | exact E|].
      apply Er.
    + exists s', m'. split; [exact Es|]. split; [exact Ea | exact Hst].
Qed.

(** C18. LDR loads the word at the address, rotated by eight times the address
    modulo 4 as the manual says, and LDRB the byte, into their destination, the
    program counter included: for it LDR clears bit 0 of the word (and LDRB
    writes the byte as it is).  They change nothing else. *)
Theorem load_step fr s w v :
  ShiftBy32 -> fetches s w -> field w 27 26 = 1 -> Z.testbit w 20 = true ->
  let a := u32 (arm_load_store (fr_index fr) w) in
  let p := after_fetch (s_arm s) in
  (if Z.testbit w 22 then byte_at (mem p) a
   else (fun x => rotate_right x (8 * (a mod 4))) <$> word_at (mem p) a) = Some v ->
  let rd := field w 15 12 in
  exists s', arm_step (M := Sim) fr s = Ok 0 s' /\
    s_arm s' = set_gpr rd
      (if negb (Z.testbit w 22) && (rd =? 15) then Z.land v 0xFFFFFFFE else v) p.
Proof.
  intros HT Hf Hk H20 a p Ha rd. unfold a in *. rewrite run_address in *. clear a.
  pose proof (after_fetch_wf _ (f_wf _ _ Hf)) as Hp. pose proof (wf_mem _ Hp) as Hm.
  pose proof (field_4_range w 15 12 eq_refl) as Hr.
  assert (c_true (get_bit w 20) = true) as Hb20 by (rewrite c_true_flag by lia; exact H20).
  destruct (access_step fr s w (set_gpr rd
    (if negb (Z.testbit w 22) && (rd =? 15) then Z.land v 0xFFFFFFFE else v) p) Hf Hk)
    as (s' & Es & Ea & _); [|exists s'; split; [exact Es | exact Ea]].
  unfold rd. destruct (Z.testbit w 22) eqn:H22; cbn [negb andb].
  - apply run_LDRB; [by apply wf_has_regs | exact Hr | | exact Hb20
      | by rewrite c_true_flag | by apply read_byte_at].
    eapply buf_get_Forall; [apply Hm | exact Ha].
  - destruct (word_at (mem p) (ls_address w)) as [x|] eqn:Ex; [|discriminate].
    injection Ha as <-. apply run_LDR; [exact HT | by apply wf_has_regs | exact Hr
      | apply ls_address_u32 | by eapply word_at_u32 | exact Hb20
      | by rewrite c_true_flag | by apply read_word_at].
Qed.
End Accesses.

(** ** What is not implemented, and the limits *)

Section Others.
Context `{T : Target}.

(** The instructions without an implementation: the coprocessor class with SWI,
    LDM and STM, and the miscellaneous space (MRS, MSR, BX, ...). *)
Definition unimplemented (w : Z) : bool :=
  (field w 27 26 =? 3) || (field w 27 25 =? 4) ||
  ((field w 27 26 =? 0) && (field w 24 23 =? 2) && negb (Z.testbit w 20)).

Lemma class_4 w :
  field w 27 25 = 4 -> field w 27 26 = 2 /\ Z.testbit w 25 = false.
Proof.
  unfold field. change (2 ^ (27 - 25 + 1)) with (2 * 4).
  change (2 ^ (27 - 26 + 1)) with 4. intros H.
  rewrite Z.rem_mul_r in H by lia. rewrite Z.div_div in H by lia.
  change (2 ^ 25 * 2) with (2 ^ 26) in H.
  pose proof (Z.testbit_spec' w 25 ltac:(lia)) as Hb.
  pose proof (Z.mod_pos_bound (w / 2 ^ 26) 4 ltac:(lia)).
  destruct (Z.testbit w 25); simpl in Hb; split; (done || lia).
Qed.

Lemma execute_unimplemented fr w p :
  core_wf p -> is_u32 w -> unimplemented w = true ->
  execute_fetched (M := Arch) fr (s32 w) w p = Ok 0 p.
Proof.
  intros Hp Hw Hu. rewrite run_execute_fetched by done. unfold unimplemented in Hu.
  destruct (Z.eqb_spec (field w 27 26) 3) as [->|H3]; [done|].
  destruct (Z.eqb_spec (field w 27 25) 4) as [H4|H4].
  { destruct (class_4 w H4) as [-> H25]. cbn [Z.eqb Pos.eqb].
    unfold execute_branch. by rewrite get_bit_flag0, H25 by lia. }
  cbn [orb] in Hu. rewrite !andb_true_iff in Hu. destruct Hu as [[-> H23] H20].
  unfold execute_data_processing. cbv zeta.
  by rewrite get_bits_field, get_bit_flag0, H23, H20 by lia.
Qed.

(** C39. Instructions without an implementation are skipped: whatever their
    condition, the step returns 0 and changes the program counter and the
    cycle counter only.  None of them raises the undefined instruction or
    software interrupt exception their functions return. *)
Theorem unimplemented_step fr s w :
  ready 2 s -> core_wf (s_arm s) ->
  word_at (mem (s_arm s)) (fetch_address (s_arm s)) = Some w ->
  unimplemented w = true ->
  exists s', arm_step (M := Sim) fr s = Ok 0 s' /\
    s_arm s' = after_fetch (s_arm s).
Proof.
  intros Hs Hw Hword Hu.
  destruct (fetched_step fr s w (after_fetch (s_arm s)) Hs Hw Hword) as (s' & E & Ea & _).
  - apply execute_unimplemented; [by apply after_fetch_wf | | exact Hu].
    by eapply word_at_u32; [apply Hw|].
  - exists s'. split; [exact E | exact Ea].
Qed.

(** C40. A fetch above the memory is not detected: the reader's error value is
    taken for the instruction 0xFFFFFFFF, which does nothing, and the step
    returns 0, not a prefetch abort. *)
Theorem fetch_out_of_range fr s :
  ready 2 s -> core_wf (s_arm s) ->
  mem_size (mem (s_arm s)) < fetch_address (s_arm s) ->
  exists s', arm_step (M := Sim) fr s = Ok 0 s' /\
    s_arm s' = after_fetch (s_arm s).
Proof.
  intros Hs Hw Ha. pose proof (wf_has_regs _ Hw) as Hl.
  destruct (sim_step fr s (after_fetch (s_arm s)) Hs Hw) as (s' & E & Ea & _);
    [|exists s'; split; [exact E | exact Ea]].
  rewrite run_step; [|exact Hl|].
  - unfold arm_execute_instruction, at_line.
    rewrite run_located, bind_eq, run_fetch by exact Hl.
    unfold memory_read_word. destruct (Z.leb_spec (fetch_address (s_arm s))
      (mem_size (mem (s_arm s)))); [lia|].
    unfold execute_fetched. cbv zeta.
    change (u32 (-1)) with 0xFFFFFFFF. rewrite !get_bits_field by lia.
    change (field 0xFFFFFFFF 19 16) with 15. unfold at_line. rewrite run_located.
    rewrite (bind_ok _ _ _ _ _ (run_read 15 _ (has_regs_fetch _ Hl) ltac:(lia))).
    reflexivity.
  - intros r p' E.
    pose proof (execute_inv True _ _ _ fr _ (core_wf_inv _ Hw) (or_introl I)) as H.
    rewrite E in H. apply H.
Qed.

(** The trace does not interfere: two simulators with the same processor,
    whatever their trace settings and output, take the same step: same result
    and same processor, or the same fault. *)
Lemma trace_independent fr s1 s2 :
  ready 2 s1 -> ready 2 s2 -> s_arm s1 = s_arm s2 ->
  match arm_step (M := Sim) fr s1, arm_step (M := Sim) fr s2 with
  | Ok r1 s1', Ok r2 s2' => r1 = r2 /\ s_arm s1' = s_arm s2'
  | Fault f1, Fault f2 => f1 = f2
  | _, _ => False
  end.
Proof.
  intros H1 H2 E. pose proof (traced_step fr s1 H1) as Hs1.
  pose proof (traced_step fr s2 H2) as Hs2. rewrite <- E in Hs2.
  destruct (arm_step (M := Arch) fr (s_arm s1)) as [r p|f].
  - destruct Hs1 as (s1' & -> & <- & _). destruct Hs2 as (s2' & -> & Ea & _).
    split; [reflexivity | symmetry; exact Ea].
  - rewrite Hs1, Hs2. reflexivity.
Qed.

Lemma mode_svc : mode_of 0x1d3 = SVC.
Proof. reflexivity. Qed.

(** The reset exception on the architecture: [arm_write_usr_register] writes
    nothing in supervisor mode, where the CPSR just put the processor. *)
Lemma run_reset p :
  has_regs p -> arm_exception (M := Arch) RESET p = Ok () (set_gpr 16 0x1d3 p).
Proof.
  intros Hp. unfold arm_exception. change (u8 RESET =? RESET) with true. cbv iota.
  rewrite !run_located. change (Z.lor 0x1d3 Exception_bit_9) with 0x1d3.
  assert (core_write_cpsr (M := Arch) 0x1d3 p = Ok () (set_gpr 16 0x1d3 p)) as E.
  { simpl. unfold arch_set_regs, write_cpsr, store_register.
    rewrite bind_eq. simpl. by rewrite buf_set_Some by (rewrite Hp; lia). }
  run_head E.
  pose proof (has_regs_set 16 0x1d3 p Hp) as Hp'.
  set (q := set_gpr 16 0x1d3 p) in *.
  assert (write_usr_register (reg q) 15 0 = Some (reg q)) as Ew.
  { unfold write_usr_register, in_a_privileged_mode.
    rewrite get_mode_spec by exact Hp'.
    assert (reg_value (reg q) 16 = 0x1d3) as ->
      by (apply (gpr_set_eq 16 0x1d3 p); (exact Hp || lia)).
    reflexivity. }
  change (arch_set_regs (fun rs => write_usr_register rs 15 0) q = Ok () q).
  unfold arch_set_regs. rewrite (bind_ok _ _ q q q) by reflexivity.
  rewrite Ew. by destruct p.
Qed.

Lemma run_exception e p :
  has_regs p ->
  arm_exception (M := Arch) e p =
    Ok () (if u8 e =? RESET then set_gpr 16 0x1d3 p else p).
Proof.
  intros Hp. destruct (Z.eqb_spec (u8 e) RESET) as [E|E].
  - rewrite <- run_reset by exact Hp. unfold arm_exception. by rewrite E.
  - unfold arm_exception. by rewrite (proj2 (Z.eqb_neq _ _) E).
Qed.

Lemma arm_create_run n cycle0 r m s :
  ready (Datatypes.S n) s -> regs_wf r -> mem_wf m ->
  exists s', arm_create true cycle0 (Some r) m s = Ok true s' /\
    ready (Datatypes.S n) s' /\ core_wf (s_arm s') /\ cycle_count (s_arm s') = 0 /\
    mem (s_arm s') = m /\ mode_of (cpsr_of (s_arm s')) = SVC /\
    cpsr_of (s_arm s') = 0x1d3 /\
    forall i, i <> 16 -> gpr (s_arm s') i = reg_value r i.
Proof.
  intros Hs Hr Hm. set (p := {| cycle_count := cycle0; reg := r; mem := m |}).
  set (s0 := {| s_arm := p; s_trace := s_trace s; s_log := s_log s |}).
  assert (ready (Datatypes.S n) s0) as Hs0 by (destruct Hs; split; (assumption || apply Hr)).
  pose proof (refines_exception n RESET s0 Hs0) as H.
  assert (has_regs p) as Hp by apply Hr.
  rewrite run_reset in H by exact Hp. destruct H as (s1 & E & Ea & Hev).
  unfold arm_create. rewrite (bind_ok _ _ s r s) by reflexivity.
  rewrite (bind_ok _ _ s () s0) by reflexivity. rewrite (bind_ok _ _ _ _ _ E).
  rewrite (bind_ok _ _ s1 (s_arm s1) s1) by reflexivity.
  eexists. split; [reflexivity|]. cbn [s_arm].
  rewrite Ea. pose proof (ready_evolves _ _ _ Hs0 Hev) as Hs1.
  split; [|split; [|split; [|split; [|split; [|split]]]]].
  - destruct Hs1. split; try assumption. simpl. by rewrite length_insert.
  - split; simpl; [|exact Hm | by split]. split; simpl.
    + by rewrite length_insert.
    + apply Forall_insert; [apply Hr | by split].
  - reflexivity.
  - reflexivity.
  - change (mode_of (gpr (set_gpr 16 0x1d3 p) 16) = SVC).
    by rewrite gpr_set_eq by (exact Hp || lia).
  - change (gpr (set_gpr 16 0x1d3 p) 16 = 0x1d3). by apply gpr_set_eq; [|lia].
  - intros i Hi. change (gpr (set_gpr 16 0x1d3 p) i = gpr p i).
    apply gpr_set_ne; (exact Hp || exact Hi || lia).
Qed.

(** C38. [arm_create] leaves a processor in supervisor mode with interrupts
    masked (CPSR 0x1d3), with the cycle counter at 0 and the sixteen registers,
    the program counter included, as malloc left them: the reset vector is
    never written, since [arm_write_usr_register] ignores the write. *)
Theorem arm_create_reset cycle0 r m s :
  ready 1 s -> regs_wf r -> mem_wf m ->
  exists s', arm_create true cycle0 (Some r) m s = Ok true s' /\
    ready 1 s' /\ core_wf (s_arm s') /\ cycle_count (s_arm s') = 0 /\
    mem (s_arm s') = m /\ mode_of (cpsr_of (s_arm s')) = SVC /\
    cpsr_of (s_arm s') = 0x1d3 /\
    forall i, i <> 16 -> gpr (s_arm s') i = reg_value r i.
Proof. apply (arm_create_run 0). Qed.
End Others.

(** ** Witnesses *)

(** BL to address 16. *)
Lemma branch_link_step_witness :
  exists s', arm_step (T := x86) (M := Sim) (frame_of 0 0 0)
      (example_sim 0 0x1d3 [0xEB000002]) = Ok 0 s' /\
    s_arm s' = set_gpr 15 16 (set_gpr 14 8
                 (after_fetch (example_core 0 0x1d3 [0xEB000002]))).
Proof.
  destruct (branch_link_step (T := x86) (frame_of 0 0 0)
    (example_sim 0 0x1d3 [0xEB000002]) 0xEB000002) as [(s' & E & Ea) _].
  - apply example_fetches. vm_compute. reflexivity.
  - reflexivity.
  - reflexivity.
  - exists s'. split; [exact E|]. rewrite Ea. vm_compute. reflexivity.
Defined.

(** STR r3,[r4,#12]: at address 4 + 12, though r4 holds 40. *)
Lemma store_step_witness :
  exists s' m', arm_step (T := x86) (M := Sim) (frame_of 0 0 0)
      (example_sim 0 0x1d3 [0xE584300C]) = Ok 0 s' /\
    s_arm s' = with_mem m' (after_fetch (example_core 0 0x1d3 [0xE584300C])) /\
    stored (mem (example_core 0 0x1d3 [0xE584300C])) m' 16 [0; 0; 0; 30].
Proof.
  destruct (store_step (T := x86) (frame_of 0 0 0)
    (example_sim 0 0x1d3 [0xE584300C]) 0xE584300C) as (s' & m' & E & Ea & Hst).
  - apply example_fetches. vm_compute. reflexivity.
  - reflexivity.
  - reflexivity.
  - vm_compute. discriminate.
  - exists s', m'. split; [exact E|]. split; [exact Ea|].
    assert (Ha : u32 (arm_load_store (T := x86) 0 0xE584300C) = 16)
      by (vm_compute; reflexivity).
    cbn [fr_index frame_of] in Hst. rewrite Ha in Hst.
    exact Hst.
Defined.

(** LDR r3,[r1]: the word at address 1, rotated; LDR pc,[r1,#3]: an odd word
    at address 4, to the program counter. *)
Lemma load_step_witness :
  (exists s', arm_step (T := x86) (M := Sim) (frame_of 0 0 0)
      (example_sim 0 0x1d3 [0xE5913000; 0x11223344]) = Ok 0 s' /\
    s_arm s' = set_gpr 3 0x11913000
                 (after_fetch (example_core 0 0x1d3 [0xE5913000; 0x11223344]))) /\
  exists s', arm_step (T := x86) (M := Sim) (frame_of 0 0 0)
      (example_sim 0 0x1d3 [0xE591F003; 0x11223345]) = Ok 0 s' /\
    s_arm s' = set_gpr 15 0x11223344
                 (after_fetch (example_core 0 0x1d3 [0xE591F003; 0x11223345])).
Proof.
  split.
  2:{ destruct (load_step (T := x86) (frame_of 0 0 0)
        (example_sim 0 0x1d3 [0xE591F003; 0x11223345]) 0xE591F003 0x11223345
        x86_shift_by_32) as (s' & E & Ea).
      - apply example_fetches. vm_compute. reflexivity.
      - reflexivity.
      - reflexivity.
      - vm_compute. reflexivity.
      - exists s'. split; [exact E|]. rewrite Ea. reflexivity. }
  destruct (load_step (T := x86) (frame_of 0 0 0)
    (example_sim 0 0x1d3 [0xE5913000; 0x11223344]) 0xE5913000 0x11913000
    x86_shift_by_32) as (s' & E & Ea).
  - apply example_fetches. vm_compute. reflexivity.
  - reflexivity.
  - reflexivity.
  - vm_compute. reflexivity.
  - exists s'. split; [exact E|]. rewrite Ea. reflexivity.
Defined.

(** SWI. *)
Lemma unimplemented_step_witness :
  exists s', arm_step (T := x86) (M := Sim) (frame_of 0 0 0)
      (example_sim 0 0x1d3 [0xEF123456]) = Ok 0 s' /\
    s_arm s' = after_fetch (example_core 0 0x1d3 [0xEF123456]).
Proof.
  apply (unimplemented_step (T := x86) (frame_of 0 0 0)
    (example_sim 0 0x1d3 [0xEF123456]) 0xEF123456).
  - apply example_ready.
  - apply core_wf_decided. vm_compute. reflexivity.
  - vm_compute. reflexivity.
  - reflexivity.
Defined.

Lemma fetch_out_of_range_witness :
  exists s', arm_step (T := x86) (M := Sim) (frame_of 0 0 0)
      (example_sim 0x1000 0x1d3 []) = Ok 0 s' /\
    s_arm s' = after_fetch (example_core 0x1000 0x1d3 []).
Proof.
  apply (fetch_out_of_range (T := x86) (frame_of 0 0 0) (example_sim 0x1000 0x1d3 [])).
  - apply example_ready.
  - apply core_wf_decided. vm_compute. reflexivity.
  - reflexivity.
Defined.

Lemma trace_independent_witness :
  let s1 := example_sim 0 0x1d3 example_program in
  let s2 := {| s_arm := s_arm s1; s_trace := trace_init; s_log := [] |} in
  match arm_step (T := x86) (M := Sim) (frame_of 0 0 0) s1,
        arm_step (T := x86) (M := Sim) (frame_of 0 0 0) s2 with
  | Ok r1 s1', Ok r2 s2' => r1 = r2 /\ s_arm s1' = s_arm s2'
  | Fault f1, Fault f2 => f1 = f2
  | _, _ => False
  end.
Proof.
  intros s1 s2. apply (trace_independent (T := x86) (frame_of 0 0 0) s1 s2).
  - apply example_ready.
  - split; (reflexivity || (simpl; lia)).
  - reflexivity.
Defined.

Lemma arm_create_reset_witness :
  exists s', arm_create true 7 (Some (regs_example 0)) (mem_example 1)
      (example_sim 0 0 []) = Ok true s' /\
    cpsr_of (s_arm s') = 0x1d3 /\ gpr (s_arm s') 15 = 7.
Proof.
  destruct (arm_create_reset 7 (regs_example 0) (mem_example 1)
    (example_sim 0 0 [])) as (s' & E & _ & _ & _ & _ & _ & Hc & Hg).
  - eapply ready_le; [|apply example_ready]. lia.
  - apply regs_example_wf. apply u32_0.
  - apply mem_example_wf. by right.
  - exists s'. split; [exact E|]. split; [exact Hc|].
    rewrite Hg by discriminate. reflexivity.
Defined.
