(* ===== verification/Scanner.v ===== *)
(** * scanner.l: the lexer of the gdb connection

    The rules of scanner.l on the bytes that arrive from gdb.  flex matches,
    at every position, the rule with the longest match and, among those, the
    first one; the newline, which the rule [.] excludes, falls to the default
    rule, which copies it to the standard output.

    [scanner] is the state of [gdb_scanner]: the connection of Gdb.v, the
    [struct parser_data] and that output.  The bytes that follow the text of a
    token in flex's buffer are the parameter [after] of its action.  The rules
    are stated over the interface [Lexer], whose instance [scan_lexer] works on
    [scanner]. *)
From S2P Require Import Prelude Util Constants Memory Registers Trace Core.
From S2P Require Import LoadStore Branch Instruction Gdb.

Definition MAX_ERROR_SIZE : Z := 1024.

Record parser_data := {
  buffer : list Z;
  buffer_len : Z
}.

Record scanner := {
  sc_gdb : gdbs;
  sc_data : parser_data;
  sc_echo : list Z
}.

Abbreviation Scan := (ST scanner).

(** What the actions use: the connection, which is a computation of its own,
    and the [struct parser_data]; the default rule copies to the output. *)
Class Lexer (G M : Type -> Type) := {
  on_gdb : forall {A}, G A -> M A;
  get_parser : M parser_data;
  put_parser : list Z -> Z -> M unit;
  echo : Z -> M unit
}.

Definition scan_gdb {A} (m : Gdb A) : Scan A := fun s =>
  match m (sc_gdb s) with
  | Ok a g => Ok a {| sc_gdb := g; sc_data := sc_data s; sc_echo := sc_echo s |}
  | Fault f => Fault f
  end.

#[export] Instance scan_lexer : Lexer Gdb Scan := {
  on_gdb := @scan_gdb;
  get_parser := s ← get_state; mret (sc_data s);
  put_parser := fun b n s =>
    Ok () {| sc_gdb := sc_gdb s; sc_data := {| buffer := b; buffer_len := n |};
             sc_echo := sc_echo s |};
  echo := fun c s =>
    Ok () {| sc_gdb := sc_gdb s; sc_data := sc_data s; sc_echo := sc_echo s ++ [c] |}
}.

(** ** The rules *)

Inductive token :=
  | Ack
  | Retransmit
  | Packet (yytext : list Z)
  | Other (c : Z)
  | Newline.

(** HEX *)
Definition is_hex (c : Z) : bool :=
  ((48 <=? c) && (c <=? 57)) || ((97 <=? c) && (c <=? 102)) ||
  ((65 <=? c) && (c <=? 70)).

(** [^$#]*"#"{HEX}{HEX} at the head of the input: the match and what follows. *)
Fixpoint packet_body (s : list Z) : option (list Z * list Z) :=
  match s with
  | [] => None
  | c :: s' =>
      if c =? 36 then None
      else if c =? 35 then
        match s' with
        | a :: b :: rest =>
            if is_hex a && is_hex b then Some ([35; a; b], rest) else None
        | _ => None
        end
      else '(t, rest) ← packet_body s'; Some (c :: t, rest)
  end.

Definition next_token (input : list Z) : option (token * list Z) :=
  match input with
  | [] => None
  | c :: rest =>
      Some (if c =? 43 then (Ack, rest)
            else if c =? 45 then (Retransmit, rest)
            else if c =? 36 then
              match packet_body rest with
              | Some (t, rest') => (Packet (36 :: t), rest')
              | None => (Other 36, rest)
              end
            else if c =? 10 then (Newline, rest)
            else (Other c, rest))
  end.

(** The tokens of an input, at most [n] of them. *)
Fixpoint tokens (n : nat) (input : list Z) : list token :=
  match n, next_token input with
  | Datatypes.S n, Some (t, rest) => t :: tokens n rest
  | _, _ => []
  end.

(** ** The bytes that are not part of the protocol *)

Section Errors.
Context {G M : Type -> Type} `{!Connection G, !MStop G, !MBind G, !MRet G}.
Context `{!Lexer G M, !MStop M, !MBind M, !MRet M}.

(** debug in scanner.l. *)
Definition scanner_debug (line : Z) (text : option string) : M unit :=
  on_gdb (message Scanner_l (Some line) text).

Definition handle_error : M unit :=
  d ← get_parser;
  if c_true (buffer_len d) then
    b ← of_option (buf_set (buffer d) (buffer_len d) 0);
    scanner_debug 43 (t ← cstring b; Some ("gdb protocol error, invalid data : "
      +:+ fmt_s t +:+ ", requiring retransmission" +:+ newline)%string);;
    on_gdb gdb_require_retransmission;;
    put_parser b 0
  else mret ().

Definition add_character_to_error (c : Z) : M unit :=
  d ← get_parser;
  (if MAX_ERROR_SIZE - 2 <? buffer_len d then handle_error else mret ());;
  d ← get_parser;
  b ← of_option (buf_set (buffer d) (buffer_len d) c);
  put_parser b (buffer_len d + 1).
End Errors.

(** ** The actions *)

Section Actions.
Context `{T : Target}.
Context {G M : Type -> Type} `{!Connection G, !MStop G, !MBind G, !MRet G}.
Context `{!Lexer G M, !MStop M, !MBind M, !MRet M}.

Definition action (fuel : nat) (fr : gframe) (after : list Z) (t : token)
    : M unit :=
  match t with
  | Ack =>
      handle_error;;
      scanner_debug 61 (Some ("Received ack" +:+ newline)%string)
  | Retransmit =>
      handle_error;;
      scanner_debug 64 (Some ("Received request for retransmission" +:+ newline)%string);;
      on_gdb gdb_transmit_packet
  | Packet yytext =>
      handle_error;;
      on_gdb (gdb_packet_analysis fuel fr (yytext ++ 0 :: after)
                (Z.of_nat (length yytext)))
  | Other c => add_character_to_error c
  | Newline => echo 10
  end.

(** [frs k] and [after k] belong to the [k]-th token. *)
Fixpoint actions (fuel : nat) (frs : nat -> gframe) (after : nat -> list Z)
    (k : nat) (ts : list token) : M unit :=
  match ts with
  | [] => mret ()
  | t :: ts =>
      action fuel (frs k) (after k) t;;
      actions fuel frs after (Datatypes.S k) ts
  end.

(** [yylex] on the bytes of a whole connection, up to its end. *)
Definition yylex (fuel : nat) (frs : nat -> gframe) (after : nat -> list Z)
    (input : list Z) : M unit :=
  actions fuel frs after 0 (tokens (length input) input);; handle_error.
End Actions.

(** The state [gdb_scanner] starts in; [block] and [buf] are uninitialised. *)
Definition gdb_scanner_init (s : sim) (block buf : list Z) : scanner := {|
  sc_gdb := {| g_sim := s; g_data := gdb_init_data block; g_out := [];
               g_shut := false |};
  sc_data := {| buffer := buf; buffer_len := 0 |};
  sc_echo := []
|}.
