(* ===== verification/Session.v ===== *)
(** * What the scanner does with a connection

    The tokens are the ones flex's rule of the longest match gives; a stream of
    messages is handled message by message; the bytes between the messages are
    answered by requests for retransmission and never overflow their buffer. *)
From S2P Require Import Prelude Util Constants Memory Registers Trace Core.
From S2P Require Import LoadStore Branch Instruction Gdb Packets Scanner.

(** ** The rule of the longest match *)

(** The patterns of scanner.l in their order, then flex's default rule. *)
Inductive rule := RuleAck | RuleRetransmit | RulePacket | RuleAny | RuleDefault.

Definition rule_index (r : rule) : nat :=
  match r with
  | RuleAck => 0 | RuleRetransmit => 1 | RulePacket => 2 | RuleAny => 3
  | RuleDefault => 4
  end.

(** [^$#]* *)
Definition plain_text (s : list Z) : Prop := Forall (fun c => c <> 36 /\ c <> 35) s.

Inductive matches : rule -> list Z -> Prop :=
  | match_ack : matches RuleAck [43]
  | match_retransmit : matches RuleRetransmit [45]
  | match_packet text a b :
      plain_text text -> is_hex a = true -> is_hex b = true ->
      matches RulePacket (36 :: text ++ [35; a; b])
  | match_any c : c <> 10 -> matches RuleAny [c]
  | match_default c : matches RuleDefault [c].

Definition token_text (t : token) : list Z :=
  match t with
  | Ack => [43] | Retransmit => [45] | Packet s => s | Other c => [c]
  | Newline => [10]
  end.
Definition token_rule (t : token) : rule :=
  match t with
  | Ack => RuleAck | Retransmit => RuleRetransmit | Packet _ => RulePacket
  | Other _ => RuleAny | Newline => RuleDefault
  end.

(** [t] is what flex matches at the head of its text followed by [rest]. *)
Definition flex_match (t : token) (rest : list Z) : Prop :=
  matches (token_rule t) (token_text t) /\
  forall r p q, token_text t ++ rest = p ++ q -> matches r p ->
    (length p < length (token_text t))%nat \/
    (length p = length (token_text t) /\ rule_index (token_rule t) <= rule_index r)%nat.

Inductive lexed : list Z -> list token -> Prop :=
  | lexed_end : lexed [] []
  | lexed_token t rest ts :
      flex_match t rest -> lexed rest ts -> lexed (token_text t ++ rest) (t :: ts).

Lemma packet_body_match text a b rest :
  plain_text text -> is_hex a = true -> is_hex b = true ->
  packet_body (text ++ [35; a; b] ++ rest) = Some (text ++ [35; a; b], rest).
Proof.
  intros Ht Ha Hb. induction Ht as [|c text [H1 H2] _ IH]; cbn [app packet_body].
  - by rewrite Ha, Hb.
  - rewrite (proj2 (Z.eqb_neq c 36) H1), (proj2 (Z.eqb_neq c 35) H2).
    cbn [app] in IH. by rewrite IH.
Qed.

Lemma packet_body_inv s t rest :
  packet_body s = Some (t, rest) ->
  exists text a b, t = text ++ [35; a; b] /\ s = t ++ rest /\ plain_text text /\
    is_hex a = true /\ is_hex b = true.
Proof.
  revert t rest. induction s as [|c s IH]; intros t rest E; [done|].
  cbn [packet_body] in E. destruct (Z.eqb_spec c 36); [done|].
  destruct (Z.eqb_spec c 35) as [->|Hc].
  - destruct s as [|a [|b s]]; try done.
    destruct (is_hex a) eqn:Ha, (is_hex b) eqn:Hb; try done.
    injection E as <- <-. exists [], a, b. by split_and!; try constructor.
  - destruct (packet_body s) as [[t' rest']|]; [|done]. injection E as <- <-.
    destruct (IH t' rest' eq_refl) as (text & a & b & -> & -> & Ht & Ha & Hb).
    exists (c :: text), a, b. by split_and!; try constructor.
Qed.

(** A packet at the head of the input is what [packet_body] finds. *)
Lemma packet_prefix p q c rest :
  matches RulePacket p -> c :: rest = p ++ q ->
  c = 36 /\ packet_body rest = Some (drop 1 p, q).
Proof.
  intros Hm E. inversion Hm as [| |text a b Ht Ha Hb| |]; subst p.
  cbn [app] in E. injection E as -> ->. split; [done|].
  rewrite <- app_assoc. by apply packet_body_match.
Qed.

Lemma matches_length r p : matches r p -> r = RulePacket \/ exists c, p = [c].
Proof. inversion 1; eauto. Qed.

(** One character is the longest match where no packet starts. *)
Lemma flex_match_char t c rest :
  token_text t = [c] -> matches (token_rule t) [c] ->
  (c = 36 -> packet_body rest = None) ->
  (forall r, matches r [c] -> (rule_index (token_rule t) <= rule_index r)%nat) ->
  flex_match t rest.
Proof.
  intros Et Hm Hp Hr. split; rewrite Et; [done|]. intros r p q E Hpm.
  destruct (matches_length r p Hpm) as [->|[x ->]].
  - destruct (packet_prefix p q c rest Hpm E) as [-> Eb]. by rewrite Hp in Eb.
  - injection E as -> _. right. split; [done|]. by apply Hr.
Qed.

Lemma flex_match_packet text a b rest :
  plain_text text -> is_hex a = true -> is_hex b = true ->
  flex_match (Packet (36 :: text ++ [35; a; b])) rest.
Proof.
  intros Ht Ha Hb. split; [by constructor|]. cbn [token_text token_rule].
  intros r p q E Hpm. destruct (matches_length r p Hpm) as [->|[x ->]].
  - destruct (packet_prefix p q 36 ((text ++ [35; a; b]) ++ rest) Hpm E) as [_ Eb].
    rewrite <- app_assoc, packet_body_match in Eb by done.
    right. split; [|done]. apply (f_equal length) in E. injection Eb as Et <-.
    rewrite length_app, length_app in E. cbn [length] in *.
    rewrite length_app in E |- *. cbn [length] in *. lia.
  - left. cbn [length]. rewrite length_app. simpl. lia.
Qed.

Lemma next_token_lexed input t rest :
  next_token input = Some (t, rest) ->
  input = token_text t ++ rest /\ flex_match t rest.
Proof.
  destruct input as [|c s]; [done|]. cbn [next_token]. intros E.
  assert (forall t' , token_text t' = [c] -> (c = 36 -> packet_body s = None) ->
    matches (token_rule t') [c] ->
    (forall r, matches r [c] -> (rule_index (token_rule t') <= rule_index r)%nat) ->
    t' = t -> s = rest -> c :: s = token_text t ++ rest /\ flex_match t rest) as Hchar.
  { intros t' Et Hp Hm Hr <- <-. rewrite Et.
    split; [done|]. by eapply flex_match_char. }
  destruct (Z.eqb_spec c 43) as [->|H43]; [injection E as E1 E2; apply (Hchar Ack); try done|].
  { constructor. }
  { intros r _. simpl. lia. }
  destruct (Z.eqb_spec c 45) as [->|H45];
    [injection E as E1 E2; apply (Hchar Retransmit); try done|].
  { constructor. }
  { intros r Hr. inversion Hr; simpl; lia. }
  destruct (Z.eqb_spec c 36) as [->|H36].
  - destruct (packet_body s) as [[b r]|] eqn:Eb; injection E as E1 E2.
    + subst t rest.
      destruct (packet_body_inv _ _ _ Eb) as (text & x & y & -> & -> & Ht & Hx & Hy).
      split; [done|]. by apply flex_match_packet.
    + apply (Hchar (Other 36)); try done; [by constructor|].
      intros r Hr. inversion Hr; simpl; try lia. by destruct text.
  - destruct (Z.eqb_spec c 10) as [->|H10]; injection E as E1 E2.
    + apply (Hchar Newline); try done; [constructor|].
      intros r Hr. by inversion Hr.
    + apply (Hchar (Other c)); try done; [by constructor|].
      intros r Hr. inversion Hr; simpl; try lia; congruence.
Qed.

Lemma tokens_lexed n input :
  (length input <= n)%nat -> lexed input (tokens n input).
Proof.
  revert input. induction n as [|n IH]; intros [|c s] Hl; simpl in Hl; try lia;
    try constructor.
  cbn [tokens]. destruct (next_token (c :: s)) as [[t rest]|] eqn:E; [|done].
  destruct (next_token_lexed _ _ _ E) as [Ei Hf]. rewrite Ei. constructor; [done|].
  apply IH. apply (f_equal length) in Ei. rewrite length_app in Ei. simpl in Ei.
  assert (0 < length (token_text t))%nat; [|lia].
  destruct Hf as [Hm _]. inversion Hm; simpl; lia.
Qed.

(** C25. The scanner splits every input into the tokens flex defines: each is
    the longest match of the rules of scanner.l at its place and, among the
    rules with that match, of the first one; nothing of the input is lost, and
    as many turns as it has bytes are enough. *)
Theorem scanner_tokens input : lexed input (tokens (length input) input).
Proof. by apply tokens_lexed. Qed.

(** ** Streams of messages *)

Inductive message :=
  | MAck
  | MRetransmit
  | MPacket (c : Z) (text : list Z) (k : Z).

Definition wire (m : message) : list Z :=
  match m with
  | MAck => [43]
  | MRetransmit => [45]
  | MPacket c text k => 36 :: c :: text ++ 35 :: hex2 k
  end.
Definition message_token (m : message) : token :=
  match m with
  | MAck => Ack | MRetransmit => Retransmit | MPacket _ _ _ => Packet (wire m)
  end.
Definition message_ok (m : message) : Prop :=
  match m with
  | MPacket c text k => plain_text (c :: text) /\ 0 <= k < 256
  | _ => True
  end.

(** A byte no rule but [.] matches at any place. *)
Definition noise (c : Z) : Prop := c <> 43 /\ c <> 45 /\ c <> 36 /\ c <> 10.

Lemma is_hex_digit d : 0 <= d < 16 -> is_hex (hex_digit d) = true.
Proof.
  intros Hd. unfold is_hex, hex_digit. destruct (Z.ltb_spec d 10); lia.
Qed.

Lemma next_token_message m rest :
  message_ok m -> next_token (wire m ++ rest) = Some (message_token m, rest).
Proof.
  destruct m as [| |c text k]; [done..|]. intros [Ht Hk].
  cbn [wire app next_token]. simpl Z.eqb. cbv iota.
  pose proof (packet_body_match (c :: text) (hex_digit (k / 16)) (hex_digit (k mod 16))
    rest Ht) as E. unfold hex2.
  rewrite <- app_assoc. cbn [app] in E |- *.
  rewrite E; [done| |]; apply is_hex_digit.
  - split; [apply Z.div_pos; lia | apply Z.div_lt_upper_bound; lia].
  - by apply Z.mod_pos_bound.
Qed.

Lemma next_token_noise c rest :
  noise c -> next_token (c :: rest) = Some (Other c, rest).
Proof.
  intros (H1 & H2 & H3 & H4). cbn [next_token].
  by rewrite !(proj2 (Z.eqb_neq c _)) by assumption.
Qed.

(** A connection: runs of noise, each followed by a message, and a last run. *)
Definition stream (items : list (list Z * message)) (last : list Z) : list Z :=
  foldr (fun i s => i.1 ++ wire i.2 ++ s) last items.
Definition stream_tokens (items : list (list Z * message)) (last : list Z)
    : list token :=
  foldr (fun i ts => (Other <$> i.1) ++ message_token i.2 :: ts) (Other <$> last) items.

Lemma tokens_noise n cs rest :
  Forall noise cs ->
  tokens (length cs + n) (cs ++ rest) = (Other <$> cs) ++ tokens n rest.
Proof.
  induction 1 as [|c cs Hc _ IH]; [done|]. cbn [length Nat.add app tokens].
  rewrite next_token_noise by done. by rewrite IH.
Qed.

Lemma tokens_nil n : tokens n [] = [].
Proof. by destruct n. Qed.

Lemma tokens_stream items last n :
  Forall (fun i => Forall noise i.1 /\ message_ok i.2) items -> Forall noise last ->
  (length (stream items last) <= n)%nat ->
  tokens n (stream items last) = stream_tokens items last.
Proof.
  intros Hi Hlast. revert n.
  induction Hi as [|[cs m] items [Hcs Hm] _ IH]; intros n Hn; simpl in *.
  - replace n with (length last + (n - length last))%nat by lia.
    pose proof (tokens_noise (n - length last) last [] Hlast) as E.
    by rewrite tokens_nil, !app_nil_r in E.
  - rewrite !length_app in Hn.
    replace n with (length cs + (n - length cs))%nat by lia.
    rewrite tokens_noise by done. f_equal.
    assert (0 < length (wire m))%nat by (destruct m; simpl; lia).
    destruct (n - length cs)%nat as [|n'] eqn:En; [lia|]. cbn [tokens].
    rewrite next_token_message by done. f_equal. apply IH. lia.
Qed.

(** ** What the actions do *)

Section Serving.
Context `{T : Target}.

(** The connection with [n] more requests for retransmission sent. *)
Definition required (n : nat) (g : gdbs) : gdbs := {|
  g_sim := g_sim g; g_data := g_data g; g_out := g_out g ++ replicate n 45;
  g_shut := g_shut g |}.

(** The requests a run of [n] bytes of noise is answered with: one for every
    1023 bytes begun. *)
Definition requests (n : nat) : nat := Z.to_nat ((Z.of_nat n + 1022) / 1023).

Definition scanned (s : scanner) (g : gdbs) (b : list Z) (l : Z) : scanner := {|
  sc_gdb := g; sc_data := {| buffer := b; buffer_len := l |}; sc_echo := sc_echo s |}.

Lemma required_0 g : required 0 g = g.
Proof. unfold required. simpl. rewrite app_nil_r. by destruct g. Qed.

Lemma required_add n m g : required n (required m g) = required (m + n) g.
Proof. unfold required. simpl. by rewrite <- app_assoc, <- replicate_add. Qed.

Lemma handle_error_run s b l g :
  length b = 1024%nat -> 0 <= l < 1024 ->
  exists b', length b' = 1024%nat /\
    handle_error (scanned s g b l) =
      Ok () (scanned s (required (if l =? 0 then O else 1%nat) g) b' 0).
Proof.
  intros Hb Hl. unfold handle_error.
  rewrite (bind_ok _ _ _ {| buffer := b; buffer_len := l |} (scanned s g b l)) by done.
  cbn [buffer buffer_len]. unfold c_true. destruct (Z.eqb_spec l 0) as [->|H0]; cbn [negb].
  - exists b. by rewrite required_0.
  - rewrite buf_set_Some by lia. eexists. split; [|done]. by rewrite length_insert.
Qed.

Lemma add_character_run s b l g c :
  length b = 1024%nat -> 0 <= l < 1024 ->
  exists b', length b' = 1024%nat /\
    add_character_to_error c (scanned s g b l) =
      Ok () (if l <=? 1022 then scanned s g b' (l + 1)
             else scanned s (required 1 g) b' 1).
Proof.
  intros Hb Hl. unfold add_character_to_error.
  rewrite (bind_ok _ _ _ {| buffer := b; buffer_len := l |} (scanned s g b l)) by done.
  cbn [buffer buffer_len]. change (MAX_ERROR_SIZE - 2) with 1022.
  destruct (Z.ltb_spec 1022 l), (Z.leb_spec l 1022); try lia.
  - destruct (handle_error_run s b l g Hb Hl) as (b' & Hb' & E).
    rewrite (bind_ok _ _ _ _ _ E).
    rewrite (proj2 (Z.eqb_neq l 0)) by lia.
    set (s' := scanned _ _ b' 0).
    rewrite (bind_ok _ _ s' {| buffer := b'; buffer_len := 0 |} s') by done.
    cbn [buffer buffer_len]. rewrite buf_set_Some by lia.
    eexists. split; [|done]. by rewrite length_insert.
  - rewrite (bind_ok _ _ (scanned s g b l) () (scanned s g b l)) by done.
    rewrite (bind_ok _ _ _ {| buffer := b; buffer_len := l |} (scanned s g b l)) by done.
    cbn [buffer buffer_len]. rewrite buf_set_Some by lia.
    eexists. split; [|done]. by rewrite length_insert.
Qed.

Lemma noise_run fuel frs after s cs : forall k b l g,
  length b = 1024%nat -> 0 <= l < 1024 ->
  exists b' q l', length b' = 1024%nat /\ 0 <= l' < 1024 /\
    actions fuel frs after k (Other <$> cs) (scanned s g b l) =
      Ok () (scanned s (required q g) b' l') /\
    l + Z.of_nat (length cs) = 1023 * Z.of_nat q + l' /\
    (l' = 0 -> l + Z.of_nat (length cs) = 0).
Proof.
  induction cs as [|c cs IH]; intros k b l g Hb Hl.
  - exists b, O, l. rewrite required_0. split_and!; try done; simpl; lia.
  - destruct (add_character_run s b l g c Hb Hl) as (b1 & Hb1 & E1).
    cbn [fmap list_fmap actions action]. rewrite (bind_ok _ _ _ _ _ E1).
    destruct (Z.leb_spec l 1022).
    + destruct (IH (Datatypes.S k) b1 (l + 1) g Hb1) as (b' & q & l' & ? & ? & E & ?);
        [lia|]. exists b', q, l'. split_and!; try done; simpl; lia.
    + destruct (IH (Datatypes.S k) b1 1 (required 1 g) Hb1)
        as (b' & q & l' & ? & ? & E & ?); [lia|].
      exists b', (1 + q)%nat, l'. rewrite required_add in E.
      split_and!; try done; simpl; lia.
Qed.

(** A run of noise that starts with an empty buffer, up to the next flush. *)
Lemma noise_flushed fuel frs after s cs k b g :
  length b = 1024%nat ->
  exists b', length b' = 1024%nat /\
    (actions fuel frs after k (Other <$> cs);; handle_error) (scanned s g b 0) =
      Ok () (scanned s (required (requests (length cs)) g) b' 0).
Proof.
  intros Hb. destruct (noise_run fuel frs after s cs k b 0 g Hb)
    as (b1 & q & l & Hb1 & Hl & E1 & Eq & H0); [lia|].
  rewrite (bind_ok _ _ _ _ _ E1).
  destruct (handle_error_run s b1 l (required q g) Hb1 Hl) as (b2 & Hb2 & E2).
  exists b2. split; [done|]. rewrite E2, required_add. do 3 f_equal.
  unfold requests. rewrite Z.add_0_l in Eq, H0. rewrite Eq.
  replace (1023 * Z.of_nat q + l + 1022) with (l + 1022 + Z.of_nat q * 1023) by lia.
  rewrite Z.div_add by lia. destruct (Z.eqb_spec l 0) as [->|Hne].
  - change ((0 + 1022) / 1023) with 0. lia.
  - rewrite <- (Z.div_unique (l + 1022) 1023 1 (l - 1)) by lia. lia.
Qed.

(** How the connection answers one message, [rest] being what follows the
    packet in memory, and a stream. *)
Definition serve (fuel : nat) (fr : gframe) (rest : list Z) (m : message) : Gdb unit :=
  match m with
  | MAck => mret ()
  | MRetransmit => gdb_transmit_packet
  | MPacket c text k =>
      if checksum (c :: text) =? k then
        gdb_send_ack;;
        match handler c with
        | Some cmd => run_handler fuel fr cmd (text ++ 0 :: hex2 k ++ 0 :: rest)
        | None => gdb_send_data []
        end
      else gdb_require_retransmission
  end.

Fixpoint serve_all (fuel : nat) (frs : nat -> gframe) (after : nat -> list Z)
    (k : nat) (items : list (list Z * message)) (last : list Z) : Gdb unit :=
  match items with
  | [] => Rio_writen (replicate (requests (length last)) 45)
  | (cs, m) :: items =>
      Rio_writen (replicate (requests (length cs)) 45);;
      serve fuel (frs (k + length cs)%nat) (after (k + length cs)%nat) m;;
      serve_all fuel frs after (Datatypes.S (k + length cs)) items last
  end.

Lemma message_action fuel fr rest m s b l g :
  message_ok m -> length b = 1024%nat -> 0 <= l < 1024 ->
  action fuel fr rest (message_token m) (scanned s g b l) =
  (handle_error;; on_gdb (serve fuel fr rest m)) (scanned s g b l).
Proof.
  intros Hm Hb Hl. destruct (handle_error_run s b l g Hb Hl) as (b' & _ & E).
  rewrite (bind_ok _ _ _ _ _ E).
  destruct m as [| |c text k]; cbn [message_token action].
  - by rewrite (bind_ok _ _ _ _ _ E).
  - by rewrite (bind_ok _ _ _ _ _ E).
  - rewrite (bind_ok _ _ _ _ _ E). cbn [on_gdb scan_lexer]. unfold scan_gdb. cbn [sc_gdb scanned].
    set (g' := required _ g).
    replace (Z.of_nat (length (wire (MPacket c text k))))
      with (Z.of_nat (length text) + 5)
      by (simpl; rewrite length_app; simpl; lia).
    replace (wire (MPacket c text k) ++ 0 :: rest) with (received c text k rest)
      by (unfold received; cbn [wire app]; by rewrite <- app_assoc).
    pose proof (packet_analysis_eq fuel fr g' c text k rest (proj2 Hm)) as E2.
    cbv zeta in E2. rewrite E2. cbn [serve].
    by destruct (checksum (c :: text) =? k).
Qed.

Lemma actions_app fuel frs after ts1 ts2 : forall k s,
  actions fuel frs after k (ts1 ++ ts2) s =
  (actions fuel frs after k ts1;; actions fuel frs after (k + length ts1)%nat ts2) s.
Proof.
  induction ts1 as [|t ts1 IH]; intros k s; cbn [app actions length].
  - by rewrite Nat.add_0_r.
  - rewrite !bind_eq. destruct (action (G := Gdb) (M := Scan) _ _ _ t s) as [[] s'|f]; [|done].
    rewrite IH, bind_eq. by rewrite Nat.add_succ_r.
Qed.

(** [m] does on the connection what [f] does, and leaves the buffer empty. *)
Definition serves (m : Scan unit) (f : Gdb unit) : Prop :=
  forall s b g, length b = 1024%nat ->
    match f g with
    | Ok _ g' => exists b', length b' = 1024%nat /\
        m (scanned s g b 0) = Ok () (scanned s g' b' 0)
    | Fault e => m (scanned s g b 0) = Fault e
    end.

Lemma serves_bind (m : Scan unit) (k : Scan unit) (f h : Gdb unit) :
  serves m f -> serves k h -> serves (m;; k) (f;; h).
Proof.
  intros Hm Hk s b g Hb. specialize (Hm s b g Hb). rewrite (bind_eq f).
  destruct (f g) as [[] g1|e].
  - destruct Hm as (b1 & Hb1 & E). rewrite (bind_ok _ _ _ _ _ E).
    exact (Hk s b1 g1 Hb1).
  - by rewrite (bind_fault _ _ _ _ Hm).
Qed.

Lemma serves_noise fuel frs after k cs :
  serves (actions fuel frs after k (Other <$> cs);; handle_error)
    (Rio_writen (replicate (requests (length cs)) 45)).
Proof. intros s b g Hb. by apply noise_flushed. Qed.

Lemma serves_on_gdb (f : Gdb unit) : serves (on_gdb f) f.
Proof.
  intros s b g Hb. cbn [on_gdb scan_lexer]. unfold scan_gdb. cbn [sc_gdb scanned].
  destruct (f g) as [[] g'|e]; [|done]. by exists b.
Qed.

Lemma bind_assoc {S A B C} (m : ST S A) (f : A -> ST S B) (h : B -> ST S C) s :
  ((m ≫= f) ≫= h) s = (m ≫= (fun a => f a ≫= h)) s.
Proof. rewrite !bind_eq. by destruct (m s). Qed.

Lemma bind_app_actions fuel frs after k ts1 ts2 (m : Scan unit) s :
  (actions fuel frs after k (ts1 ++ ts2);; m) s =
  (actions fuel frs after k ts1;;
   actions fuel frs after (k + length ts1)%nat ts2;; m) s.
Proof.
  rewrite bind_eq, actions_app, <- (bind_eq _ (fun _ => m)). apply bind_assoc.
Qed.

(** A run of noise and the message after it. *)
Lemma serves_item fuel frs after k cs m :
  message_ok m ->
  serves
    (actions fuel frs after k ((Other <$> cs) ++ [message_token m]))
    (Rio_writen (replicate (requests (length cs)) 45);;
     serve fuel (frs (k + length cs)%nat) (after (k + length cs)%nat) m).
Proof.
  intros Hm s b g Hb.
  pose proof (serves_bind _ _ _ _ (serves_noise fuel frs after k cs)
    (serves_on_gdb (serve fuel (frs (k + length cs)%nat) (after (k + length cs)%nat) m))
    s b g Hb) as H.
  destruct (noise_run fuel frs after s cs k b 0 g Hb)
    as (b1 & q & l & Hb1 & Hl & E1 & _); [lia|].
  rewrite actions_app, (bind_ok _ _ _ _ _ E1), length_fmap. cbn [actions].
  rewrite bind_assoc, (bind_ok _ _ _ _ _ E1) in H.
  assert (forall x, (action fuel (frs x) (after x) (message_token m);; mret ())
    (scanned s (required q g) b1 l) =
    (handle_error;; on_gdb (serve fuel (frs x) (after x) m))
      (scanned s (required q g) b1 l)) as ->; [|exact H].
  intros x. rewrite bind_eq, (message_action _ _ _ m s b1 l (required q g) Hm Hb1 Hl).
  match goal with |- _ = ?t => by destruct t as [[]|] end.
Qed.

Lemma serves_stream fuel frs after items last : forall k,
  Forall (fun i => message_ok i.2) items ->
  serves (actions fuel frs after k (stream_tokens items last);; handle_error)
    (serve_all fuel frs after k items last).
Proof.
  induction items as [|[cs m] items IH]; intros k Hi.
  - apply serves_noise.
  - apply Forall_cons_1 in Hi as [Hm Hi]. intros s b g Hb.
    pose proof (serves_bind _ _ _ _ (serves_item fuel frs after k cs m Hm)
      (IH (Datatypes.S (k + length cs)) Hi) s b g Hb) as H.
    cbn [serve_all].
    change (stream_tokens ((cs, m) :: items) last)
      with ((Other <$> cs) ++ message_token m :: stream_tokens items last).
    replace ((Other <$> cs) ++ message_token m :: stream_tokens items last)
      with (((Other <$> cs) ++ [message_token m]) ++ stream_tokens items last)
      by (by rewrite <- app_assoc).
    rewrite (bind_app_actions fuel frs after k).
    rewrite length_app, length_fmap, Nat.add_1_r, Nat.add_succ_r.
    rewrite (bind_assoc _ _ _ g) in H. exact H.
Qed.

Lemma session_served fuel frs after items last s :
  length (buffer (sc_data s)) = 1024%nat -> buffer_len (sc_data s) = 0 ->
  Forall (fun i => Forall noise i.1 /\ message_ok i.2) items -> Forall noise last ->
  match serve_all fuel frs after 0 items last (sc_gdb s) with
  | Ok _ g => exists b, length b = 1024%nat /\
      yylex fuel frs after (stream items last) s = Ok () (scanned s g b 0)
  | Fault e => yylex fuel frs after (stream items last) s = Fault e
  end.
Proof.
  intros Hb Hl Hi Hlast. unfold yylex. rewrite tokens_stream by done.
  destruct s as [g [b l] e]. cbn [sc_gdb sc_data buffer buffer_len] in *. subst l.
  assert (Forall (fun i : list Z * message => message_ok i.2) items) as Hm
    by (revert Hi; apply Forall_impl; by intros i []).
  exact (serves_stream fuel frs after items last 0 Hm
    (Build_scanner g (Build_parser_data b 0) e) b g Hb).
Qed.

(** C12. A connection is handled message by message: on any stream of
    acknowledgements, requests for retransmission and framed packets, good or
    bad, with runs of other bytes between them, the scanner answers each run of
    [n] such bytes with one request for retransmission for every 1023 bytes
    begun, serves each message as [serve] says, with the text of the packet and
    its command, and never leaves its error buffer; a fault of a handler is the
    only one. *)
Theorem scanner_session fuel frs after items last s :
  length (buffer (sc_data s)) = 1024%nat -> buffer_len (sc_data s) = 0 ->
  Forall (fun i => Forall noise i.1 /\ message_ok i.2) items -> Forall noise last ->
  match serve_all fuel frs after 0 items last (sc_gdb s) with
  | Ok _ g => exists b, length b = 1024%nat /\
      yylex fuel frs after (stream items last) s = Ok () (scanned s g b 0)
  | Fault e => yylex fuel frs after (stream items last) s = Fault e
  end.
Proof. apply session_served. Qed.
End Serving.
