(* ===== verification/Stub.v ===== *)
(** * The gdb stub as a specification

    [stub] says what a gdb stub owes its client, on the bare processor: for each
    request the next state and the reply, without packets, buffers, traces or
    checksums.  The connection of Scanner.v implements it: a session of
    well-formed requests is answered as the specification says.

    A number in a request is a list of hexadecimal digits, so that leading
    zeros are allowed. *)
From S2P Require Import Prelude Util Constants Memory Registers Trace Core.
From S2P Require Import Refine LoadStore Branch Instruction Run Invariant.
From S2P Require Import ArmSpec Correct Execute Examples Gdb Packets Handlers.
From S2P Require Import Access General Scanner Session.

(** ** Numbers *)

Definition digits (ds : list Z) : Prop := ds <> [] /\ Forall (fun d => 0 <= d < 16) ds.
Definition number (ds : list Z) : Z := fold_left (fun acc d => acc * 16 + d) ds 0.
Definition spelled (ds : list Z) : list Z := hex_digit <$> ds.

(** A text no number goes on with. *)
Definition stops (s : list Z) : Prop :=
  match s with [] => True | c :: _ => digit_value c = None /\ c <> 120 /\ c <> 88 end.

Lemma hex_digit_facts d :
  0 <= d < 16 ->
  digit_value (hex_digit d) = Some d /\ isspace (hex_digit d) = false /\
  47 < hex_digit d < 103 /\ hex_digit d <> 58 /\ hex_digit d <> 88.
Proof.
  revert d. apply (range_cases (fun d => digit_value (hex_digit d) = Some d /\
    isspace (hex_digit d) = false /\ 47 < hex_digit d < 103 /\ hex_digit d <> 58 /\
    hex_digit d <> 88) 16).
  cbv [seq fmap list_fmap].
  repeat (apply Forall_cons_2; [by repeat split|]). apply Forall_nil_2.
Qed.

Lemma scan_digits_spelled ds : forall w rest acc n,
  Forall (fun d => 0 <= d < 16) ds -> (length ds <= w)%nat -> stops rest ->
  scan_digits 16 w (spelled ds ++ rest) acc n =
  (fold_left (fun acc d => acc * 16 + d) ds acc, (length ds + n)%nat, rest).
Proof.
  induction ds as [|d ds IH]; intros w rest acc n Hd Hw Hr.
  - cbn [spelled fmap list_fmap app fold_left length]. destruct w as [|w]; [done|].
    destruct rest as [|c rest]; [done|]. cbn [scan_digits]. destruct Hr as [-> _]. done.
  - apply Forall_cons_1 in Hd as [Hd Hds]. destruct w as [|w]; simpl in Hw; [lia|].
    cbn [spelled fmap list_fmap app scan_digits].
    destruct (hex_digit_facts d Hd) as [-> _]. destruct (Z.ltb_spec d 16); [|lia].
    fold (spelled ds). rewrite (IH w rest) by (done || lia). cbn [fold_left length].
    by rewrite Nat.add_succ_r.
Qed.

(** There is no 0x prefix. *)
Lemma no_prefix {A} w c (s : list Z) (f : nat -> list Z -> A) (g : A) :
  (c = 48 -> match s with x :: _ => x <> 120 /\ x <> 88 | [] => True end) ->
  match w with
  | O => g
  | Datatypes.S w' =>
      match c with
      | 48 => match s with
              | [] => g
              | x :: s' => if (x =? 120) || (x =? 88) then f w' s' else g
              end
      | _ => g
      end
  end = g.
Proof.
  intros H. destruct w as [|w]; [done|]. destruct (Z.eq_dec c 48) as [->|Hc].
  - destruct s as [|x s]; [done|]. destruct (H eq_refl).
    by rewrite (proj2 (Z.eqb_neq x 120)), (proj2 (Z.eqb_neq x 88)).
  - destruct c as [|c|c]; try done. do 6 (try done; destruct c as [c|c|]); done.
Qed.

Lemma scan_number ds w rest :
  digits ds -> (length ds <= w)%nat -> stops rest -> 0 <= number ds < 2 ^ 32 ->
  scan_hex w (spelled ds ++ rest) = Some (number ds, rest).
Proof.
  intros [Hne Hd] Hw Hr Hn. unfold scan_hex.
  destruct ds as [|d ds]; [done|]. pose proof (Forall_cons_1 _ _ _ Hd) as [H0 Hds].
  destruct (hex_digit_facts d H0) as (_ & Hsp & Hb & _).
  destruct w as [|w]; [simpl in Hw; lia|].
  cbn [spelled fmap list_fmap app skip_spaces]. rewrite Hsp. cbn [scan_sign].
  destruct (Z.eqb_spec (hex_digit d) 45); [lia|].
  destruct (Z.eqb_spec (hex_digit d) 43); [lia|].
  fold (spelled ds). rewrite (no_prefix w (hex_digit d) (spelled ds ++ rest)
    (fun w' s' => (w', s', true)) (Datatypes.S w, hex_digit d :: spelled ds ++ rest, false)).
  2:{ intros _. destruct ds as [|d' ds]; [destruct rest; simpl in *; tauto|].
      apply Forall_cons_1 in Hds as [H1 _].
      destruct (hex_digit_facts d' H1) as (_ & _ & ? & _ & ?). simpl. lia. }
  change (hex_digit d :: spelled ds ++ rest) with (spelled (d :: ds) ++ rest).
  rewrite (scan_digits_spelled (d :: ds)) by done. cbn [length Nat.add].
  change (fold_left _ (d :: ds) 0) with (number (d :: ds)).
  unfold strtoul_value. destruct (Z.ltb_spec (number (d :: ds)) (2 ^ 64)); [|lia].
  by rewrite u32_small.
Qed.

Lemma spelled_chars ds :
  Forall (fun d => 0 <= d < 16) ds ->
  Forall (fun c => is_char c /\ c <> 58 /\ c <> 36 /\ c <> 35) (spelled ds).
Proof.
  intros Hd. apply Forall_fmap. eapply Forall_impl; [|exact Hd]. intros d H. simpl.
  destruct (hex_digit_facts d H) as (_ & _ & ? & ? & _). unfold is_char. lia.
Qed.

Lemma cstring_total s r : exists t, cstring (s ++ 0 :: r) = Some t.
Proof.
  induction s as [|c s [t IH]]; [by exists []|]. cbn [app cstring]. rewrite IH.
  destruct c; by eexists.
Qed.

(** "a,n" at the head of the data of a request. *)
Lemma sscanf_numbers a n more t a0 n0 :
  digits a -> digits n -> 0 <= number a < 2 ^ 32 -> 0 <= number n < 2 ^ 32 ->
  cstring more = Some t -> stops t ->
  sscanf_x_x (spelled a ++ 44 :: spelled n ++ more) a0 n0 = Some (number a, number n).
Proof.
  intros Ha Hn Hba Hbn Ht Hst. unfold sscanf_x_x.
  assert (forall ds, Forall (fun d => 0 <= d < 16) ds -> Forall is_char (spelled ds)) as Hc.
  { intros ds Hd. eapply Forall_impl; [|by apply spelled_chars]. by intros c [? _]. }
  assert (cstring (spelled a ++ 44 :: spelled n ++ more) =
    Some (spelled a ++ 44 :: spelled n ++ t)) as ->.
  { apply cstring_app; [apply Hc, Ha|].
    apply (cstring_app (44 :: spelled n)); [|done]. constructor; [done|apply Hc, Hn]. }
  cbn [mbind option_bind].
  rewrite (scan_number a) by
    (done || by rewrite length_app; unfold spelled; rewrite length_fmap; lia).
  rewrite (scan_number n) by
    (done || by rewrite length_app; unfold spelled; rewrite length_fmap; lia).
  done.
Qed.

Lemma after_char_found c pre r :
  Forall (fun x => x <> c /\ x <> 0) pre -> after_char c (pre ++ c :: r) = Some r.
Proof.
  induction 1 as [|x pre [Hx H0] _ IH]; cbn [app after_char]; [by rewrite Z.eqb_refl|].
  by rewrite (proj2 (Z.eqb_neq x c)), (proj2 (Z.eqb_neq x 0)).
Qed.

(** ** Requests *)

Inductive request :=
  | Continue | Step | Reason | ReadRegisters
  | WriteRegisters (vs junk : list Z) (cpsr : Z)
  | ReadRegister (r : Z)
  | WriteRegister (r v : Z)
  | ReadMemory (a n : list Z)
  | WriteMemory (a n bs : list Z)
  | Query (text : list Z)
  | SetThread (type : Z) (text : list Z)
  | Unknown (c : Z) (text : list Z).

Section Stub.
Context `{T : Target}.

(** A request as it is sent: its character and its text. *)
Definition request_char (q : request) : Z :=
  match q with
  | Continue => 99 | Step => 115 | Reason => 63 | ReadRegisters => 103
  | WriteRegisters _ _ _ => 71 | ReadRegister _ => 112 | WriteRegister _ _ => 80
  | ReadMemory _ _ => 109 | WriteMemory _ _ _ => 88 | Query _ => 113
  | SetThread _ _ => 72 | Unknown c _ => c
  end.
Definition request_text (q : request) : list Z :=
  match q with
  | Continue | Step | Reason | ReadRegisters => []
  | WriteRegisters vs junk cpsr => words vs ++ junk ++ word_text cpsr
  | ReadRegister r => decimal r
  | WriteRegister r v => hex_digit r :: 61 :: word_text v
  | ReadMemory a n => spelled a ++ 44 :: spelled n
  | WriteMemory a n bs => spelled a ++ 44 :: spelled n ++ 58 :: escape bs
  | Query text => text
  | SetThread type text => type :: text
  | Unknown _ text => text
  end.

Definition ok_reply : list Z := framed (bytes_of "OK").
Definition stop_reply : list Z := framed (bytes_of "S05").

Definition query_reply (text : list Z) : list Z :=
  if bool_decide (text = bytes_of "Offsets") then bytes_of "Text=0;Data=0;Bss=0"
  else if bool_decide (take 9 text = bytes_of "Supported") then bytes_of "PacketSize=400"
  else if bool_decide (text = bytes_of "TStatus") then bytes_of "T0;tnotrun:0"
  else [].
(** The continue and general threads can be set to any and to all. *)
Definition thread_reply (type : Z) (text : list Z) : list Z :=
  if ((type =? 99) || (type =? 103)) && ((atoi text =? 0) || (atoi text =? -1))
  then bytes_of "OK" else bytes_of "E01".

(** The request, the processor before and after it, and the reply.  A step is
    the one of the bare processor; the frames are what the code finds in its
    uninitialised variables. *)
Inductive stub (fuel : nat) (fr : gframe)
    : request -> arm_core_data -> arm_core_data -> list Z -> Prop :=
  | stub_continue n p q :
      run_until fr 0 n p q -> (n < fuel)%nat -> stub fuel fr Continue p q stop_reply
  | stub_step p q :
      arm_step (M := Arch) (gf_step fr 0) p = Ok 0 q -> stub fuel fr Step p q stop_reply
  | stub_reason p : stub fuel fr Reason p p stop_reply
  | stub_read_registers p :
      stub fuel fr ReadRegisters p p
        (framed (registers_text (reported_registers p) (cpsr_of p)))
  | stub_write_registers vs junk cpsr p :
      length vs = 16%nat -> Forall is_u32 vs -> is_u32 cpsr ->
      length junk = 200%nat -> Forall is_char junk -> plain_text junk ->
      stub fuel fr (WriteRegisters vs junk cpsr) p (set_all vs cpsr p) ok_reply
  | stub_read_register r p :
      0 <= r < 16 -> stub fuel fr (ReadRegister r) p p (framed (word_text (reported p r)))
  | stub_write_register r v p :
      0 <= r < 16 -> is_u32 v ->
      stub fuel fr (WriteRegister r v) p (set_gpr r v p) ok_reply
  | stub_read_memory a n p :
      digits a -> digits n -> 0 <= number a -> 0 <= number n <= 509 ->
      number a + number n <= mem_size (mem p) ->
      stub fuel fr (ReadMemory a n) p p
        (framed (mjoin (hex2 <$> area (mem p) (number a) (Z.to_nat (number n)))))
  | stub_write_memory a n bs p m :
      digits a -> digits n -> Forall is_u8 bs -> number n = Z.of_nat (length bs) ->
      0 <= number a < mem_size (mem p) -> number a + number n <= mem_size (mem p) ->
      stored (mem p) m (number a) bs ->
      stub fuel fr (WriteMemory a n bs) p (with_mem m p) ok_reply
  | stub_query text p :
      Forall is_char text -> plain_text text ->
      stub fuel fr (Query text) p p (framed (query_reply text))
  | stub_set_thread type text p :
      Forall is_char (type :: text) -> plain_text (type :: text) ->
      stub fuel fr (SetThread type text) p p (framed (thread_reply type text))
  | stub_unknown c text p :
      handler c = None -> plain_text (c :: text) ->
      stub fuel fr (Unknown c text) p p (framed []).

(** ** The handlers implement it *)

(** The connection holds the processor [p]; the last stop was a trap. *)
Record serving (g : gdbs) (p : arm_core_data) : Prop := {
  serving_ready : gdb_ready g;
  serving_arm : g_arm g = p;
  serving_exception : target_exception (g_data g) = 0
}.

(** [g'] is [g] after the reply [out], with the processor [p]. *)
Definition replied (m : Gdb unit) (g : gdbs) (p : arm_core_data) (out : list Z) : Prop :=
  exists g', m g = Ok () g' /\ serving g' p /\ g_out g' = g_out g ++ out.

Lemma replied_intro m g p out g' :
  m g = Ok () g' -> g_arm g' = p -> gdb_ready g' -> g_out g' = g_out g ++ out ->
  same_exception g g' -> target_exception (g_data g) = 0 -> replied m g p out.
Proof.
  intros E A Hr O X Hx. exists g'. split; [done|]. split; [|done].
  split; [done..|]. unfold same_exception in X. congruence.
Qed.

Lemma replied_text text g p :
  serving g p -> Forall is_char text -> (length text <= 1019)%nat ->
  replied (gdb_send_data text) g p (framed text).
Proof.
  intros [Hr Ha Hx] Hc Hl.
  destruct (send_data_answers g text (gr_packet _ Hr) Hc Hl) as (g' & E & H).
  eapply replied_intro; [exact E| | | | |exact Hx].
  - by rewrite (answered_arm _ _ _ H).
  - by eapply answered_ready.
  - by apply answered_out.
  - by eapply answered_exception.
Qed.

(** A constant reply. *)
Lemma replied_constant s g p :
  serving g p -> forallb (fun c => (0 <? c) && (c <? 256)) (bytes_of s) = true ->
  (length (bytes_of s) <= 1019)%nat ->
  replied (gdb_send_data (bytes_of s)) g p (framed (bytes_of s)).
Proof. intros Hs Hc Hl. apply replied_text; [done|by apply bytes_of_chars|done]. Qed.

Lemma replied_eq (m m' : Gdb unit) g p out :
  m g = m' g -> replied m' g p out -> replied m g p out.
Proof. intros E (g' & E' & H). exists g'. by rewrite E. Qed.

Lemma replied_stop g p : serving g p -> replied gdb_send_stop_reason g p stop_reply.
Proof.
  intros Hs. apply (replied_eq _ (gdb_send_data (bytes_of "S05"))).
  - unfold gdb_send_stop_reason. rewrite (bind_ok _ _ g (g_data g) g) by done.
    by rewrite (serving_exception _ _ Hs).
  - apply replied_constant; [done..|simpl; lia].
Qed.

Lemma replied_after (m : Gdb unit) (k : Gdb unit) g p q out g1 :
  m g = Ok () g1 -> serving g1 q -> g_out g1 = g_out g -> replied k g1 p out ->
  replied (m;; k) g p out.
Proof.
  intros E _ O (g2 & E2 & Hs & O2). exists g2. rewrite (bind_ok _ _ _ _ _ E).
  split; [done|]. split; [done|]. congruence.
Qed.

Lemma continue_refines fuel fr n g p q :
  serving g p -> run_until fr 0 n p q -> (n < fuel)%nat ->
  replied (cont fuel fr) g q stop_reply.
Proof.
  intros [Hr Ha Hx] Hrun Hf.
  pose proof (cont_loop_spec fr 0 n p q Hrun (gf_instruction fr) g fuel Hr Ha) as H.
  destruct (Nat.ltb_spec n fuel); [|lia]. destruct H as (g1 & E1 & A1 & Hg1 & O1 & X1).
  assert (serving g1 q) as Hs by (split; [done..|]; rewrite X1; by destruct n).
  by eapply replied_after; [exact E1|exact Hs|exact O1|apply replied_stop].
Qed.

Lemma step_refines fr g p q :
  serving g p -> arm_step (M := Arch) (gf_step fr 0) p = Ok 0 q ->
  replied (step fr) g q stop_reply.
Proof.
  intros [Hr <- Hx] E.
  destruct (step_and_trace_spec (gf_step fr 0) g q Hr E) as (g1 & E1 & A1 & Hg1 & O1 & X1).
  by eapply replied_after; [exact E1| |exact O1|apply replied_stop].
Qed.

Lemma query_refines text rest g p :
  serving g p -> Forall is_char text ->
  replied (query (text ++ 0 :: rest)) g p (framed (query_reply text)).
Proof.
  intros Hs Hc. apply (replied_eq _ (gdb_send_data (query_reply text))).
  - unfold query, query_reply. rewrite cstring_chars by done. cbn [of_option].
    rewrite (bind_ok _ _ g text g) by done. by repeat case_bool_decide.
  - unfold query_reply. repeat case_bool_decide.
    1-3: apply replied_constant; (done || (simpl; lia)).
    apply replied_text; [done|constructor|simpl; lia].
Qed.

Lemma buf_get_head {A} (x : A) l : buf_get (x :: l) 0 = Some x.
Proof.
  unfold buf_get, in_block. cbn [length].
  by destruct (Z.ltb_spec 0 (Z.of_nat (Datatypes.S (length l)))); [|lia].
Qed.

Lemma set_thread_refines type text rest g p :
  serving g p -> Forall is_char (type :: text) ->
  replied (set_thread (type :: text ++ 0 :: rest)) g p (framed (thread_reply type text)).
Proof.
  intros Hs Hc. apply Forall_cons_1 in Hc as [Ht Hc].
  assert (((atoi text =? 0) || (atoi text =? -1)) = ((atoi text <? 1) && (-2 <? atoi text)))
    as Et by lia.
  apply (replied_eq _ (gdb_send_data (thread_reply type text))).
  - unfold set_thread, thread_reply. rewrite buf_get_head. cbn [of_option].
    rewrite (bind_ok _ _ g type g) by done.
    change (drop 1 _) with (text ++ 0 :: rest).
    rewrite cstring_chars by done. cbn [of_option].
    rewrite (bind_ok _ _ g text g) by done. rewrite Et.
    by destruct ((type =? 99) || (type =? 103)), (atoi text <? 1), (-2 <? atoi text).
  - clear Et. unfold thread_reply. destruct (_ && _); apply replied_constant; (done || (simpl;
      lia)).
Qed.

(** Two memories that store the same bytes are the same. *)
Lemma stored_unique m m1 m2 a bs : stored m m1 a bs -> stored m m2 a bs -> m1 = m2.
Proof.
  intros (E1 & S1 & L1 & B1) (E2 & S2 & L2 & B2).
  destruct m1 as [e1 b1 s1], m2 as [e2 b2 s2]. cbn [mem_is_big_endian mem_size mem_address] in *.
  f_equal; [congruence| |congruence]. apply list_eq. intros i.
  specialize (B1 (Z.of_nat i)). specialize (B2 (Z.of_nat i)). rewrite <- B2 in B1.
  unfold byte_at, buf_get, in_block in B1. cbn [mem_address] in B1. rewrite Nat2Z.id in B1.
  destruct (Nat.lt_ge_cases i (length b1)) as [Hi|Hi].
  - destruct (Z.leb_spec 0 (Z.of_nat i)), (Z.ltb_spec (Z.of_nat i) (Z.of_nat (length b1))),
      (Z.ltb_spec (Z.of_nat i) (Z.of_nat (length b2))); try lia. exact B1.
  - by rewrite !lookup_ge_None_2 by lia.
Qed.

Lemma digits_bound_of p a :
  core_wf p -> 0 <= number a -> number a <= mem_size (mem p) -> 0 <= number a < 2 ^ 32.
Proof. intros Hp H0 H1. pose proof (mem_wf_limit _ (wf_mem _ Hp)). lia. Qed.

Lemma spelled_no ds :
  Forall (fun d => 0 <= d < 16) ds -> Forall (fun x => x <> 58 /\ x <> 0) (spelled ds).
Proof.
  intros Hd. eapply Forall_impl; [|by apply spelled_chars].
  intros x ([? ?] & ? & _). lia.
Qed.

Lemma read_memory_refines fr a n rest g p :
  serving g p -> digits a -> digits n -> 0 <= number a -> 0 <= number n <= 509 ->
  number a + number n <= mem_size (mem p) ->
  replied (read_memory fr (spelled a ++ 44 :: spelled n ++ 0 :: rest)) g p
    (framed (mjoin (hex2 <$> area (mem p) (number a) (Z.to_nat (number n))))).
Proof.
  intros Hs Ha Hn Ha0 Hn0 Hs1. pose proof Hs as [Hr <- Hx]. pose proof (gr_wf g Hr) as Hp.
  destruct (read_memory_run fr g (spelled a ++ 44 :: spelled n ++ 0 :: rest) (number a)
    (Z.to_nat (number n)) Hr) as (g' & E & A & Hr' & O & X); [lia|lia| |lia|].
  - rewrite Z2Nat.id by lia. apply (sscanf_numbers _ _ _ []);
      [done..|eapply digits_bound_of; (done || lia)|lia|done|done].
  - by eapply replied_intro.
Qed.

Lemma write_memory_refines fr a n bs rest g p m :
  serving g p -> digits a -> digits n -> Forall is_u8 bs -> number n = Z.of_nat (length bs) ->
  0 <= number a < mem_size (mem p) -> number a + number n <= mem_size (mem p) ->
  stored (mem p) m (number a) bs ->
  replied (write_memory_binary fr (spelled a ++ 44 :: spelled n ++ 58 :: escape bs ++ 0 :: rest))
    g (with_mem m p) ok_reply.
Proof.
  intros Hs Ha Hn Hbs Hl Ha0 Hs1 Hst. pose proof Hs as [Hr <- Hx].
  pose proof (gr_wf g Hr) as Hp. destruct (cstring_total (escape bs) rest) as (t & Et).
  destruct (write_memory_run fr g (spelled a ++ 44 :: spelled n ++ 58 :: escape bs ++ 0 :: rest)
    (number a) bs (0 :: rest) Hr Hbs) as (g' & m' & E & A & Hst' & O & Hr' & X); [lia|lia| | |].
  - rewrite <- Hl. apply (sscanf_numbers _ _ _ (58 :: t));
      [done..|eapply digits_bound_of; (done || lia)|eapply digits_bound_of; (done || lia)| |done].
    cbn [cstring]. by rewrite Et.
  - rewrite app_comm_cons, app_assoc. apply after_char_found.
    apply Forall_app. split; [apply spelled_no, Ha|].
    constructor; [done|]. apply spelled_no, Hn.
  - rewrite (stored_unique _ _ _ _ _ Hst Hst'). by eapply replied_intro.
Qed.

(** ** Dispatch *)

Definition dispatch (fuel : nat) (fr : gframe) (c : Z) (data : list Z) : Gdb unit :=
  match handler c with
  | Some cmd => run_handler fuel fr cmd data
  | None => gdb_send_data []
  end.

Lemma dispatch_refines fuel fr q p p' out rest g :
  stub fuel fr q p p' out -> serving g p ->
  replied (dispatch fuel fr (request_char q) (request_text q ++ 0 :: rest)) g p' out.
Proof.
  intros Hq Hs. pose proof Hs as [Hr Ha Hx].
  destruct Hq as [n p q Hrun Hf|p q E|p|p|vs junk cpsr p Hl Hv Hc Hjl Hj _|r p Hr0
    |r v p Hr0 Hv|a n p Ha' Hn Ha0 Hn0 Hsz|a n bs p m Ha' Hn Hbs Hl Ha0 Hsz Hst
    |text p Hc _|type text p Hc _|c text p Hc _];
    unfold dispatch; cbn [request_char request_text handler]; rewrite <- ?app_assoc.
  - by eapply continue_refines.
  - by eapply step_refines.
  - by apply replied_stop.
  - subst p. destruct (read_general_run g Hr) as (g' & E & A & Hr' & O & X).
    by eapply replied_intro.
  - subst p. destruct (write_general_run fr g vs junk cpsr (0 :: rest) [] Hr Hl Hv Hc Hj Hjl)
      as (g' & E & A & Hr' & O & X); [done|]. by eapply replied_intro.
  - subst p. destruct (read_register_run g r rest Hr Hr0) as (g' & E & A & Hr' & O & X).
    by eapply replied_intro.
  - subst p. destruct (write_register_run fr g r v (0 :: rest) [] Hr Hr0 Hv)
      as (g' & E & A & Hr' & O & X); [done|]. by eapply replied_intro.
  - cbn [app]. rewrite <- ?app_assoc. by eapply read_memory_refines.
  - cbn [app]. rewrite <- ?app_assoc. by eapply write_memory_refines.
  - by apply query_refines.
  - by apply set_thread_refines.
  - rewrite Hc. apply replied_text; [done|constructor|simpl; lia].
Qed.

(** ** Sessions *)

(** Hexadecimal text has no special character. *)
Lemma hex2_plain b : is_u8 b -> plain_text (hex2 b).
Proof.
  intros Hb. unfold is_u8 in Hb.
  assert (forall d, 0 <= d < 16 -> hex_digit d <> 36 /\ hex_digit d <> 35) as H.
  { intros d Hd. destruct (hex_digit_facts d Hd) as (_ & _ & ? & _). lia. }
  repeat constructor; apply H; (apply Z.mod_pos_bound || idtac); try lia.
  all: split; [apply Z.div_pos|apply Z.div_lt_upper_bound]; lia.
Qed.
Lemma join_plain {A} (f : A -> list Z) l : Forall (fun x => plain_text (f x)) l ->
  plain_text (mjoin (f <$> l)).
Proof. induction 1 as [|x l Hx _ IH]; [constructor|]. by apply Forall_app. Qed.
Lemma words_plain vs : plain_text (words vs).
Proof.
  apply join_plain, Forall_true. intros v. apply join_plain.
  eapply Forall_impl; [apply hex2_plain|]. unfold field_bytes.
  destruct (bytes_4 v) as (b0 & b1 & b2 & b3 & H0 & H1 & H2 & H3 & -> & _).
  destruct big_endian_simulator; repeat constructor; apply H0 || apply H1 || apply H2 || apply H3.
Qed.
Lemma word_plain v : plain_text (word_text v).
Proof. pose proof (words_plain [v]) as H. unfold words in H. cbn in H.
by rewrite app_nil_r in H. Qed.
Lemma spelled_plain ds : Forall (fun d => 0 <= d < 16) ds -> plain_text (spelled ds).
Proof.
  intros Hd. eapply Forall_impl; [|by apply spelled_chars]. by intros c (_ & _ & ?).
Qed.
Lemma escape_plain bs : plain_text (escape bs).
Proof.
  apply join_plain, Forall_true. intros b.
  destruct (decide (b = 0x23)) as [->|H1]; [by repeat constructor|].
  destruct (decide (b = 0x24)) as [->|H2]; [by repeat constructor|].
  destruct (decide (b = 0x2a)) as [->|H3]; [by repeat constructor|].
  destruct (decide (b = 0x7d)) as [->|H4]; [by repeat constructor|].
  unfold escaped. rewrite !(proj2 (Z.eqb_neq _ _)) by done.
  constructor; [done|constructor].
Qed.

Lemma stub_plain fuel fr q p p' out :
  stub fuel fr q p p' out -> plain_text (request_char q :: request_text q).
Proof.
  intros Hq. destruct Hq as [| | | |vs junk cpsr p _ _ _ _ _ Hj|r p Hr|r v p Hr _
    |a n p Ha Hn|a n bs p m Ha Hn| | |]; cbn [request_char request_text];
    try (constructor; [done|]); try done.
  - apply Forall_app; split; [apply words_plain|]. apply Forall_app; split; [done|apply word_plain].
  - unfold decimal. destruct (Z.ltb_spec r 10); repeat constructor; lia.
  - pose proof (hex_digit_facts r Hr) as (_ & _ & ? & _).
    constructor; [lia|]. constructor; [done|apply word_plain].
  - apply Forall_app; split; [apply spelled_plain, Ha|]. constructor; [done|].
    apply spelled_plain, Hn.
  - apply Forall_app; split; [apply spelled_plain, Ha|]. constructor; [done|].
    apply Forall_app; split; [apply spelled_plain, Hn|]. constructor; [done|apply escape_plain].
Qed.

(** What the client sends: acknowledgements of the replies, and requests, each
    acknowledged and answered. *)
Inductive client := Acknowledges | Requests (q : request).

Definition client_message (c : client) : message :=
  match c with
  | Acknowledges => MAck
  | Requests q =>
      MPacket (request_char q) (request_text q) (checksum (request_char q :: request_text q))
  end.
Definition sent_by (cs : list client) : list Z :=
  stream ((fun c => ([], client_message c)) <$> cs) [].

(** A session of the specification, its [k]-th message being handled with the
    frames [frs k]. *)
Inductive stub_session (fuel : nat) (frs : nat -> gframe)
    : nat -> list client -> arm_core_data -> arm_core_data -> list Z -> Prop :=
  | session_end k p : stub_session fuel frs k [] p p []
  | session_ack k cs p q out :
      stub_session fuel frs (Datatypes.S k) cs p q out ->
      stub_session fuel frs k (Acknowledges :: cs) p q out
  | session_request k r cs p p1 q out1 out :
      stub fuel (frs k) r p p1 out1 ->
      stub_session fuel frs (Datatypes.S k) cs p1 q out ->
      stub_session fuel frs k (Requests r :: cs) p q (43 :: out1 ++ out).

Lemma session_messages fuel frs k cs p q out :
  stub_session fuel frs k cs p q out ->
  Forall (fun i : list Z * message => Forall noise i.1 /\ message_ok i.2)
    ((fun c => ([], client_message c)) <$> cs).
Proof.
  induction 1 as [k p|k cs p q out _ IH|k r cs p p1 q out1 out Hr _ IH]; constructor;
    try exact IH; (split; [constructor|]); simpl; [done|].
  split; [by eapply stub_plain|apply checksum_range].
Qed.

Lemma serve_request fuel fr q p p' out rest g :
  stub fuel fr q p p' out -> serving g p ->
  exists g', serve fuel fr rest (client_message (Requests q)) g = Ok () g' /\
    serving g' p' /\ g_out g' = g_out g ++ 43 :: out.
Proof.
  intros Hq Hs. cbn [client_message serve]. rewrite Z.eqb_refl.
  set (g1 := {| g_sim := g_sim g; g_data := g_data g; g_out := g_out g ++ [43];
                g_shut := g_shut g |}).
  assert (gdb_send_ack g = Ok () g1) as E by done. rewrite (bind_ok _ _ _ _ _ E).
  assert (serving g1 p) as Hs1 by (destruct Hs as [[] ? ?]; by split).
  destruct (dispatch_refines fuel fr q p p' out
    (hex2 (checksum (request_char q :: request_text q)) ++ 0 :: rest) g1 Hq Hs1)
    as (g2 & E2 & Hs2 & O2).
  exists g2. split; [exact E2|]. split; [done|]. rewrite O2. unfold g1. cbn [g_out].
  by rewrite <- app_assoc.
Qed.

Lemma session_serves fuel frs after k cs p q out :
  stub_session fuel frs k cs p q out -> forall g, serving g p ->
  exists g', serve_all fuel frs after k ((fun c => ([], client_message c)) <$> cs) [] g
      = Ok () g' /\ serving g' q /\ g_out g' = g_out g ++ out.
Proof.
  assert (forall g, Rio_writen (replicate (requests 0) 45) g = Ok () g) as Hnone.
  { intros g. unfold Rio_writen. cbn. rewrite app_nil_r. by destruct g. }
  induction 1 as [k p|k cs p q out _ IH|k r cs p p1 q out1 out Hr _ IH]; intros g Hs;
    cbn [fmap list_fmap serve_all length].
  - exists g. split; [apply Hnone|]. by rewrite app_nil_r.
  - rewrite (bind_ok _ _ _ _ _ (Hnone g)). cbn [client_message serve].
    rewrite (bind_ok _ _ g () g) by done. rewrite Nat.add_0_r. by apply IH.
  - rewrite (bind_ok _ _ _ _ _ (Hnone g)), Nat.add_0_r.
    destruct (serve_request fuel (frs k) r p p1 out1 (after k) g Hr Hs) as (g1 & E1 & Hs1 & O1).
    rewrite (bind_ok _ _ _ _ _ E1).
    destruct (IH g1 Hs1) as (g2 & E2 & Hs2 & O2). exists g2. split; [exact E2|].
    split; [done|]. rewrite O2, O1, <- app_assoc. done.
Qed.

(** The lexer on a session: it answers as the specification does. *)
Lemma stub_session_refines fuel frs after cs p q out s :
  length (buffer (sc_data s)) = 1024%nat -> buffer_len (sc_data s) = 0 ->
  serving (sc_gdb s) p -> stub_session fuel frs 0 cs p q out ->
  exists s', yylex fuel frs after (sent_by cs) s = Ok () s' /\
    serving (sc_gdb s') q /\ g_out (sc_gdb s') = g_out (sc_gdb s) ++ out /\
    buffer_len (sc_data s') = 0.
Proof.
  intros Hb Hl Hs Hc.
  destruct (session_serves fuel frs after 0 cs p q out Hc _ Hs) as (g & E & Hg & O).
  pose proof (session_served fuel frs after ((fun c => ([], client_message c)) <$> cs) [] s
    Hb Hl (session_messages _ _ _ _ _ _ _ Hc) (Forall_nil_2 _)) as H.
  rewrite E in H. destruct H as (b & _ & Es). eexists. split; [exact Es|]. by split_and!.
Qed.
End Stub.
