(* ===== verification/Wellformed.v ===== *)
(** * What gdb may do to the processor

    Whatever gdb sends, the handlers keep the processor well formed, the
    location stack balanced, the packet 1024 bytes long and the size of the
    memory.  As in Related.v this is shown once, for any connection: [K m Q],
    which reads "[m] keeps the invariant and its result is in [Q]", is a
    judgment the operations of the connection satisfy ([Keeping]).  [Keeps] is
    the judgment of the connection that takes everything, with faults allowed;
    Safety.v has that of the threads. *)
From S2P Require Import Prelude Util Constants Memory Registers Trace Core.
From S2P Require Import Refine LoadStore Branch Instruction Run Invariant.
From S2P Require Import Gdb Handlers.

(** ** The simulator *)

Definition arm_ok (size : Z) (p : arm_core_data) : Prop :=
  core_wf p /\ mem_size (mem p) = size.
Definition sim_ok (size : Z) (s : sim) : Prop := ready 2 s /\ arm_ok size (s_arm s).

Section Sim.
Context `{T : Target}.
Context (size : Z).

Definition SimKeeps {A} (m : Sim A) (Q : A -> Prop) : Prop :=
  Triple True (sim_ok size) m Q.

(** The same of the processor. *)
Definition ArchKeeps {A} (f : Arch A) (Q : A -> Prop) : Prop :=
  Triple True (arm_ok size) f Q.

Lemma arch_keeps_regs {A} (f : registers_data -> option A) (Q : A -> Prop) :
  (forall r a, regs_wf r -> f r = Some a -> Q a) -> ArchKeeps (arch_regs f) Q.
Proof.
  intros H p Hp. unfold arch_regs. rewrite (bind_ok _ _ p p p) by done.
  destruct (f (reg p)) as [a|] eqn:E; [|done]. split; [done|].
  by eapply H; [apply Hp|].
Qed.

Lemma arch_keeps_store i v :
  is_u32 v -> ArchKeeps (arch_set_regs (fun r => store_register r i v)) (fun _ => True).
Proof.
  intros Hv p [[[Hl Hr] Hm Hc] Hsz]. unfold arch_set_regs, store_register.
  rewrite (bind_ok _ _ p p p) by done.
  destruct (buf_set (r_data (reg p)) i v) as [b|] eqn:E; [|done]. simpl.
  split; [|done]. split; [|done]. split; [|done..]. split; simpl.
  - by rewrite (buf_set_length _ _ _ _ E).
  - exact (buf_set_Forall is_u32 _ _ _ _ Hr Hv E).
Qed.

(** An operation of the simulator, by its reading on the processor. *)
Lemma sim_refines {A} n (m : Sim A) (f : Arch A) Q :
  (n <= 2)%nat -> Refines n m f -> ArchKeeps f Q -> SimKeeps m Q.
Proof.
  intros Hn Hm Hf s [Hr Ha]. specialize (Hf (s_arm s) Ha).
  specialize (Hm s (ready_le _ _ _ Hn Hr)).
  destruct (f (s_arm s)) as [a p|e]; [|by rewrite Hm].
  destruct Hm as (s' & -> & <- & Hev). destruct Hf as [Ha' HQ].
  split; [|done]. split; [by eapply ready_evolves|done].
Qed.

Lemma sim_located {A} line (m : Sim A) (f : Arch A) Q :
  Refines 0 m f -> ArchKeeps f Q -> SimKeeps (located "gdb_protocol.c" line m) Q.
Proof.
  intros Hm Hf. apply (sim_refines 1 _ (core_located "gdb_protocol.c" line f)); [lia| |done].
  by apply (refines_located 0 "gdb_protocol.c" line).
Qed.

Lemma sim_read_register line r :
  SimKeeps (located "gdb_protocol.c" line (Core.arm_read_register r)) is_u32.
Proof.
  eapply sim_located; [apply (refines_read_register 0 r)|].
  apply arch_keeps_regs. intros rs a Hrs E.
  destruct (read_register rs (u8 r)) as [v|] eqn:Er; [|done]. injection E as <-.
  apply pc_view_u32. eapply Forall_lookup_1; [apply Hrs|].
  unfold read_register, buf_get in Er. by destruct (in_block _ _).
Qed.

Lemma sim_write_register line r v :
  is_u32 v ->
  SimKeeps (located "gdb_protocol.c" line (arm_write_register r v)) (fun _ => True).
Proof.
  intros Hv. eapply sim_located; [apply (refines_write_register 0 r v)|].
  by apply arch_keeps_store.
Qed.

Lemma sim_read_cpsr line :
  SimKeeps (located "gdb_protocol.c" line arm_read_cpsr) (fun _ => True).
Proof.
  eapply sim_located; [apply (refines_read_cpsr 0)|].
  by apply arch_keeps_regs.
Qed.

Lemma sim_write_cpsr line v :
  is_u32 v ->
  SimKeeps (located "gdb_protocol.c" line (arm_write_cpsr v)) (fun _ => True).
Proof.
  intros Hv. eapply sim_located; [apply (refines_write_cpsr 0 v)|].
  by apply arch_keeps_store.
Qed.

Lemma sim_read_word line a x :
  SimKeeps (located "gdb_protocol.c" line (arm_read_word a x)) (fun _ => True).
Proof.
  eapply sim_located; [apply (refines_read_word 0 a x)|].
  intros p Hp. simpl. unfold arch_read. rewrite (bind_ok _ _ p p p) by done.
  by destruct (memory_read_word _ _ _).
Qed.

Lemma sim_keeps_step fr : SimKeeps (arm_step (M := Sim) fr) (fun _ => True).
Proof.
  apply (sim_refines 2 _ _ _ (le_n 2) (refines_step 0 fr)).
  intros p [Hp Hsz].
  pose proof (step_inv_preserved True _ _ _ fr p (core_wf_inv p Hp) (or_introl I)) as H.
  destruct (arm_step (M := Arch) fr p) as [r p'|e]; [|done]. destruct H as [[Hw _ _ Hs] _].
  split; [|done]. split; [done|congruence].
Qed.

Lemma sim_enabled e :
  SimKeeps (t ← get_trace; put_trace (with_enabled e t)) (fun _ => True).
Proof. intros s [[] Ha]. split; [|done]. by split. Qed.

Lemma sim_trace_state : SimKeeps trace_arm_state (fun _ => True).
Proof.
  intros s [Hr Ha].
  destruct (quiet_trace_arm_state s (ready_le 0 2 s ltac:(lia) Hr)) as (a & s' & -> & E & Hev).
  split; [|done]. split; [by eapply ready_evolves|by rewrite E].
Qed.

Lemma sim_get_arm : SimKeeps get_arm (arm_ok size).
Proof. intros s Hs. split; [exact Hs|apply Hs]. Qed.

Lemma sim_put_arm p : arm_ok size p -> SimKeeps (put_arm p) (fun _ => True).
Proof.
  intros Hp s [[] _]. split; [|done]. split; [|exact Hp]. destruct Hp as [[[] _ _] _].
  by split.
Qed.
End Sim.

(** A byte of the memory. *)
Lemma write_byte_ok size p a v r m :
  arm_ok size p -> memory_write_byte (mem p) a (u8 v) = Some (r, m) ->
  arm_ok size (with_mem m p).
Proof.
  unfold memory_write_byte. intros [[Hr [Hs Hm Hb He] Hc] Hsz].
  destruct (buf_set (mem_address (mem p)) a (u8 v)) as [b|] eqn:E; [|done].
  intros [= _ <-]. pose proof (buf_set_length _ _ _ _ E) as Eb.
  split; [|done]. split; [done| |done]. split; simpl; [congruence|done| |done].
  eapply buf_set_Forall; [exact Hb|apply u8_range|exact E].
Qed.

(** ** The judgment *)

(** The packet is the 1024-byte array. *)
Definition full (p : list Z) : Prop := length p = 1024%nat.
Definition full_data (d : gdb_protocol_data) : Prop := full (packet d).

Definition Judgment (M : Type -> Type) : Type := forall A, M A -> (A -> Prop) -> Prop.
Definition Judge {M} (K : Judgment M) {A} (m : M A) (Q : A -> Prop) : Prop := K A m Q.

Class Keeping (size : Z) {M : Type -> Type} (K : Judgment M)
    `{!Connection M, !MStop M, !MBind M, !MRet M} : Prop := {
  keeping_ret {A} (a : A) (Q : A -> Prop) : Q a -> Judge K (mret a) Q;
  keeping_stop {A} f (Q : A -> Prop) : Judge K (stop f) Q;
  keeping_bind {A B} (m : M A) (k : A -> M B) Q1 Q :
    Judge K m Q1 -> (forall a, Q1 a -> Judge K (k a) Q) -> Judge K (m ≫= k) Q;
  keeping_on_sim {A} (m : Sim A) Q : SimKeeps size m Q -> Judge K (on_sim m) Q;
  keeping_get_data : Judge K get_data full_data;
  keeping_put_data d : full_data d -> Judge K (put_data d) (fun _ => True);
  keeping_Rio_writen bs : Judge K (Rio_writen bs) (fun _ => True);
  keeping_shutdown : Judge K shutdown (fun _ => True);
  keeping_lock : Judge K mutex_lock (fun _ => True);
  keeping_unlock : Judge K mutex_unlock (fun _ => True);
  keeping_message file line text : Judge K (message file line text) (fun _ => True)
}.

(** The simulator of a connection and its packet. *)
Record gdb_inv (size : Z) (g : gdbs) : Prop := {
  gi_sim : sim_ok size (g_sim g);
  gi_packet : full_data (g_data g)
}.

Definition Keeps (size : Z) : Judgment Gdb := fun A m Q => Triple True (gdb_inv size) m Q.

#[export] Instance gdb_keeping size : Keeping size (Keeps size).
Proof.
  split; unfold Judge, Keeps.
  - intros A a Q. apply triple_ret.
  - by intros A f Q g _.
  - intros A B m k Q1 Q. apply triple_bind.
  - intros A m Q Hm g [Hs Hp]. specialize (Hm _ Hs). cbn [on_sim gdb_connection].
    unfold gdb_sim. destruct (m (g_sim g)) as [a s|]; [|done]. destruct Hm as [Hs' HQ].
    by split.
  - intros g Hg. split; [done|apply Hg].
  - intros d Hd g []. by split.
  - intros bs g []. by split.
  - intros g []. by split.
  - apply triple_ret. done.
  - apply triple_ret. done.
  - intros file line text. apply triple_ret. done.
Qed.

Lemma gdb_inv_ready size g :
  gdb_inv size g <-> gdb_ready g /\ mem_size (mem (g_arm g)) = size.
Proof.
  split; [intros [(? & ? & ?) ?]; split; [by split|done]|].
  intros [[] ?]. by split; [split|].
Qed.

(** ** Automation *)

Lemma write_at_length bs : forall i p p',
  write_at i bs p = Some p' -> length p' = length p.
Proof.
  induction bs as [|b bs IH]; intros i p p' E; [by injection E as <-|].
  cbn [write_at] in E. destruct (buf_set p i b) as [p1|] eqn:E1; [|done].
  rewrite (IH _ _ _ E). by eapply buf_set_length.
Qed.
Lemma full_packet d : full_data d -> full (packet d).
Proof. done. Qed.
Lemma full_with e p n :
  full p -> full_data {| target_exception := e; packet := p; len := n |}.
Proof. done. Qed.

Create HintDb keeps discriminated.
#[export] Hint Constants Opaque : keeps.
#[export] Hint Resolve full_packet full_with : keeps.

Section Rules.
Context {M : Type -> Type} `{!Connection M, !MStop M, !MBind M, !MRet M}.
Context (size : Z) (K : Judgment M) `{!Keeping size K}.

(** The result of the first computation does not matter. *)
Lemma keeps_then {A B} (m : M A) (k : A -> M B) Q :
  Judge K m (fun _ => True) -> (forall a, Judge K (k a) Q) -> Judge K (m ≫= k) Q.
Proof. intros Hm Hk. by eapply keeping_bind; [exact Hm|auto]. Qed.
Lemma keeps_if {A} (b : bool) (m1 m2 : M A) Q :
  Judge K m1 Q -> Judge K m2 Q -> Judge K (if b then m1 else m2) Q.
Proof. by destruct b. Qed.
Lemma keeps_of_option {A} (o : option A) (Q : A -> Prop) :
  (forall a, o = Some a -> Q a) -> Judge K (of_option o) Q.
Proof. destruct o; intros H; [by apply keeping_ret, H|apply keeping_stop]. Qed.
Lemma keeps_any_option {A} (o : option A) : Judge K (of_option o) (fun _ => True).
Proof. by apply keeps_of_option. Qed.

Lemma keeps_written bs i p : full p -> Judge K (of_option (write_at i bs p)) full.
Proof.
  intros Hp. apply keeps_of_option. intros p' E. unfold full.
  by rewrite (write_at_length _ _ _ _ E).
Qed.
Lemma keeps_set i v p : full p -> Judge K (of_option (buf_set p i v)) full.
Proof.
  intros Hp. apply keeps_of_option. intros p' E. unfold full.
  by rewrite (buf_set_length _ _ _ _ E).
Qed.
End Rules.

(** An operation of the connection. *)
Ltac keeps_op :=
  first [ eapply keeping_ret | eapply keeping_stop | eapply keeping_get_data
        | eapply keeping_put_data | eapply keeping_Rio_writen | eapply keeping_shutdown
        | eapply keeping_lock | eapply keeping_unlock | eapply keeping_message
        | eapply keeps_any_option
        | eapply keeping_on_sim;
          first [ eapply sim_read_register | eapply sim_write_register
                | eapply sim_read_cpsr | eapply sim_write_cpsr | eapply sim_read_word
                | eapply sim_keeps_step | eapply sim_enabled
                | eapply sim_trace_state | eapply sim_get_arm | eapply sim_put_arm ] ];
  first [ typeclasses eauto | eauto with keeps ].
#[export] Hint Extern 1 (Judge _ _ _) => keeps_op : keeps.

(** Runs the rules over a computation. *)
Ltac keeps_step :=
  match goal with
  | |- Judge _ (mbind _ (of_option (write_at _ _ _))) _ =>
      eapply keeping_bind;
      [eapply keeps_written; [typeclasses eauto|solve [eauto with keeps]]|intros ? ?]
  | |- Judge _ (mbind _ (of_option (buf_set _ _ _))) _ =>
      eapply keeping_bind;
      [eapply keeps_set; [typeclasses eauto|solve [eauto with keeps]]|intros ? ?]
  | |- Judge _ (mbind _ (if _ then _ else _)) _ =>
      eapply keeps_then; [typeclasses eauto|apply keeps_if; solve [eauto with keeps]|intros ?]
  | |- Judge _ (mbind _ _) _ =>
      eapply keeping_bind; [solve [eauto with keeps]|intros ? ?]
  | |- Judge _ (if _ then _ else _) _ => apply keeps_if
  | |- Judge _ (match ?x with _ => _ end) _ => destruct x
  | |- Judge _ (let _ := _ in _) _ => cbv zeta
  | |- Judge _ _ _ => solve [eauto with keeps]
  end.
Ltac keeps := repeat (keeps_step; cbv beta in * ).

(** ** The functions of gdb_protocol.c *)

Section Functions.
Context `{T : Target}.
Context {M : Type -> Type} `{!Connection M, !MStop M, !MBind M, !MRet M}.
Context (size : Z) (K : Judgment M) `{!Keeping size K}.
Abbreviation keeps_all m := (Judge K m (fun _ => True)).

Lemma keeps_located {A} line (m : Sim A) Q :
  SimKeeps size (located "gdb_protocol.c" line m) Q -> Judge K (located_gdb line m) Q.
Proof. apply (keeping_on_sim (size := size)). Qed.
Lemma keeps_read_register line r :
  Judge K (located_gdb line (Core.arm_read_register r)) is_u32.
Proof. apply keeps_located, sim_read_register. Qed.
Lemma keeps_write_register line r v :
  is_u32 v -> keeps_all (located_gdb line (arm_write_register r v)).
Proof. intros Hv. by apply keeps_located, sim_write_register. Qed.
Lemma keeps_read_cpsr line : keeps_all (located_gdb line arm_read_cpsr).
Proof. apply keeps_located, sim_read_cpsr. Qed.
Lemma keeps_write_cpsr line v :
  is_u32 v -> keeps_all (located_gdb line (arm_write_cpsr v)).
Proof. intros Hv. by apply keeps_located, sim_write_cpsr. Qed.
Lemma keeps_read_word line a x : keeps_all (located_gdb line (arm_read_word a x)).
Proof. apply keeps_located, sim_read_word. Qed.
Lemma keeps_trace_disable : keeps_all (on_sim trace_disable).
Proof. apply (keeping_on_sim (size := size)), sim_enabled. Qed.
Lemma keeps_trace_enable : keeps_all (on_sim trace_enable).
Proof. apply (keeping_on_sim (size := size)), sim_enabled. Qed.
#[local] Hint Resolve keeps_read_register keeps_write_register keeps_read_cpsr
  keeps_write_cpsr keeps_read_word keeps_trace_disable keeps_trace_enable : keeps.

Lemma keeps_debug line text : keeps_all (gdb_debug line text).
Proof. apply (keeping_message (size := size)). Qed.
Lemma keeps_debug_raw text : keeps_all (gdb_debug_raw text).
Proof. apply (keeping_message (size := size)). Qed.
#[local] Hint Resolve keeps_debug keeps_debug_raw : keeps.

Lemma keeps_put_packet p :
  full p -> keeps_all (put_packet p).
Proof. intros Hp. unfold put_packet. keeps. Qed.
#[local] Hint Resolve keeps_put_packet : keeps.

Lemma keeps_set_exception e : keeps_all (set_exception e).
Proof. unfold set_exception. keeps. Qed.
#[local] Hint Resolve keeps_set_exception : keeps.

Lemma keeps_put_text i text : keeps_all (put_text i text).
Proof. unfold put_text. keeps. Qed.
#[local] Hint Resolve keeps_put_text : keeps.

Lemma keeps_transmit : keeps_all gdb_transmit_packet.
Proof. unfold gdb_transmit_packet. keeps. Qed.
#[local] Hint Resolve keeps_transmit : keeps.

Lemma keeps_send_buffer : keeps_all gdb_send_buffer.
Proof. unfold gdb_send_buffer. keeps. Qed.
#[local] Hint Resolve keeps_send_buffer : keeps.

Lemma keeps_send_data text : keeps_all (gdb_send_data text).
Proof. unfold gdb_send_data. keeps. Qed.
#[local] Hint Resolve keeps_send_data : keeps.

Lemma keeps_stop_reason : keeps_all gdb_send_stop_reason.
Proof. unfold gdb_send_stop_reason. keeps. Qed.
#[local] Hint Resolve keeps_stop_reason : keeps.

Lemma keeps_step_and_trace fr : keeps_all (step_and_trace fr).
Proof. unfold step_and_trace. keeps. Qed.
#[local] Hint Resolve keeps_step_and_trace : keeps.

Lemma keeps_cont_loop fuel fr : forall k x, keeps_all (cont_loop fuel fr k x).
Proof.
  induction fuel as [|fuel IH]; intros k x; cbn [cont_loop]; keeps.
Qed.
#[local] Hint Resolve keeps_cont_loop : keeps.

(** The integer of four bytes. *)
Lemma host_integer_u32 bs :
  length bs = 4%nat -> Forall is_u8 bs -> is_u32 (host_integer bs).
Proof.
  intros Hl Hb. unfold host_integer. set (l := if host_big_endian then _ else _).
  assert (length l = 4%nat /\ Forall is_u8 l) as [Hl' Hb'].
  { unfold l. destruct host_big_endian; [|done].
    rewrite length_reverse. split; [done|]. by apply Forall_reverse. }
  pose proof (little_endian_to_Z_bound 8 l ltac:(lia) Hb') as H.
  rewrite Hl' in H. exact H.
Qed.

Lemma read_bytes_wf idx : forall data v bytes r,
  read_bytes idx data v bytes = Some r -> length bytes = 4%nat -> Forall is_u8 bytes ->
  length r = 4%nat /\ Forall is_u8 r.
Proof.
  induction idx as [|i idx IH]; intros data v bytes r E Hl Hb; [by injection E as <-|].
  cbn [read_bytes] in E. destruct (cstring data) as [t|]; [|done]. cbn in E.
  set (x := u8 _) in E. destruct (buf_set bytes i x) as [b'|] eqn:Eb; [|done].
  eapply IH; [exact E| |].
  - by rewrite (buf_set_length _ _ _ _ Eb).
  - eapply buf_set_Forall; [exact Hb| |exact Eb]. apply u8_range.
Qed.

Lemma read_uint32_u32 data v r : read_uint32 data v = Some r -> is_u32 r.
Proof.
  unfold read_uint32. destruct uint32_indices as [idx|]; [|done]. cbn.
  destruct (read_bytes idx data v [0; 0; 0; 0]) as [bs|] eqn:E; [|done].
  intros [= <-]. apply read_bytes_wf in E as [Hl Hb]; [|done|].
  - by apply host_integer_u32.
  - repeat constructor; done.
Qed.

Lemma keeps_read_uint32 data v :
  Judge K (of_option (read_uint32 data v)) is_u32.
Proof. apply (keeps_of_option size K). intros a. apply read_uint32_u32. Qed.
#[local] Hint Resolve keeps_read_uint32 : keeps.

Lemma keeps_cont fuel fr : keeps_all (cont fuel fr).
Proof. unfold cont. keeps. Qed.
Lemma keeps_kill_request : keeps_all kill_request.
Proof. unfold kill_request. keeps. Qed.
Lemma keeps_query data : keeps_all (query data).
Proof. unfold query. keeps. Qed.
Lemma keeps_step_command fr : keeps_all (Gdb.step fr).
Proof. unfold Gdb.step. keeps. Qed.
Lemma keeps_set_thread data : keeps_all (set_thread data).
Proof. unfold set_thread. keeps. Qed.

Lemma keeps_put_uint32 i v : keeps_all (put_uint32 i v).
Proof. unfold put_uint32. keeps. Qed.
#[local] Hint Resolve keeps_put_uint32 : keeps.

Lemma keeps_put_registers regs : forall i, keeps_all (put_registers regs i).
Proof. induction regs; intros i; cbn [put_registers]; keeps. Qed.
Lemma keeps_put_unknown n : forall i, keeps_all (put_unknown n i).
Proof. induction n; intros i; cbn [put_unknown]; keeps. Qed.
#[local] Hint Resolve keeps_put_registers keeps_put_unknown : keeps.

Lemma keeps_read_general_registers : keeps_all read_general_registers.
Proof. unfold read_general_registers. keeps. Qed.

Lemma keeps_dump_memory fuel : forall n a v i, keeps_all (dump_memory fuel n a v i).
Proof. induction fuel; intros n a v i; cbn [dump_memory]; keeps. Qed.
#[local] Hint Resolve keeps_dump_memory : keeps.

Lemma keeps_read_memory fr data : keeps_all (Gdb.read_memory fr data).
Proof. unfold Gdb.read_memory. keeps. Qed.

Lemma keeps_assert b : keeps_all (assert b).
Proof. unfold assert. keeps. Qed.
#[local] Hint Resolve keeps_assert : keeps.

Lemma keeps_gdb_read_register data : keeps_all (gdb_read_register data).
Proof. unfold gdb_read_register. keeps. Qed.

Lemma keeps_set_registers fr regs : forall data, keeps_all (set_registers fr regs data).
Proof. induction regs; intros data; cbn [set_registers]; keeps. Qed.
Lemma keeps_drop_words fr n : forall data, keeps_all (drop_words fr n data).
Proof. induction n; intros data; cbn [drop_words]; keeps. Qed.
#[local] Hint Resolve keeps_set_registers keeps_drop_words : keeps.

Lemma keeps_write_general_registers fr data :
  keeps_all (write_general_registers fr data).
Proof. unfold write_general_registers. keeps. Qed.

Lemma keeps_gdb_write_register fr data : keeps_all (gdb_write_register fr data).
Proof. unfold gdb_write_register. keeps. Qed.

(** One byte of [store_memory]. *)
Lemma keeps_write_byte i a v (rest : M bool) :
  keeps_all rest ->
  keeps_all (p ← on_sim get_arm;
    '(r, m) ← of_option (memory_write_byte (mem p) a (u8 v));
    on_sim (put_arm (with_mem m p));;
    (if i <? 32 then gdb_debug_raw (Some (fmt_02x (u8 v))) else mret ());;
    if r =? 0 then rest else mret false).
Proof.
  intros Hrest.
  eapply keeping_bind; [apply (keeping_on_sim (size := size)), sim_get_arm|intros p Hp].
  eapply keeping_bind; [apply (keeps_of_option size K); intros x E; exact E|intros [r m] E].
  eapply keeping_bind; [|intros _ _; keeps].
  eapply (keeping_on_sim (size := size)), sim_put_arm, write_byte_ok; [exact Hp|exact E].
Qed.

Lemma keeps_store_memory content :
  forall i n a, keeps_all (store_memory content i n a).
Proof.
  induction content as [content IH] using (induction_ltof1 _ (@length Z)).
  unfold ltof in IH. intros i n a. destruct content as [|c rest]; cbn [store_memory].
  - keeps.
  - destruct (n =? 0); [keeps|].
    repeat match goal with |- Judge _ (match ?x with _ => _ end) _ => destruct x end;
      first [apply keeps_write_byte, IH; simpl; lia | keeps].
Qed.
#[local] Hint Resolve keeps_store_memory : keeps.

Lemma keeps_write_memory_binary fr data : keeps_all (write_memory_binary fr data).
Proof. unfold write_memory_binary. keeps. Qed.
#[local] Hint Resolve keeps_cont keeps_kill_request keeps_query keeps_step_command
  keeps_set_thread keeps_read_general_registers keeps_read_memory
  keeps_gdb_read_register keeps_write_general_registers keeps_gdb_write_register
  keeps_write_memory_binary : keeps.

Lemma keeps_run_handler fuel fr c data : keeps_all (run_handler fuel fr c data).
Proof. destruct c; cbn [run_handler]; unfold reason; keeps. Qed.
#[local] Hint Resolve keeps_run_handler : keeps.

Lemma keeps_packet_analysis fuel fr block n :
  keeps_all (gdb_packet_analysis fuel fr block n).
Proof.
  unfold gdb_packet_analysis, gdb_send_ack, gdb_require_retransmission. keeps.
Qed.

End Functions.
