(* ===== verification/Definedness.v ===== *)
(** * Which packets have a defined effect (gdb_protocol.c)

    The handlers index arrays with what the packets carry.  [defined] decides,
    from the text of a packet, the bytes after it and the processor, whether a
    handler runs to its end; the theorem is that it decides exactly this.  For
    the continue command, whose loop need not end, it runs the bare processor. *)
From stdpp Require Import list.
From S2P Require Import Prelude Util Debug Constants Memory Registers Trace.
From S2P Require Import Core.
From S2P Require Import Refine LoadStore Branch Instruction Run Invariant.
From S2P Require Import ArmSpec.
From S2P Require Import Gdb Correct Execute Packets Handlers Access General.
From S2P Require Import Wellformed.

(** The number of bytes a text carries, an escaped one taking two characters. *)
Fixpoint unescaped (content : list Z) : nat :=
  match content with
  | [] => 0
  | 0x7d :: [] => 0
  | 0x7d :: _ :: content => Datatypes.S (unescaped content)
  | _ :: content => Datatypes.S (unescaped content)
  end.

Section Defined.
Context `{T : Target}.

(** The text of [data] is a C string. *)
Definition closed (data : list Z) : bool := bool_decide (0 ∈ data).

Definition read_defined (fr : gframe) (p : arm_core_data) (data : list Z) : bool :=
  match sscanf_x_x data (gf_address fr) (gf_size fr) with
  | Some (a, n) =>
      (n =? 0) || (mem_size (mem p) <? a) || ((a + n <=? mem_size (mem p)) && (n <=? 509))
  | None => false
  end.
Definition register_defined (data : list Z) : bool :=
  match cstring data with Some t => u32 (atoi t) <? 16 | None => false end.
Definition binary_defined (fr : gframe) (p : arm_core_data) (data : list Z) : bool :=
  match sscanf_x_x data (gf_address fr) (gf_size fr), after_char 58 data with
  | Some (a, n), Some content =>
      (mem_size (mem p) <=? a) ||
      ((a + n <=? mem_size (mem p)) && (n <=? Z.of_nat (unescaped content)))
  | _, _ => false
  end.
Definition write_defined (fr : gframe) (data : list Z) : bool :=
  match sscanf_x data (gf_reg fr), after_char 61 data with
  | Some r, Some d => (r <? 16) && closed (drop 6 d)
  | _, _ => false
  end.
Definition step_defined (fr : gframe) (p : arm_core_data) : bool :=
  match arm_step (M := Arch) (gf_step fr 0) p with Ok _ _ => true | Fault _ => false end.

(** [fuel] turns are enough, [k] is the number of the next one and [x] what the
    last read left in [instruction]. *)
Fixpoint cont_defined (fuel : nat) (fr : gframe) (k : nat) (x : Z) (p : arm_core_data)
    : bool :=
  match fuel with
  | O => false
  | Datatypes.S fuel =>
      match memory_read_word (mem p) (fetch_address p) x with
      | Some (_, w) =>
          is_breakpoint w ||
          match arm_step (M := Arch) (gf_step fr k) p with
          | Ok _ p' => cont_defined fuel fr (Datatypes.S k) w p'
          | Fault _ => false
          end
      | None => false
      end
  end.

Definition defined (fuel : nat) (fr : gframe) (p : arm_core_data) (c : command)
    (data : list Z) : bool :=
  match c with
  | CmdCont => cont_defined fuel fr 0 (gf_instruction fr) p
  | CmdKill | CmdReadGeneralRegisters | CmdReason => true
  | CmdQuery => closed data
  | CmdReadMemory => read_defined fr p data
  | CmdReadRegister => register_defined data
  | CmdSetThread => closed (drop 1 data)
  | CmdStep => step_defined fr p
  | CmdWriteGeneralRegisters => closed (drop 334 data)
  | CmdWriteMemoryBinary => binary_defined fr p data
  | CmdWriteRegister => write_defined fr data
  end.

(** The computation runs to its end. *)
Definition runs {A} (m : Gdb A) (g : gdbs) : Prop := exists a g', m g = Ok a g'.

Lemma runs_intro {A} (m : Gdb A) g a g' : m g = Ok a g' -> runs m g.
Proof. intros E. by exists a, g'. Qed.
Lemma runs_fault {A} (m : Gdb A) g f : m g = Fault f -> ~ runs m g.
Proof. intros E (a & g' & E'). by rewrite E in E'. Qed.
Lemma runs_bind {A B} (m : Gdb A) (k : A -> Gdb B) g a g' :
  m g = Ok a g' -> runs (m ≫= k) g <-> runs (k a) g'.
Proof. intros E. unfold runs. by setoid_rewrite (bind_ok _ _ _ _ _ E). Qed.
Lemma runs_bind_inv {A B} (m : Gdb A) (k : A -> Gdb B) g :
  runs (m ≫= k) g -> exists a g', m g = Ok a g' /\ runs (k a) g'.
Proof. intros (b & g2 & E). apply bind_inv in E as (a & g1 & E1 & E2). eauto using runs_intro. Qed.
Lemma runs_option {A B} (o : option A) (k : A -> Gdb B) g :
  runs (of_option o ≫= k) g <-> exists a, o = Some a /\ runs (k a) g.
Proof.
  destruct o as [a|]; cbn [of_option].
  - rewrite (runs_bind _ _ g a g) by done. split; [eauto|by intros (b & [= <-] & Hb)].
  - split; [by intros (b & g' & E)|by intros (b & ? & _)].
Qed.

Lemma runs_send_data text g :
  gdb_ready g -> Forall is_char text -> (length text <= 1019)%nat -> runs (gdb_send_data text) g.
Proof.
  intros Hg Hc Hl. destruct (send_data_answers g text (gr_packet _ Hg) Hc Hl) as (g' & E & _).
  by eapply runs_intro.
Qed.
Lemma runs_send_text s g :
  gdb_ready g -> Forall is_char (bytes_of s) -> (length (bytes_of s) <= 1019)%nat ->
  runs (gdb_send_data (bytes_of s)) g.
Proof. apply runs_send_data. Qed.

(** ** C strings *)

Lemma cstring_closed data : is_Some (cstring data) <-> 0 ∈ data.
Proof.
  induction data as [|c data IH]; [split; [by intros []|by intros H%elem_of_nil]|].
  rewrite elem_of_cons. cbn [cstring]. destruct (Z.eq_dec c 0) as [->|Hc].
  - split; [by left|by eauto].
  - assert (match c with 0 => Some [] | _ => t ← cstring data; Some (c :: t) end =
      (t ← cstring data; Some (c :: t))) as -> by (by destruct c).
    destruct (cstring data) as [t|]; cbn; split; intros Hd; try (by eauto).
    + right. apply IH. by eauto.
    + destruct Hd as [|Hd]; [congruence|]. by apply IH in Hd as [].
Qed.

Lemma closed_spec data : closed data = true <-> is_Some (cstring data).
Proof. unfold closed. by rewrite bool_decide_eq_true, cstring_closed. Qed.

Lemma closed_drop n m (data : list Z) : (n <= m)%nat -> 0 ∈ drop m data -> 0 ∈ drop n data.
Proof.
  intros Hle H. replace m with (n + (m - n))%nat in H by lia. rewrite <- drop_drop in H.
  apply list_elem_of_lookup in H as (i & Hi). rewrite lookup_drop in Hi.
  by eapply list_elem_of_lookup_2.
Qed.

(** ** Words *)

Lemma read_bytes_defined idx : forall data v bytes,
  Forall (fun i => 0 <= i < 4) idx -> length bytes = 4%nat ->
  0 ∈ drop (2 * (length idx - 1)) data -> is_Some (read_bytes idx data v bytes).
Proof.
  induction idx as [|i idx IH]; intros data v bytes Hi Hb Hd; [by eexists|].
  apply Forall_cons_1 in Hi as [Hi His]. cbn [read_bytes].
  destruct (proj2 (cstring_closed data)) as [t ->].
  { by apply (closed_drop 0 _ data (Nat.le_0_l _)) in Hd. }
  cbn [mbind option_bind].
  destruct (buf_set bytes i _) as [b|] eqn:Eb; [|by rewrite buf_set_Some in Eb by lia].
  cbn [mbind option_bind]. apply buf_set_length in Eb. destruct idx as [|j idx]; [by eexists|].
  apply IH; [done|lia|]. rewrite drop_drop. eapply closed_drop, Hd. simpl. lia.
Qed.

Lemma read_bytes_closed idx : forall data v bytes r,
  read_bytes idx data v bytes = Some r -> idx <> [] -> 0 ∈ drop (2 * (length idx - 1)) data.
Proof.
  induction idx as [|i idx IH]; intros data v bytes r E Hne; [done|]. cbn [read_bytes] in E.
  destruct (cstring data) as [t|] eqn:Et; [|done]. cbn [mbind option_bind] in E.
  destruct (buf_set bytes i _) as [b|]; [|done]. cbn [mbind option_bind] in E.
  destruct idx as [|j idx]; [apply cstring_closed; by eexists|].
  apply IH in E; [|done]. rewrite drop_drop in E. eapply closed_drop, E. simpl. lia.
Qed.

Lemma read_uint32_defined data v : is_Some (read_uint32 data v) <-> 0 ∈ drop 6 data.
Proof.
  unfold read_uint32. rewrite indices_spec. cbn [mbind option_bind].
  set (idx := if Bool.eqb _ _ then _ else _).
  assert (idx = [0; 1; 2; 3] \/ idx = [3; 2; 1; 0]) as Hidx
    by (unfold idx; destruct (Bool.eqb _ _); auto).
  split.
  - intros [x Hx]. destruct (read_bytes idx data v [0; 0; 0; 0]) as [bs|] eqn:E; [|done].
    apply read_bytes_closed in E; by destruct Hidx as [-> | ->].
  - intros Hd. destruct (read_bytes_defined idx data v [0; 0; 0; 0]) as [bs ->];
      [| |by destruct Hidx as [-> | ->]|by eexists]; [|done].
    destruct Hidx as [-> | ->]; repeat apply Forall_cons_2; try apply Forall_nil_2; lia.
Qed.

(** ** Numbers *)

Lemma strtoul_u32 neg v : is_u32 (strtoul_value neg v).
Proof. unfold strtoul_value. destruct (v <? 2 ^ 64); apply u32_range. Qed.
Lemma scan_hex_u32 w t v rest : scan_hex w t = Some (v, rest) -> is_u32 v.
Proof.
  unfold scan_hex. destruct (scan_sign w (skip_spaces t)) as [[neg w'] t'].
  match goal with |- (let '(_, _) := ?x in _) = _ -> _ => destruct x as [[w2 t2] prefix] end.
  destruct (scan_digits 16 w2 t2 0 0) as [[x n] r].
  destruct n; [destruct prefix; [intros [= <- _]; by split|done]|intros [= <- _]].
  apply strtoul_u32.
Qed.

(** ** Registers *)

Lemma frame_reg_u32 data v r :
  is_u32 v -> sscanf_x data v = Some r -> is_u32 r.
Proof.
  intros Hv E. unfold sscanf_x in E. destruct (cstring data) as [t|]; [|done].
  cbn in E. injection E as <-. destruct (scan_hex _ t) as [[x rest]|] eqn:Es; [|done].
  by eapply scan_hex_u32.
Qed.

Lemma register_defined_spec data g :
  gdb_ready g -> runs (gdb_read_register data) g <-> register_defined data = true.
Proof.
  intros Hg. unfold register_defined. destruct (cstring data) as [t|] eqn:Et.
  - rewrite Z.ltb_lt. split.
    + intros R. unfold gdb_read_register in R. rewrite Et in R.
      apply runs_option in R as (t' & [= <-] & R). apply runs_bind_inv in R as (a & g' & E & _).
      unfold assert in E. by destruct (Z.ltb_spec (u32 (atoi t)) 16).
    + intros Hr. destruct (read_register_any g data t Hg Hr Et) as (g' & E & _).
      by eapply runs_intro.
  - split; [|done]. intros R. unfold gdb_read_register in R. rewrite Et in R.
    by apply runs_option in R as (? & ? & _).
Qed.

Lemma write_defined_spec fr data g :
  gdb_ready g -> is_u32 (gf_reg fr) ->
  runs (gdb_write_register fr data) g <-> write_defined fr data = true.
Proof.
  intros Hg Hf. unfold write_defined, gdb_write_register. rewrite runs_option.
  destruct (sscanf_x data (gf_reg fr)) as [r|] eqn:Er; [|by split; [intros (? & ? & _)|]].
  pose proof (frame_reg_u32 _ _ _ Hf Er) as Hr0.
  split.
  - intros (? & [= <-] & R). apply runs_option in R as (d & -> & R).
    apply runs_option in R as (v & Ev & R). apply runs_bind_inv in R as (a & g' & E & _).
    unfold assert in E. destruct (Z.ltb_spec r 16); [|done].
    apply closed_spec, cstring_closed, (read_uint32_defined d (gf_value fr 0)). by eexists.
  - destruct (after_char 61 data) as [d|] eqn:Ed; [|done].
    intros [Hr Hd]%andb_true_iff. apply Z.ltb_lt in Hr.
    apply closed_spec, cstring_closed, (read_uint32_defined d (gf_value fr 0)) in Hd as [v Ev].
    destruct (write_register_any fr g data d r v) as (g' & E & _);
      [done|unfold is_u32 in *; lia|by eapply read_uint32_u32|done..|].
    exists r. split; [done|]. unfold gdb_write_register in E. rewrite Er, Ed in E.
    by exists (), g'.
Qed.

(** The loops of G. *)
Lemma set_registers_defined fr regs : forall data g,
  gdb_ready g -> Forall (fun i => 0 <= i < 16) regs -> 0 ∈ drop (8 * length regs) data ->
  exists g', set_registers fr regs data g = Ok () g' /\ gdb_ready g'.
Proof.
  induction regs as [|i regs IH]; intros data g Hg Hi Hd; [by exists g|].
  apply Forall_cons_1 in Hi as [Hi His]. cbn [set_registers].
  destruct (proj2 (read_uint32_defined data (gf_value fr i))) as [v Ev].
  { eapply closed_drop, Hd. simpl. lia. }
  pose proof (read_uint32_u32 _ _ _ Ev) as Hv. rewrite Ev. cbn [of_option].
  rewrite (bind_ok _ _ g v g) by done.
  destruct (located_gdb_refines 297 _ _ g () (set_gpr i v (g_arm g))
    (refines_write_register 0 i v)) as (g1 & E1 & M1).
  { eapply ready_le; [|apply Hg]. lia. }
  { apply run_write; [|done]. apply wf_has_regs, Hg. }
  rewrite (bind_ok _ _ _ _ _ E1), debug_off, debug_if_off. apply IH; [|done|].
  - eapply moved_gdb_ready; [exact M1| |done]. apply set_gpr_wf; [apply Hg|lia|done].
  - rewrite drop_drop. eapply closed_drop, Hd. simpl. lia.
Qed.

Lemma drop_words_defined fr n : forall data (g : gdbs),
  0 ∈ drop (8 * n) data -> drop_words fr n data g = Ok () g.
Proof.
  induction n as [|n IH]; intros data g Hd; [done|]. cbn [drop_words].
  destruct (proj2 (read_uint32_defined data (gf_value fr 16))) as [v Ev].
  { eapply closed_drop, Hd. lia. }
  rewrite Ev. cbn [of_option]. rewrite (bind_ok _ _ g v g) by done.
  apply IH. rewrite drop_drop. eapply closed_drop, Hd. lia.
Qed.

Lemma write_general_defined fr data g :
  gdb_ready g -> runs (write_general_registers fr data) g <-> closed (drop 334 data) = true.
Proof.
  intros Hg. rewrite closed_spec, cstring_closed. unfold write_general_registers. split.
  - intros R. do 3 apply runs_bind_inv in R as (? & ? & _ & R).
    apply runs_option in R as (v & Ev & _).
    assert (is_Some (read_uint32 (drop 328 data) (gf_value fr 17))) as Hs by (by eexists).
    apply read_uint32_defined in Hs. by rewrite drop_drop in Hs.
  - intros Hd. destruct (on_sim_disable g) as (g1 & E1 & M1). rewrite (runs_bind _ _ _ _ _ E1).
    pose proof (moved_gdb_ready _ _ _ M1 (gr_wf g Hg) Hg) as Hg1.
    destruct (set_registers_defined fr (Z.of_nat <$> seq 0 16) data g1 Hg1)
      as (g2 & E2 & Hg2).
    { apply Forall_fmap, Forall_seq. intros j Hj. simpl. lia. }
    { eapply closed_drop, Hd. rewrite length_fmap, length_seq. lia. }
    rewrite (runs_bind _ _ _ _ _ E2).
    rewrite (runs_bind _ _ g2 () g2)
      by (apply drop_words_defined; rewrite drop_drop; eapply closed_drop, Hd; lia).
    destruct (proj2 (read_uint32_defined (drop 328 data) (gf_value fr 17))) as [v Ev];
      [by rewrite drop_drop|].
    rewrite Ev. cbn [of_option]. rewrite (runs_bind _ _ g2 v g2) by done.
    destruct (located_gdb_refines 322 _ _ g2 () (set_gpr 16 v (g_arm g2))
      (refines_write_cpsr 0 v)) as (g3 & E3 & M3).
    { eapply ready_le; [|apply Hg2]. lia. }
    { apply run_write_cpsr, wf_has_regs, Hg2. }
    rewrite (runs_bind _ _ _ _ _ E3). destruct (on_sim_enable g3) as (g4 & E4 & M4).
    rewrite debug_off, (runs_bind _ _ _ _ _ E4). rewrite (moved_arm _ _ _ M3) in M4.
    pose proof (moved_trans _ _ _ _ _ M3 M4) as M.
    apply runs_send_text; [|by apply bytes_of_chars|simpl; lia].
    eapply moved_gdb_ready; [exact M| |done].
    apply set_gpr_wf; [apply Hg2|lia|by eapply read_uint32_u32].
Qed.

(** ** Binary data *)

(** One byte stored, or not, and the rest. *)
Lemma store_byte_cases g i a v (rest : Gdb bool) :
  gdb_ready g -> 0 <= a ->
  let m := (p ← on_sim get_arm;
            '(r, m) ← of_option (memory_write_byte (mem p) a (u8 v));
            on_sim (put_arm (with_mem m p));;
            (if i <? 32 then gdb_debug_raw (Some (fmt_02x (u8 v))) else mret ());;
            if r =? 0 then rest else mret false) in
  if a <? mem_size (mem (g_arm g)) then
    exists g', m g = rest g' /\ gdb_ready g' /\
      mem_size (mem (g_arm g')) = mem_size (mem (g_arm g))
  else m g = Fault OutOfBounds.
Proof.
  intros Hg Ha m. unfold m. rewrite (bind_ok _ _ g (g_arm g) g) by (by destruct g).
  pose proof (wf_mem _ (gr_wf g Hg)) as Hm.
  destruct (Z.ltb_spec a (mem_size (mem (g_arm g)))) as [Hlt|Hge].
  - destruct (write_byte_stored (mem (g_arm g)) a (u8 v) Hm ltac:(lia) (u8_range v))
      as (m1 & E1 & Hst & Hm1).
    exists (with_memory m1 g). rewrite E1. cbn [of_option].
    split; [by destruct (i <? 32)|]. split; [by apply with_memory_wf|apply Hst].
  - by rewrite write_byte_outside by done.
Qed.

Lemma unescaped_cons c content :
  unescaped (c :: content) =
  if c =? 0x7d then match content with [] => 0%nat | _ :: l => Datatypes.S (unescaped l) end
  else Datatypes.S (unescaped content).
Proof.
  destruct (Z.eqb_spec c 0x7d) as [->|Hc]; [by destruct content|].
  cbn [unescaped]. repeat case_match; done.
Qed.

Lemma store_memory_cons c content i count a :
  store_memory (c :: content) i count a =
  if count =? 0 then mret true else
  let store value rest :=
    p ← on_sim get_arm;
    '(r, m) ← of_option (memory_write_byte (mem p) a (u8 value));
    on_sim (put_arm (with_mem m p));;
    (if i <? 32 then gdb_debug_raw (Some (fmt_02x (u8 value))) else mret ());;
    if r =? 0 then rest else mret false in
  if c =? 0x7d then
    match content with
    | [] => stop OutOfBounds
    | d :: l => store (Z.lxor d 0x20) (store_memory l (i + 1) (count - 1) (u32 (a + 1)))
    end
  else store c (store_memory content (i + 1) (count - 1) (u32 (a + 1))) :> Gdb bool.
Proof.
  destruct (Z.eqb_spec c 0x7d) as [->|Hc]; [by destruct content|].
  cbn [store_memory]. destruct (count =? 0); [done|]. cbv zeta.
  repeat match goal with |- match ?x with _ => _ end = _ => destruct x end; done.
Qed.

Lemma store_memory_runs content : forall i count a g,
  gdb_ready g -> 0 <= a <= mem_size (mem (g_arm g)) -> 0 <= count ->
  if (a + count <=? mem_size (mem (g_arm g))) && (count <=? Z.of_nat (unescaped content)) then
    exists g', store_memory content i count a g = Ok true g' /\ gdb_ready g'
  else store_memory content i count a g = Fault OutOfBounds.
Proof.
  induction content as [content IH] using (induction_ltof1 _ (@length Z)).
  unfold ltof in IH. intros i count a g Hg Ha Hc.
  pose proof (wf_mem _ (gr_wf g Hg)) as Hm. pose proof (mem_wf_limit _ Hm) as Hlim.
  destruct (Z.eqb_spec count 0) as [->|Hc0].
  { destruct (Z.leb_spec (a + 0) (mem_size (mem (g_arm g)))); [|lia].
    destruct (Z.leb_spec 0 (Z.of_nat (unescaped content))); [|lia].
    exists g. by destruct content. }
  assert (forall l v, (length l < length content)%nat ->
    let m := (p ← on_sim get_arm;
              '(r, m) ← of_option (memory_write_byte (mem p) a (u8 v));
              on_sim (put_arm (with_mem m p));;
              (if i <? 32 then gdb_debug_raw (Some (fmt_02x (u8 v))) else mret ());;
              if r =? 0 then store_memory l (i + 1) (count - 1) (u32 (a + 1)) else mret false) in
    if (a + count <=? mem_size (mem (g_arm g))) && (count <=? Z.of_nat (S (unescaped l))) then
      exists g', m g = Ok true g' /\ gdb_ready g'
    else m g = Fault OutOfBounds) as Hstep.
  { intros l v Hl. cbv zeta.
    pose proof (store_byte_cases g i a v (store_memory l (i + 1) (count - 1) (u32 (a + 1)))
      Hg ltac:(lia)) as H. cbv zeta in H.
    destruct (Z.ltb_spec a (mem_size (mem (g_arm g)))) as [Hlt|Hge].
    - destruct H as (g1 & -> & Hg1 & Hs1). rewrite u32_small by (unfold is_u32; lia).
      specialize (IH l Hl (i + 1) (count - 1) (a + 1) g1 Hg1 ltac:(lia) ltac:(lia)).
      rewrite Hs1 in IH. replace (a + 1 + (count - 1)) with (a + count) in IH by lia.
      replace (count - 1 <=? Z.of_nat (unescaped l)) with
        (count <=? Z.of_nat (S (unescaped l))) in IH
        by (apply eq_true_iff_eq; rewrite !Z.leb_le; lia).
      exact IH.
    - rewrite H. destruct (Z.leb_spec (a + count) (mem_size (mem (g_arm g)))); [lia|done]. }
  destruct content as [|c content].
  - destruct (Z.leb_spec count (Z.of_nat (unescaped []))); [simpl in *; lia|].
    rewrite andb_false_r. cbn [store_memory]. by rewrite (proj2 (Z.eqb_neq _ _) Hc0).
  - rewrite unescaped_cons, store_memory_cons. cbv zeta.
    rewrite (proj2 (Z.eqb_neq _ _) Hc0). destruct (c =? 0x7d); [|apply Hstep; simpl; lia].
    destruct content as [|d content]; [|apply Hstep; simpl; lia].
    destruct (Z.leb_spec count (Z.of_nat 0)); [lia|]. by rewrite andb_false_r.
Qed.

Lemma numbers_u32 data a0 n0 a n :
  is_u32 a0 -> is_u32 n0 -> sscanf_x_x data a0 n0 = Some (a, n) -> is_u32 a /\ is_u32 n.
Proof.
  intros Ha Hn E. unfold sscanf_x_x in E. destruct (cstring data) as [t|]; [|done].
  cbn in E. injection E as E. destruct (scan_hex _ t) as [[x rest]|] eqn:E1;
    [|by injection E as <- <-].
  apply scan_hex_u32 in E1.
  destruct rest as [|c rest]; [by injection E as <- <-|].
  destruct (Z.eq_dec c 44) as [->|Hc].
  - destruct (scan_hex _ rest) as [[y r]|] eqn:E2; injection E as <- <-; [|done].
    by apply scan_hex_u32 in E2.
  - assert ((x, n0) = (a, n)) as [= <- <-]; [|done]. rewrite <- E.
    repeat case_match; try done.
Qed.

Lemma binary_defined_spec fr data g :
  gdb_ready g -> is_u32 (gf_address fr) -> is_u32 (gf_size fr) ->
  runs (write_memory_binary fr data) g <-> binary_defined fr (g_arm g) data = true.
Proof.
  intros Hg Hfa Hfs. unfold binary_defined, write_memory_binary. rewrite runs_option.
  destruct (sscanf_x_x data (gf_address fr) (gf_size fr)) as [[a n]|] eqn:Ex;
    [|by split; [intros (? & ? & _)|]].
  destruct (numbers_u32 _ _ _ _ _ Hfa Hfs Ex) as [Ha Hn]. unfold is_u32 in Ha, Hn.
  transitivity (exists content, after_char 58 data = Some content /\
    runs (p ← on_sim get_arm;
      write_ok ← (if a <? memory_get_size (mem p)
                  then store_memory content 0 n a else mret false);
      if write_ok : bool then gdb_send_data (bytes_of "OK") else gdb_send_data (bytes_of "E02")) g).
  { split; [intros (? & [= <-] & R); by apply runs_option in R|].
    intros R. exists (a, n). split; [done|]. by apply runs_option. }
  destruct (after_char 58 data) as [content|]; [|by split; [intros (? & ? & _)|]].
  transitivity (runs (write_ok ←
      (if a <? mem_size (mem (g_arm g)) then store_memory content 0 n a else mret false);
    if write_ok : bool then gdb_send_data (bytes_of "OK") else gdb_send_data (bytes_of "E02")) g).
  { split; [intros (? & [= <-] & R)|intros R; exists content; split; [done|]].
    - by rewrite (runs_bind _ _ g (g_arm g) g) in R by (by destruct g).
    - by rewrite (runs_bind _ _ g (g_arm g) g) by (by destruct g). }
  destruct (Z.ltb_spec a (mem_size (mem (g_arm g)))) as [Hlt|Hge].
  - destruct (Z.leb_spec (mem_size (mem (g_arm g))) a); [lia|]. cbn [orb].
    pose proof (store_memory_runs content 0 n a g Hg ltac:(lia) ltac:(lia)) as H1.
    destruct (_ && _).
    + destruct H1 as (g1 & E & Hg1). split; [done|intros _].
      rewrite (runs_bind _ _ _ _ _ E). apply runs_send_text;
        [done|by apply bytes_of_chars|simpl; lia].
    + split; [|done]. intros R. exfalso. revert R. apply (runs_fault _ _ OutOfBounds).
      by apply bind_fault.
  - destruct (Z.leb_spec (mem_size (mem (g_arm g))) a); [|lia]. split; [done|intros _].
    rewrite (runs_bind _ _ g false g) by done.
    apply runs_send_text; [done|by apply bytes_of_chars|simpl; lia].
Qed.

(** ** Memory dumps *)

Lemma draft_send g g1 text :
  draft g g1 text -> Forall is_char text ->
  if (length text <=? 1019)%nat then runs gdb_send_buffer g1
  else gdb_send_buffer g1 = Fault OutOfBounds.
Proof.
  intros (_ & _ & _ & _ & x & post & Hp & Hl) Hc. destruct (Nat.leb_spec (length text) 1019).
  - destruct post as [|y [|a [|b post]]]; simpl in Hl; try lia.
    eapply runs_intro. apply (send_buffer_spec g1 x y a b 0 text post Hp Hc). lia.
  - unfold gdb_send_buffer. rewrite (bind_ok _ _ g1 (g_data g1) g1), Hp by done.
    pose proof (buf_set_middle [] (text ++ 0 :: post) x 36) as E0.
    cbn [app length] in E0. change (Z.of_nat 0) with 0 in E0.
    rewrite E0. cbn [of_option]. rewrite (bind_ok _ _ g1 (36 :: text ++ 0 :: post) g1) by done.
    pose proof (scan_packet_spec text 1024 [36] post 0 Hc ltac:(lia)) as Es.
    rewrite checksum_scan in Es. cbn [app length] in Es.
    change (Z.of_nat 1) with 1 in Es. rewrite Es. cbn [of_option].
    set (n := Z.of_nat (1 + length text)).
    rewrite (bind_ok _ _ g1 (n, checksum text) g1) by done.
    pose proof (buf_set_middle (36 :: text) post 0 35) as E1. cbn [app length] in E1.
    unfold n. cbn [Nat.add]. rewrite E1. cbn [of_option].
    rewrite (bind_ok _ _ g1 (36 :: text ++ 35 :: post) g1) by done.
    rewrite write_at_overflow; [done|lia| |done].
    cbn [length app]. rewrite !length_app. cbn [length]. unfold hex2. cbn [length]. lia.
Qed.

(** An area that begins inside of the memory and ends outside of it. *)
Lemma dump_memory_crossing k : forall fuel n a v text g g1,
  gdb_ready g -> draft g g1 text -> (length text <= 1022)%nat -> 0 <= a ->
  a + Z.of_nat k = mem_size (mem (g_arm g)) -> Z.of_nat k < n ->
  (1022 < length text + 2 * fuel)%nat ->
  dump_memory fuel n a v (1 + Z.of_nat (length text)) g1 = Fault OutOfBounds.
Proof.
  induction k as [|k IH]; intros fuel n a v text g g1 Hg Hd Ht Ha Hk Hn Hf;
    (destruct fuel as [|fuel]; [lia|]); cbn [dump_memory];
    (destruct (Z.eqb_spec n 0); [lia|]);
    assert (g_arm g1 = g_arm g) as Ea by (unfold g_arm; by rewrite (proj1 Hd));
    rewrite (bind_ok _ _ g1 (g_arm g) g1) by (rewrite <- Ea; by destruct g1);
    pose proof (wf_mem _ (gr_wf g Hg)) as Hm; pose proof (mem_wf_limit _ Hm);
    unfold memory_read_byte; (destruct (Z.leb_spec a (mem_size (mem (g_arm g)))); [|lia]).
  - unfold buf_get, in_block. pose proof (mem_wf_size _ Hm).
    destruct (Z.ltb_spec a (Z.of_nat (length (mem_address (mem (g_arm g)))))); [lia|].
    by rewrite andb_false_r.
  - destruct (mem_get (mem (g_arm g)) a Hm) as (b & Eb & Hb); [lia|]. rewrite Eb.
    cbn [mbind option_bind of_option]. rewrite (bind_ok _ _ g1 (b, b) g1) by done.
    unfold is_u8 in Hb. destruct (Z.eqb_spec b (-1)); [lia|].
    destruct (Nat.le_gt_cases (length text + 2) 1022) as [Hfit|Hfit].
    + destruct (draft_append g g1 text (hex2 b) Hd) as (g2 & E2 & Hd2); [simpl; lia|].
      rewrite (bind_ok _ _ _ _ _ E2). rewrite u32_small by (unfold is_u32; lia).
      assert (length (text ++ hex2 b) = length text + 2)%nat as H2 by (by rewrite length_app).
      replace (1 + Z.of_nat (length text) + 2)
        with (1 + Z.of_nat (length (text ++ hex2 b))) by lia.
      apply (IH _ _ _ _ _ g); [done|done|lia..].
    + apply bind_fault. by apply (draft_overflow g); [|simpl; lia].
Qed.

Lemma dump_memory_none fuel n a v i g :
  n = 0 \/ mem_size (mem (g_arm g)) < a ->
  dump_memory (Datatypes.S fuel) n a v i g = Ok () g.
Proof.
  intros H. cbn [dump_memory]. destruct (Z.eqb_spec n 0); [done|].
  rewrite (bind_ok _ _ g (g_arm g) g) by (by destruct g). unfold memory_read_byte.
  by destruct (Z.leb_spec a (mem_size (mem (g_arm g)))); [lia|].
Qed.

Lemma read_defined_spec fr data g :
  gdb_ready g -> is_u32 (gf_address fr) -> is_u32 (gf_size fr) ->
  runs (read_memory fr data) g <-> read_defined fr (g_arm g) data = true.
Proof.
  intros Hg Hfa Hfs. unfold read_defined.
  destruct (sscanf_x_x data (gf_address fr) (gf_size fr)) as [[a n]|] eqn:Ex.
  2:{ split; [|done]. unfold read_memory. rewrite Ex. intros R.
      by apply runs_option in R as (? & ? & _). }
  destruct (numbers_u32 _ _ _ _ _ Hfa Hfs Ex) as [Ha Hn]. unfold is_u32 in Ha, Hn.
  destruct (read_memory_drafts fr g data a n Hg Ex) as (g1 & Hd & E).
  unfold runs. setoid_rewrite E. fold (runs (dump_memory 1024 n a (gf_byte fr) 1;;
    gdb_send_buffer) g1).
  pose proof (draft_send g g1 [] Hd (Forall_nil_2 _)) as Hsend. cbn [length Nat.leb] in Hsend.
  destruct (Z.eqb_spec n 0) as [->|Hn0].
  { split; [done|intros _].
    rewrite (runs_bind _ _ _ _ _ (dump_memory_none 1023 0 a (gf_byte fr) 1 g1 (or_introl eq_refl))).
    exact Hsend. }
  assert (g_arm g1 = g_arm g) as Ea by (unfold g_arm; by rewrite (proj1 Hd)).
  destruct (Z.ltb_spec (mem_size (mem (g_arm g))) a) as [Hout|Hin].
  { split; [done|intros _]. rewrite <- Ea in Hout.
    rewrite (runs_bind _ _ _ _ _ (dump_memory_none 1023 n a (gf_byte fr) 1 g1 (or_intror Hout))).
    exact Hsend. }
  cbn [orb]. destruct (Z.leb_spec (a + n) (mem_size (mem (g_arm g)))) as [Hfit|Hcross].
  2:{ split; [|done]. intros R. exfalso. revert R. apply (runs_fault _ _ OutOfBounds), bind_fault.
      apply (dump_memory_crossing (Z.to_nat (mem_size (mem (g_arm g)) - a)) 1024 n a (gf_byte fr) []
        g g1 Hg Hd); simpl; lia. }
  cbn [andb].
  pose proof (dump_memory_spec (Z.to_nat n) 1024 a (gf_byte fr) [] g g1 Hg Hd ltac:(lia)
    ltac:(lia) ltac:(lia)) as H.
  cbn [length app] in H. rewrite Z2Nat.id in H by lia. change (1 + Z.of_nat 0) with 1 in H.
  destruct (Nat.leb_spec (0 + 2 * Z.to_nat n) 1022) as [Hs|Hs].
  - destruct H as (g2 & E2 & Hd2). rewrite (runs_bind _ _ _ _ _ E2).
    pose proof (wf_mem _ (gr_wf g Hg)) as Hm.
    pose proof (draft_send g g2 _ Hd2) as H2.
    rewrite hex_text_length, area_length in H2 by (done || lia).
    specialize (H2 ltac:(apply hex_text_chars, Forall_take, Forall_drop, Hm)).
    destruct (Nat.leb_spec (2 * Z.to_nat n) 1019), (Z.leb_spec n 509); try lia; [done|].
    split; [|done]. intros R. exfalso. revert R. by apply (runs_fault _ _ OutOfBounds).
  - destruct (Z.leb_spec n 509); [lia|]. split; [|done]. intros R. exfalso. revert R.
    apply (runs_fault _ _ OutOfBounds), bind_fault, H. lia.
Qed.

(** ** The handlers *)

Lemma runs_stop_reason g : gdb_ready g -> runs gdb_send_stop_reason g.
Proof.
  intros Hg. unfold gdb_send_stop_reason.
  rewrite (runs_bind _ _ g (g_data g) g) by done.
  repeat case_match; (apply runs_send_text; [done|by apply bytes_of_chars|simpl; lia]).
Qed.

Lemma query_defined_spec data g :
  gdb_ready g -> runs (query data) g <-> closed data = true.
Proof.
  intros Hg. rewrite closed_spec. unfold query. rewrite runs_option. split.
  - intros (t & -> & _). by eexists.
  - intros [t ->]. exists t. split; [done|].
    repeat case_match; (apply runs_send_data;
      [done|by apply bytes_of_chars || constructor|simpl; lia]).
Qed.

Lemma thread_defined_spec data g :
  gdb_ready g -> runs (set_thread data) g <-> closed (drop 1 data) = true.
Proof.
  intros Hg. rewrite closed_spec. unfold set_thread. rewrite runs_option. split.
  - intros (b & _ & R). apply runs_option in R as (t & -> & _). by eexists.
  - intros [t Ht]. destruct data as [|b data]; [done|]. exists b. split; [done|].
    rewrite Ht. cbn [of_option]. rewrite (runs_bind _ _ g t g) by done. cbv zeta.
    case_match; (apply runs_send_text; [done|by apply bytes_of_chars|simpl; lia]).
Qed.

(** A step, traced, is defined if the bare one is. *)
Lemma step_and_trace_cases fr g :
  gdb_ready g ->
  match arm_step (M := Arch) fr (g_arm g) with
  | Ok _ p => exists g', step_and_trace fr g = Ok () g' /\ gdb_ready g' /\ g_arm g' = p
  | Fault e => step_and_trace fr g = Fault e
  end.
Proof.
  intros Hg.
  pose proof (step_inv_preserved True _ _ _ fr _ (core_wf_inv _ (gr_wf g Hg))
    (or_introl I)) as Hi.
  pose proof (refines_step 0 fr (g_sim g) (gr_ready g Hg)) as Hr.
  unfold g_arm in *. destruct (arm_step (M := Arch) _ _) as [r p|e] eqn:Es.
  - destruct Hi as [_ ->]. destruct (step_and_trace_spec fr g p Hg Es) as (g1 & E1 & A1 & Hg1 & _).
    by exists g1.
  - unfold step_and_trace. apply bind_fault. cbn [on_sim gdb_connection]. unfold gdb_sim.
    by rewrite Hr.
Qed.

Lemma step_defined_spec fr g :
  gdb_ready g -> runs (Gdb.step fr) g <-> step_defined fr (g_arm g) = true.
Proof.
  intros Hg. unfold step_defined, Gdb.step.
  pose proof (step_and_trace_cases (gf_step fr 0) g Hg) as H.
  destruct (arm_step (M := Arch) _ _) as [r p|e].
  - destruct H as (g1 & E1 & Hg1 & _). split; [done|intros _].
    rewrite (runs_bind _ _ _ _ _ E1). by apply runs_stop_reason.
  - split; [|done]. intros R. exfalso. revert R. by apply (runs_fault _ _ e), bind_fault.
Qed.

Lemma cont_loop_defined fr fuel : forall k x g,
  gdb_ready g ->
  if cont_defined fuel fr k x (g_arm g)
  then exists g', cont_loop fuel fr k x g = Ok () g' /\ gdb_ready g'
  else exists e, cont_loop fuel fr k x g = Fault e.
Proof.
  induction fuel as [|fuel IH]; intros k x g Hg; [by eexists|]. cbn [cont_defined].
  pose proof (cont_head fuel fr k x g Hg) as H.
  destruct (memory_read_word _ _ x) as [[r w]|]; [|by eexists].
  destruct H as (g1 & M & ->).
  pose proof (moved_gdb_ready _ _ _ M (gr_wf g Hg) Hg) as Hg1.
  destruct (is_breakpoint w); cbn [orb]; [by exists g1|].
  pose proof (step_and_trace_cases (gf_step fr k) g1 Hg1) as Hs.
  rewrite (moved_arm _ _ _ M) in Hs.
  destruct (arm_step (M := Arch) _ _) as [a p|e]; [|by exists e; apply bind_fault].
  destruct Hs as (g2 & E2 & Hg2 & <-). rewrite (bind_ok _ _ _ _ _ E2). by apply IH.
Qed.

Lemma cont_defined_spec fuel fr g :
  gdb_ready g ->
  runs (cont fuel fr) g <-> cont_defined fuel fr 0 (gf_instruction fr) (g_arm g) = true.
Proof.
  intros Hg. unfold cont.
  pose proof (cont_loop_defined fr fuel 0 (gf_instruction fr) g Hg) as H.
  destruct (cont_defined _ _ _ _ _).
  - destruct H as (g1 & E & Hg1). rewrite (runs_bind _ _ _ _ _ E).
    split; [done|intros _]. by apply runs_stop_reason.
  - destruct H as [e E]. split; [|done]. intros R. exfalso. revert R.
    by apply (runs_fault _ _ e), bind_fault.
Qed.

Lemma handler_defined fuel fr c data g :
  gdb_ready g -> is_u32 (gf_address fr) -> is_u32 (gf_size fr) -> is_u32 (gf_reg fr) ->
  runs (run_handler fuel fr c data) g <-> defined fuel fr (g_arm g) c data = true.
Proof.
  intros Hg Ha Hs Hr. destruct c; cbn [run_handler defined]; try done.
  - by apply cont_defined_spec.
  - split; [done|intros _]. by eapply runs_intro.
  - by apply query_defined_spec.
  - split; [done|intros _]. destruct (read_general_run g Hg) as (g' & E & _).
    by eapply runs_intro.
  - by apply read_defined_spec.
  - by apply register_defined_spec.
  - split; [done|intros _]. by apply runs_stop_reason.
  - by apply thread_defined_spec.
  - by apply step_defined_spec.
  - by apply write_general_defined.
  - by apply binary_defined_spec.
  - by apply write_defined_spec.
Qed.

(** C28. Exactly these packets have a defined effect: whatever its text and the
    two digits (as [%02x] prints them) of its checksum, and whatever lies in
    memory after it, a packet is handled to the end if its checksum is wrong,
    if it has no command, or if [defined] accepts it, for a continue command
    within the turns it is given; and otherwise the C code does not define what
    happens (an index out of a block, a failed assertion), or the processor is
    still running when these turns are over. *)
Theorem packet_defined fuel fr g c text k rest :
  gdb_ready g -> is_u32 (gf_address fr) -> is_u32 (gf_size fr) -> is_u32 (gf_reg fr) ->
  0 <= k < 256 ->
  (exists g', gdb_packet_analysis fuel fr (received c text k rest)
                (Z.of_nat (length text) + 5) g = Ok () g') <->
  (checksum (c :: text) = k ->
   match handler c with
   | Some cmd => defined fuel fr (g_arm g) cmd (text ++ 0 :: hex2 k ++ 0 :: rest) = true
   | None => True
   end).
Proof.
  intros Hg Ha Hs Hr Hk. setoid_rewrite (packet_analysis_eq fuel fr g c text k rest Hk).
  destruct (Z.eqb_spec (checksum (c :: text)) k) as [E|Hne].
  2:{ split; [done|intros _]. by eexists. }
  set (g1 := {| g_sim := g_sim g; g_data := g_data g; g_out := g_out g ++ [43];
                g_shut := g_shut g |}).
  assert (gdb_ready g1) as Hg1 by (destruct Hg; by split).
  assert (gdb_send_ack g = Ok () g1) as E1 by done.
  setoid_rewrite (bind_ok _ _ _ _ _ E1). change (g_arm g) with (g_arm g1).
  assert (forall m : Gdb unit, (exists g', m g1 = Ok () g') <-> runs m g1) as Hm.
  { intros m. split; [intros (g' & Eg); by eapply runs_intro|].
    intros ([] & g' & Eg). by exists g'. }
  rewrite Hm. destruct (handler c) as [cmd|].
  - rewrite handler_defined by done. split; [done|auto].
  - split; [done|intros _]. apply runs_send_data; [done|constructor|simpl; lia].
Qed.
End Defined.
