(* ===== verification/Sys.v ===== *)
(** * System calls

    The operating system the program talks to, for csapp.c, send_irq.c and the
    sockets of arm_simulator.c.  The kernel and the C library are a class: a
    call gets its name and its arguments and replies with the value it
    returns, the errno and h_errno it leaves and the bytes it stores through a
    pointer.  [Sys] is the monad of a process: it goes on, or ends with an exit
    status and the state it ends in, or has no defined continuation. *)
From S2P Require Import Prelude.

Inductive arg :=
  | Int (z : Z)
  | Ptr (p : Z)
  | Str (s : string)
  | Bytes (bs : list Z).

Record syscall := { sys_name : string; sys_args : list arg }.

Record reply := {
  rv : Z;
  r_errno : Z;
  r_herrno : Z;
  r_data : list Z
}.

Class Kernel (K : Type) := {
  kernel_call : syscall -> K -> reply * K;
  strerror : Z -> string
}.

(** The state of a process: the kernel, the two error variables of the C
    library, what it printed to the standard error, the calls it made, in
    their order, and the data [w_app] of the program. *)
Record world (K A : Type) := World {
  w_kernel : K;
  w_errno : Z;
  w_herrno : Z;
  w_stderr : list string;
  w_calls : list syscall;
  w_app : A
}.
Arguments World {K A}.
Arguments w_kernel {K A}.
Arguments w_errno {K A}.
Arguments w_herrno {K A}.
Arguments w_stderr {K A}.
Arguments w_calls {K A}.
Arguments w_app {K A}.

Inductive ending (W X : Type) :=
  | Done (x : X) (w : W)
  | Quit (code : Z) (w : W)
  | Stuck (f : fault).
Arguments Done {W X} _ _.
Arguments Quit {W X} _ _.
Arguments Stuck {W X} _.

Definition Sys (W X : Type) : Type := W -> ending W X.

#[export] Instance Sys_ret W : MRet (Sys W) := fun _ x w => Done x w.
#[export] Instance Sys_bind W : MBind (Sys W) :=
  fun _ _ k m w =>
    match m w with
    | Done x w' => k x w'
    | Quit c w' => Quit c w'
    | Stuck f => Stuck f
    end.

Lemma sys_eq {W X Y} (m : Sys W X) (k : X -> Sys W Y) w :
  (m ≫= k) w = match m w with
               | Done x w' => k x w' | Quit c w' => Quit c w' | Stuck f => Stuck f
               end.
Proof. done. Qed.
Lemma sys_done {W X Y} (m : Sys W X) (k : X -> Sys W Y) w x w' :
  m w = Done x w' -> (m ≫= k) w = k x w'.
Proof. intros E. by rewrite sys_eq, E. Qed.
Lemma sys_quit {W X Y} (m : Sys W X) (k : X -> Sys W Y) w c w' :
  m w = Quit c w' -> (m ≫= k) w = Quit c w'.
Proof. intros E. by rewrite sys_eq, E. Qed.
Lemma sys_stuck {W X Y} (m : Sys W X) (k : X -> Sys W Y) w f :
  m w = Stuck f -> (m ≫= k) w = Stuck f.
Proof. intros E. by rewrite sys_eq, E. Qed.

Definition exit {W X} (code : Z) : Sys W X := fun w => Quit code w.
#[export] Instance Sys_stop W : MStop (Sys W) | 10 := fun _ f _ => Stuck f.
Definition stuck {W X} (f : fault) : Sys W X := stop f.

Section Calls.
Context {K A : Type} `{Kernel K}.
Abbreviation W := (world K A).

(** The state after a call. *)
Definition called (c : syscall) (r : reply) (k : K) (w : W) : W :=
  World k (r_errno r) (r_herrno r) (w_stderr w) (w_calls w ++ [c]) (w_app w).

Definition call (name : string) (args : list arg) : Sys W reply := fun w =>
  let c := {| sys_name := name; sys_args := args |} in
  let '(r, k) := kernel_call c (w_kernel w) in Done r (called c r k w).

Definition get_errno : Sys W Z := fun w => Done (w_errno w) w.
Definition get_herrno : Sys W Z := fun w => Done (w_herrno w) w.
Definition eprint (s : string) : Sys W unit := fun w =>
  Done () (World (w_kernel w) (w_errno w) (w_herrno w) (w_stderr w ++ [s])
             (w_calls w) (w_app w)).

(** The kernel's reply to a call, its replies to calls made in a row, and the
    kernel after them. *)
Definition reply_to (c : syscall) (k : K) : reply := fst (kernel_call c k).
Fixpoint replies (cs : list syscall) (k : K) : list reply :=
  match cs with
  | [] => []
  | c :: cs => reply_to c k :: replies cs (snd (kernel_call c k))
  end.
Fixpoint after_calls (cs : list syscall) (k : K) : K :=
  match cs with [] => k | c :: cs => after_calls cs (snd (kernel_call c k)) end.

(** From [w] to [w'] the process made the calls [cs] and no other. *)
Definition ran (cs : list syscall) (w w' : W) : Prop :=
  w_calls w' = w_calls w ++ cs /\ w_kernel w' = after_calls cs (w_kernel w).
(** The last of its calls is [c], and the reply to it was [bad]. *)
Definition ended_by (c : syscall) (bad : reply -> Prop) (w w' : W) : Prop :=
  exists cs, ran (cs ++ [c]) w w' /\ bad (reply_to c (after_calls cs (w_kernel w))).

Lemma after_calls_app cs1 cs2 k :
  after_calls (cs1 ++ cs2) k = after_calls cs2 (after_calls cs1 k).
Proof. revert k. by induction cs1 as [|c cs1 IH]; intros k; simpl. Qed.
Lemma replies_app cs1 cs2 k :
  replies (cs1 ++ cs2) k = replies cs1 k ++ replies cs2 (after_calls cs1 k).
Proof. revert k. induction cs1 as [|c cs1 IH]; intros k; simpl; [done|by rewrite IH]. Qed.
Lemma length_replies cs k : length (replies cs k) = length cs.
Proof. revert k. induction cs as [|c cs IH]; intros k; simpl; [done|by rewrite IH]. Qed.

Lemma ran_same w w' : w_calls w' = w_calls w -> w_kernel w' = w_kernel w -> ran [] w w'.
Proof. intros E1 E2. split; [by rewrite app_nil_r|done]. Qed.
Lemma ran_trans cs1 cs2 w1 w2 w3 :
  ran cs1 w1 w2 -> ran cs2 w2 w3 -> ran (cs1 ++ cs2) w1 w3.
Proof.
  intros [C1 K1] [C2 K2]. split; [by rewrite C2, C1, app_assoc|].
  by rewrite after_calls_app, <- K1.
Qed.
Lemma ran_called c r k w : kernel_call c (w_kernel w) = (r, k) -> ran [c] w (called c r k w).
Proof. intros E. split; [done|]. cbn. by rewrite E. Qed.
Lemma ended_by_called c (bad : reply -> Prop) r k w :
  kernel_call c (w_kernel w) = (r, k) -> bad r -> ended_by c bad w (called c r k w).
Proof.
  intros E Hb. exists []. split; [by apply ran_called|]. unfold reply_to. cbn. by rewrite E.
Qed.
Lemma ended_by_after cs c bad w1 w2 w3 :
  ran cs w1 w2 -> ended_by c bad w2 w3 -> ended_by c bad w1 w3.
Proof.
  intros R (cs2 & R2 & Hb). exists (cs ++ cs2). rewrite <- app_assoc.
  split; [by eapply ran_trans|]. destruct R as [_ Ek]. by rewrite after_calls_app, <- Ek.
Qed.

(** A computation on the data of the program. *)
Definition on_app {X} (m : ST A X) : Sys W X := fun w =>
  match m (w_app w) with
  | Ok x a => Done x (World (w_kernel w) (w_errno w) (w_herrno w) (w_stderr w)
                        (w_calls w) a)
  | Fault f => Stuck f
  end.
End Calls.

(** A computation on a part of the data of the program. *)
Definition with_app {K A B} (b : B) (w : world K A) : world K B :=
  World (w_kernel w) (w_errno w) (w_herrno w) (w_stderr w) (w_calls w) b.
Definition focus {K A B X} (get : A -> B) (put : B -> A -> A)
    (m : Sys (world K B) X) : Sys (world K A) X := fun w =>
  let back w' := with_app (put (w_app w') (w_app w)) w' in
  match m (with_app (get (w_app w)) w) with
  | Done x w' => Done x (back w')
  | Quit c w' => Quit c (back w')
  | Stuck f => Stuck f
  end.
