(* ===== verification/Csapp.v ===== *)
(** * csapp.c: the wrappers of the system calls

    Each wrapper makes one call and ends the process when the call reports an
    error: [unix_error], [posix_error] and [dns_error] print the error and
    exit, with the status 0.  A C pointer is an integer here, NULL being 0; a
    pointer to a structure the caller fills is left out of the arguments, and
    so are the structures the kernel fills. *)
From S2P Require Import Prelude Trace Sys.

Definition EINTR : Z := 4.
Definition EOF : Z := -1.
Definition LISTENQ : Z := 1024.
Definition AF_INET : Z := 2.
Definition SOCK_STREAM : Z := 1.
Definition SOL_SOCKET : Z := 1.
Definition SO_REUSEADDR : Z := 2.
Definition INADDR_ANY : Z := 0.
Definition SA_RESTART : Z := 0x10000000.
Definition SHUT_WR : Z := 1.
Definition SHUT_RDWR : Z := 2.
Definition SIZE_SOCKADDR_IN : Z := 16.

Section Csapp.
Context {K A : Type} `{Kernel K}.
Abbreviation M := (Sys (world K A)).

(** ** Error-handling functions *)

Definition unix_error {X} (msg : string) : M X :=
  e ← get_errno;
  eprint (msg +:+ ": " +:+ strerror e +:+ newline);;
  exit 0.
Definition posix_error {X} (code : Z) (msg : string) : M X :=
  eprint (msg +:+ ": " +:+ strerror code +:+ newline);;
  exit 0.
Definition dns_error {X} (msg : string) : M X :=
  e ← get_herrno;
  eprint (msg +:+ ": DNS error " +:+ fmt_d e +:+ newline);;
  exit 0.
Definition app_error {X} (msg : string) : M X :=
  eprint (msg +:+ newline);; exit 0.

(** perror of the C library. *)
Definition perror (msg : string) : M unit :=
  e ← get_errno; eprint (msg +:+ ": " +:+ strerror e +:+ newline).

(** ** The shapes of the wrappers

    The call, the test of its value, the error function; the value otherwise. *)

Definition checked (failed : Z -> bool) (error : string -> M Z) (msg : string)
    (c : M reply) : M Z :=
  r ← c; if failed (rv r) then error msg else mret (rv r).

Definition negative (rc : Z) : bool := rc <? 0.
Definition null (p : Z) : bool := p =? 0.
(** An [unsigned int] is never below 0. *)
Definition never (rc : Z) : bool := u32 rc <? 0.

Definition unix_call (name : string) (args : list arg) (msg : string) : M Z :=
  checked negative unix_error msg (call name args).
Definition pointer_call (name : string) (args : list arg) (msg : string) : M Z :=
  checked null unix_error msg (call name args).
Definition dns_call (name : string) (args : list arg) (msg : string) : M Z :=
  checked null dns_error msg (call name args).
Definition posix_call (name : string) (args : list arg) (msg : string) : M unit :=
  r ← call name args;
  if rv r =? 0 then mret () else posix_error (rv r) msg.
Definition bare_call (name : string) (args : list arg) : M Z :=
  r ← call name args; mret (rv r).

(** ** Process control *)

Definition Fork : M Z := unix_call "fork" [] "Fork error".
Definition Execve (filename : string) (argv envp : Z) : M unit :=
  unix_call "execve" [Str filename; Ptr argv; Ptr envp] "Execve error";; mret ().
Definition Wait (status : Z) : M Z := unix_call "wait" [Ptr status] "Wait error".
Definition Waitpid (pid iptr options : Z) : M Z :=
  unix_call "waitpid" [Int pid; Ptr iptr; Int options] "Waitpid error".
Definition Kill (pid signum : Z) : M unit :=
  unix_call "kill" [Int pid; Int signum] "Kill error";; mret ().
Definition Pause : M unit := bare_call "pause" [];; mret ().
Definition Sleep (secs : Z) : M Z :=
  checked never unix_error "Sleep error" (call "sleep" [Int secs]).
Definition Alarm (seconds : Z) : M Z := bare_call "alarm" [Int seconds].
Definition Setpgid (pid pgid : Z) : M unit :=
  unix_call "setpgid" [Int pid; Int pgid] "Setpgid error";; mret ().
Definition Getpgrp : M Z := bare_call "getpgrp" [].

(** ** Signals *)

(** [old] is the handler sigaction stores in its last argument. *)
Definition Signal (signum handler : Z) (old : reply -> Z) : M Z :=
  bare_call "sigemptyset" [];;
  r ← call "sigaction" [Int signum; Ptr handler; Int SA_RESTART];
  if negative (rv r) then unix_error "Signal error" else mret (old r).
Definition Sigprocmask (how set oldset : Z) : M unit :=
  unix_call "sigprocmask" [Int how; Ptr set; Ptr oldset] "Sigprocmask error";; mret ().
Definition Sigemptyset (set : Z) : M unit :=
  unix_call "sigemptyset" [Ptr set] "Sigemptyset error";; mret ().
Definition Sigfillset (set : Z) : M unit :=
  unix_call "sigfillset" [Ptr set] "Sigfillset error";; mret ().
Definition Sigaddset (set signum : Z) : M unit :=
  unix_call "sigaddset" [Ptr set; Int signum] "Sigaddset error";; mret ().
Definition Sigdelset (set signum : Z) : M unit :=
  unix_call "sigdelset" [Ptr set; Int signum] "Sigdelset error";; mret ().
Definition Sigismember (set signum : Z) : M Z :=
  unix_call "sigismember" [Ptr set; Int signum] "Sigismember error".

(** ** Unix I/O *)

Definition Open (pathname : string) (flags mode : Z) : M Z :=
  unix_call "open" [Str pathname; Int flags; Int mode] "Open error".
(** The count, and the bytes stored at [buf]. *)
Definition Read (fd count : Z) : M (Z * list Z) :=
  r ← call "read" [Int fd; Int count];
  if negative (rv r) then unix_error "Read error" else mret (rv r, r_data r).
Definition Write (fd : Z) (buf : list Z) : M Z :=
  unix_call "write" [Int fd; Bytes buf] "Write error".
Definition Lseek (fildes offset whence : Z) : M Z :=
  unix_call "lseek" [Int fildes; Int offset; Int whence] "Lseek error".
Definition Close (fd : Z) : M unit := unix_call "close" [Int fd] "Close error";; mret ().
Definition Select (n readfds writefds exceptfds timeout : Z) : M Z :=
  unix_call "select" [Int n; Ptr readfds; Ptr writefds; Ptr exceptfds; Ptr timeout]
    "Select error".
Definition Dup2 (fd1 fd2 : Z) : M Z := unix_call "dup2" [Int fd1; Int fd2] "Dup2 error".
Definition Stat (filename : string) : M unit :=
  unix_call "stat" [Str filename] "Stat error";; mret ().
Definition Fstat (fd : Z) : M unit := unix_call "fstat" [Int fd] "Fstat error";; mret ().

(** ** Memory *)

Definition Mmap (addr len prot flags fd offset : Z) : M Z :=
  checked (fun p => p =? -1) unix_error "mmap error"
    (call "mmap" [Ptr addr; Int len; Int prot; Int flags; Int fd; Int offset]).
Definition Munmap (start length : Z) : M unit :=
  unix_call "munmap" [Ptr start; Int length] "munmap error";; mret ().
Definition Malloc (size : Z) : M Z := pointer_call "malloc" [Int size] "Malloc error".
Definition Realloc (ptr size : Z) : M Z :=
  pointer_call "realloc" [Ptr ptr; Int size] "Realloc error".
Definition Calloc (nmemb size : Z) : M Z :=
  pointer_call "calloc" [Int nmemb; Int size] "Calloc error".
Definition Free (ptr : Z) : M unit := bare_call "free" [Ptr ptr];; mret ().

(** ** Standard I/O *)

Definition Fclose (fp : Z) : M unit :=
  checked (fun rc => negb (rc =? 0)) unix_error "Fclose error" (call "fclose" [Ptr fp]);;
  mret ().
Definition Fdopen (fd : Z) (type : string) : M Z :=
  pointer_call "fdopen" [Int fd; Str type] "Fdopen error".
(** The pointer, and the text stored at [ptr]. *)
Definition Fgets (ptr n stream : Z) : M (Z * list Z) :=
  r ← call "fgets" [Ptr ptr; Int n; Ptr stream];
  if null (rv r) then
    e ← bare_call "ferror" [Ptr stream];
    if c_true e then app_error "Fgets error" else mret (rv r, r_data r)
  else mret (rv r, r_data r).
Definition Fopen (filename mode : string) : M Z :=
  pointer_call "fopen" [Str filename; Str mode] "Fopen error".
Definition Fputs (ptr : list Z) (stream : Z) : M unit :=
  checked (fun rc => rc =? EOF) unix_error "Fputs error"
    (call "fputs" [Bytes ptr; Ptr stream]);;
  mret ().
Definition Fread (ptr size nmemb stream : Z) : M (Z * list Z) :=
  r ← call "fread" [Ptr ptr; Int size; Int nmemb; Ptr stream];
  if rv r <? nmemb then
    e ← bare_call "ferror" [Ptr stream];
    if c_true e then unix_error "Fread error" else mret (rv r, r_data r)
  else mret (rv r, r_data r).
Definition Fwrite (ptr : list Z) (size nmemb stream : Z) : M unit :=
  checked (fun n => n <? nmemb) unix_error "Fwrite error"
    (call "fwrite" [Bytes ptr; Int size; Int nmemb; Ptr stream]);;
  mret ().

(** ** Sockets and names *)

Definition Socket (domain type protocol : Z) : M Z :=
  unix_call "socket" [Int domain; Int type; Int protocol] "Socket error".
Definition Setsockopt (s level optname optval : Z) (optlen : Z) : M unit :=
  unix_call "setsockopt" [Int s; Int level; Int optname; Int optval; Int optlen]
    "Setsockopt error";;
  mret ().
(** An address is its family, port and host. *)
Definition Bind (sockfd : Z) (my_addr : list arg) (addrlen : Z) : M unit :=
  unix_call "bind" (Int sockfd :: my_addr ++ [Int addrlen]) "Bind error";; mret ().
Definition Listen (s backlog : Z) : M unit :=
  unix_call "listen" [Int s; Int backlog] "Listen error";; mret ().
Definition Accept (s : Z) : M Z := unix_call "accept" [Int s] "Accept error".
Definition Connect (sockfd : Z) (serv_addr : list arg) (addrlen : Z) : M unit :=
  unix_call "connect" (Int sockfd :: serv_addr ++ [Int addrlen]) "Connect error";;
  mret ().
(** The entry of the host, its address being the bytes of the reply. *)
Definition Gethostbyname (name : string) : M (Z * list Z) :=
  r ← call "gethostbyname" [Str name];
  if null (rv r) then dns_error "Gethostbyname error" else mret (rv r, r_data r).
Definition Gethostbyaddr (addr : list Z) (len type : Z) : M Z :=
  dns_call "gethostbyaddr" [Bytes addr; Int len; Int type] "Gethostbyaddr error".

(** ** Threads and semaphores *)

Definition Pthread_create (tidp attrp routine argp : Z) : M unit :=
  posix_call "pthread_create" [Ptr tidp; Ptr attrp; Ptr routine; Ptr argp]
    "Pthread_create error".
Definition Pthread_cancel (tid : Z) : M unit :=
  posix_call "pthread_cancel" [Int tid] "Pthread_cancel error".
Definition Pthread_join (tid thread_return : Z) : M unit :=
  posix_call "pthread_join" [Int tid; Ptr thread_return] "Pthread_join error".
Definition Pthread_detach (tid : Z) : M unit :=
  posix_call "pthread_detach" [Int tid] "Pthread_detach error".
Definition Pthread_exit (retval : Z) : M unit :=
  bare_call "pthread_exit" [Ptr retval];; mret ().
Definition Pthread_self : M Z := bare_call "pthread_self" [].
Definition Pthread_once (once_control init_function : Z) : M unit :=
  bare_call "pthread_once" [Ptr once_control; Ptr init_function];; mret ().
Definition Sem_init (sem pshared value : Z) : M unit :=
  unix_call "sem_init" [Ptr sem; Int pshared; Int value] "Sem_init error";; mret ().
Definition P (sem : Z) : M unit := unix_call "sem_wait" [Ptr sem] "P error";; mret ().
Definition V (sem : Z) : M unit := unix_call "sem_post" [Ptr sem] "V error";; mret ().
End Csapp.
