(* ===== verification/Messages.v ===== *)
(** * debug.h: the debug messages of a source file

    [is_debugged] is a macro with two expansions: a search of the table at each
    message or, when CACHE_DEBUG_FLAG is defined, at the first one, its answer
    being kept in two static variables of the file. *)
From S2P Require Import Prelude Debug Trace Sys.

(** The static variables of one source file. *)
Record debug_flags := { is_debugged_first : Z; is_debugged_result : Z }.
Definition flags_init : debug_flags :=
  {| is_debugged_first := 1; is_debugged_result := 0 |}.

(** [is_debugged(__FILE__)] in both versions: its value, and the variables. *)
Definition is_debugged_macro (cached : bool) (file : string) (d : debug_data)
    (v : debug_flags) : option (Z * debug_flags) :=
  if cached then
    '(b, v) ← (if c_true (is_debugged_first v) then
                 r ← is_debugged file d;
                 Some (c_true r, {| is_debugged_first := 0; is_debugged_result := r |})
               else Some (false, v));
    Some (c_bool (b || c_true (is_debugged_result v)), v)
  else r ← is_debugged file d; Some (r, v).

(** The messages: what they print on the standard error. *)
Definition debug_raw (cached : bool) (file : string) (d : debug_data) (v : debug_flags)
    (text : string) : option (string * debug_flags) :=
  '(b, v) ← is_debugged_macro cached file d v;
  Some (if c_true b then text else EmptyString, v).
Definition debug (cached : bool) (file : string) (line : Z) (d : debug_data)
    (v : debug_flags) (text : string) : option (string * debug_flags) :=
  debug_raw cached file d v
    ("[DEBUG] " +:+ file +:+ "," +:+ fmt_d line +:+ ": " +:+ text).

(** ** Messages of a process

    On the table [files], with the expansion of the build, which does not define
    CACHE_DEBUG_FLAG; the text is looked at when it is printed only. *)
Section Process.
Context {K A : Type} `{Kernel K}.

Definition print_message (files : debug_data) (file : string) (line : option Z)
    (text : option string) : Sys (world K A) unit :=
  '(shown, _) ← of_option (is_debugged_macro false file files flags_init);
  if c_true shown then
    t ← of_option text;
    '(s, _) ← of_option match line with
                        | Some line => debug false file line files flags_init t
                        | None => debug_raw false file files flags_init t
                        end;
    eprint s
  else mret ().

(** A message prints its text when its file is debugged. *)
Lemma print_message_run files file line text (w : world K A) :
  match print_message files file line text w with
  | Done _ w' =>
      exists ms, w' = World (w_kernel w) (w_errno w) (w_herrno w) (w_stderr w ++ ms)
                        (w_calls w) (w_app w) /\
        (is_debugged file files = Some 0 -> ms = [])
  | Quit _ _ => False
  | Stuck f => f = OutOfBounds /\ is_debugged file files <> Some 0
  end.
Proof.
  unfold print_message. rewrite sys_eq. unfold is_debugged_macro at 1.
  destruct (is_debugged file files) as [b|] eqn:Eb; [|by split].
  cbn [mbind option_bind of_option mret Sys_ret].
  destruct (c_true b) eqn:Hb; [|exists []; rewrite app_nil_r; by destruct w].
  assert (Some b <> Some 0) as Hne by (intros [= ->]; done).
  rewrite sys_eq. destruct text as [t|]; [|by split]. cbn [of_option mret Sys_ret].
  rewrite sys_eq. destruct line as [line|]; unfold debug, debug_raw, is_debugged_macro;
    rewrite Eb; cbn [mbind option_bind of_option mret Sys_ret]; by eexists [_].
Qed.

(** What is printed, when the answer of the table is known. *)
Lemma print_message_shown files file line text b (w : world K A) :
  is_debugged file files = Some (c_bool b) ->
  print_message files file (Some line) (Some text) w =
  Done () (World (w_kernel w) (w_errno w) (w_herrno w)
    (w_stderr w ++ if b then ["[DEBUG] " +:+ file +:+ "," +:+ fmt_d line +:+ ": " +:+ text]%string
                   else []) (w_calls w) (w_app w)).
Proof.
  intros E. unfold print_message, debug, debug_raw, is_debugged_macro. rewrite E.
  destruct b; [done|]. rewrite app_nil_r. by destruct w.
Qed.
End Process.

(** ** The answers of the macros *)

(** What a run does with the table: a file is added, or the source file in
    question has a message; the values of [is_debugged] at its messages. *)
Inductive event := Added (name : string) | Message.

Fixpoint debug_run (cached : bool) (file : string) (l : list event) (d : debug_data)
    (v : debug_flags) : option (list Z) :=
  match l with
  | [] => Some []
  | Added name :: l => d ← add_debug_to name d; debug_run cached file l d v
  | Message :: l =>
      '(b, v) ← is_debugged_macro cached file d v;
      bs ← debug_run cached file l d v;
      Some (b :: bs)
  end.

(** ** Which messages are printed *)

(** The answers the table gives, [names] being added before. *)
Fixpoint answers (file : string) (l : list event) (names : list string) : list Z :=
  match l with
  | [] => []
  | Added name :: l => answers file l (name :: names)
  | Message :: l => c_bool (bool_decide (file ∈ names)) :: answers file l names
  end.

Definition additions (l : list event) : nat :=
  sum_list ((fun e => match e with Added _ => 1%nat | Message => 0%nat end) <$> l).

Lemma is_debugged_names d s names file :
  debug_table d s -> s ≡ₚ names ->
  is_debugged file d = Some (c_bool (bool_decide (file ∈ names))).
Proof.
  intros Hd Hp. rewrite (is_debugged_table d s file Hd). do 2 f_equal.
  apply bool_decide_ext. by rewrite Hp.
Qed.

Lemma run_added cached file name l d s names v :
  debug_table d s -> s ≡ₚ names -> (length names + 1 <= 64)%nat ->
  exists d' s', debug_table d' s' /\ s' ≡ₚ name :: names /\
    debug_run cached file (Added name :: l) d v = debug_run cached file l d' v.
Proof.
  intros Hd Hp Hl. rewrite <- Hp in Hl.
  destruct (add_debug_to_sorted d s name Hd ltac:(lia)) as (d' & s' & E & Hd' & Hp').
  exists d', s'. split; [done|]. split; [by rewrite Hp', Hp|]. cbn [debug_run]. by rewrite E.
Qed.

Lemma uncached_run file l : forall d s names v,
  debug_table d s -> s ≡ₚ names -> (length names + additions l <= 64)%nat ->
  debug_run false file l d v = Some (answers file l names).
Proof.
  induction l as [|[name|] l IH]; intros d s names v Hd Hp Hl; [done| |].
  - cbn in Hl. destruct (run_added false file name l d s names v Hd Hp ltac:(lia))
      as (d' & s' & Hd' & Hp' & ->).
    apply (IH d' s' (name :: names)); [done..|]. cbn [length]. unfold additions, fmap in *. lia.
  - cbn [debug_run is_debugged_macro answers]. rewrite (is_debugged_names d s names file Hd Hp).
    cbn [mbind option_bind]. by rewrite (IH d s names).
Qed.

(** Once the answer is kept, the table does not count. *)
Lemma kept_run file l r : forall d s names v,
  debug_table d s -> s ≡ₚ names -> (length names + additions l <= 64)%nat ->
  is_debugged_first v = 0 -> is_debugged_result v = c_bool r ->
  debug_run true file l d v = Some (replicate (length (answers file l names)) (c_bool r)).
Proof.
  induction l as [|[name|] l IH]; intros d s names v Hd Hp Hl H1 H2; [done| |].
  - cbn in Hl. destruct (run_added true file name l d s names v Hd Hp ltac:(lia))
      as (d' & s' & Hd' & Hp' & ->).
    apply (IH d' s' (name :: names)); [done..| |done|done].
    cbn [length]. unfold additions, fmap in *. lia.
  - cbn [debug_run is_debugged_macro answers length replicate].
    rewrite H1. change (c_true 0) with false. cbn [mbind option_bind orb]. rewrite H2.
    rewrite (IH d s names); [|done..].
    by destruct r.
Qed.

Lemma cached_run file l : forall d s names,
  debug_table d s -> s ≡ₚ names -> (length names + additions l <= 64)%nat ->
  debug_run true file l d flags_init =
    Some (replicate (length (answers file l names)) (hd 0 (answers file l names))).
Proof.
  induction l as [|[name|] l IH]; intros d s names Hd Hp Hl; [done| |].
  - cbn in Hl. destruct (run_added true file name l d s names flags_init Hd Hp ltac:(lia))
      as (d' & s' & Hd' & Hp' & ->).
    apply (IH d' s' (name :: names)); [done..|]. cbn [length]. unfold additions, fmap in *. lia.
  - cbn [debug_run is_debugged_macro answers length replicate hd].
    rewrite (is_debugged_names d s names file Hd Hp). cbn.
    set (r := bool_decide (file ∈ names)).
    rewrite (kept_run file l r d s names); [|done..]. by destruct r.
Qed.

(** C35. Which messages are printed: starting from the empty table, and with at
    most 64 additions, a message of a file is printed exactly when the file
    was added before it; in the version that keeps the first answer, every
    message is treated as the first one is, so that a file added after its
    first message stays silent. *)
Theorem debug_messages file l :
  (additions l <= 64)%nat ->
  let shown := answers file l [] in
  debug_run false file l debug_init flags_init = Some shown /\
  debug_run true file l debug_init flags_init =
    Some (replicate (length shown) (hd 0 shown)).
Proof.
  intros Hl shown. split.
  - by apply (uncached_run _ _ _ []); [apply debug_init_table| |].
  - by apply (cached_run _ _ _ []); [apply debug_init_table| |].
Qed.

(** A file that is added between its two messages. *)
Lemma debug_messages_witness :
  debug_run false "memory.c" [Message; Added "memory.c"; Message] debug_init flags_init
    = Some [0; 1] /\
  debug_run true "memory.c" [Message; Added "memory.c"; Message] debug_init flags_init
    = Some [0; 0].
Proof.
  apply (debug_messages "memory.c" [Message; Added "memory.c"; Message]%string).
  cbn. lia.
Defined.
