(* ===== verification/Main.v ===== *)
(** * arm_simulator.c: main

    [main] reads its options, creates the memory and the processor, starts the
    two threads, waits for the one of gdb, frees what it created and returns.
    [main_data] is its variables and the static variables it sets.  The threads
    are Server.v and Net.v; here they are the calls that start them. *)
From S2P Require Import Prelude Util Debug Constants Memory Registers Trace.
From S2P Require Import Core.
From S2P Require Import LoadStore Branch Instruction Gdb Sys Csapp Messages.

Record main_data := {
  md_sim : sim;
  md_debug : debug_data;
  gdb_port : Z;
  irq_port : Z;
  trace_file : option string;
  md_output : option string
}.

Abbreviation Main := (ST main_data).

Definition main_sim {A} (m : Sim A) : Main A := fun d =>
  match m (md_sim d) with
  | Ok a s => Ok a {| md_sim := s; md_debug := md_debug d; gdb_port := gdb_port d;
                      irq_port := irq_port d; trace_file := trace_file d;
                      md_output := md_output d |}
  | Fault f => Fault f
  end.
Definition set_gdb_port (p : Z) : Main unit := fun d =>
  Ok () {| md_sim := md_sim d; md_debug := md_debug d; gdb_port := p;
           irq_port := irq_port d; trace_file := trace_file d; md_output := md_output d |}.
Definition set_irq_port (p : Z) : Main unit := fun d =>
  Ok () {| md_sim := md_sim d; md_debug := md_debug d; gdb_port := gdb_port d;
           irq_port := p; trace_file := trace_file d; md_output := md_output d |}.
Definition set_file (f : string) : Main unit := fun d =>
  Ok () {| md_sim := md_sim d; md_debug := md_debug d; gdb_port := gdb_port d;
           irq_port := irq_port d; trace_file := Some f; md_output := md_output d |}.
Definition debug_file (f : string) : Main unit := fun d =>
  match add_debug_to f (md_debug d) with
  | Some t => Ok () {| md_sim := md_sim d; md_debug := t; gdb_port := gdb_port d;
                       irq_port := irq_port d; trace_file := trace_file d;
                       md_output := md_output d |}
  | None => Fault OutOfBounds
  end.

(** trace.c, arm.c *)
Definition set_trace_file (f : option string) : Main unit := fun d =>
  Ok () {| md_sim := md_sim d; md_debug := md_debug d; gdb_port := gdb_port d;
           irq_port := irq_port d; trace_file := trace_file d; md_output := f |}.
Definition arm_init : Main unit := mret ().

(** ** What main frees *)

(** The blocks of the processor, of its registers and of the memory. *)
Inductive block := RegisterBlock | RegistersStruct | ArmStruct | MemoryBlock | MemoryStruct.
#[export] Instance block_eq_dec : EqDecision block.
Proof. solve_decision. Defined.

(** What the functions free, in order. *)
Definition registers_destroy : list block := [RegisterBlock; RegistersStruct].
Definition arm_destroy : list block := registers_destroy ++ [ArmStruct].
Definition memory_destroy : list block := [MemoryBlock; MemoryStruct].
Definition main_frees : list block := arm_destroy ++ memory_destroy.

Definition block_name (b : block) : string :=
  match b with
  | RegisterBlock => "registers->data" | RegistersStruct => "registers"
  | ArmStruct => "arm" | MemoryBlock => "mem->address" | MemoryStruct => "mem"
  end.

(** ** The options *)

Definition usage_text (name : string) : string :=
  "Usage:" +:+ newline +:+ name +:+
  " [ --help ] [ --gdb-port port ] [ --irq-port port ] [ --trace-file file ] [ --trace-registers ] [ --trace-memory ] [ --trace-state ] [ --trace-position ] [ --debug filename ]"
  +:+ newline +:+ newline +:+
  "Start an ARMv5 instruction set simulator that acts as a gdb server and can receive interrupts. It is possible to specify on which ports the simulator listen to gdb client or irq sending program connections. Trace options have the following behavior:"
  +:+ newline +:+
  "- trace file: file into which trace information is stored (default is stdout)"
  +:+ newline +:+
  "- trace registers: outputs informations about each access to registers"
  +:+ newline +:+
  "- trace memory: outputs informations about each access to memory"
  +:+ newline +:+
  "- trace state: outputs the processor state after each instruction"
  +:+ newline +:+
  "- trace position: for each traced access, outputs the file and line at which the access has been performed"
  +:+ newline +:+
  "The debug switch enable selective reporting of debug messages on a per source file basis"
  +:+ newline.

(** [%c] *)
Definition fmt_c (c : Z) : string :=
  String (Ascii.ascii_of_N (Z.to_N (u8 c))) EmptyString.

Section Main.
Context `{T : Target} {K : Type} `{Kernel K}.
Abbreviation M := (Sys (world K main_data)).

Definition usage (name : string) : M unit := eprint (usage_text name).

(** The switch on what getopt_long returns.  A port is an in_port_t, of 16
    bits; a NULL stream is 0. *)
Definition main_option (argv0 : string) (opt : Z) (optarg : string) : M unit :=
  if opt =? 103 then on_app (set_gdb_port (u16 (atoi (bytes_of optarg))))
  else if opt =? 105 then on_app (set_irq_port (u16 (atoi (bytes_of optarg))))
  else if opt =? 104 then usage argv0;; exit 0
  else if opt =? 116 then
    f ← call "fopen" [Str optarg; Str "w"];
    if rv f =? 0 then perror "Trace file";; exit 1 else on_app (set_file optarg)
  else if opt =? 114 then on_app (main_sim (trace_add REGISTERS))
  else if opt =? 109 then on_app (main_sim (trace_add MEMORY))
  else if opt =? 115 then on_app (main_sim (trace_add STATE))
  else if opt =? 112 then on_app (main_sim (trace_add POSITION))
  else if opt =? 100 then on_app (debug_file optarg)
  else
    eprint ("Unrecognized option " +:+ fmt_c opt +:+ newline);;
    usage argv0;;
    exit 1.

Fixpoint main_options (argv0 : string) (opts : list (Z * string)) : M unit :=
  match opts with
  | [] => mret ()
  | (opt, optarg) :: opts =>
      main_option argv0 opt optarg;; main_options argv0 opts
  end.

(** [gdb_init] of gdb_protocol.c: its message; the table it fills is the function
    [handler] of Gdb.v. *)
Definition gdb_init : M unit := fun w =>
  print_message (md_debug (w_app w)) "gdb_protocol.c" (Some 393)
    (Some ("gdb protocol handlers initialization" +:+ newline)%string) w.

(** [main] up to the threads, with what the calls of malloc return: [mem_ok]
    and [block] in [memory_create], [arm_ok] and the counter in [arm_create],
    [r] in [registers_create].
    A NULL memory or processor, which faults at its first use, is reported at
    once. *)
Definition main_create (argv0 : string) (opts : list (Z * string))
    (mem_ok : bool) (block : option (list Z)) (arm_ok : bool) (cycle0 : Z)
    (r : option registers_data) : M unit :=
  main_options argv0 opts;;
  gdb_init;;
  on_app (arm_init;; d ← get_state; set_trace_file (trace_file d));;
  m ← of_option (memory_create mem_ok block 0x20000 (c_bool big_endian_simulator));
  ok ← on_app (main_sim (arm_create arm_ok cycle0 r m));
  if ok : bool then mret () else stop OutOfBounds.

Fixpoint free_all (l : list block) : M unit :=
  match l with
  | [] => mret ()
  | b :: l => bare_call "free" [Str (block_name b)];; free_all l
  end.

(** [main]; a thread is the bytes pthread_create stores for it.  The results of
    the calls on threads are not looked at. *)
Definition main (argv0 : string) (opts : list (Z * string))
    (mem_ok : bool) (block : option (list Z)) (arm_ok : bool) (cycle0 : Z)
    (r : option registers_data) : M unit :=
  main_create argv0 opts mem_ok block arm_ok cycle0 r;;
  bare_call "pthread_mutex_init" [];;
  gdb_thread ← call "pthread_create" [Str "gdb_listener"];
  irq_thread ← call "pthread_create" [Str "irq_listener"];
  bare_call "pthread_join" [Bytes (r_data gdb_thread)];;
  free_all main_frees;;
  exit 0.

(** The state [main] starts in: [p] is not yet a processor. *)
Definition main_init (p : arm_core_data) : main_data := {|
  md_sim := {| s_arm := p; s_trace := trace_init; s_log := [] |};
  md_debug := debug_init; gdb_port := 0; irq_port := 0; trace_file := None;
  md_output := None |}.
End Main.
