(* ===== verification/MainSpec.v ===== *)
(** * Properties of main (arm_simulator.c)

    Which command lines [main] accepts, what it prints and calls for the others,
    and the state in which it starts the threads. *)
From S2P Require Import Prelude Util Debug Constants Memory Registers Trace.
From S2P Require Import Core.
From S2P Require Import Refine LoadStore Branch Instruction Run Invariant.
From S2P Require Import Transfers Gdb Sys Csapp Messages Main.

(** The options with which [main] goes on, -t if its file can be opened. *)
Definition known_options : list Z := [103; 105; 116; 114; 109; 115; 112; 100].

Ltac known := cbn [fst]; unfold known_options; rewrite !elem_of_cons, elem_of_nil; lia.

Section MainSpec.
Context `{T : Target} {K : Type} `{Kernel K}.
Abbreviation W := (world K main_data).

(** ** The options *)

Definition fopen_call (file : string) : syscall :=
  {| sys_name := "fopen"; sys_args := [Str file; Str "w"] |}.



(** What [main] does with an option it refuses. *)
Inductive refused (argv0 : string) (w : W) : Z -> string -> ending W unit -> Prop :=
  | refused_help optarg w' :
      w_stderr w' = w_stderr w ++ [usage_text argv0] -> w_calls w' = w_calls w ->
      refused argv0 w 104 optarg (Quit 0 w')
  | refused_file optarg w' :
      w_stderr w' = w_stderr w ++
        ["Trace file: " +:+ strerror (w_errno w') +:+ newline] ->
      w_calls w' = w_calls w ++ [fopen_call optarg] ->
      refused argv0 w 116 optarg (Quit 1 w')
  | refused_option opt optarg w' :
      opt <> 104 -> opt ∉ known_options ->
      w_stderr w' = w_stderr w ++
        ["Unrecognized option " +:+ fmt_c opt +:+ newline; usage_text argv0] ->
      w_calls w' = w_calls w ->
      refused argv0 w opt optarg (Quit 1 w').

Lemma refused_known argv0 w opt optarg e :
  refused argv0 w opt optarg e -> opt ∈ known_options -> opt = 116.
Proof. intros [] Ho; [revert Ho; known|done|done]. Qed.









(** ** The creation of the machine *)

(** The processor [arm_create] overwrites does not matter. *)
Lemma arm_create_over cycle0 r m p s :
  arm_create true cycle0 (Some r) m s =
  arm_create true cycle0 (Some r) m
    {| s_arm := p; s_trace := s_trace s; s_log := s_log s |}.
Proof. reflexivity. Qed.

Definition created (s : sim) : Prop :=
  ready 2 s /\ core_wf (s_arm s) /\ mem_size (mem (s_arm s)) = 0x20000.

(** What [main_create] does after the options. *)
Lemma machine_run block cycle0 r (w : W) f :
  length block = Z.to_nat 0x20000 -> Forall is_u8 block -> regs_wf r ->
  s_trace (md_sim (w_app w)) = with_flags f trace_init ->
  exists w', (on_app (arm_init;; d ← get_state; set_trace_file (trace_file d));;
    m ← of_option (memory_create true (Some block) 0x20000 (c_bool big_endian_simulator));
    ok ← on_app (main_sim (arm_create true cycle0 (Some r) m));
    if ok : bool then mret () else stop OutOfBounds) w = Done () w' /\
    created (md_sim (w_app w')) /\ w_stderr w' = w_stderr w /\ w_calls w' = w_calls w.
Proof.
  intros Hl Hb Hr Hf. set (d := w_app w) in *.
  set (w1 := with_app {| md_sim := md_sim d; md_debug := md_debug d; gdb_port := gdb_port d;
    irq_port := irq_port d; trace_file := trace_file d; md_output := trace_file d |} w).
  rewrite (sys_done _ _ w () w1) by done. cbn [memory_create of_option].
  set (m := {| mem_is_big_endian := _ |}).
  assert (mem_wf m) as Hm.
  { split; simpl; [by rewrite Hl|done|done|]. destruct big_endian_simulator; auto. }
  set (q := {| cycle_count := cycle0; reg := r; mem := m |}).
  set (s := {| s_arm := q; s_trace := s_trace (md_sim d); s_log := s_log (md_sim d) |}).
  destruct (arm_create_run 1 cycle0 r m s) as (s' & E & Hs' & Hw' & _ & Hm' & _ & _ & _).
  { split; unfold s; cbn [s_trace s_arm]; rewrite ?Hf; try done. apply Hr. }
  { done. }
  { done. }
  rewrite <- (arm_create_over _ _ _ q (md_sim d)) in E.
  rewrite (sys_done _ _ w1 m w1) by done.
  rewrite (sys_done _ _ w1 true (with_app {| md_sim := s'; md_debug := md_debug d;
    gdb_port := gdb_port d; irq_port := irq_port d; trace_file := trace_file d;
    md_output := trace_file d |} w1))
    by (unfold on_app, main_sim; cbn [w1 with_app w_app md_sim]; by rewrite E).
  eexists. split; [done|]. split; [|done]. unfold created. cbn. by rewrite Hm'.
Qed.



Lemma gdb_init_app (w w' : W) : gdb_init w = Done () w' -> w_app w' = w_app w.
Proof.
  unfold gdb_init. generalize (Some ("gdb protocol handlers initialization" +:+ newline)%string).
  intros t E. pose proof (print_message_run (md_debug (w_app w)) "gdb_protocol.c" (Some 393) t w)
    as H1.
  rewrite E in H1. by destruct H1 as (ms & -> & _).
Qed.


(** Whatever the options, the machine is created if [main] gets there. *)
Definition untraced (d : main_data) : Prop :=
  exists f, s_trace (md_sim d) = with_flags f trace_init.

Lemma on_app_untraced (m : Main unit) (w w' : W) :
  (forall d d', m d = Ok () d' -> untraced d -> untraced d') ->
  on_app m w = Done () w' -> untraced (w_app w) -> untraced (w_app w').
Proof.
  intros Hm E. unfold on_app in E. destruct (m (w_app w)) as [[] d|] eqn:Ed; [|done].
  injection E as <-. exact (Hm _ _ Ed).
Qed.

Lemma main_option_untraced argv0 opt optarg (w w' : W) :
  main_option argv0 opt optarg w = Done () w' -> untraced (w_app w) -> untraced (w_app w').
Proof.
  assert (forall x d d', main_sim (trace_add x) d = Ok () d' -> untraced d -> untraced d')
    as Hadd by (intros x d d' [= <-] [f Hf]; exists (Z.lor f x); cbn; by rewrite Hf).
  assert (forall d d', debug_file optarg d = Ok () d' -> untraced d -> untraced d') as Hd.
  { intros d d' E. unfold debug_file in E. destruct (add_debug_to _ _); [|done].
    by injection E as <-. }
  unfold main_option. repeat case_match; intros E; try discriminate;
    try (eapply on_app_untraced; [|exact E];
         first [exact (Hadd _) | exact Hd | by intros d d' [= <-]]).
  rewrite sys_eq in E. unfold call in E.
  destruct (kernel_call _ _) as [r k]. destruct (rv r =? 0); [done|].
  injection E as <-. done.
Qed.

Lemma main_options_untraced argv0 opts : forall w w' : W,
  main_options argv0 opts w = Done () w' -> untraced (w_app w) -> untraced (w_app w').
Proof.
  induction opts as [|[opt optarg] opts IH]; intros w w' E Hd; [by injection E as <-|].
  cbn [main_options] in E. rewrite sys_eq in E.
  destruct (main_option argv0 opt optarg w) as [[] w1| |] eqn:E1; try done.
  eapply IH; [exact E|]. by eapply main_option_untraced.
Qed.

Lemma main_create_run argv0 opts block cycle0 r p (w w' : W) :
  length block = Z.to_nat 0x20000 -> Forall is_u8 block -> regs_wf r ->
  w_app w = main_init p ->
  main_create argv0 opts true (Some block) true cycle0 (Some r) w = Done () w' ->
  created (md_sim (w_app w')).
Proof.
  intros Hl Hb Hr Hp E. unfold main_create in E. rewrite sys_eq in E.
  destruct (main_options argv0 opts w) as [[] w1| |] eqn:E1; try done.
  assert (untraced (w_app w1)) as [f Hf]
    by (eapply main_options_untraced; [exact E1|rewrite Hp; by exists 0]).
  rewrite sys_eq in E. destruct (gdb_init w1) as [[] w2| |] eqn:Ei; try done.
  apply gdb_init_app in Ei. rewrite <- Ei in Hf.
  destruct (machine_run block cycle0 r w2 f) as (w3 & E2 & H2 & _); [done..|].
  assert (Done () w3 = Done () w') as Ew by (rewrite <- E2; exact E).
  by injection Ew as <-.
Qed.

(** ** main *)







End MainSpec.
