(* ===== verification/Related.v ===== *)
(** * One program, two runs

    The code of gdb_protocol.c and scanner.l is stated for any connection and
    any monad, so that what it does on one is related to what it does on
    another as soon as the operations of the two are: a relation closed under
    the operations ([RelatesSends], [RelatesSim], [RelatesLock],
    [RelatesLexer]) holds of the two runs of every function.  A property of the
    runs on one connection is a relation that looks at one side only.

    The classes are as strong as the functions need: what happens before the
    lock is taken uses [RelatesSends] alone. *)
From S2P Require Import Prelude Util Constants Memory Registers Trace Core.
From S2P Require Import LoadStore Branch Instruction Gdb Scanner.

(** [Agree R m n]: the two runs are related. *)
Definition Agree {M N : Type -> Type} (R : forall A, M A -> N A -> Prop) {A}
    (m : M A) (n : N A) : Prop := R A m n.

Section Classes.
Context {M N : Type -> Type}.
Context (R : forall A, M A -> N A -> Prop).

Class RelatesMonad `{!MStop M, !MBind M, !MRet M, !MStop N, !MBind N, !MRet N} : Prop := {
  related_ret {A} (a : A) : Agree R (mret a) (mret a);
  related_out_of_bounds {A} : Agree (A := A) R (stop OutOfBounds) (stop OutOfBounds);
  related_bind {A B} (m : M A) (n : N A) (k : A -> M B) (l : A -> N B) :
    Agree R m n -> (forall a, Agree R (k a) (l a)) -> Agree R (m ≫= k) (n ≫= l)
}.

(** The struct of the connection, its socket and the messages. *)
Class RelatesSends `{!Connection M, !Connection N} : Prop := {
  related_get_data : Agree R get_data get_data;
  related_put_data d : Agree R (put_data d) (put_data d);
  related_Rio_writen bs : Agree R (Rio_writen bs) (Rio_writen bs);
  related_message file line text :
    Agree R (message file line text) (message file line text)
}.

(** What is done past the lock only: the simulator is used, a loop can use up
    its fuel and an assertion can fail. *)
Class RelatesSim `{!Connection M, !Connection N, !MStop M, !MStop N} : Prop := {
  related_stop {A} f : Agree (A := A) R (stop f) (stop f);
  related_on_sim {A} (m : Sim A) : Agree R (on_sim m) (on_sim m);
  related_shutdown : Agree R shutdown shutdown
}.

Class RelatesLock `{!Connection M, !Connection N} : Prop := {
  related_lock : Agree R mutex_lock mutex_lock;
  related_unlock : Agree R mutex_unlock mutex_unlock
}.
End Classes.

(** The lexer over the connection. *)
Class RelatesLexer {G1 G2 M N : Type -> Type}
    (RG : forall A, G1 A -> G2 A -> Prop) (R : forall A, M A -> N A -> Prop)
    `{!Lexer G1 M, !Lexer G2 N} : Prop := {
  related_on_gdb {A} (m : G1 A) (n : G2 A) : Agree RG m n -> Agree R (on_gdb m) (on_gdb n);
  related_get_parser : Agree R get_parser get_parser;
  related_put_parser b n : Agree R (put_parser b n) (put_parser b n);
  related_echo c : Agree R (echo c) (echo c)
}.

(** An operation of the interfaces. *)
Ltac related_op :=
  first [ eapply related_ret | eapply related_out_of_bounds | eapply related_stop
        | eapply related_get_data
        | eapply related_put_data | eapply related_Rio_writen | eapply related_message
        | eapply related_on_sim
        | eapply related_shutdown | eapply related_lock | eapply related_unlock
        | eapply related_get_parser | eapply related_put_parser | eapply related_echo ];
  typeclasses eauto.

Create HintDb related discriminated.
#[export] Hint Constants Opaque : related.
#[export] Hint Extern 1 (Agree _ _ _) => related_op : related.

(** Goes through the two runs of a computation, along its structure. *)
Ltac related_step :=
  lazymatch goal with
  | |- Agree _ (mbind _ _) _ => eapply related_bind; [typeclasses eauto| |intros ?]
  | |- Agree _ (match ?x with _ => _ end) _ => destruct x
  | |- Agree _ (on_gdb _) _ => eapply related_on_gdb
  | |- Agree _ (scanner_debug _ _) _ => eapply related_on_gdb
  | |- Agree _ _ _ => solve [auto with related]
  end.
Ltac related := cbv zeta; repeat related_step.

Section Related.
Context {M N : Type -> Type} `{!Connection M, !MStop M, !MBind M, !MRet M}.
Context `{!Connection N, !MStop N, !MBind N, !MRet N}.
Context (R : forall A, M A -> N A -> Prop) `{!RelatesMonad R}.

(** ** The packets *)

Context `{!RelatesSends R}.

Lemma related_of_option {A} (o : option A) : Agree R (of_option o) (of_option o).
Proof. destruct o; cbn [of_option]; related. Qed.
#[local] Hint Resolve related_of_option : related.

Lemma related_debug line text : Agree R (gdb_debug line text) (gdb_debug line text).
Proof. apply (related_message R). Qed.
Lemma related_debug_raw text : Agree R (gdb_debug_raw text) (gdb_debug_raw text).
Proof. apply (related_message R). Qed.
#[local] Hint Resolve related_debug related_debug_raw : related.

Lemma related_put_text i text : Agree R (put_text i text) (put_text i text).
Proof. unfold put_text, put_packet. related. Qed.
#[local] Hint Resolve related_put_text : related.
Lemma related_transmit : Agree R gdb_transmit_packet gdb_transmit_packet.
Proof. unfold gdb_transmit_packet. related. Qed.
#[local] Hint Resolve related_transmit : related.
Lemma related_send_buffer : Agree R gdb_send_buffer gdb_send_buffer.
Proof. unfold gdb_send_buffer. related. Qed.
#[local] Hint Resolve related_send_buffer : related.
Lemma related_send_data text : Agree R (gdb_send_data text) (gdb_send_data text).
Proof. unfold gdb_send_data. related. Qed.
#[local] Hint Resolve related_send_data : related.
Lemma related_send_ack : Agree R gdb_send_ack gdb_send_ack.
Proof. unfold gdb_send_ack. related. Qed.
Lemma related_retransmission :
  Agree R gdb_require_retransmission gdb_require_retransmission.
Proof. unfold gdb_require_retransmission. related. Qed.
#[local] Hint Resolve related_send_ack related_retransmission : related.

(** ** The handlers *)

Context `{T : Target} `{!RelatesSim R}.

Lemma related_stop_reason : Agree R gdb_send_stop_reason gdb_send_stop_reason.
Proof. unfold gdb_send_stop_reason. related. Qed.
#[local] Hint Resolve related_stop_reason : related.
Lemma related_located {A} line (m : Sim A) :
  Agree R (located_gdb line m) (located_gdb line m).
Proof. unfold located_gdb. related. Qed.
#[local] Hint Resolve @related_located : related.
Lemma related_step_and_trace fr : Agree R (step_and_trace fr) (step_and_trace fr).
Proof. unfold step_and_trace, set_exception. related. Qed.
#[local] Hint Resolve related_step_and_trace : related.
Lemma related_cont_loop fuel fr :
  forall k i, Agree R (cont_loop fuel fr k i) (cont_loop fuel fr k i).
Proof. induction fuel as [|fuel IH]; intros k i; cbn [cont_loop]; related. Qed.
#[local] Hint Resolve related_cont_loop : related.
Lemma related_query data : Agree R (query data) (query data).
Proof. unfold query. related. Qed.

Lemma related_put_uint32 i v : Agree R (put_uint32 i v) (put_uint32 i v).
Proof. unfold put_uint32. related. Qed.
#[local] Hint Resolve related_put_uint32 : related.
Lemma related_put_registers regs :
  forall i, Agree R (put_registers regs i) (put_registers regs i).
Proof. induction regs as [|r regs IH]; intros i; cbn [put_registers]; related. Qed.
Lemma related_put_unknown n : forall i, Agree R (put_unknown n i) (put_unknown n i).
Proof. induction n as [|n IH]; intros i; cbn [put_unknown]; related. Qed.
#[local] Hint Resolve related_put_registers related_put_unknown : related.
Lemma related_dump_memory fuel :
  forall n a v i, Agree R (dump_memory fuel n a v i) (dump_memory fuel n a v i).
Proof. induction fuel as [|fuel IH]; intros n a v i; cbn [dump_memory]; related. Qed.
#[local] Hint Resolve related_dump_memory : related.

Lemma related_assert b : Agree R (assert b) (assert b).
Proof. unfold assert. related. Qed.
#[local] Hint Resolve related_assert : related.
Lemma related_set_registers fr regs :
  forall data, Agree R (set_registers fr regs data) (set_registers fr regs data).
Proof. induction regs as [|r regs IH]; intros data; cbn [set_registers]; related. Qed.
Lemma related_drop_words fr n :
  forall data, Agree R (drop_words fr n data) (drop_words fr n data).
Proof. induction n as [|n IH]; intros data; cbn [drop_words]; related. Qed.
#[local] Hint Resolve related_set_registers related_drop_words : related.

Lemma related_store_memory content :
  forall i n a, Agree R (store_memory content i n a) (store_memory content i n a).
Proof.
  induction content as [content IH] using (induction_ltof1 _ (@length Z)).
  unfold ltof in IH. intros i n a. destruct content as [|c rest]; cbn [store_memory].
  - related.
  - destruct (n =? 0); [related|].
    cbv zeta. repeat first [apply IH; simpl; lia | related_step].
Qed.
#[local] Hint Resolve related_store_memory : related.

Lemma related_run_handler fuel fr c data :
  Agree R (run_handler fuel fr c data) (run_handler fuel fr c data).
Proof.
  destruct c; cbn [run_handler].
  - unfold cont. related.
  - unfold kill_request. related.
  - apply related_query.
  - unfold read_general_registers. related.
  - unfold read_memory. related.
  - unfold gdb_read_register. related.
  - unfold reason. related.
  - unfold set_thread. related.
  - unfold step. related.
  - unfold write_general_registers. related.
  - unfold write_memory_binary. related.
  - unfold gdb_write_register. related.
Qed.
#[local] Hint Resolve related_run_handler : related.

Lemma related_packet_analysis fuel fr block n `{!RelatesLock R} :
  Agree R (gdb_packet_analysis fuel fr block n) (gdb_packet_analysis fuel fr block n).
Proof. unfold gdb_packet_analysis. related. Qed.
End Related.

#[export] Hint Extern 2 (Agree _ _ _) =>
  first [ eapply related_of_option | eapply related_debug | eapply related_debug_raw
        | eapply related_retransmission
        | eapply related_transmit | eapply related_send_data
        | eapply related_send_ack | eapply related_run_handler
        | eapply related_packet_analysis ];
  typeclasses eauto : related.

(** ** The lexer *)

Section RelatedLexer.
Context {G1 G2 M N : Type -> Type}.
Context `{!Connection G1, !MStop G1, !MBind G1, !MRet G1}.
Context `{!Connection G2, !MStop G2, !MBind G2, !MRet G2}.
Context `{!Lexer G1 M, !MStop M, !MBind M, !MRet M}.
Context `{!Lexer G2 N, !MStop N, !MBind N, !MRet N}.
Context (RG : forall A, G1 A -> G2 A -> Prop) `{!RelatesMonad RG, !RelatesSends RG}.
Context (R : forall A, M A -> N A -> Prop) `{!RelatesMonad R, !RelatesLexer RG R}.

Lemma related_handle_error : Agree R handle_error handle_error.
Proof. unfold handle_error. related. Qed.
#[local] Hint Resolve related_handle_error : related.
Lemma related_add_character c :
  Agree R (add_character_to_error c) (add_character_to_error c).
Proof. unfold add_character_to_error. related. Qed.
#[local] Hint Resolve related_add_character : related.

Context `{T : Target} `{!RelatesSim RG, !RelatesLock RG}.

Lemma related_action fuel fr after t :
  Agree R (action fuel fr after t) (action fuel fr after t).
Proof. destruct t; cbn [action]; related. Qed.
#[local] Hint Resolve related_action : related.
Lemma related_actions fuel frs after ts :
  forall k, Agree R (actions fuel frs after k ts) (actions fuel frs after k ts).
Proof. induction ts as [|t ts IH]; intros k; cbn [actions]; related. Qed.
#[local] Hint Resolve related_actions : related.
Lemma related_yylex fuel frs after input :
  Agree R (yylex fuel frs after input) (yylex fuel frs after input).
Proof. unfold yylex. related. Qed.
End RelatedLexer.
