(* ===== verification/Server.v ===== *)
(** * arm_simulator.c: the two threads and their lock

    [main], in Main.v, starts two threads.  The gdb thread runs the scanner on
    the connection; the irq thread raises an exception for every byte it reads.
    Both take the lock around what they do to the processor.

    [server_step] is one step of either thread: the gdb thread ([gdb_step]) does
    what precedes the lock ([scan_head]), takes the lock, runs the handler and
    releases it; the irq thread ([irq_step]) reads, takes the lock, raises the
    exception and releases it.  The bytes that arrive are given; the
    sockets they come from are in Net.v, the end of [main] beside the irq thread
    in Shutdown.v.  That a whole handler is one step is justified by Reduction.v,
    on the threads of Program.v, which are cut at every call. *)
From S2P Require Import Prelude Util Debug Constants Memory Registers Trace.
From S2P Require Import Core.
From S2P Require Import LoadStore Branch Instruction Gdb Scanner Related.

(** ** The threads *)

Section Threads.
Context `{T : Target}.

(** [irq_listener]: one byte. *)
Definition interrupt (irq : Z) : Scan unit :=
  on_gdb (on_sim (arm_exception (M := Sim) irq)).

(** [gdb_packet_analysis] up to the lock: the handler to call and its data. *)
Definition packet_head {M} `{!Connection M, !MStop M, !MBind M, !MRet M}
    (fr : gframe) (block : list Z) (length : Z) : M (option (command * list Z)) :=
  let i := Z.max 1 (length - 3) in
  check ← of_option (sum_chars (Z.to_nat (i - 1)) block 1 0);
  given ← of_option (sscanf_x (drop (Z.to_nat (i + 1)) block) (gf_given fr));
  gdb_debug 423 (Some "Received packet : "%string);;
  gdb_debug_raw (t ← cstring block;
    bs ← debug_raw_binary (Nat.min 16 (Datatypes.length t)) block 0; Some (fmt_s bs));;
  if check =? given then
    gdb_debug_raw (Some (", checksum ok" +:+ newline)%string);;
    gdb_send_ack;;
    block ← of_option (buf_set block i 0);
    index ← of_option (buf_get block 1);
    match handler index with
    | Some c => mret (Some (c, drop 2 block))
    | None =>
        gdb_debug 441 (Some ("Unsupported request, sending empty answer" +:+ newline)%string);;
        gdb_send_data [];;
        mret None
    end
  else
    gdb_debug_raw (Some (", checksum failed, expected " +:+ fmt_02x_uint given
      +:+ " got " +:+ fmt_02x check +:+ newline)%string);;
    gdb_debug 430 (Some ("Requiring retransmission" +:+ newline)%string);;
    gdb_require_retransmission;;
    mret None.

Lemma related_packet_head {M N} `{!Connection M, !MStop M, !MBind M, !MRet M}
    `{!Connection N, !MStop N, !MBind N, !MRet N} (R : forall A, M A -> N A -> Prop)
    `{!RelatesMonad R, !RelatesSends R} fr block n :
  Agree R (packet_head fr block n) (packet_head fr block n).
Proof. unfold packet_head. related. Qed.

(** The action of a token up to the lock. *)
Definition scan_head (fr : gframe) (after : list Z) (t : token)
    : Scan (option (command * list Z)) :=
  match t with
  | Ack =>
      handle_error;;
      scanner_debug 61 (Some ("Received ack" +:+ newline)%string);;
      mret None
  | Retransmit =>
      handle_error;;
      scanner_debug 64 (Some ("Received request for retransmission" +:+ newline)%string);;
      on_gdb gdb_transmit_packet;;
      mret None
  | Packet yytext =>
      handle_error;;
      on_gdb (packet_head fr (yytext ++ 0 :: after) (Z.of_nat (length yytext)))
  | Other c => add_character_to_error c;; mret None
  | Newline => echo 10;; mret None
  end.

(** What the threads do, one after the other. *)
Inductive activity :=
  | GdbToken (fr : gframe) (after : list Z) (t : token)
  | IrqByte (irq : Z).

Definition activity_run (fuel : nat) (a : activity) : Scan unit :=
  match a with
  | GdbToken fr after t => action fuel fr after t
  | IrqByte irq => interrupt irq
  end.
Fixpoint activities (fuel : nat) (l : list activity) : Scan unit :=
  match l with
  | [] => mret ()
  | a :: l => activity_run fuel a;; activities fuel l
  end.

Inductive thread := GdbThread | IrqThread.

(** Where the threads are: between two tokens or bytes, at the lock, or past it. *)
Inductive gdb_place :=
  | GdbIdle
  | GdbAtLock (fr : gframe) (after : list Z) (t : token) (c : command) (data : list Z)
  | GdbLocked (fr : gframe) (after : list Z) (t : token) (c : command) (data : list Z).
Inductive irq_place :=
  | IrqIdle
  | IrqAtLock (irq : Z)
  | IrqLocked (irq : Z).

Record server := {
  sv_scanner : scanner;
  sv_lock : option thread;
  sv_gdb : gdb_place;
  sv_tokens : list token;
  sv_irq : irq_place;
  sv_bytes : list Z
}.

(** A step of the gdb thread, labelled with the activity it completes. *)
Inductive gdb_step (fuel : nat) : server -> list activity -> server -> Prop :=
  | gdb_alone fr after t s s' l ts i bs :
      scan_head fr after t s = Ok None s' ->
      gdb_step fuel
        {| sv_scanner := s; sv_lock := l; sv_gdb := GdbIdle; sv_tokens := t :: ts;
           sv_irq := i; sv_bytes := bs |}
        [GdbToken fr after t]
        {| sv_scanner := s'; sv_lock := l; sv_gdb := GdbIdle; sv_tokens := ts;
           sv_irq := i; sv_bytes := bs |}
  | gdb_request fr after t c data s s' l ts i bs :
      scan_head fr after t s = Ok (Some (c, data)) s' ->
      gdb_step fuel
        {| sv_scanner := s; sv_lock := l; sv_gdb := GdbIdle; sv_tokens := t :: ts;
           sv_irq := i; sv_bytes := bs |}
        []
        {| sv_scanner := s'; sv_lock := l; sv_gdb := GdbAtLock fr after t c data;
           sv_tokens := ts; sv_irq := i; sv_bytes := bs |}
  | gdb_lock fr after t c data s ts i bs :
      gdb_step fuel
        {| sv_scanner := s; sv_lock := None; sv_gdb := GdbAtLock fr after t c data;
           sv_tokens := ts; sv_irq := i; sv_bytes := bs |}
        []
        {| sv_scanner := s; sv_lock := Some GdbThread;
           sv_gdb := GdbLocked fr after t c data;
           sv_tokens := ts; sv_irq := i; sv_bytes := bs |}
  | gdb_handle fr after t c data s s' l ts i bs :
      on_gdb (run_handler fuel fr c data) s = Ok () s' ->
      gdb_step fuel
        {| sv_scanner := s; sv_lock := l; sv_gdb := GdbLocked fr after t c data;
           sv_tokens := ts; sv_irq := i; sv_bytes := bs |}
        [GdbToken fr after t]
        {| sv_scanner := s'; sv_lock := None; sv_gdb := GdbIdle;
           sv_tokens := ts; sv_irq := i; sv_bytes := bs |}.

(** A step of the irq thread. *)
Inductive irq_step : server -> list activity -> server -> Prop :=
  | irq_read s l g ts b bs :
      irq_step
        {| sv_scanner := s; sv_lock := l; sv_gdb := g; sv_tokens := ts;
           sv_irq := IrqIdle; sv_bytes := b :: bs |}
        []
        {| sv_scanner := s; sv_lock := l; sv_gdb := g; sv_tokens := ts;
           sv_irq := IrqAtLock b; sv_bytes := bs |}
  | irq_lock s g ts b bs :
      irq_step
        {| sv_scanner := s; sv_lock := None; sv_gdb := g; sv_tokens := ts;
           sv_irq := IrqAtLock b; sv_bytes := bs |}
        []
        {| sv_scanner := s; sv_lock := Some IrqThread; sv_gdb := g; sv_tokens := ts;
           sv_irq := IrqLocked b; sv_bytes := bs |}
  | irq_raise s s' l g ts b bs :
      interrupt b s = Ok () s' ->
      irq_step
        {| sv_scanner := s; sv_lock := l; sv_gdb := g; sv_tokens := ts;
           sv_irq := IrqLocked b; sv_bytes := bs |}
        [IrqByte b]
        {| sv_scanner := s'; sv_lock := None; sv_gdb := g; sv_tokens := ts;
           sv_irq := IrqIdle; sv_bytes := bs |}.

Inductive server_step (fuel : nat) : server -> list activity -> server -> Prop :=
  | step_gdb v l v' : gdb_step fuel v l v' -> server_step fuel v l v'
  | step_irq v l v' : irq_step v l v' -> server_step fuel v l v'.

(** The steps from the start, with the activities completed in order. *)
Inductive server_run (fuel : nat) (v : server) : list activity -> server -> Prop :=
  | run_start : server_run fuel v [] v
  | run_step h l v1 v2 :
      server_run fuel v h v1 -> server_step fuel v1 l v2 ->
      server_run fuel v (h ++ l) v2.
End Threads.

(** Both threads at their start, with all that will arrive. *)
Definition server_start (s : scanner) (ts : list token) (bs : list Z) : server := {|
  sv_scanner := s; sv_lock := None; sv_gdb := GdbIdle; sv_tokens := ts;
  sv_irq := IrqIdle; sv_bytes := bs |}.
