(* ===== verification/Program.v ===== *)
(** * The threads as programs

    [prog] is what a thread does, call by call: it accesses the simulator,
    works on data of its own, sends on its socket, waits for a byte, takes the
    lock and releases it.  The code of gdb_protocol.c and scanner.l, stated for
    any connection, is such a program; so is the loop of [irq_listener] on the
    bytes that arrive.

    A machine is the simulator, the lock and the two threads; [machine_step] is
    one call of either.  Unlike in Server.v nothing is taken to be atomic but
    the calls themselves, and a thread can use the simulator without the lock,
    if its program does so.  No file is debugged, and no write fails: Delivery.v
    is about these. *)
From stdpp Require Import relations.
From S2P Require Import Prelude Util Constants Memory Registers Trace Core.
From S2P Require Import LoadStore Branch Instruction Gdb Scanner Server.

#[export] Instance thread_eq_dec : EqDecision thread.
Proof. solve_decision. Defined.

(** ** The data of a thread *)

(** All of [scanner] but the simulator. *)
Record local := {
  l_data : gdb_protocol_data;
  l_out : list Z;
  l_shut : bool;
  l_parser : parser_data;
  l_echo : list Z
}.

Definition join (s : sim) (l : local) : scanner := {|
  sc_gdb := {| g_sim := s; g_data := l_data l; g_out := l_out l; g_shut := l_shut l |};
  sc_data := l_parser l; sc_echo := l_echo l |}.
Definition local_of (s : scanner) : local := {|
  l_data := g_data (sc_gdb s); l_out := g_out (sc_gdb s); l_shut := g_shut (sc_gdb s);
  l_parser := sc_data s; l_echo := sc_echo s |}.
Definition sim_of (s : scanner) : sim := g_sim (sc_gdb s).

Lemma join_split s : join (sim_of s) (local_of s) = s.
Proof. by destruct s as [[] ? ?]. Qed.

Definition set_data (d : gdb_protocol_data) (l : local) : local := {|
  l_data := d; l_out := l_out l; l_shut := l_shut l; l_parser := l_parser l;
  l_echo := l_echo l |}.
Definition add_out (bs : list Z) (l : local) : local := {|
  l_data := l_data l; l_out := l_out l ++ bs; l_shut := l_shut l;
  l_parser := l_parser l; l_echo := l_echo l |}.
Definition set_shut (l : local) : local := {|
  l_data := l_data l; l_out := l_out l; l_shut := true; l_parser := l_parser l;
  l_echo := l_echo l |}.
Definition set_parser (d : parser_data) (l : local) : local := {|
  l_data := l_data l; l_out := l_out l; l_shut := l_shut l; l_parser := d;
  l_echo := l_echo l |}.
Definition add_echo (c : Z) (l : local) : local := {|
  l_data := l_data l; l_out := l_out l; l_shut := l_shut l; l_parser := l_parser l;
  l_echo := l_echo l ++ [c] |}.

(** ** Programs *)

Inductive prog (A : Type) : Type :=
  | Ret (a : A)
  | Halt (f : fault)
  | Access (m : Sim (prog A))
  | Own (m : ST local (prog A))
  | Send (bs : list Z) (p : prog A)
  | Receive (p : prog A)
  | Lock (p : prog A)
  | Unlock (p : prog A).
Arguments Ret {A} a.
Arguments Halt {A} f.
Arguments Access {A} m.
Arguments Own {A} m.
Arguments Send {A} bs p.
Arguments Receive {A} p.
Arguments Lock {A} p.
Arguments Unlock {A} p.

(** [P] of what a call returns. *)
Definition returns {S A} (P : A -> Prop) (m : ST S A) : Prop :=
  forall s, match m s with Ok a _ => P a | Fault _ => True end.

Section Induction.
Context {A : Type} (P : prog A -> Prop).
Context (HRet : forall a, P (Ret a)) (HHalt : forall f, P (Halt f)).
Context (HAccess : forall m, returns P m -> P (Access m)).
Context (HOwn : forall m, returns P m -> P (Own m)).
Context (HSend : forall bs p, P p -> P (Send bs p)).
Context (HReceive : forall p, P p -> P (Receive p)).
Context (HLock : forall p, P p -> P (Lock p)).
Context (HUnlock : forall p, P p -> P (Unlock p)).

Fixpoint prog_induction (p : prog A) : P p :=
  match p with
  | Ret a => HRet a
  | Halt f => HHalt f
  | Access m => HAccess m (fun s =>
      match m s as o return match o with Ok a _ => P a | Fault _ => True end with
      | Ok q _ => prog_induction q | Fault _ => I end)
  | Own m => HOwn m (fun s =>
      match m s as o return match o with Ok a _ => P a | Fault _ => True end with
      | Ok q _ => prog_induction q | Fault _ => I end)
  | Send bs q => HSend bs q (prog_induction q)
  | Receive q => HReceive q (prog_induction q)
  | Lock q => HLock q (prog_induction q)
  | Unlock q => HUnlock q (prog_induction q)
  end.
End Induction.

Fixpoint prog_bind {A B} (k : A -> prog B) (p : prog A) : prog B :=
  match p with
  | Ret a => k a
  | Halt f => Halt f
  | Access m => Access (fun s =>
      match m s with Ok q s' => Ok (prog_bind k q) s' | Fault f => Fault f end)
  | Own m => Own (fun l =>
      match m l with Ok q l' => Ok (prog_bind k q) l' | Fault f => Fault f end)
  | Send bs q => Send bs (prog_bind k q)
  | Receive q => Receive (prog_bind k q)
  | Lock q => Lock (prog_bind k q)
  | Unlock q => Unlock (prog_bind k q)
  end.

#[export] Instance prog_mret : MRet prog := @Ret.
#[export] Instance prog_mbind : MBind prog := @prog_bind.
#[export] Instance prog_stop : MStop prog := @Halt.

(** ** The threads of the simulator *)

#[export] Instance prog_connection : Connection prog := {
  on_sim := fun A m => Access (a ← m; mret (Ret a));
  get_data := Own (fun l => Ok (Ret (l_data l)) l);
  put_data := fun d => Own (fun l => Ok (Ret ()) (set_data d l));
  Rio_writen := fun bs => Send bs (Ret ());
  shutdown := Own (fun l => Ok (Ret ()) (set_shut l));
  mutex_lock := Lock (Ret ());
  mutex_unlock := Unlock (Ret ());
  message := fun _ _ _ => Ret ()
}.

#[export] Instance prog_lexer : Lexer prog prog := {
  on_gdb := fun A m => m;
  get_parser := Own (fun l => Ok (Ret (l_parser l)) l);
  put_parser := fun b n =>
    Own (fun l => Ok (Ret ()) (set_parser {| buffer := b; buffer_len := n |} l));
  echo := fun c => Own (fun l => Ok (Ret ()) (add_echo c l))
}.

(** Nothing is debugged. *)
Lemma prog_debug_off {A} line text (k : prog A) : (gdb_debug line text;; k) = k.
Proof. done. Qed.
Lemma prog_debug_raw_off {A} text (k : prog A) : (gdb_debug_raw text;; k) = k.
Proof. done. Qed.
Lemma prog_scanner_debug_off {A} line text (k : prog A) :
  (scanner_debug line text;; k) = k.
Proof. done. Qed.

Section Machine.
Context `{T : Target}.

(** The loop of [irq_listener] on the bytes that arrive. *)
Fixpoint irq_loop (bs : list Z) : prog unit :=
  match bs with
  | [] => mret ()
  | irq :: bs =>
      Receive (Ret ());;
      mutex_lock;;
      on_sim (arm_exception (M := Sim) irq);;
      mutex_unlock;;
      irq_loop bs
  end.

Record task := {
  t_prog : prog unit;
  t_local : local
}.

(** A call of a thread [t]: the lock and the simulator before it and after.  A
    thread waits for a lock that is taken, and does not release one it has not. *)
Inductive task_step (t : thread) : option thread -> task -> sim ->
    option thread -> task -> sim -> Prop :=
  | step_access h m l s p s' :
      m s = Ok p s' ->
      task_step t h {| t_prog := Access m; t_local := l |} s
                  h {| t_prog := p; t_local := l |} s'
  | step_own h m l s p l' :
      m l = Ok p l' ->
      task_step t h {| t_prog := Own m; t_local := l |} s
                  h {| t_prog := p; t_local := l' |} s
  | step_send h bs p l s :
      task_step t h {| t_prog := Send bs p; t_local := l |} s
                  h {| t_prog := p; t_local := add_out bs l |} s
  | step_receive h p l s :
      task_step t h {| t_prog := Receive p; t_local := l |} s
                  h {| t_prog := p; t_local := l |} s
  | step_lock p l s :
      task_step t None {| t_prog := Lock p; t_local := l |} s
                  (Some t) {| t_prog := p; t_local := l |} s
  | step_unlock p l s :
      task_step t (Some t) {| t_prog := Unlock p; t_local := l |} s
                  None {| t_prog := p; t_local := l |} s.

(** A call without a defined effect. *)
Inductive task_fault : task -> sim -> fault -> Prop :=
  | fault_halt f l s : task_fault {| t_prog := Halt f; t_local := l |} s f
  | fault_access m l s f :
      m s = Fault f -> task_fault {| t_prog := Access m; t_local := l |} s f
  | fault_own m l s f :
      m l = Fault f -> task_fault {| t_prog := Own m; t_local := l |} s f.

Record machine := {
  m_sim : sim;
  m_lock : option thread;
  m_gdb : task;
  m_irq : task
}.

Inductive machine_step : machine -> machine -> Prop :=
  | machine_gdb s h k i h' k' s' :
      task_step GdbThread h k s h' k' s' ->
      machine_step {| m_sim := s; m_lock := h; m_gdb := k; m_irq := i |}
                   {| m_sim := s'; m_lock := h'; m_gdb := k'; m_irq := i |}
  | machine_irq s h k i h' i' s' :
      task_step IrqThread h i s h' i' s' ->
      machine_step {| m_sim := s; m_lock := h; m_gdb := k; m_irq := i |}
                   {| m_sim := s'; m_lock := h'; m_gdb := k; m_irq := i' |}.

(** The threads at their start: the gdb thread with the data of [s], the irq
    thread, which has none, with any. *)
Definition machine_start (fuel : nat) (frs : nat -> gframe) (after : nat -> list Z)
    (input bs : list Z) (s : scanner) (l : local) : machine := {|
  m_sim := sim_of s; m_lock := None;
  m_gdb := {| t_prog := yylex fuel frs after input; t_local := local_of s |};
  m_irq := {| t_prog := irq_loop bs; t_local := l |} |}.
End Machine.

(** ** Running a schedule *)

Section Running.
Context `{T : Target}.

Definition task_next (t : thread) (h : option thread) (k : task) (s : sim)
    : option (option thread * task * sim) :=
  let after p := {| t_prog := p; t_local := t_local k |} in
  match t_prog k with
  | Ret _ | Halt _ => None
  | Access m => match m s with Ok p s' => Some (h, after p, s') | Fault _ => None end
  | Own m =>
      match m (t_local k) with
      | Ok p l => Some (h, {| t_prog := p; t_local := l |}, s)
      | Fault _ => None
      end
  | Send bs p => Some (h, {| t_prog := p; t_local := add_out bs (t_local k) |}, s)
  | Receive p => Some (h, after p, s)
  | Lock p => match h with None => Some (Some t, after p, s) | Some _ => None end
  | Unlock p => if decide (h = Some t) then Some (None, after p, s) else None
  end.

Definition machine_next (t : thread) (v : machine) : option machine :=
  let k := match t with GdbThread => m_gdb v | IrqThread => m_irq v end in
  '(h, k, s) ← task_next t (m_lock v) k (m_sim v);
  Some match t with
       | GdbThread => {| m_sim := s; m_lock := h; m_gdb := k; m_irq := m_irq v |}
       | IrqThread => {| m_sim := s; m_lock := h; m_gdb := m_gdb v; m_irq := k |}
       end.

(** The threads in the order of their calls. *)
Fixpoint run_schedule (ts : list thread) (v : machine) : option machine :=
  match ts with
  | [] => Some v
  | t :: ts => v ← machine_next t v; run_schedule ts v
  end.

Lemma task_next_step t h k s h' k' s' :
  task_next t h k s = Some (h', k', s') <-> task_step t h k s h' k' s'.
Proof.
  split.
  - destruct k as [[] l]; cbn; intros E; repeat case_match; simplify_eq; by constructor.
  - destruct 1; cbn; try done; try (by match goal with E : _ = Ok _ _ |- _ => rewrite E end).
    by rewrite decide_True.
Qed.

Lemma machine_next_step v v' :
  machine_step v v' <-> exists t, machine_next t v = Some v'.
Proof.
  split.
  - destruct 1 as [s h k i h' k' s' H|s h k i h' k' s' H]; apply task_next_step in H;
      [exists GdbThread|exists IrqThread]; unfold machine_next; cbn; by rewrite H.
  - intros [t E]. destruct v as [s h k i]. unfold machine_next in E. cbn in E.
    destruct t; destruct (task_next _ _ _ _) as [[[h' k'] s']|] eqn:H; simplify_eq/=;
      apply task_next_step in H; by constructor.
Qed.

Lemma schedule_reaches ts : forall v v',
  run_schedule ts v = Some v' -> rtc machine_step v v'.
Proof.
  induction ts as [|t ts IH]; intros v v' E; cbn in E; [by simplify_eq|].
  destruct (machine_next t v) as [v1|] eqn:E1; [|done].
  eapply rtc_l; [|by apply IH]. apply machine_next_step. by exists t.
Qed.
End Running.
