(* ===== verification/Locking.v ===== *)
(** * The lock protects the simulator

    A program is [guarded] if it uses the simulator between taking the lock and
    releasing it only.  The two threads are, so that no interleaving of their
    calls has a race on the simulator; Progress.v shows that none blocks. *)
From stdpp Require Import relations.
From S2P Require Import Prelude Util Constants Memory Registers Trace Core.
From S2P Require Import LoadStore Branch Instruction Gdb Scanner Related.
From S2P Require Import Server Program.

(** ** Guarded programs *)

(** [guarded b p c]: [p] takes and releases the lock in turn, starting with the
    lock if [b] and ending with it if [c], and only uses the simulator with it.
    Without it, a call fails only where the C code leaves a block. *)
Fixpoint guarded {A} (b : bool) (p : prog A) (c : bool) : Prop :=
  match p with
  | Ret _ => b = c
  | Halt f => b = true \/ f = OutOfBounds
  | Access m =>
      b = true /\
      forall s, match m s with Ok q _ => guarded b q c | Fault _ => True end
  | Own m => forall l, match m l with Ok q _ => guarded b q c | Fault _ => False end
  | Send _ q | Receive q => guarded b q c
  | Lock q => b = false /\ guarded true q c
  | Unlock q => b = true /\ guarded false q c
  end.

Lemma guarded_bind {A B} (p : prog A) (k : A -> prog B) a b c :
  guarded a p b -> (forall x, guarded b (k x) c) -> guarded a (p ≫= k) c.
Proof.
  intros Hp Hk. revert a Hp.
  induction p as [x|f|m IH|m IH|bs p IH|p IH|p IH|p IH] using prog_induction;
    intros a; cbn -[mbind]; try (intros; by apply IH).
  - intros ->. apply Hk.
  - done.
  - intros [-> Hm]. split; [done|]. intros s. specialize (Hm s). specialize (IH s).
    destruct (m s); [by apply IH|done].
  - intros Hm l. specialize (Hm l). specialize (IH l). destruct (m l); [by apply IH|done].
  - intros [-> Hp]. split; [done|]. by apply IH.
  - intros [-> Hp]. split; [done|]. by apply IH.
Qed.

(** With the lock, or without it, throughout. *)
Definition throughout (b : bool) A (p _ : prog A) : Prop := guarded b p b.

#[export] Instance throughout_monad b : RelatesMonad (throughout b).
Proof.
  split; [done|by right|]. intros A B m n k l Hm Hk. by eapply guarded_bind.
Qed.
#[export] Instance throughout_sends b : RelatesSends (throughout b).
Proof. by split. Qed.
#[export] Instance throughout_sim : RelatesSim (throughout true).
Proof.
  split; [by left| |done]. intros A m. split; [done|]. intros s. rewrite bind_eq.
  by destruct (m s).
Qed.
#[export] Instance throughout_lexer b : RelatesLexer (throughout b) (throughout b).
Proof. by split. Qed.

(** ** The two threads *)

Section Threads.
Context `{T : Target}.

Lemma guarded_critical (p : prog unit) :
  guarded true p true -> guarded false (mutex_lock;; p;; mutex_unlock) false.
Proof.
  intros Hp. split; [done|]. eapply guarded_bind; [done|]. intros _.
  eapply guarded_bind; [exact Hp|]. by intros [].
Qed.

Lemma guarded_packet fuel fr block n :
  guarded false (gdb_packet_analysis fuel fr block n) false.
Proof.
  change (Agree (throughout false) (gdb_packet_analysis fuel fr block n)
            (gdb_packet_analysis fuel fr block n)).
  unfold gdb_packet_analysis. cbv zeta.
  repeat first [apply guarded_critical, (related_run_handler (throughout true))
               |related_step].
Qed.

Lemma guarded_action fuel fr after t :
  guarded (A := unit) false (action fuel fr after t) false.
Proof.
  pose proof (related_handle_error (throughout false) (throughout false)) as He.
  destruct t; cbn [action].
  - eapply guarded_bind; [exact He|]. by intros _.
  - eapply guarded_bind; [exact He|]. intros _. apply (related_transmit (throughout false)).
  - eapply guarded_bind; [exact He|]. intros _. apply guarded_packet.
  - apply (related_add_character (throughout false) (throughout false)).
  - done.
Qed.

Lemma guarded_actions fuel frs after ts : forall k,
  guarded (A := unit) false (actions fuel frs after k ts) false.
Proof.
  induction ts as [|t ts IH]; intros k; [done|]. cbn [actions].
  eapply guarded_bind; [apply guarded_action|]. intros _. apply IH.
Qed.

Lemma guarded_yylex fuel frs after input :
  guarded (A := unit) false (yylex fuel frs after input) false.
Proof.
  eapply guarded_bind; [apply guarded_actions|]. intros _.
  apply (related_handle_error (throughout false) (throughout false)).
Qed.

Lemma guarded_irq bs : guarded false (irq_loop bs) false.
Proof.
  induction bs as [|b bs IH]; [done|]. cbn [irq_loop]. cbn -[arm_exception].
  repeat split. intros s. rewrite bind_eq. destruct (arm_exception (M := Sim) b s); [|done].
  by repeat split.
Qed.
End Threads.

(** ** The machine *)

Section Machine.
Context `{T : Target}.

Definition held (t : thread) (h : option thread) : bool := bool_decide (h = Some t).
Definition task_of (t : thread) (v : machine) : task :=
  match t with GdbThread => m_gdb v | IrqThread => m_irq v end.

(** Each thread goes on with the lock if it is its own, without it if not. *)
Definition guarded_machine (v : machine) : Prop :=
  forall t, guarded (held t (m_lock v)) (t_prog (task_of t v)) false.

Lemma guarded_start fuel frs after input bs s l :
  guarded_machine (machine_start fuel frs after input bs s l).
Proof. intros []; [apply guarded_yylex|apply guarded_irq]. Qed.

(** A call keeps the caller guarded; the lock is another's only if it was. *)
Lemma guarded_task t h k s h' k' s' :
  task_step t h k s h' k' s' -> guarded (held t h) (t_prog k) false ->
  guarded (held t h') (t_prog k') false /\
  forall u, u <> t -> held u h' = held u h.
Proof.
  destruct 1 as [h m l s p s' E|h m l s p l' E| | | |]; cbn [t_prog guarded]; intros Hg.
  - destruct Hg as [_ Hg]. specialize (Hg s). by rewrite E in Hg.
  - specialize (Hg l). by rewrite E in Hg.
  - done.
  - done.
  - destruct Hg as [_ Hg]. unfold held at 1. rewrite bool_decide_true by done.
    split; [done|]. intros u Hu. apply bool_decide_ext. split; congruence.
  - destruct Hg as [_ Hg]. split; [done|].
    intros u Hu. apply bool_decide_ext. split; congruence.
Qed.

Lemma guarded_step v v' : machine_step v v' -> guarded_machine v -> guarded_machine v'.
Proof.
  destruct 1 as [s h k i h' k' s' H|s h k i h' i' s' H]; intros Hv.
  - destruct (guarded_task _ _ _ _ _ _ _ H (Hv GdbThread)) as [Hk Hu].
    intros []; [exact Hk|]. cbn. rewrite Hu by done. apply (Hv IrqThread).
  - destruct (guarded_task _ _ _ _ _ _ _ H (Hv IrqThread)) as [Hk Hu].
    intros []; [|exact Hk]. cbn. rewrite Hu by done. apply (Hv GdbThread).
Qed.

Lemma guarded_reachable v v' :
  rtc machine_step v v' -> guarded_machine v -> guarded_machine v'.
Proof. induction 1; eauto using guarded_step. Qed.

(** The next call of a thread uses the simulator. *)
Definition accesses (p : prog unit) : Prop := exists m, p = Access m.

Lemma held_true t h : held t h = true -> h = Some t.
Proof. apply bool_decide_eq_true. Qed.

(** C10. No race: in every state the two threads reach, whatever gdb and the
    senders of interrupts write and however the calls of the threads
    interleave, a thread whose next call uses the simulator or releases the
    lock holds the lock; so never are both threads about to use the simulator. *)
Theorem threads_race_free fuel frs after input bs s l v t :
  rtc machine_step (machine_start fuel frs after input bs s l) v ->
  let p := t_prog (task_of t v) in
  (accesses p \/ (exists q, p = Unlock q) -> m_lock v = Some t) /\
  (accesses p -> forall u, u <> t -> ~ accesses (t_prog (task_of u v))).
Proof.
  intros Hr p. pose proof (guarded_reachable _ _ Hr (guarded_start _ _ _ _ _ _ _)) as Hv.
  assert (forall u, accesses (t_prog (task_of u v)) -> m_lock v = Some u) as Ha.
  { intros u [m E]. specialize (Hv u). rewrite E in Hv. by apply held_true, Hv. }
  split.
  - intros [Hp|[q E]]; [by apply Ha|]. specialize (Hv t). unfold p in E. rewrite E in Hv.
    by apply held_true, Hv.
  - intros Hp u Hu Hq. apply Ha in Hp, Hq. congruence.
Qed.
End Machine.
