(* ===== verification/Threads.v ===== *)
(** * The two threads of the simulator, cut at the lock

    Every interleaving of the steps of Server.v is equivalent to the activities
    of the threads one after the other, the lock keeps them apart, and from the
    processor [main] creates they only ever reach well-formed ones.  What
    precedes the lock does not touch the simulator, so that interrupts overtake
    it: Reduction.v builds on this. *)
From S2P Require Import Prelude Util Debug Constants Memory Registers Trace.
From S2P Require Import Core.
From S2P Require Import Refine LoadStore Branch Instruction Run Invariant.
From S2P Require Import Gdb Scanner Packets Handlers Session Wellformed Related.
From S2P Require Import Transfers Sys Csapp Main MainSpec Server.

(** ** What precedes the lock does not touch the simulator *)

Section Private.
Context {S : Type} (put : sim -> S -> S).

(** [m] does the same on any state of the simulator, which it leaves alone. *)
Definition Private {A} (m : ST S A) : Prop :=
  forall s x, m (put x s) =
    match m s with Ok a s' => Ok a (put x s') | Fault f => Fault f end.

Lemma private_bind {A B} (m : ST S A) (k : A -> ST S B) :
  Private m -> (forall a, Private (k a)) -> Private (m ≫= k).
Proof.
  intros Hm Hk s x. rewrite !bind_eq, Hm. destruct (m s); [apply Hk|done].
Qed.
End Private.

(** The state of the connection with another simulator. *)
Definition put_sim (x : sim) (s : scanner) : scanner := {|
  sc_gdb := with_sim x (sc_gdb s); sc_data := sc_data s; sc_echo := sc_echo s |}.

Definition private_gdb A (m _ : Gdb A) : Prop := Private with_sim m.
Definition private_scan A (m _ : Scan A) : Prop := Private put_sim m.

#[export] Instance private_gdb_monad : RelatesMonad private_gdb.
Proof. split; [done|done|]. intros A B m n k l. apply private_bind. Qed.
#[export] Instance private_gdb_sends : RelatesSends private_gdb.
Proof. by split. Qed.
#[export] Instance private_scan_monad : RelatesMonad private_scan.
Proof. split; [done|done|]. intros A B m n k l. apply private_bind. Qed.
#[export] Instance private_scan_lexer : RelatesLexer private_gdb private_scan.
Proof.
  split; [|done..]. intros A m n Hm s x. cbn [on_gdb scan_lexer]. unfold scan_gdb.
  cbn [put_sim sc_gdb]. rewrite (Hm _). by destruct (m (sc_gdb s)).
Qed.

Section Heads.
Context `{T : Target}.

Lemma private_handle_error : Private put_sim handle_error.
Proof. apply (related_handle_error private_gdb private_scan). Qed.

Lemma private_scan_head fr after t : Private put_sim (scan_head fr after t).
Proof.
  change (Agree private_scan (scan_head fr after t) (scan_head fr after t)).
  pose proof (related_add_character private_gdb private_scan).
  pose proof (private_handle_error : Agree private_scan handle_error handle_error).
  pose proof (related_packet_head private_gdb).
  destruct t; cbn [scan_head]; related.
Qed.

(** An interrupt overtakes what does not touch the simulator. *)
Lemma interrupt_private {A} (m : Scan A) b s1 (a : A) s s' :
  Private put_sim m -> m s1 = Ok a s -> interrupt b s = Ok () s' ->
  exists s1', interrupt b s1 = Ok () s1' /\ m s1' = Ok a s'.
Proof.
  intros Hp Em E.
  assert (g_sim (sc_gdb s) = g_sim (sc_gdb s1)) as Es.
  { specialize (Hp s1 (g_sim (sc_gdb s1))).
    replace (put_sim (g_sim (sc_gdb s1)) s1) with s1 in Hp by (by destruct s1 as [[] ? ?]).
    rewrite Em in Hp. injection Hp as Hp. by rewrite Hp. }
  unfold interrupt in E |- *. cbn [on_gdb scan_lexer on_sim gdb_connection] in E |- *.
  unfold scan_gdb, gdb_sim in E |- *. rewrite Es in E.
  destruct (arm_exception (M := Sim) b (g_sim (sc_gdb s1))) as [[] x|]; [|done].
  injection E as <-. eexists. split; [done|]. specialize (Hp s1 x). by rewrite Em in Hp.
Qed.

(** Nothing is debugged on this connection. *)
Lemma scanner_debug_off {A} line text (k : Scan A) s :
  (scanner_debug (G := Gdb) line text;; k) s = k s.
Proof. by destruct s. Qed.

(** The action of a token is its head and the handler it asks for. *)
Lemma packet_analysis_split fuel fr block n g :
  gdb_packet_analysis fuel fr block n g =
  (h ← packet_head fr block n;
   match h with Some (c, data) => run_handler fuel fr c data | None => mret () end) g.
Proof.
  unfold gdb_packet_analysis, packet_head. cbv zeta. rewrite !bind_eq.
  destruct (of_option (M := ST gdbs) _ g) as [check g1|]; [|done]. rewrite !bind_eq.
  destruct (of_option (M := ST gdbs) _ g1) as [given g2|]; [|done].
  rewrite !debug_off, !debug_raw_off.
  destruct (check =? given); rewrite ?debug_raw_off, ?debug_off, !bind_eq.
  - destruct (gdb_send_ack (M := Gdb) g2) as [[] g3|]; [|done]. rewrite !bind_eq.
    destruct (of_option (M := ST gdbs) _ g3) as [b g4|]; [|done]. rewrite !bind_eq.
    destruct (of_option (M := ST gdbs) _ g4) as [i g5|]; [|done].
    destruct (handler i); [apply locked|]. rewrite !bind_eq.
    by destruct (gdb_send_data (M := Gdb) [] g5) as [[]|].
  - by destruct (gdb_require_retransmission (M := Gdb) g2) as [[]|].
Qed.

Lemma action_split fuel fr after t s :
  action fuel fr after t s =
  (h ← scan_head fr after t;
   match h with
   | Some (c, data) => on_gdb (run_handler fuel fr c data)
   | None => mret ()
   end) s.
Proof.
  destruct t as [| |yytext|c|]; unfold action, scan_head; rewrite !bind_eq.
  - by destruct (handle_error (G := Gdb) (M := Scan) s) as [[]|].
  - destruct (handle_error (G := Gdb) (M := Scan) s) as [[] s1|]; [|done].
    rewrite !scanner_debug_off, !bind_eq.
    by destruct (on_gdb (G := Gdb) (M := Scan) gdb_transmit_packet s1) as [[]|].
  - destruct (handle_error (G := Gdb) (M := Scan) s) as [[] s1|]; [|done].
    cbn [on_gdb scan_lexer]. unfold scan_gdb.
    rewrite packet_analysis_split, bind_eq.
    destruct (packet_head (M := Gdb) _ _ _ (sc_gdb s1)) as [[[c data]|] g|]; done.
  - by destruct (add_character_to_error (G := Gdb) (M := Scan) c s) as [[]|].
  - done.
Qed.
End Heads.

(** ** Interleavings *)

Section Interleaving.
Context `{T : Target}.
Context (fuel : nat).

Definition gdb_tokens (l : list activity) : list token :=
  omap (fun a => match a with GdbToken _ _ t => Some t | IrqByte _ => None end) l.
Definition irq_bytes (l : list activity) : list Z :=
  omap (fun a => match a with GdbToken _ _ _ => None | IrqByte b => Some b end) l.

Definition gdb_pending (g : gdb_place) : list token :=
  match g with
  | GdbIdle => []
  | GdbAtLock _ _ t _ _ | GdbLocked _ _ t _ _ => [t]
  end.
Definition irq_pending (i : irq_place) : list Z :=
  match i with IrqIdle => [] | IrqAtLock b | IrqLocked b => [b] end.

(** The state of the connection, [s1] being the one after the activities done. *)
Definition ahead (g : gdb_place) (s1 s : scanner) : Prop :=
  match g with
  | GdbIdle => s = s1
  | GdbAtLock fr after t c data | GdbLocked fr after t c data =>
      scan_head fr after t s1 = Ok (Some (c, data)) s
  end.

(** The thread the lock names is past it, and no other. *)
Definition gdb_past (g : gdb_place) : bool :=
  match g with GdbLocked _ _ _ _ _ => true | _ => false end.
Definition irq_past (i : irq_place) : bool :=
  match i with IrqLocked _ => true | _ => false end.
Definition lock_held (v : server) : Prop :=
  match sv_lock v with
  | None => gdb_past (sv_gdb v) = false /\ irq_past (sv_irq v) = false
  | Some GdbThread => gdb_past (sv_gdb v) = true /\ irq_past (sv_irq v) = false
  | Some IrqThread => gdb_past (sv_gdb v) = false /\ irq_past (sv_irq v) = true
  end.

Lemma lock_step v l v' : lock_held v -> server_step fuel v l v' -> lock_held v'.
Proof.
  intros Hl Hstep. revert Hl. unfold lock_held.
  destruct Hstep as [v l v' H|v l v' H]; destruct H as [];
    cbn [sv_lock sv_gdb sv_irq gdb_past irq_past]; try destruct l as [[]|];
    intuition congruence.
Qed.

Lemma activities_app l1 l2 s :
  activities fuel (l1 ++ l2) s = (activities fuel l1;; activities fuel l2) s.
Proof.
  revert s. induction l1 as [|a l1 IH]; intros s; [done|].
  cbn [app activities]. rewrite !bind_eq. destruct (activity_run fuel a s); [|done].
  by rewrite IH.
Qed.

Lemma activities_snoc l a s s1 s2 :
  activities fuel l s = Ok () s1 -> activity_run fuel a s1 = Ok () s2 ->
  activities fuel (l ++ [a]) s = Ok () s2.
Proof.
  intros E1 E2. rewrite activities_app, (bind_ok _ _ _ _ _ E1). cbn [activities].
  by rewrite (bind_ok _ _ _ _ _ E2).
Qed.

(** An interrupt overtakes what precedes the lock. *)
Lemma interrupt_ahead g b s1 s s' :
  ahead g s1 s -> interrupt b s = Ok () s' ->
  exists s1', interrupt b s1 = Ok () s1' /\ ahead g s1' s'.
Proof.
  intros Ha E.
  destruct g as [|fr after t c data|fr after t c data]; cbn [ahead] in *;
    [subst s; by exists s'|by eapply interrupt_private; [apply private_scan_head|..]..].
Qed.

(** What every interleaving keeps. *)
Definition serial (s0 : scanner) (ts : list token) (bs : list Z)
    (h : list activity) (v : server) : Prop :=
  lock_held v /\
  gdb_tokens h ++ gdb_pending (sv_gdb v) ++ sv_tokens v = ts /\
  irq_bytes h ++ irq_pending (sv_irq v) ++ sv_bytes v = bs /\
  exists s1, activities fuel h s0 = Ok () s1 /\ ahead (sv_gdb v) s1 (sv_scanner v).

Lemma serial_step s0 ts bs h v l v' :
  serial s0 ts bs h v -> server_step fuel v l v' -> serial s0 ts bs (h ++ l) v'.
Proof.
  intros (Hl & <- & <- & s1 & E1 & Ha) Hstep. unfold serial, gdb_tokens, irq_bytes.
  rewrite !omap_app. pose proof (lock_step v l v' Hl Hstep) as Hl'.
  destruct Hstep as [v l v' Hstep|v l v' Hstep]; destruct Hstep;
    cbn [sv_gdb sv_tokens sv_irq sv_bytes sv_scanner
    gdb_pending irq_pending] in *; cbn [omap list_omap app]; rewrite ?app_nil_r,
    <- ?app_assoc; cbn [app]; (split; [exact Hl'|split; [done|split; [done|]]]).
  - cbn [ahead] in Ha. subst s1. exists s'. split; [|done].
    eapply activities_snoc; [exact E1|]. cbn [activity_run].
    by rewrite action_split, (bind_ok _ _ _ _ _ H).
  - cbn [ahead] in Ha. subst s1. by exists s.
  - by exists s1.
  - exists s'. split; [|done]. eapply activities_snoc; [exact E1|].
    cbn [activity_run]. by rewrite action_split, (bind_ok _ _ _ _ _ Ha).
  - by exists s1.
  - by exists s1.
  - destruct (interrupt_ahead g b s1 s s' Ha H) as (s2 & E2 & Ha2).
    exists s2. split; [|exact Ha2]. by eapply activities_snoc.
Qed.

Lemma serial_run s0 ts bs h v :
  server_run fuel (server_start s0 ts bs) h v -> serial s0 ts bs h v.
Proof.
  induction 1 as [|h l v1 v2 _ IH Hstep]; [|by eapply serial_step].
  split; [done|]. split; [done|]. split; [done|]. by exists s0.
Qed.

(** The two threads are serializable: in every state they reach, at most
    the thread the lock names is past it; the tokens and the interrupt bytes
    are worked off in their order, none twice and none lost; and between two
    tokens the connection, processor included, is in the state the completed
    activities reach one after the other.  While the gdb thread waits for the
    lock or holds it, it is ahead of that state by what precedes the lock. *)
Lemma server_serializable s0 ts bs h v :
  server_run fuel (server_start s0 ts bs) h v ->
  lock_held v /\
  gdb_tokens h ++ gdb_pending (sv_gdb v) ++ sv_tokens v = ts /\
  irq_bytes h ++ irq_pending (sv_irq v) ++ sv_bytes v = bs /\
  exists s1, activities fuel h s0 = Ok () s1 /\ ahead (sv_gdb v) s1 (sv_scanner v).
Proof. apply serial_run. Qed.
End Interleaving.

(** ** What the threads keep *)

Record scan_inv (size : Z) (s : scanner) : Prop := {
  si_gdb : gdb_inv size (sc_gdb s);
  si_buffer : length (buffer (sc_data s)) = 1024%nat;
  si_len : 0 <= buffer_len (sc_data s) < 1024
}.

Section Reachable.
Context `{T : Target}.
Context (size : Z).
Abbreviation scan_keeps m := (Triple True (scan_inv size) m (fun _ => True)).

Lemma sim_exception e : SimKeeps size (arm_exception (M := Sim) e) (fun _ => True).
Proof.
  apply (sim_refines size 1 _ _ _ ltac:(lia) (refines_exception 0 e)).
  intros p [Hp Hsz]. rewrite run_exception by (by apply wf_has_regs).
  split; [|done]. destruct (u8 e =? RESET); [|done]. split; [|exact Hsz].
  apply set_gpr_wf; [exact Hp|lia|by split].
Qed.

Lemma scan_keeps_gdb {A} (m : Gdb A) :
  Judge (Keeps size) m (fun _ => True) -> scan_keeps (on_gdb m).
Proof.
  intros Hm s [Hg Hb Hl]. specialize (Hm _ Hg). cbn [on_gdb scan_lexer]. unfold scan_gdb.
  destruct (m (sc_gdb s)) as [a g|]; [|done]. destruct Hm as [Hg' _]. by split.
Qed.

Lemma scanned_self s :
  s = scanned s (sc_gdb s) (buffer (sc_data s)) (buffer_len (sc_data s)).
Proof. by destruct s as [g [b l] e]. Qed.

Lemma required_inv n g : gdb_inv size g -> gdb_inv size (required n g).
Proof. intros [[] ?]. by split. Qed.

Lemma scan_keeps_error : scan_keeps handle_error.
Proof.
  intros s [Hg Hb Hl].
  destruct (handle_error_run s _ _ (sc_gdb s) Hb Hl) as (b & Hb' & E).
  rewrite <- scanned_self in E. rewrite E. split; [|done].
  split; [by apply required_inv|done|done].
Qed.

Lemma scan_keeps_character c : scan_keeps (add_character_to_error c).
Proof.
  intros s [Hg Hb Hl].
  destruct (add_character_run s _ _ (sc_gdb s) c Hb Hl) as (b & Hb' & E).
  rewrite <- scanned_self in E. rewrite E. split; [|done].
  destruct (Z.leb_spec (buffer_len (sc_data s)) 1022); split; simpl; try done; try lia.
  by apply required_inv.
Qed.

Lemma keeps_packet_head fr block n :
  Judge (Keeps size) (packet_head fr block n) (fun _ => True).
Proof.
  unfold packet_head, gdb_send_ack, gdb_require_retransmission.
  pose proof (keeps_send_data size (Keeps size)).
  pose proof (keeps_debug size (Keeps size)).
  pose proof (keeps_debug_raw size (Keeps size)). keeps.
Qed.

Lemma scan_keeps_debug line text : scan_keeps (scanner_debug (G := Gdb) line text).
Proof. apply scan_keeps_gdb, (keeping_message (size := size)). Qed.

Lemma scan_keeps_head fr after t : scan_keeps (scan_head fr after t).
Proof.
  assert (forall m : Scan unit, scan_keeps m ->
    scan_keeps (m;; mret (M := Scan) (None : option (command * list Z)))) as Hnone.
  { intros m Hm. by eapply triple_bind; [exact Hm|intros; apply triple_ret]. }
  destruct t as [| |yytext|c|]; cbn [scan_head].
  - eapply triple_bind; [apply scan_keeps_error|intros _ _].
    apply Hnone, scan_keeps_debug.
  - eapply triple_bind; [apply scan_keeps_error|intros _ _].
    eapply triple_bind; [apply scan_keeps_debug|intros _ _].
    apply Hnone, scan_keeps_gdb, (keeps_transmit size (Keeps size)).
  - eapply triple_bind; [apply scan_keeps_error|intros _ _].
    apply scan_keeps_gdb, keeps_packet_head.
  - apply Hnone, scan_keeps_character.
  - apply Hnone. intros s []. by split.
Qed.

Lemma scan_step fuel v l v' :
  server_step fuel v l v' -> scan_inv size (sv_scanner v) -> scan_inv size (sv_scanner v').
Proof.
  assert (forall A (m : Scan A) s a s', scan_keeps m -> m s = Ok a s' ->
    scan_inv size s -> scan_inv size s') as Hk.
  { intros A m s a s' Hm E Hs. specialize (Hm s Hs). rewrite E in Hm. apply Hm. }
  destruct 1 as [v l v' H|v l v' H]; destruct H; cbn [sv_scanner]; try done;
    eapply Hk; try eassumption.
  - apply scan_keeps_head.
  - apply scan_keeps_head.
  - apply scan_keeps_gdb, (keeps_run_handler size (Keeps size)).
  - apply scan_keeps_gdb, (keeping_on_sim (size := size)), sim_exception.
Qed.

Lemma scan_run fuel v h v' :
  server_run fuel v h v' -> scan_inv size (sv_scanner v) -> scan_inv size (sv_scanner v').
Proof.
  induction 1 as [|h l v1 v2 _ IH Hstep]; [done|]. intros Hv.
  eapply scan_step; [exact Hstep|]. auto.
Qed.
End Reachable.

(** ** From the options of [main] on *)

Section Main.
Context `{T : Target} {K : Type} `{Kernel K}.

(** The state [main] creates, with any options it accepts. *)
Lemma created_inv argv0 opts block cycle0 r p (w w' : world K main_data) pkt buf :
  length block = Z.to_nat 0x20000 -> Forall is_u8 block -> regs_wf r ->
  w_app w = main_init p ->
  main_create argv0 opts true (Some block) true cycle0 (Some r) w = Done () w' ->
  length pkt = 1024%nat -> length buf = 1024%nat ->
  scan_inv 0x20000 (gdb_scanner_init (md_sim (w_app w')) pkt buf).
Proof.
  intros Hl Hb Hr Hp E Hpk Hbuf.
  destruct (main_create_run argv0 opts block cycle0 r p w w' Hl Hb Hr Hp E)
    as (Hs & Hw & Hsz).
  by split; [apply gdb_inv_ready|..].
Qed.

(** From there, whatever the interleaving of the activities, every state is
    well formed. *)
Lemma server_invariant argv0 opts block cycle0 r p (w w' : world K main_data)
    fuel pkt buf ts bs h v :
  length block = Z.to_nat 0x20000 -> Forall is_u8 block -> regs_wf r ->
  w_app w = main_init p ->
  main_create argv0 opts true (Some block) true cycle0 (Some r) w = Done () w' ->
  length pkt = 1024%nat -> length buf = 1024%nat ->
  server_run fuel (server_start (gdb_scanner_init (md_sim (w_app w')) pkt buf) ts bs) h v ->
  let s := sv_scanner v in
  gdb_ready (sc_gdb s) /\ mem_size (mem (g_arm (sc_gdb s))) = 0x20000 /\
  length (buffer (sc_data s)) = 1024%nat /\ 0 <= buffer_len (sc_data s) < 1024.
Proof.
  intros Hl Hb Hr Hp E Hpk Hbuf Hrun s.
  destruct (scan_run 0x20000 fuel _ h v Hrun) as [[Hg Hs']%gdb_inv_ready Hb' Hl'].
  - exact (created_inv _ _ _ _ _ _ _ _ _ _ Hl Hb Hr Hp E Hpk Hbuf).
  - by split.
Qed.
End Main.
