(* ===== verification/Reduction.v ===== *)
(** * The interleavings are serial

    What the two threads do together, in whatever order their calls come, they
    also do one after the other: the gdb thread runs alone ([alone]) and the
    interrupts arrive when it takes the lock; and that is a sequence of tokens
    and interrupts of [activities], each of them handled to its end. *)
From stdpp Require Import relations.
From S2P Require Import Prelude Util Debug Constants Memory Registers Trace.
From S2P Require Import Core.
From S2P Require Import LoadStore Branch Instruction Gdb Scanner Packets.
From S2P Require Import Handlers.
From S2P Require Import Related Server Program Locking Threads.

(** ** The gdb thread alone *)

Section Alone.
Context `{T : Target}.

Fixpoint raise_all (bs : list Z) : Sim unit :=
  match bs with
  | [] => mret ()
  | irq :: bs => arm_exception (M := Sim) irq;; raise_all bs
  end.

(** Its data, the simulator, and the interrupts before each time it takes the
    lock. *)
Definition config : Type := local * sim * list (list Z).

Fixpoint alone {A} (p : prog A) : ST config A := fun '(l, s, xs) =>
  match p with
  | Ret a => Ok a (l, s, xs)
  | Halt f => Fault f
  | Access m => match m s with Ok q s' => alone q (l, s', xs) | Fault f => Fault f end
  | Own m => match m l with Ok q l' => alone q (l', s, xs) | Fault f => Fault f end
  | Send bs q => alone q (add_out bs l, s, xs)
  | Receive q | Unlock q => alone q (l, s, xs)
  | Lock q =>
      match raise_all (hd [] xs) s with
      | Ok _ s' => alone q (l, s', tl xs)
      | Fault f => Fault f
      end
  end.

Lemma alone_ret {A} (a : A) c : alone (mret a) c = Ok a c.
Proof. by destruct c as [[l s] xs]. Qed.
Lemma alone_bind {A B} (p : prog A) (k : A -> prog B) c :
  alone (p ≫= k) c = (a ← alone p; alone (k a)) c.
Proof.
  rewrite bind_eq. revert c.
  induction p as [a|f|m IH|m IH|bs p IH|p IH|p IH|p IH] using prog_induction;
    intros [[l s] xs]; cbn; try done; try apply IH.
  - specialize (IH s). destruct (m s); [apply IH|done].
  - specialize (IH l). destruct (m l); [apply IH|done].
  - destruct (raise_all (hd [] xs) s); [apply IH|done].
Qed.

(** An interrupt may wait until the thread takes the lock, or ends. *)
Lemma alone_earlier {A} (p : prog A) c b l s s1 xs (a : A) l' s2 ys s3 :
  guarded false p c -> arm_exception (M := Sim) b s = Ok () s1 ->
  alone p (l, s1, xs) = Ok a (l', s2, ys) -> raise_all (concat ys) s2 = Ok () s3 ->
  exists xs' ys' s2', concat xs' = b :: concat xs /\
    alone p (l, s, xs') = Ok a (l', s2', ys') /\ raise_all (concat ys') s2' = Ok () s3.
Proof.
  intros Hg Eb. revert l Hg.
  induction p as [x|f|m IH|m IH|bs p IH|p IH|p IH|p IH] using prog_induction;
    intros l Hg E Er; cbn in Hg, E; simplify_eq.
  - exists ([b] :: ys), ([b] :: ys), s. split; [done|]. split; [done|]. cbn [concat app raise_all].
    by rewrite (bind_ok _ _ _ _ _ Eb).
  - by destruct Hg.
  - specialize (IH l). specialize (Hg l). destruct (m l) as [q l1|] eqn:Em; [|done].
    destruct (IH l1 Hg E Er) as (xs' & ys' & s2' & C & E' & R). exists xs', ys', s2'.
    cbn. by rewrite Em.
  - by apply IH.
  - by apply IH.
  - destruct (raise_all (hd [] xs) s1) as [[] s0|] eqn:Ex; [|done].
    exists ((b :: hd [] xs) :: tl xs), ys, s2. split; [by destruct xs|]. split; [|done].
    cbn [alone hd tl raise_all]. by rewrite (bind_ok _ _ _ _ _ Eb), Ex.
  - by destruct Hg.
Qed.

(** ** Every run of the machine *)

(** The places of the irq thread: the bytes whose exceptions are to come, and
    whether it holds the lock. *)
Inductive irq_at : prog unit -> bool -> list Z -> Prop :=
  | irq_reads bs : irq_at (irq_loop bs) false bs
  | irq_waits b bs :
      irq_at (mutex_lock;; on_sim (arm_exception (M := Sim) b);; mutex_unlock;; irq_loop bs)
        false (b :: bs)
  | irq_raises b bs :
      irq_at (on_sim (arm_exception (M := Sim) b);; mutex_unlock;; irq_loop bs) true (b :: bs)
  | irq_releases bs : irq_at (mutex_unlock;; irq_loop bs) true bs.

(** A call of the irq thread: it raises the next exception, or leaves the
    simulator alone. *)
Lemma irq_call h k s h' k' s' bs :
  task_step IrqThread h k s h' k' s' -> irq_at (t_prog k) (held IrqThread h) bs ->
  (s' = s /\ irq_at (t_prog k') (held IrqThread h') bs) \/
  (h' = h /\ held IrqThread h = true /\ exists b bs', bs = b :: bs' /\
     arm_exception (M := Sim) b s = Ok () s' /\
     irq_at (t_prog k') (held IrqThread h') bs').
Proof.
  intros H Hi. remember (t_prog k) as p eqn:Ep. remember (held IrqThread h) as c eqn:Ec.
  destruct Hi as [bs|b bs|b bs|bs].
  - destruct bs as [|b bs]; [by destruct H|]. cbn in Ep.
    destruct H; simplify_eq/=. left. split; [done|]. rewrite <- Ec. apply irq_waits.
  - cbn in Ep. destruct H; simplify_eq/=. left. split; [done|]. apply irq_raises.
  - cbn -[arm_exception] in Ep. destruct H; simplify_eq/=. right. rewrite <- Ec.
    split; [done|]. split; [done|]. exists b, bs. split; [done|].
    match goal with E : _ = Ok _ _ |- _ => rewrite bind_eq in E end.
    destruct (arm_exception (M := Sim) b s) as [[] s1|]; simplify_eq/=.
    split; [done|]. apply irq_releases.
  - cbn in Ep. destruct H; simplify_eq/=. left. split; [done|]. apply irq_reads.
Qed.

(** A call of the gdb thread is one of its calls alone. *)
Lemma gdb_call h k s h' k' s' xs :
  task_step GdbThread h k s h' k' s' -> held IrqThread h' = held IrqThread h ->
  exists xs', concat xs' = concat xs /\
    alone (t_prog k) (t_local k, s, xs') = alone (t_prog k') (t_local k', s', xs).
Proof.
  destruct 1 as [h m l s p s' E|h m l s p l' E|h bs p l s|h p l s|p l s|p l s];
    intros _; cbn; try (by exists xs).
  - exists xs. by rewrite E.
  - exists xs. by rewrite E.
  - by exists ([] :: xs).
Qed.

Lemma machine_alone v v' :
  rtc machine_step v v' -> forall bs,
  guarded_machine v -> irq_at (t_prog (m_irq v)) (held IrqThread (m_lock v)) bs ->
  t_prog (m_gdb v') = Ret () ->
  exists bs1 bs2 xs s ys, bs = bs1 ++ bs2 /\
    irq_at (t_prog (m_irq v')) (held IrqThread (m_lock v')) bs2 /\ concat xs = bs1 /\
    alone (t_prog (m_gdb v)) (t_local (m_gdb v), m_sim v, xs) =
      Ok () (t_local (m_gdb v'), s, ys) /\
    raise_all (concat ys) s = Ok () (m_sim v').
Proof.
  induction 1 as [v|v v1 v' Hstep _ IH]; intros bs Hg Hi Hend.
  { exists [], bs, [], (m_sim v), []. rewrite Hend. by split_and!. }
  pose proof (guarded_step _ _ Hstep Hg) as Hg1.
  destruct Hstep as [s h k i h' k' s' H|s h k i h' i' s' H].
  - assert (held IrqThread h' = held IrqThread h) as Eh.
    { by apply (guarded_task _ _ _ _ _ _ _ H (Hg GdbThread)). }
    destruct (IH bs Hg1) as (bs1 & bs2 & xs & s2 & ys & -> & Hi2 & C & E & R);
      [cbn in *; by rewrite Eh|done|].
    destruct (gdb_call _ _ _ _ _ _ xs H Eh) as (xs' & C' & E').
    exists bs1, bs2, xs', s2, ys. cbn in *. rewrite E', C'. by split_and!.
  - destruct (irq_call _ _ _ _ _ _ _ H Hi) as [[-> Hi1]|(-> & Hh & b & bs' & -> & Eb & Hi1)].
    + by apply IH.
    + destruct (IH bs' Hg1 Hi1 Hend) as (bs1 & bs2 & xs & s2 & ys & -> & Hi2 & C & E & R).
      cbn in *. assert (guarded false (t_prog k) false) as Hk.
      { specialize (Hg GdbThread). cbn in Hg. apply held_true in Hh as ->. exact Hg. }
      destruct (alone_earlier _ _ _ _ _ _ _ _ _ _ _ _ Hk Eb E R)
        as (xs' & ys' & s2' & C' & E' & R').
      exists (b :: bs1), bs2, xs', s2', ys'. rewrite C', C. by split_and!.
Qed.
End Alone.

(** ** What does not take the lock *)

(** A computation of Scanner.v on the data and the simulator. *)
Definition unlocked {A} (m : Scan A) : ST config A := fun '(l, s, xs) =>
  match m (join s l) with
  | Ok a sc => Ok a (local_of sc, sim_of sc, xs)
  | Fault f => Fault f
  end.

Lemma unlocked_bind {A B} (m : Scan A) (k : A -> Scan B) c :
  unlocked (m ≫= k) c = (a ← unlocked m; unlocked (k a)) c.
Proof.
  destruct c as [[l s] xs]. rewrite bind_eq. cbn [unlocked]. rewrite bind_eq.
  destruct (m (join s l)) as [a sc|]; [|done]. cbn [unlocked]. by rewrite join_split.
Qed.

Definition as_scan A (p : prog A) (m : Scan A) : Prop := forall c, alone p c = unlocked m c.
Definition as_gdb A (p : prog A) (m : Gdb A) : Prop := as_scan A p (on_gdb m).

#[export] Instance as_scan_monad : RelatesMonad as_scan.
Proof.
  split; [by intros A a [[[] s] xs]|by intros A [[l s] xs]|].
  intros A B m n k l Hm Hk c. rewrite alone_bind, unlocked_bind, !bind_eq, (Hm c).
  destruct (unlocked n c); [apply Hk|done].
Qed.
#[export] Instance as_gdb_monad : RelatesMonad as_gdb.
Proof.
  split; [by intros A a [[[] s] xs]|by intros A [[l s] xs]|].
  intros A B m n k l Hm Hk c.
  assert (unlocked (on_gdb (n ≫= l)) c =
          unlocked (on_gdb n ≫= fun a => on_gdb (M := Scan) (l a)) c) as ->.
  { destruct c as [[l0 s] xs]. cbn [unlocked on_gdb scan_lexer]. unfold scan_gdb.
    rewrite !bind_eq. by destruct (n (sc_gdb (join s l0))). }
  apply (related_bind as_scan _ _ _ _ Hm Hk).
Qed.
#[export] Instance as_gdb_sends : RelatesSends as_gdb.
Proof. split; by intros; intros [[[] s] xs]. Qed.
#[export] Instance as_gdb_sim : RelatesSim as_gdb.
Proof.
  split; [by intros A f [[l s] xs]| |by intros [[[] s] xs]].
  intros A m [[[] s] xs]. cbn. rewrite bind_eq.
  unfold scan_gdb, gdb_sim. cbn. by destruct (m s).
Qed.
#[export] Instance as_scan_lexer : RelatesLexer as_gdb as_scan.
Proof. split; [by intros A m n H| |..]; by intros; intros [[[] s] xs]. Qed.

(** ** Tokens *)

Section Tokens.
Context `{T : Target}.

Lemma unlocked_debug_off {A} line text (k : Scan A) c :
  unlocked (scanner_debug (G := Gdb) line text;; k) c = unlocked k c.
Proof. by destruct c as [[[] s] xs]. Qed.

Lemma alone_packet fuel fr block n c :
  alone (gdb_packet_analysis fuel fr block n) c =
  (h ← alone (packet_head fr block n);
   match h with
   | Some (cmd, data) =>
       alone mutex_lock;; alone (run_handler fuel fr cmd data)
   | None => mret ()
   end) c.
Proof.
  unfold gdb_packet_analysis, packet_head. cbv zeta. rewrite bind_eq, !alone_bind, !bind_eq.
  destruct (alone (of_option _) c) as [check c1|]; [|done]. rewrite !alone_bind, !bind_eq.
  destruct (alone (of_option _) c1) as [given c2|]; [|done].
  rewrite !prog_debug_off, !prog_debug_raw_off.
  destruct (check =? given);
    rewrite ?prog_debug_raw_off, ?prog_debug_off, !alone_bind, !bind_eq.
  - destruct (alone gdb_send_ack c2) as [[] c3|]; [|done]. rewrite !alone_bind, !bind_eq.
    destruct (alone (of_option _) c3) as [b c4|]; [|done]. rewrite !alone_bind, !bind_eq.
    destruct (alone (of_option _) c4) as [i c5|]; [|done].
    destruct (handler i) as [cmd|].
    + rewrite alone_ret. cbv iota beta. rewrite alone_bind, !bind_eq.
      destruct (alone mutex_lock c5) as [[] c6|]; [|done].
      rewrite alone_bind, bind_eq.
      by destruct (alone (run_handler _ _ _ _) c6) as [[] [[? ?] ?]|].
    + rewrite alone_bind, bind_eq. destruct (alone (gdb_send_data []) c5) as [[]|]; [|done].
      by rewrite alone_ret.
  - destruct (alone gdb_require_retransmission c2) as [[]|]; [|done].
    by rewrite alone_ret.
Qed.

(** Interrupts overtake what does not touch the simulator. *)
Lemma interrupts_private {A} (m : Scan A) fuel bs : forall s1 (a : A) s x,
  Private put_sim m -> m s1 = Ok a s -> raise_all bs (sim_of s) = Ok () x ->
  exists s1', activities fuel (IrqByte <$> bs) s1 = Ok () s1' /\
    m s1' = Ok a (join x (local_of s)).
Proof.
  induction bs as [|b bs IH]; intros s1 a s x Hp Em Er.
  { exists s1. injection Er as <-. by rewrite join_split. }
  cbn [raise_all] in Er. apply bind_inv in Er as ([] & y & Ey & Er).
  assert (interrupt b s = Ok () (join y (local_of s))) as Eb.
  { unfold interrupt. cbn. unfold scan_gdb, gdb_sim. unfold sim_of in Ey. by rewrite Ey. }
  destruct (interrupt_private m b s1 a s _ Hp Em Eb) as (s2 & E2 & Em2).
  destruct (IH s2 a _ x Hp Em2 Er) as (s3 & E3 & Em3). exists s3. split; [|exact Em3].
  cbn [fmap list_fmap activities activity_run]. by rewrite (bind_ok _ _ _ _ _ E2).
Qed.

(** What the gdb thread does with a token: its head, then, if it asks for a
    handler, the lock and the handler. *)
Lemma alone_action fuel fr after t c :
  alone (action fuel fr after t) c =
  (h ← unlocked (scan_head fr after t);
   match h with
   | Some (cmd, data) => alone mutex_lock;; unlocked (on_gdb (run_handler fuel fr cmd data))
   | None => mret ()
   end) c.
Proof.
  assert (forall (p : prog unit) (m : Scan unit), Agree as_scan p m ->
    alone p c = (h ← unlocked (m;; mret (M := Scan) (None : option (command * list Z)));
      match h with
      | Some (cmd, data) =>
          alone mutex_lock;; unlocked (on_gdb (run_handler fuel fr cmd data))
      | None => mret ()
      end) c) as Hfree.
  { intros p m H. rewrite (H c), bind_eq, unlocked_bind, bind_eq.
    by destruct (unlocked m c) as [[] [[[] s] xs]|]. }
  pose proof (related_handle_error as_gdb as_scan) as He.
  destruct t as [| |yytext|b|]; cbn [action scan_head].
  - rewrite alone_bind, !bind_eq, unlocked_bind, bind_eq, (He c).
    destruct (unlocked handle_error c) as [[] c1|]; [|done].
    rewrite unlocked_debug_off. by destruct c1 as [[[] s] xs].
  - rewrite alone_bind, !bind_eq, unlocked_bind, bind_eq, (He c).
    destruct (unlocked handle_error c) as [[] c1|]; [|done].
    rewrite prog_scanner_debug_off, unlocked_debug_off. cbn [on_gdb prog_lexer].
    rewrite unlocked_bind, bind_eq, (related_transmit as_gdb c1 : _ = _).
    by destruct (unlocked (on_gdb gdb_transmit_packet) c1) as [[] [[[] s] xs]|].
  - rewrite alone_bind, !bind_eq, unlocked_bind, bind_eq, (He c).
    destruct (unlocked handle_error c) as [[] c1|]; [|done]. cbn [on_gdb prog_lexer].
    rewrite alone_packet, bind_eq, (related_packet_head as_gdb fr _ _ c1 : _ = _).
    destruct (unlocked (on_gdb (packet_head fr _ _)) c1) as [[[cmd data]|] c2|]; [|done..].
    rewrite !bind_eq. destruct (alone mutex_lock c2) as [[] c3|]; [|done].
    apply (related_run_handler as_gdb).
  - apply Hfree, (related_add_character as_gdb as_scan).
  - apply Hfree. eapply (related_echo (RG := as_gdb) (R := as_scan)).
Qed.

(** A token, with the interrupts that arrive before it takes the lock. *)
Lemma alone_token fuel fr after t l s xs l' s' ys :
  alone (action fuel fr after t) (l, s, xs) = Ok () (l', s', ys) ->
  exists bs, concat xs = bs ++ concat ys /\
    activities fuel ((IrqByte <$> bs) ++ [GdbToken fr after t]) (join s l) =
      Ok () (join s' l').
Proof.
  rewrite alone_action, bind_eq. cbn [unlocked]. intros E.
  destruct (scan_head fr after t (join s l)) as [[[cmd data]|] s2|] eqn:Es; [| |done].
  - rewrite bind_eq in E. change (alone mutex_lock (local_of s2, sim_of s2, xs))
      with (match raise_all (hd [] xs) (sim_of s2) with
            | Ok _ x => Ok () (local_of s2, x, tl xs) | Fault f => Fault f end) in E.
    destruct (raise_all (hd [] xs) (sim_of s2)) as [[] x|] eqn:Er; [|done].
    cbn [unlocked] in E.
    destruct (interrupts_private _ fuel _ _ _ _ _ (private_scan_head _ _ _) Es Er)
      as (s3 & E3 & Eh3).
    destruct (on_gdb (M := Scan) (run_handler fuel fr cmd data) _) as [[] s4|] eqn:E4; [|done].
    injection E as <- <- <-. exists (hd [] xs). split; [by destruct xs|].
    rewrite join_split. eapply activities_snoc; [exact E3|]. cbn [activity_run].
    by rewrite action_split, (bind_ok _ _ _ _ _ Eh3).
  - injection E as <- <- <-. exists []. split; [done|]. rewrite join_split.
    apply (activities_snoc fuel [] _ _ (join s l)); [done|]. cbn [activity_run].
    by rewrite action_split, (bind_ok _ _ _ _ _ Es).
Qed.

(** ** All of them *)

(** [h] is [l] and [r], each in its order. *)
Inductive merges {A} : list A -> list A -> list A -> Prop :=
  | merges_nil : merges [] [] []
  | merges_left x l r h : merges l r h -> merges (x :: l) r (x :: h)
  | merges_right x l r h : merges l r h -> merges l (x :: r) (x :: h).

Lemma merges_rights {A} (l1 r1 h1 r : list A) :
  merges l1 r1 h1 -> merges l1 (r ++ r1) (r ++ h1).
Proof. induction r; intros; [done|]. constructor; auto. Qed.
Lemma merges_end {A} (l r h r1 : list A) : merges l r h -> merges l (r ++ r1) (h ++ r1).
Proof.
  induction 1; cbn [app]; [|by constructor..]. rewrite <- (app_nil_r r1).
  apply merges_rights. constructor.
Qed.

(** The activities of the gdb thread. *)
Fixpoint token_activities (frs : nat -> gframe) (after : nat -> list Z) (k : nat)
    (ts : list token) : list activity :=
  match ts with
  | [] => []
  | t :: ts => GdbToken (frs k) (after k) t :: token_activities frs after (S k) ts
  end.

Lemma alone_actions fuel frs after ts : forall k l s xs l' s' ys,
  alone (actions fuel frs after k ts) (l, s, xs) = Ok () (l', s', ys) ->
  exists bs h, concat xs = bs ++ concat ys /\
    merges (token_activities frs after k ts) (IrqByte <$> bs) h /\
    activities fuel h (join s l) = Ok () (join s' l').
Proof.
  induction ts as [|t ts IH]; intros k l s xs l' s' ys E; cbn [actions] in E.
  { rewrite alone_ret in E. injection E as <- <- <-. exists [], []. by repeat constructor. }
  rewrite alone_bind, bind_eq in E.
  destruct (alone (action _ _ _ _) _) as [[] [[l1 s1] xs1]|] eqn:E1; [|done].
  destruct (alone_token _ _ _ _ _ _ _ _ _ _ E1) as (b1 & C1 & A1).
  destruct (IH _ _ _ _ _ _ _ E) as (b2 & h & C2 & M2 & A2).
  exists (b1 ++ b2), ((IrqByte <$> b1) ++ GdbToken (frs k) (after k) t :: h).
  split; [by rewrite C1, C2, app_assoc|]. split.
  - rewrite fmap_app. apply merges_rights. by constructor.
  - rewrite cons_middle, app_assoc, activities_app, (bind_ok _ _ _ _ _ A1). done.
Qed.

(** C9. Every interleaving is serial: however the calls of the two threads
    interleave, when the gdb thread has come to the end of its input, the
    interrupts raised so far are a prefix of those that arrive, and the
    processor, the trace and everything the connection sent and holds are what
    the tokens of the input and these interrupts, merged in some order and
    handled one after the other, leave, once the bytes that are not part of
    the protocol have been answered. *)
Theorem threads_serializable fuel frs after input bs s0 l0 v :
  rtc machine_step (machine_start fuel frs after input bs s0 l0) v ->
  t_prog (m_gdb v) = Ret () ->
  exists bs1 bs2 h s1, bs = bs1 ++ bs2 /\
    irq_at (t_prog (m_irq v)) (held IrqThread (m_lock v)) bs2 /\
    merges (token_activities frs after 0 (tokens (length input) input)) (IrqByte <$> bs1) h /\
    activities fuel h s0 = Ok () s1 /\
    handle_error (G := Gdb) (M := Scan) s1 = Ok () (join (m_sim v) (t_local (m_gdb v))).
Proof.
  intros Hr Hend.
  destruct (machine_alone _ _ Hr bs (guarded_start _ _ _ _ _ _ _) (irq_reads bs) Hend)
    as (bs1 & bs2 & xs & s & ys & -> & Hi & <- & E & R).
    cbn [machine_start m_gdb m_sim t_prog t_local] in E.
  unfold yylex in E. rewrite alone_bind, bind_eq in E.
  destruct (alone (actions _ _ _ _ _) _) as [[] [[l1 x1] xs1]|] eqn:E1; [|done].
  destruct (alone_actions _ _ _ _ _ _ _ _ _ _ _ E1) as (b1 & h1 & C1 & M1 & A1).
  rewrite join_split in A1.
  rewrite (related_handle_error as_gdb as_scan _ : _ = _) in E. cbn [unlocked] in E.
  destruct (handle_error (G := Gdb) (M := Scan) (join x1 l1)) as [[] s2|] eqn:E2; [|done].
  injection E as El <- <-.
  destruct (interrupts_private _ fuel _ _ _ _ _ private_handle_error E2 R)
    as (s3 & A3 & E3).
  exists (concat xs), bs2, (h1 ++ (IrqByte <$> concat xs1)), s3. split; [done|].
  split; [exact Hi|]. rewrite C1, fmap_app. split; [by apply merges_end|].
  rewrite El in E3. split; [|exact E3].
  by rewrite activities_app, (bind_ok _ _ _ _ _ A1).
Qed.
End Tokens.
