(* ===== verification/Safety.v ===== *)
(** * What the threads keep, call by call

    [safe] is the weakest precondition of a program: whatever the other thread
    does to the simulator between two calls, as long as it leaves it well
    formed, the program leaves it well formed too and keeps the data of its
    thread in order.  It is a judgment in the sense of Wellformed.v, so that it
    holds of the handlers; the lexer and the irq thread are added here.  Hence
    everything the two threads reach from [main] is well formed. *)
From stdpp Require Import relations.
From S2P Require Import Prelude Util Debug Constants Memory Registers Trace.
From S2P Require Import Core.
From S2P Require Import Refine LoadStore Branch Instruction Run Invariant.
From S2P Require Import Gdb Handlers Wellformed Scanner Sys Main Server Program.
From S2P Require Import Locking Threads.

Section Safe.
Context (size : Z) (L : local -> Prop).

Fixpoint safe {A} (p : prog A) (Q : A -> local -> Prop) (l : local) : Prop :=
  L l /\
  match p with
  | Ret a => Q a l
  | Halt _ => True
  | Access m =>
      forall s, sim_ok size s ->
        match m s with Ok q s' => sim_ok size s' /\ safe q Q l | Fault _ => True end
  | Own m => match m l with Ok q l' => safe q Q l' | Fault _ => True end
  | Send bs q => safe q Q (add_out bs l)
  | Receive q | Lock q | Unlock q => safe q Q l
  end.

Lemma safe_bind {A B} (p : prog A) (k : A -> prog B) R Q : forall l,
  safe p R l -> (forall a l', L l' -> R a l' -> safe (k a) Q l') ->
  safe (p ≫= k) Q l.
Proof.
  intros l Hp Hk. revert l Hp.
  induction p as [x|f|m IH|m IH|bs p IH|p IH|p IH|p IH] using prog_induction;
    intros l [Hl Hp]; try (split; [exact Hl|]; by apply IH).
  - by apply Hk.
  - by split.
  - split; [done|]. intros s Hs. specialize (Hp s Hs). specialize (IH s).
    destruct (m s); [|done]. destruct Hp as [Hs' Hq]. split; [done|]. by apply IH.
  - split; [done|]. specialize (IH l). destruct (m l); [by apply IH|done].
Qed.

Lemma safe_mono {A} (p : prog A) (R Q : A -> local -> Prop) l :
  safe p R l -> (forall a l', R a l' -> Q a l') -> safe p Q l.
Proof.
  intros Hp H. revert l Hp.
  induction p as [x|f|m IH|m IH|bs p IH|p IH|p IH|p IH] using prog_induction;
    intros l [Hl Hp]; (split; [exact Hl|]); auto.
  - intros s Hs. specialize (Hp s Hs). specialize (IH s).
    destruct (m s); [|done]. destruct Hp as [Hs' Hq]. split; [done|]. by apply IH.
  - specialize (IH l). destruct (m l); [by apply IH|done].
Qed.

Lemma safe_on_sim {A} (m : Sim A) (Q : A -> Prop) l :
  SimKeeps size m Q -> L l -> safe (on_sim m) (fun a l' => Q a /\ l' = l) l.
Proof.
  intros Hm Hl. split; [done|]. intros s Hs. specialize (Hm s Hs). rewrite bind_eq.
  destruct (m s) as [a s'|]; [|done]. destruct Hm as [Hs' HQ]. split; [exact Hs'|]. by split.
Qed.

Definition task_safe (k : task) : Prop := safe (t_prog k) (fun _ _ => True) (t_local k).

Lemma task_safe_step t h k s h' k' s' :
  task_step t h k s h' k' s' -> sim_ok size s -> task_safe k ->
  sim_ok size s' /\ task_safe k'.
Proof.
  unfold task_safe.
  destruct 1 as [h m l s p s' E|h m l s p l' E| | | |]; cbn [t_prog t_local safe];
    intros Hs [Hl Hp]; try by split.
  - specialize (Hp s Hs). rewrite E in Hp. exact Hp.
  - rewrite E in Hp. by split.
Qed.
End Safe.

(** ** The gdb thread *)

Definition parser_ok (d : parser_data) : Prop :=
  length (buffer d) = 1024%nat /\ 0 <= buffer_len d < 1024.
Definition local_ok (l : local) : Prop := full_data (l_data l) /\ parser_ok (l_parser l).

(** A handler leaves the data of the lexer alone. *)
Definition handler_safe (size : Z) : Judgment prog := fun A m Q =>
  forall l, local_ok l ->
    safe size local_ok m (fun a l' => Q a /\ l_parser l' = l_parser l) l.

#[export] Instance prog_keeping size : Keeping size (handler_safe size).
Proof.
  split; unfold Judge, handler_safe.
  - intros A a Q HQ l Hl. split; [exact Hl|]. by split.
  - intros A f Q l Hl. by split.
  - intros A B m k Q1 Q Hm Hk l Hl. eapply safe_bind; [by apply Hm|].
    intros a l1 Hl1 [HQ1 E]. eapply safe_mono; [by apply Hk|]. intros b l2 [HQ E2].
    split; [done|]. by rewrite E2.
  - intros A m Q Hm l Hl. eapply safe_mono; [by apply safe_on_sim|].
    intros a l' [HQ ->]. by split.
  - intros l Hl. do 2 (split; [exact Hl|]). split; [apply Hl|done].
  - intros d Hd l Hl. split; [exact Hl|]. split; [by split; [|apply Hl]|by split].
  - intros bs l Hl. do 2 (split; [exact Hl|]). by split.
  - intros l Hl. do 2 (split; [exact Hl|]). by split.
  - intros l Hl. do 2 (split; [exact Hl|]). by split.
  - intros l Hl. do 2 (split; [exact Hl|]). by split.
  - intros file line text l Hl. split; [exact Hl|]. by split.
Qed.

(** ** The lexer *)

Section Lexer.
Context `{T : Target}.
Context (size : Z).
Abbreviation safe := (safe size local_ok).

(** A call of a handler. *)
Lemma safe_handler {A} (m : prog A) l :
  Judge (handler_safe size) m (fun _ => True) -> local_ok l ->
  safe (on_gdb m) (fun _ l' => l_parser l' = l_parser l) l.
Proof. intros Hm Hl. eapply safe_mono; [by apply Hm|]. by intros a l' [_ E]. Qed.

Lemma safe_get_parser l : local_ok l ->
  safe get_parser (fun d l' => d = l_parser l /\ l' = l) l.
Proof. intros Hl. by do 2 (split; [exact Hl|]). Qed.
Lemma safe_put_parser (b : list Z) n l :
  local_ok l -> length b = 1024%nat -> 0 <= n < 1024 ->
  safe (put_parser b n) (fun _ l' => buffer_len (l_parser l') = n) l.
Proof. intros Hl Hb Hn. split; [exact Hl|]. split; [|done]. by split; [apply Hl|split]. Qed.

(** A byte goes in the buffer. *)
Lemma safe_set i v l : local_ok l -> 0 <= i < 1024 ->
  safe (of_option (buf_set (buffer (l_parser l)) i v))
    (fun b l' => length b = 1024%nat /\ l' = l) l.
Proof.
  intros Hl Hi. destruct (proj2 Hl) as [Hb _]. rewrite buf_set_Some by lia.
  split; [exact Hl|]. by rewrite length_insert.
Qed.

Lemma safe_handle_error l : local_ok l ->
  safe handle_error (fun _ l' => buffer_len (l_parser l') = 0) l.
Proof.
  intros Hl. unfold handle_error. eapply safe_bind; [by apply safe_get_parser|].
  intros d l1 _ [-> ->]. unfold c_true.
  destruct (Z.eqb_spec (buffer_len (l_parser l)) 0) as [E|E]; cbn [negb].
  - by split.
  - eapply safe_bind; [by apply safe_set; [|apply Hl]|]. intros b l1 _ [Hb ->].
    rewrite prog_scanner_debug_off.
    eapply safe_bind; [apply safe_handler; [|done]; apply (keeping_Rio_writen (size := size))|].
    intros _ l1 Hl1 _. by apply safe_put_parser.
Qed.

Lemma safe_add_character c l : local_ok l ->
  safe (add_character_to_error c) (fun _ _ => True) l.
Proof.
  intros Hl. unfold add_character_to_error. eapply safe_bind; [by apply safe_get_parser|].
  intros d l1 _ [-> ->].
  eapply (safe_bind _ _ _ _ (fun _ l' => buffer_len (l_parser l') <= 1022)).
  - change (MAX_ERROR_SIZE - 2) with 1022. destruct (Z.ltb_spec 1022 (buffer_len (l_parser l))).
    + eapply safe_mono; [by apply safe_handle_error|]. cbv beta. lia.
    + by split.
  - intros _ l1 Hl1 H1. eapply safe_bind; [by apply safe_get_parser|].
    intros d l2 _ [-> ->]. pose proof (proj2 (proj2 Hl1)).
    eapply safe_bind; [apply safe_set; [done|lia]|]. intros b l2 _ [Hb ->].
    eapply safe_mono; [apply safe_put_parser; [done..|lia]|by intros].
Qed.

Lemma safe_action fuel fr after t l : local_ok l ->
  safe (action fuel fr after t) (fun _ _ => True) l.
Proof.
  intros Hl. destruct t as [| |yytext|c|]; cbn [action].
  - eapply safe_bind; [by apply safe_handle_error|]. by intros _ l1 Hl1 _.
  - eapply safe_bind; [by apply safe_handle_error|]. intros _ l1 Hl1 _.
    rewrite prog_scanner_debug_off.
    eapply safe_mono; [apply safe_handler; [|done]|by intros].
    apply (keeps_transmit size (handler_safe size)).
  - eapply safe_bind; [by apply safe_handle_error|]. intros _ l1 Hl1 _.
    eapply safe_mono; [apply safe_handler; [|done]|by intros].
    apply (keeps_packet_analysis size (handler_safe size)).
  - by apply safe_add_character.
  - split; [exact Hl|]. split; [|done]. exact Hl.
Qed.

Lemma safe_actions fuel frs after ts : forall k l, local_ok l ->
  safe (actions fuel frs after k ts) (fun _ _ => True) l.
Proof.
  induction ts as [|t ts IH]; intros k l Hl; [by split|]. cbn [actions].
  eapply safe_bind; [by apply safe_action|]. intros _ l1 Hl1 _. by apply IH.
Qed.

Lemma safe_yylex fuel frs after input l : local_ok l ->
  safe (yylex fuel frs after input) (fun _ _ => True) l.
Proof.
  intros Hl. eapply safe_bind; [by apply safe_actions|]. intros _ l1 Hl1 _.
  eapply safe_mono; [by apply safe_handle_error|by intros].
Qed.
End Lexer.

(** ** The irq thread, whose data does not matter *)

Lemma safe_irq `{T : Target} size bs : forall l,
  safe size (fun _ => True) (irq_loop bs) (fun _ _ => True) l.
Proof.
  induction bs as [|b bs IH]; intros l; [done|]. cbn [irq_loop].
  assert (forall l, safe size (fun _ => True) (on_sim (arm_exception (M := Sim) b))
    (fun _ _ => True) l) as He.
  { intros l1. eapply safe_mono; [by apply safe_on_sim; [apply sim_exception|]|by intros]. }
  repeat (eapply (safe_bind _ _ _ _ (fun _ _ => True));
    [first [apply He | by repeat split]|intros [] ? _ _]).
  apply IH.
Qed.

(** ** The machine *)

Section Machine.
Context `{T : Target}.
Context (size : Z).

Definition machine_ok (v : machine) : Prop :=
  sim_ok size (m_sim v) /\ task_safe size local_ok (m_gdb v) /\
  task_safe size (fun _ => True) (m_irq v).

Lemma machine_ok_step v v' : machine_step v v' -> machine_ok v -> machine_ok v'.
Proof.
  destruct 1 as [s h k i h' k' s' H|s h k i h' i' s' H]; intros (Hs & Hg & Hi).
  - by destruct (task_safe_step _ _ _ _ _ _ _ _ _ H Hs Hg).
  - by destruct (task_safe_step _ _ _ _ _ _ _ _ _ H Hs Hi).
Qed.

Lemma machine_ok_reachable v v' : rtc machine_step v v' -> machine_ok v -> machine_ok v'.
Proof. induction 1; eauto using machine_ok_step. Qed.

Lemma machine_ok_start fuel frs after input bs s l :
  scan_inv size s -> machine_ok (machine_start fuel frs after input bs s l).
Proof.
  intros [[Hs Hp] Hb Hl]. split; [exact Hs|]. split; [|apply safe_irq].
  by apply safe_yylex.
Qed.

Lemma machine_ok_local v : machine_ok v -> local_ok (t_local (m_gdb v)).
Proof. intros (_ & Hg & _). unfold task_safe in Hg. destruct (t_prog (m_gdb v)); apply Hg. Qed.
End Machine.

(** ** From the options of [main] on *)

Section Main.
Context `{T : Target} {K : Type} `{Kernel K}.

(** C8. The simulator never leaves the well-formed states: from the memory and
    the processor [main] creates with any options it accepts, whatever bytes
    gdb and the senders of interrupts write and however the calls of the two
    threads interleave, in every state they reach, inside of a handler too,
    there are 18 registers of 32 bits, a memory of 0x20000 bytes, a location
    stack with room for a step, the 1024 bytes of the packet and of the error
    buffer, and an index inside of the latter. *)
Theorem threads_invariant argv0 opts block cycle0 r p (w w' : world K main_data)
    pkt buf fuel frs after input bs l v :
  length block = Z.to_nat 0x20000 -> Forall is_u8 block -> regs_wf r ->
  w_app w = main_init p ->
  main_create argv0 opts true (Some block) true cycle0 (Some r) w = Done () w' ->
  length pkt = 1024%nat -> length buf = 1024%nat ->
  rtc machine_step (machine_start fuel frs after input bs
    (gdb_scanner_init (md_sim (w_app w')) pkt buf) l) v ->
  let s := join (m_sim v) (t_local (m_gdb v)) in
  gdb_ready (sc_gdb s) /\ mem_size (mem (g_arm (sc_gdb s))) = 0x20000 /\
  length (buffer (sc_data s)) = 1024%nat /\ 0 <= buffer_len (sc_data s) < 1024.
Proof.
  intros Hl Hb Hr Hp E Hpk Hbuf Hv s.
  pose proof (created_inv _ _ _ _ _ _ _ _ _ _ Hl Hb Hr Hp E Hpk Hbuf) as Hi.
  pose proof (machine_ok_reachable _ _ _ Hv (machine_ok_start _ fuel frs after input bs _ l Hi))
    as Hok.
  destruct (machine_ok_local _ _ Hok) as [Hd Hps]. destruct Hok as [Hs _].
  destruct (proj1 (gdb_inv_ready 0x20000 (sc_gdb s)) ltac:(by split)). by destruct Hps.
Qed.
End Main.
