(* ===== verification/Progress.v ===== *)
(** * The threads make progress

    Neither thread blocks the other for ever, unless gdb's thread does not come
    to the end of a handler: the handler has no defined effect, or its continue
    command finds no breakpoint. *)
From stdpp Require Import relations.
From S2P Require Import Prelude Util Constants Memory Registers Trace Core.
From S2P Require Import Refine LoadStore Branch Instruction Run Invariant.
From S2P Require Import Transfers Gdb Wellformed Scanner Related Server Program.
From S2P Require Import Locking Threads Safety.

Section Progress.
Context `{T : Target}.

Definition finished (v : machine) : Prop :=
  forall t, t_prog (task_of t v) = Ret ().
(** The next call of the gdb thread has no defined effect: a handler leaves a
    block, an assertion fails, or a loop has used up its turns, which is
    [Running]. *)
Definition gdb_stuck (v : machine) : Prop := exists f, task_fault (m_gdb v) (m_sim v) f.
(** One call of the thread [t]. *)
Definition calls_of (t : thread) (v v' : machine) : Prop := machine_next t v = Some v'.

Lemma calls_step t v v' : calls_of t v v' -> machine_step v v'.
Proof. intros H. apply machine_next_step. by exists t. Qed.
Lemma calls_reach t v v' : rtc (calls_of t) v v' -> rtc machine_step v v'.
Proof. induction 1; [done|]. eapply rtc_l; [by eapply calls_step|done]. Qed.

(** A call of a thread in its machine. *)
Definition with_task (t : thread) (h : option thread) (k : task) (s : sim) (v : machine)
    : machine :=
  match t with
  | GdbThread => {| m_sim := s; m_lock := h; m_gdb := k; m_irq := m_irq v |}
  | IrqThread => {| m_sim := s; m_lock := h; m_gdb := m_gdb v; m_irq := k |}
  end.
Lemma calls_task t v h k s :
  task_step t (m_lock v) (task_of t v) (m_sim v) h k s -> calls_of t v (with_task t h k s v).
Proof.
  intros H%task_next_step. unfold calls_of, machine_next, with_task.
  destruct t; cbn [task_of] in H; rewrite H; done.
Qed.
Lemma task_of_with t h k s v : task_of t (with_task t h k s v) = k.
Proof. by destruct t. Qed.
Lemma with_task_fields t h k s v :
  m_sim (with_task t h k s v) = s /\ m_lock (with_task t h k s v) = h.
Proof. by destruct t. Qed.

(** ** A thread that fails has not released the lock *)

Lemma guarded_fault t h k s f :
  guarded (held t h) (t_prog k) false -> task_fault k s f -> f = OutOfBounds \/ h = Some t.
Proof.
  intros Hg H. destruct H as [f l s|m l s f E|m l s f E]; cbn [t_prog guarded] in Hg.
  - destruct Hg as [Hg| ->]; [right; by apply held_true|by left].
  - right. by apply held_true, Hg.
  - specialize (Hg l). by rewrite E in Hg.
Qed.

(** What a thread can do next. *)
Lemma task_cases t v :
  guarded_machine v ->
  (exists v', calls_of t v v') \/ t_prog (task_of t v) = Ret () \/
  (exists f, task_fault (task_of t v) (m_sim v) f) \/
  (exists u, m_lock v = Some u /\ u <> t).
Proof.
  intros Hv. pose proof (Hv t) as Hg. pose proof (calls_task t v) as Hcall.
  destruct (task_of t v) as [p l]. cbn [t_prog] in Hg |- *.
  destruct p as [[]|f|m|m|bs p|p|p|p]; cbn [guarded] in Hg.
  - by right; left.
  - right; right; left. eexists. constructor.
  - destruct (m (m_sim v)) as [q s'|f] eqn:E.
    + left. eexists. eapply Hcall. by constructor.
    + right; right; left. by eexists; constructor.
  - destruct (m l) as [q l'|f] eqn:E.
    + left. eexists. eapply Hcall. by constructor.
    + right; right; left. by eexists; constructor.
  - left. eexists. eapply Hcall. constructor.
  - left. eexists. eapply Hcall. constructor.
  - destruct (m_lock v) as [u|]; [|left; eexists; eapply Hcall; constructor].
    right; right; right. exists u. split; [done|]. intros ->.
    destruct Hg as [Hg _]. unfold held in Hg. by rewrite bool_decide_true in Hg.
  - destruct Hg as [Hg _]. apply held_true in Hg. rewrite Hg in Hcall.
    left. eexists. eapply Hcall. constructor.
Qed.

(** ** The irq thread never fails *)

Section Steady.
Context (size : Z).

(** Every call has a defined effect, on any well-formed simulator, and keeps
    it well formed. *)
Fixpoint steady (p : prog unit) : Prop :=
  match p with
  | Ret _ => True
  | Halt _ => False
  | Access m => forall s, sim_ok size s ->
      match m s with Ok q s' => sim_ok size s' /\ steady q | Fault _ => False end
  | Own m => forall l, match m l with Ok q _ => steady q | Fault _ => False end
  | Send _ q | Receive q | Lock q | Unlock q => steady q
  end.

Lemma exception_runs e s : sim_ok size s ->
  exists s', arm_exception (M := Sim) e s = Ok () s' /\ sim_ok size s'.
Proof.
  intros Hs. pose proof (sim_exception size e s Hs) as Hk. destruct Hs as [Hr [Hw _]].
  pose proof (refines_exception 1 e s Hr) as H.
  rewrite run_exception in H by (by apply wf_has_regs). destruct H as (s' & E & _).
  rewrite E in Hk. destruct Hk as [Hs' _]. by exists s'.
Qed.

Lemma steady_irq bs : steady (irq_loop bs).
Proof.
  induction bs as [|b bs IH]; [done|]. cbn [irq_loop]. cbn -[arm_exception].
  intros s Hs. rewrite bind_eq. destruct (exception_runs b s Hs) as (s' & -> & Hs').
  by split.
Qed.

Lemma steady_step t h k s h' k' s' :
  task_step t h k s h' k' s' -> sim_ok size s -> steady (t_prog k) -> steady (t_prog k').
Proof.
  destruct 1 as [h m l s p s' E|h m l s p l' E| | | |]; cbn [t_prog steady]; intros Hs Hp;
    try done.
  - specialize (Hp s Hs). rewrite E in Hp. apply Hp.
  - specialize (Hp l). by rewrite E in Hp.
Qed.
Lemma steady_fault k s f : task_fault k s f -> sim_ok size s -> steady (t_prog k) -> False.
Proof.
  destruct 1 as [|m l s f E|m l s f E]; cbn [t_prog steady]; intros Hs Hp; [done|..].
  - specialize (Hp s Hs). by rewrite E in Hp.
  - specialize (Hp l). by rewrite E in Hp.
Qed.

(** ** What holds in every state *)

Definition machine_live (v : machine) : Prop :=
  guarded_machine v /\ machine_ok size v /\ steady (t_prog (m_irq v)).

Lemma live_step v v' : machine_step v v' -> machine_live v -> machine_live v'.
Proof.
  intros H (Hg & Hok & Hi). split; [by eapply guarded_step|].
  split; [by eapply machine_ok_step|].
  destruct Hok as [Hs _]. destruct H as [s h k i h' k' s' H|s h k i h' i' s' H]; [done|].
  by eapply steady_step.
Qed.
Lemma live_reachable v v' : rtc machine_step v v' -> machine_live v -> machine_live v'.
Proof. induction 1; eauto using live_step. Qed.
Lemma live_start fuel frs after input bs s l :
  scan_inv size s -> machine_live (machine_start fuel frs after input bs s l).
Proof.
  intros Hs. split; [apply guarded_start|]. split; [by apply machine_ok_start|].
  apply steady_irq.
Qed.
Lemma live_calls t v v' : rtc (calls_of t) v v' -> machine_live v -> machine_live v'.
Proof. intros H. eapply live_reachable, calls_reach, H. Qed.

Lemma live_irq v f : machine_live v -> ~ task_fault (m_irq v) (m_sim v) f.
Proof. intros (_ & [Hs _] & Hi) H. by eapply steady_fault. Qed.

Lemma finished_free v : machine_live v -> finished v -> m_lock v = None.
Proof.
  intros [Hv _] Hf. destruct (m_lock v) as [u|] eqn:El; [|done].
  specialize (Hv u). rewrite Hf, El in Hv. cbn in Hv. unfold held in Hv.
  by rewrite bool_decide_true in Hv.
Qed.

(** A thread that fails is gdb's. *)
Lemma live_fault t v :
  machine_live v -> (exists f, task_fault (task_of t v) (m_sim v) f) ->
  t = GdbThread /\ gdb_stuck v.
Proof.
  intros Hv [f H]. destruct t; [split; [done|by exists f]|]. by apply live_irq in H.
Qed.

Lemma live_cases v :
  machine_live v ->
  (exists v', machine_step v v') \/ gdb_stuck v \/ finished v /\ m_lock v = None.
Proof.
  intros Hv. assert (forall t, (exists u, m_lock v = Some u /\ u <> t) ->
    (exists v', machine_step v v') \/ gdb_stuck v) as Hwait.
  { intros t (u & Hu & _). destruct (task_cases u v (proj1 Hv))
      as [[v' H]|[E|[H|(u' & Hu' & Hne)]]]; [|exfalso| |congruence].
    - left. exists v'. by eapply calls_step.
    - pose proof (proj1 Hv u) as Hg. rewrite E, Hu in Hg. cbn in Hg. unfold held in Hg.
      by rewrite bool_decide_true in Hg.
    - right. by apply (live_fault u). }
  assert (forall t, (exists v', machine_step v v') \/ gdb_stuck v \/
            t_prog (task_of t v) = Ret ()) as H.
  { intros t. destruct (task_cases t v (proj1 Hv)) as [[v' H]|[E|[H|H]]]; [| | |].
    - left. exists v'. by eapply calls_step.
    - by right; right.
    - right; left. by apply (live_fault t).
    - destruct (Hwait t H); [by left|by right; left]. }
  destruct (H GdbThread) as [?|[?|Eg]]; [by auto..|].
  destruct (H IrqThread) as [?|[?|Ei]]; [by auto..|].
  assert (finished v) as Hf by (by intros []).
  right; right. split; [done|by apply finished_free].
Qed.

(** ** The lock comes back *)

(** The calls of the thread that holds the lock, up to its release. *)
Lemma holder_releases t p : forall v,
  t_prog (task_of t v) = p -> machine_live v -> m_lock v = Some t ->
  exists v', rtc (calls_of t) v v' /\ (m_lock v' = None \/ t = GdbThread /\ gdb_stuck v').
Proof.
  assert (forall q v, (forall v, t_prog (task_of t v) = q -> machine_live v ->
      m_lock v = Some t -> exists v', rtc (calls_of t) v v' /\
        (m_lock v' = None \/ t = GdbThread /\ gdb_stuck v')) ->
    forall h k s, machine_live v -> calls_of t v (with_task t h k s v) ->
      t_prog k = q -> h = Some t ->
    exists v', rtc (calls_of t) v v' /\ (m_lock v' = None \/ t = GdbThread /\ gdb_stuck v'))
    as Hnext.
  { intros q v IH h k s Hv Hc Hk Hh.
    destruct (IH (with_task t h k s v)) as (v' & Hr & Hl).
    - by rewrite task_of_with.
    - eapply live_step, Hv. by eapply calls_step.
    - by rewrite (proj2 (with_task_fields _ _ _ _ _)).
    - exists v'. split; [by eapply rtc_l|done]. }
  induction p as [[]|f|m IH|m IH|bs p IH|p IH|p IH|p IH] using prog_induction;
    intros v Ep Hv Hl; pose proof (proj1 Hv t) as Hg; rewrite Ep, Hl in Hg;
    pose proof (calls_task t v) as Hc; destruct (task_of t v) as [p' l] eqn:Et;
    cbn [t_prog] in Ep; subst p'; rewrite Hl in Hc; cbn [guarded] in Hg;
    unfold held in Hg; rewrite ?bool_decide_true in Hg by done.
  - done.
  - exists v. split; [done|]. right. apply live_fault; [done|]. exists f. rewrite Et. constructor.
  - destruct (m (m_sim v)) as [q s'|f] eqn:E.
    + specialize (IH (m_sim v)). rewrite E in IH.
      eapply (Hnext q v IH _ _ _ Hv); [eapply Hc; by constructor|done|done].
    + exists v. split; [done|]. right. apply live_fault; [done|]. exists f. rewrite Et.
      by constructor.
  - destruct (m l) as [q l'|f] eqn:E.
    + specialize (IH l). rewrite E in IH.
      eapply (Hnext q v IH _ _ _ Hv); [eapply Hc; by constructor|done|done].
    + specialize (Hg l). by rewrite E in Hg.
  - eapply (Hnext p v IH _ _ _ Hv); [eapply Hc; constructor|done|done].
  - eapply (Hnext p v IH _ _ _ Hv); [eapply Hc; constructor|done|done].
  - by destruct Hg.
  - eexists. split; [eapply rtc_once, Hc; constructor|]. left.
    apply (with_task_fields t).
Qed.

(** ** The end of the irq thread *)

(** A steady thread ends by its own calls when the other has not the lock. *)
Lemma irq_ends p : forall v,
  t_prog (m_irq v) = p -> machine_live v -> m_lock v <> Some GdbThread ->
  exists v', rtc (calls_of IrqThread) v v' /\ t_prog (m_irq v') = Ret () /\ m_lock v' = None.
Proof.
  assert (forall q v, (forall v, t_prog (m_irq v) = q -> machine_live v ->
      m_lock v <> Some GdbThread -> exists v', rtc (calls_of IrqThread) v v' /\
        t_prog (m_irq v') = Ret () /\ m_lock v' = None) ->
    forall h k s, machine_live v -> calls_of IrqThread v (with_task IrqThread h k s v) ->
      t_prog k = q -> h <> Some GdbThread ->
    exists v', rtc (calls_of IrqThread) v v' /\ t_prog (m_irq v') = Ret () /\ m_lock v' = None)
    as Hnext.
  { intros q v IH h k s Hv Hc Hk Hh.
    destruct (IH (with_task IrqThread h k s v)) as (v' & Hr & Hl); [done| |done|].
    - eapply live_step, Hv. by eapply calls_step.
    - exists v'. split; [by eapply rtc_l|done]. }
  induction p as [[]|f|m IH|m IH|bs p IH|p IH|p IH|p IH] using prog_induction;
    intros v Ep Hv Hl; pose proof (proj1 Hv IrqThread) as Hg; cbn [task_of] in Hg;
    pose proof Hv as (_ & [Hs _] & Hi); rewrite Ep in Hg, Hi;
    pose proof (calls_task IrqThread v) as Hc; cbn [task_of] in Hc;
    destruct (m_irq v) as [p' l] eqn:Et;
    cbn [t_prog] in Ep; subst p'; cbn [guarded] in Hg; cbn [steady] in Hi.
  - exists v. split; [done|]. split; [by rewrite Et|].
    destruct (m_lock v) as [[]|]; [done|by vm_compute in Hg|done].
  - done.
  - specialize (Hi _ Hs). specialize (IH (m_sim v)).
    destruct (m (m_sim v)) as [q s'|f] eqn:E; [|done].
    eapply (Hnext q v IH _ _ _ Hv); [eapply Hc; by constructor|done|done].
  - specialize (Hi l). specialize (IH l). destruct (m l) as [q l'|f] eqn:E; [|done].
    eapply (Hnext q v IH _ _ _ Hv); [eapply Hc; by constructor|done|done].
  - eapply (Hnext p v IH _ _ _ Hv); [eapply Hc; constructor|done|done].
  - eapply (Hnext p v IH _ _ _ Hv); [eapply Hc; constructor|done|done].
  - destruct (m_lock v) as [[]|]; [done|by destruct Hg|].
    eapply (Hnext p v IH _ _ _ Hv); [eapply Hc; constructor|done|done].
  - destruct Hg as [Hg _]. apply held_true in Hg. rewrite Hg in Hc.
    eapply (Hnext p v IH _ _ _ Hv); [eapply Hc; constructor|done|done].
Qed.

(** ** Waiting for gdb *)

Lemma irq_waits v v' :
  machine_live v -> rtc (calls_of IrqThread) v v' -> m_lock v = Some GdbThread ->
  m_sim v' = m_sim v /\ m_lock v' = Some GdbThread.
Proof.
  intros Hv Hr. revert Hv. induction Hr as [v|v v1 v' H _ IH]; intros Hv Hl; [done|].
  assert (m_sim v1 = m_sim v /\ m_lock v1 = Some GdbThread) as (Es & El).
  { pose proof (proj1 Hv IrqThread) as Hg. destruct v as [s h k i]. cbn in Hl, Hg. subst h.
    unfold calls_of, machine_next in H. cbn in H.
    destruct (task_next _ _ _ _) as [[[h' i'] s']|] eqn:E; simplify_eq/=.
    apply task_next_step in E. inversion E; subst; cbn in Hg; try done; by destruct Hg. }
  destruct (IH (live_step _ _ (calls_step _ _ _ H) Hv) El) as [Es' El'].
  split; [congruence|done].
Qed.
End Steady.

(** C11. The threads cannot block each other.  In every state they reach from
    a well-formed one, whatever arrives:
    the irq thread never fails, and gdb's thread only where it leaves a block or
    while it holds the lock;
    one of them can go on, or gdb's thread is stuck, in a call without a defined
    effect or in a continue command that met no breakpoint in the turns it is
    given, or both have ended and the lock is free;
    a thread that has the lock releases it by its own calls, unless it is gdb's
    and gets stuck, and when gdb's has not the lock the irq thread gets to its
    end by its own calls;
    but while gdb's has it the irq thread by itself changes neither the simulator
    nor the lock: a continue command that meets no breakpoint, which in C goes
    on for ever with the lock, shuts out the interrupts. *)
Theorem threads_progress size fuel frs after input bs s l v :
  scan_inv size s ->
  rtc machine_step (machine_start fuel frs after input bs s l) v ->
  (forall f, ~ task_fault (m_irq v) (m_sim v) f) /\
  (forall f, task_fault (m_gdb v) (m_sim v) f ->
     f = OutOfBounds \/ m_lock v = Some GdbThread) /\
  ((exists v', machine_step v v') \/ gdb_stuck v \/ finished v /\ m_lock v = None) /\
  (forall t, m_lock v = Some t -> exists v', rtc (calls_of t) v v' /\
     (m_lock v' = None \/ t = GdbThread /\ gdb_stuck v')) /\
  (m_lock v <> Some GdbThread -> exists v', rtc (calls_of IrqThread) v v' /\
     t_prog (m_irq v') = Ret () /\ m_lock v' = None) /\
  (m_lock v = Some GdbThread -> forall v', rtc (calls_of IrqThread) v v' ->
     m_sim v' = m_sim v /\ m_lock v' = Some GdbThread).
Proof.
  intros Hs Hr.
  pose proof (live_reachable size _ _ Hr (live_start size _ _ _ _ _ _ l Hs)) as Hv.
  split; [by intros f; apply (live_irq size)|].
  split; [intros f; apply guarded_fault, (proj1 Hv GdbThread)|].
  split; [|split; [|split]].
  - by apply (live_cases size).
  - intros t. by apply (holder_releases size t _ v eq_refl).
  - by apply (irq_ends size _ v eq_refl).
  - intros Hl v' Hr'. by apply (irq_waits size).
Qed.
End Progress.
