(* ===== verification/Shutdown.v ===== *)
(** * The end of main (arm_simulator.c)

    [main] waits for the gdb thread, frees the processor and the memory and
    returns, which ends the process.  It neither takes the lock nor waits for
    the irq thread, which goes on meanwhile: a process is the server of
    Server.v, the place of the main thread and the blocks that are still
    allocated; a step that uses a freed block leads to [UseAfterFree]. *)
From stdpp Require Import relations.
From S2P Require Import Prelude Util Debug Constants Memory Registers Trace.
From S2P Require Import Core.
From S2P Require Import Refine LoadStore Branch Instruction Run Invariant.
From S2P Require Import ArmSpec Correct Execute Examples Gdb Packets Handlers.
From S2P Require Import Access Transfers Scanner Session Wellformed Main Server.
From S2P Require Import Threads.

(** The blocks [arm_exception] uses. *)
Definition exception_uses (exception : Z) : list block :=
  if u8 exception =? RESET then [ArmStruct; RegistersStruct; RegisterBlock] else [].
Definition irq_uses (i : irq_place) : list block :=
  match i with IrqLocked irq => exception_uses irq | _ => [] end.

(** The main thread waits for the gdb thread, or has these blocks to free. *)
Inductive main_place := MainJoin | MainFrees (l : list block).

Inductive process :=
  | Alive (m : main_place) (live : list block) (v : server)
  | Exited
  | UseAfterFree.

Definition free_block (b : block) (live : list block) : list block :=
  filter (fun b' => b' <> b) live.

(** The gdb thread is at the end of its input. *)
Definition gdb_ended (v : server) : Prop := sv_gdb v = GdbIdle /\ sv_tokens v = [].

Section Shutdown.
Context `{T : Target}.
Context (fuel : nat).

Inductive process_step : process -> process -> Prop :=
  | proc_gdb m live v l v' :
      gdb_step fuel v l v' -> main_frees ⊆ live ->
      process_step (Alive m live v) (Alive m live v')
  | proc_gdb_freed m live v l v' :
      gdb_step fuel v l v' -> ~ main_frees ⊆ live ->
      process_step (Alive m live v) UseAfterFree
  | proc_irq m live v l v' :
      irq_step v l v' -> irq_uses (sv_irq v) ⊆ live ->
      process_step (Alive m live v) (Alive m live v')
  | proc_irq_freed m live v :
      ~ irq_uses (sv_irq v) ⊆ live ->
      process_step (Alive m live v) UseAfterFree
  | proc_join live v :
      gdb_ended v -> process_step (Alive MainJoin live v) (Alive (MainFrees main_frees) live v)
  | proc_free b l live v :
      b ∈ live ->
      process_step (Alive (MainFrees (b :: l)) live v)
                   (Alive (MainFrees l) (free_block b live) v)
  | proc_free_twice b l live v :
      b ∉ live -> process_step (Alive (MainFrees (b :: l)) live v) UseAfterFree
  | proc_return live v : process_step (Alive (MainFrees []) live v) Exited.

(** ** After the end of the gdb thread *)

Lemma frees_all v :
  gdb_ended v ->
  rtc process_step (Alive MainJoin main_frees v) (Alive (MainFrees []) [] v).
Proof.
  intros Hv. eapply rtc_l; [by apply proc_join|].
  do 5 (eapply rtc_l; [apply proc_free; left|cbn]). reflexivity.
Qed.

Definition resets (bs : list Z) : Prop := Exists (fun b => u8 b = RESET) bs.

Definition irq_at (s : scanner) (l : option thread) (i : irq_place) (bs : list Z) : server :=
  {| sv_scanner := s; sv_lock := l; sv_gdb := GdbIdle; sv_tokens := []; sv_irq := i;
     sv_bytes := bs |}.

Lemma interrupt_other b s : u8 b <> RESET -> interrupt b s = Ok () s.
Proof.
  intros Hb. unfold interrupt, arm_exception.
  destruct (Z.eqb_spec (u8 b) RESET); [done|]. destruct s as [[]]. done.
Qed.

Lemma locked_race m b bs s :
  (resets bs -> rtc process_step (Alive m [] (irq_at s None IrqIdle bs)) UseAfterFree) ->
  resets (b :: bs) ->
  rtc process_step (Alive m [] (irq_at s (Some IrqThread) (IrqLocked b) bs)) UseAfterFree.
Proof.
  intros IH [Hb|Hbs]%Exists_cons.
  - apply rtc_once, proc_irq_freed. simpl. unfold exception_uses. rewrite Hb.
    intros Hs. by eapply elem_of_nil, Hs; left.
  - destruct (decide (u8 b = RESET)) as [Hb|Hb].
    + apply rtc_once, proc_irq_freed. simpl. unfold exception_uses. rewrite Hb.
      intros Hs. by eapply elem_of_nil, Hs; left.
    + eapply rtc_l; [|by apply IH].
      eapply proc_irq; [by apply irq_raise, interrupt_other|]. simpl. unfold exception_uses.
      by destruct (Z.eqb_spec (u8 b) RESET).
Qed.

Lemma idle_race m bs s :
  resets bs -> rtc process_step (Alive m [] (irq_at s None IrqIdle bs)) UseAfterFree.
Proof.
  induction bs as [|b bs IH]; [by intros ?%Exists_nil|]. intros Hb.
  eapply rtc_l; [eapply proc_irq; [apply irq_read|done]|].
  eapply rtc_l; [eapply proc_irq; [apply irq_lock|done]|].
  by apply locked_race.
Qed.

Definition harmless (v : server) : Prop :=
  gdb_ended v /\ ~ resets (irq_pending (sv_irq v) ++ sv_bytes v).

(** What holds while no reset is to come: main frees what is allocated. *)
Definition orderly (p : process) : Prop :=
  match p with
  | Alive m live v =>
      harmless v /\ match m with
                    | MainJoin => live = main_frees
                    | MainFrees l => live = l /\ NoDup l
                    end
  | Exited => True
  | UseAfterFree => False
  end.

Lemma harmless_uses v : harmless v -> irq_uses (sv_irq v) = [].
Proof.
  intros [_ Hr]. destruct (sv_irq v) as [| |b] eqn:E; try done. simpl. unfold exception_uses.
  destruct (Z.eqb_spec (u8 b) RESET) as [Hb|]; [|done].
  destruct Hr. by left.
Qed.

Lemma harmless_step v l v' : harmless v -> irq_step v l v' -> harmless v'.
Proof.
  intros [Hg Hr] Hs. destruct Hs; (split; [exact Hg|]); simpl in *; try done.
  intros H'. apply Hr. by right.
Qed.

Lemma free_head b l : NoDup (b :: l) -> free_block b (b :: l) = l.
Proof.
  inversion 1 as [|? ? Hb Hl]; subst. unfold free_block.
  rewrite filter_cons_False by (intros Hn; by apply Hn).
  clear H Hl. induction l as [|b' l IH]; [done|].
  apply not_elem_of_cons in Hb as [Hn Hb].
  rewrite filter_cons_True by (intros E; by rewrite E in Hn). by rewrite IH.
Qed.

Lemma main_frees_nodup : NoDup main_frees.
Proof. by apply (bool_decide_unpack _). Qed.

Lemma orderly_step p p' : orderly p -> process_step p p' -> orderly p'.
Proof.
  intros Hp Hstep. destruct Hstep as [m live v l v' Hg _|m live v l v' Hg _|m live v l v' Hi _
    |m live v Hi|live v _|b l live v _|b l live v Hb|live v]; cbn in Hp.
  1-2: destruct Hp as [[[E1 E2] _] _]; destruct Hg; simpl in *; congruence.
  - destruct Hp as [Hv Hm]. split; [by eapply harmless_step|exact Hm].
  - destruct Hp as [Hv _]. destruct Hi. rewrite (harmless_uses _ Hv). by intros ? ?%elem_of_nil.
  - destruct Hp as [Hv ->]. split; [done|]. split; [done|apply main_frees_nodup].
  - destruct Hp as (Hv & -> & Hl). split; [done|]. rewrite (free_head _ _ Hl).
    split; [done|]. by inversion Hl.
  - destruct Hp as (_ & -> & _). destruct Hb. by left.
  - done.
Qed.

Lemma orderly_run p p' : orderly p -> rtc process_step p p' -> orderly p'.
Proof. intros Hp. induction 1; eauto using orderly_step. Qed.

(** C16. The end of main races with the interrupts: once gdb has closed its
    connection, the process can always come to its end, but it can also use
    the processor after it was freed exactly when a reset is still to be
    handled or to arrive; no other number of an exception, and no order of the
    frees, can do that. *)
Theorem shutdown_race s0 ts bs h v :
  server_run fuel (server_start s0 ts bs) h v -> gdb_ended v ->
  rtc process_step (Alive MainJoin main_frees v) Exited /\
  (rtc process_step (Alive MainJoin main_frees v) UseAfterFree <->
   resets (irq_pending (sv_irq v) ++ sv_bytes v)).
Proof.
  intros Hrun Hend. split.
  { eapply rtc_r; [by apply frees_all|apply proc_return]. }
  pose proof (serial_run _ _ _ _ _ _ Hrun) as (Hl & _). split.
  - intros Hr. destruct (decide (resets (irq_pending (sv_irq v) ++ sv_bytes v))) as [|Hn]; [done|].
    exfalso. by apply (orderly_run (Alive MainJoin main_frees v) UseAfterFree).
  - intros Hr. etransitivity; [by apply frees_all|].
    destruct v as [s l g ts' i bs']. destruct Hend as [Eg Et]. simpl in Eg, Et, Hr. subst g ts'.
    unfold lock_held in Hl. simpl in Hl.
    destruct i as [|b|b]; destruct l as [[]|]; simpl in Hl; try (by destruct Hl).
    + by apply idle_race.
    + eapply rtc_l; [eapply proc_irq; [apply irq_lock|done]|].
      apply locked_race; [apply idle_race|exact Hr].
    + apply locked_race; [apply idle_race|exact Hr].
Qed.
End Shutdown.
