(* ===== verification/ServerExamples.v ===== *)
(** * A connection and the threads, on concrete inputs

    The theorems of Session.v, Threads.v and Shutdown.v applied to the machine
    of GdbExamples.v and to the one [main] creates. *)
From stdpp Require Import relations.
From S2P Require Import Prelude Util Debug Constants Memory Registers Trace.
From S2P Require Import Core.
From S2P Require Import Refine LoadStore Branch Instruction Run Invariant.
From S2P Require Import ArmSpec Correct Execute Examples Gdb Packets Handlers.
From S2P Require Import Access General GdbExamples Transfers Scanner Session.
From S2P Require Import Stub.
From S2P Require Import Wellformed Definedness Sys Csapp Main MainSpec Server.
From S2P Require Import Threads Shutdown.

Definition example_scanner : scanner := {|
  sc_gdb := example_gdb;
  sc_data := {| buffer := replicate 1024 0; buffer_len := 0 |};
  sc_echo := []
|}.

(** Two stray bytes, an acknowledgement, a good and a bad "?", a stray byte. *)
Definition example_items : list (list Z * message) :=
  [([1; 2], MAck); ([], MPacket 63 [] 0x3f); ([], MPacket 63 [] 0x3e)].

Lemma scanner_session_witness :
  exists s, yylex (T := x86) 1 (fun _ => example_gframe 0 0) (fun _ => [])
      (stream example_items [3]) example_scanner = Ok () s /\
    g_out (sc_gdb s) = bytes_of "-+$S05#b8--" /\ buffer_len (sc_data s) = 0.
Proof.
  pose proof (scanner_session (T := x86) 1 (fun _ => example_gframe 0 0) (fun _ => [])
    example_items [3] example_scanner) as H.
  assert (g_out <$> final (serve_all (T := x86) 1 (fun _ => example_gframe 0 0)
    (fun _ => []) 0 example_items [3] example_gdb) = Some (bytes_of "-+$S05#b8--"))
    as E by (vm_compute; reflexivity).
  change (sc_gdb example_scanner) with example_gdb in H.
  destruct (serve_all _ _ _ _ _ _ _) as [[] g|e]; [|discriminate E].
  injection E as E. destruct H as (b & _ & Es).
  - reflexivity.
  - reflexivity.
  - unfold noise. repeat constructor; discriminate.
  - unfold noise. repeat constructor; discriminate.
  - eexists. split; [exact Es|]. split; [exact E|reflexivity].
Defined.

(** Reading four bytes has a defined effect; register 20 does not exist; the
    program comes to its breakpoint after one step. *)
Lemma packet_defined_witness :
  let packet fuel := gdb_packet_analysis (T := x86) fuel (example_gframe 0 0) in
  (exists g', packet 1%nat (received 109 (bytes_of "0,4") 0xfd []) 8 example_gdb = Ok () g') /\
  ~ (exists g', packet 1%nat (received 112 (bytes_of "20") 0xd2 []) 7 example_gdb = Ok () g') /\
  ~ (exists g', packet 1%nat (received 99 [] 99 []) 5 example_gdb = Ok () g') /\
  (exists g', packet 2%nat (received 99 [] 99 []) 5 example_gdb = Ok () g').
Proof.
  cbv zeta.
  assert (forall fuel c text k, 0 <= k < 256 -> _) as H
    by (intros fuel c text k; exact (packet_defined (T := x86) fuel (example_gframe 0 0)
          example_gdb c text k [] example_gdb_ready u32_0 u32_0 u32_0)).
  split_and!.
  - apply (H 1%nat 109 (bytes_of "0,4") 0xfd); [lia|]. intros _. vm_compute. reflexivity.
  - intros R. apply (H 1%nat 112 (bytes_of "20") 0xd2) in R; [|lia|reflexivity].
    vm_compute in R. discriminate R.
  - intros R. apply (H 1%nat 99 [] 99) in R; [|lia|reflexivity].
    vm_compute in R. discriminate R.
  - apply (H 2%nat 99 [] 99); [lia|]. intros _. vm_compute. reflexivity.
Defined.

(** An interrupt between the request of gdb and its handler. *)
Definition example_token : token := Packet (36 :: 63 :: 35 :: hex2 0x3f).
Definition example_frame : gframe := example_gframe 0 0.
Definition after_run {A} (m : Scan A) (s : scanner) : scanner :=
  default s (final (m s)).
Definition requested : scanner :=
  after_run (scan_head example_frame [] example_token) example_scanner.
Definition interrupted : scanner := after_run (interrupt 1) requested.
Definition handled : scanner :=
  after_run (on_gdb (run_handler (T := x86) 1 example_frame CmdReason
    (0 :: hex2 0x3f ++ [0]))) interrupted.

Lemma example_interleaving :
  server_run (T := x86) 1 (server_start example_scanner [example_token] [1])
    [IrqByte 1; GdbToken example_frame [] example_token]
    {| sv_scanner := handled; sv_lock := None; sv_gdb := GdbIdle; sv_tokens := [];
       sv_irq := IrqIdle; sv_bytes := [] |}.
Proof.
  pose (place := (0 :: hex2 0x3f ++ [0])).
  refine (run_step 1 _ [IrqByte 1] [GdbToken example_frame [] example_token] _ _ _
    (step_gdb 1 _ _ _ (gdb_handle 1 example_frame [] example_token CmdReason place
      interrupted _ _ _ _ _ _)));
    [|vm_compute; reflexivity].
  refine (run_step 1 _ [IrqByte 1] [] _ _ _ (step_gdb 1 _ _ _ (gdb_lock 1 _ _ _ _ _ _ _ _ _))).
  refine (run_step 1 _ [] [IrqByte 1] _ _ _ (step_irq 1 _ _ _
    (irq_raise requested _ _ _ _ 1 _ _)));
    [|vm_compute; reflexivity].
  refine (run_step 1 _ [] [] _ _ _ (step_irq 1 _ _ _ (irq_lock _ _ _ _ _))).
  refine (run_step 1 _ [] [] _ _ _ (step_irq 1 _ _ _ (irq_read _ _ _ _ _ _))).
  refine (run_step 1 _ [] [] _ _ (run_start 1 _)
    (step_gdb 1 _ _ _ (gdb_request 1 _ _ _ _ _ example_scanner _ _ _ _ _ _))).
  vm_compute. reflexivity.
Qed.

Lemma server_serializable_witness :
  exists v s, server_run (T := x86) 1
      (server_start example_scanner [example_token] [1])
      [IrqByte 1; GdbToken example_frame [] example_token] v /\
    lock_held v /\ sv_scanner v = s /\
    activities (T := x86) 1 [IrqByte 1; GdbToken example_frame [] example_token]
      example_scanner = Ok () s.
Proof.
  destruct (server_serializable (T := x86) 1 example_scanner [example_token] [1]
    [IrqByte 1; GdbToken example_frame [] example_token] _ example_interleaving)
    as (Hl & _ & _ & s & Es & Ha).
  eexists _, s. split; [exact example_interleaving|]. split; [exact Hl|].
  split; [exact Ha|exact Es].
Defined.

(** The machine [main] creates, traced, and a reset raised from outside. *)
Definition zeros (n : Z) : list Z := replicate (Z.to_nat n) 0.

Lemma zeros_bytes n : Forall is_u8 (zeros n).
Proof. apply Forall_replicate. by split. Qed.

Definition example_options : list (Z * string) :=
  [(114, EmptyString); (109, EmptyString)].
(** A system in which every call succeeds, and one without files. *)
Definition always (v : Z) : Kernel unit := {|
  kernel_call := fun _ k => ({| rv := v; r_errno := 2; r_herrno := 0; r_data := [] |}, k);
  strerror := fun e => "No such file or directory"%string
|}.
Definition main_world : world unit main_data :=
  World () 0 0 [] [] (main_init (example_core 0 0 [])).
Definition example_main : Sys (world unit main_data) unit :=
  main_create (T := x86) (H := always 1) "arm_simulator" example_options true
    (Some (zeros 0x20000)) true 7 (Some (regs_example 0)).
Definition world_after {X} (r : ending (world unit main_data) X) : world unit main_data :=
  match r with Done _ w | Quit _ w => w | Stuck _ => main_world end.
Definition example_world : world unit main_data := world_after (example_main main_world).
Definition example_created : main_data := w_app example_world.
Definition example_start : scanner :=
  gdb_scanner_init (md_sim example_created) (zeros 1024) (zeros 1024).

Lemma server_invariant_witness :
  exists v,
    server_run (T := x86) 1 (server_start example_start [] [1]) [IrqByte 1] v /\
    gdb_ready (sc_gdb (sv_scanner v)).
Proof.
  pose (v := {| sv_scanner := after_run (interrupt 1) example_start; sv_lock := None;
    sv_gdb := GdbIdle; sv_tokens := []; sv_irq := IrqIdle; sv_bytes := [] |}).
  assert (server_run (T := x86) 1 (server_start example_start [] [1]) [IrqByte 1] v) as Hv.
  { refine (run_step 1 _ [] [IrqByte 1] _ _ _ (step_irq 1 _ _ _
    (irq_raise example_start _ _ _ _ 1 _ _)));
      [|reflexivity].
    refine (run_step 1 _ [] [] _ _ _ (step_irq 1 _ _ _ (irq_lock _ _ _ _ _))).
    exact (run_step 1 _ [] [] _ _ (run_start 1 _) (step_irq 1 _ _ _
      (irq_read _ _ _ _ _ _))). }
  exists v. split; [exact Hv|].
  apply (server_invariant (T := x86) (H := always 1) "arm_simulator" example_options
    (zeros 0x20000) 7 (regs_example 0) (example_core 0 0 []) main_world example_world
    1 (zeros 1024) (zeros 1024) [] [1] [IrqByte 1] v).
  - apply length_replicate.
  - apply zeros_bytes.
  - apply regs_example_wf. apply u32_0.
  - reflexivity.
  - reflexivity.
  - apply length_replicate.
  - apply length_replicate.
  - exact Hv.
Defined.

Abbreviation run_main k opts :=
  (main (T := x86) (H := always k) "sim" opts true (Some (zeros 0x20000)) true 7
    (Some (regs_example 0)) main_world).


(** gdb has left: a reset that is still to arrive can reach the freed
    processor, an interrupt (6) cannot. *)
Lemma shutdown_race_witness :
  rtc (process_step (T := x86) 1)
    (Alive MainJoin main_frees (server_start example_start [] [6; 1])) UseAfterFree /\
  ~ rtc (process_step (T := x86) 1)
    (Alive MainJoin main_frees (server_start example_start [] [6])) UseAfterFree.
Proof.
  split.
  - apply (shutdown_race (T := x86) 1 example_start [] [6; 1] [] _ (run_start 1 _)).
    + by split.
    + simpl. right. left. reflexivity.
  - intros Hr. apply (shutdown_race (T := x86) 1 example_start [] [6] [] _ (run_start 1 _)) in Hr.
    + simpl in Hr. inversion Hr as [? ? E|? ? E]; [discriminate E|inversion E].
    + by split.
Defined.

(** gdb sets r2, continues to the breakpoint after MOV r1,#10, and reads r1 and
    four bytes of the program. *)
Definition example_clients : list client :=
  [Requests (WriteRegister 2 0x55); Acknowledges; Requests Continue; Acknowledges;
   Requests (ReadRegister 1); Acknowledges; Requests (ReadMemory [0] [4]); Acknowledges].

Definition example_set : arm_core_data := set_gpr 2 0x55 (g_arm example_gdb).
Definition example_run : arm_core_data := set_gpr 1 10 (after_fetch example_set).

Definition example_replies : list Z :=
  bytes_of "+$OK#9a+$S05#b8+$0000000a#b1+$e3a0100a#1b".

Lemma example_until :
  run_until (T := x86) example_frame 0 1 example_set example_run.
Proof.
  eapply (until_step (T := x86) _ 0 0 _ example_run example_run 0xE3A0100A);
    [vm_compute; reflexivity | reflexivity | vm_compute; reflexivity |].
  eapply (until_here (T := x86) _ _ _ 0xE7F000F0); vm_compute; reflexivity.
Qed.

Lemma example_session :
  exists out, out = example_replies /\
    stub_session (T := x86) 5 (fun _ => example_frame) 0 example_clients (g_arm example_gdb)
      example_run out.
Proof.
  eexists. split; [|
    eapply session_request; [apply (stub_write_register 5 _ 2 0x55); by split|];
    apply session_ack;
    eapply session_request; [apply (stub_continue 5 _ 1 _ _ example_until); lia|];
    apply session_ack;
    eapply session_request; [apply (stub_read_register 5 _ 1); by split|];
    apply session_ack;
    eapply session_request; [apply (stub_read_memory 5 _ [0] [4])|];
    [by split; [|repeat constructor]|by split; [|repeat constructor]|by vm_compute
    |by split|by vm_compute|]; apply session_ack, session_end].
  vm_compute. reflexivity.
Qed.
