(* ===== verification/ThreadExamples.v ===== *)
(** * The two threads, call by call, on concrete inputs

    The theorems of Locking.v, Reduction.v, Safety.v and Progress.v applied to a
    connection on which gdb reads a register while two interrupts arrive; the
    threads take turns. *)
From stdpp Require Import relations.
From S2P Require Import Prelude Util Debug Constants Memory Registers Trace.
From S2P Require Import Core.
From S2P Require Import LoadStore Branch Instruction Examples Gdb GdbExamples.
From S2P Require Import Handlers Scanner Session Server ServerExamples Program.
From S2P Require Import Wellformed.
From S2P Require Import Locking Sys Csapp Main Threads Reduction Safety.
From S2P Require Import Progress.

(** Both threads in turn, as long as they can go on. *)
Fixpoint turns (n : nat) (v : machine) : machine :=
  match n with
  | O => v
  | S n =>
      let v1 := default v (machine_next GdbThread v) in
      turns n (default v1 (machine_next IrqThread v1))
  end.

Lemma next_reaches t v : rtc machine_step v (default v (machine_next t v)).
Proof.
  destruct (machine_next t v) as [v'|] eqn:E; [|done]. apply rtc_once, machine_next_step.
  by exists t.
Qed.
Lemma turns_reach n : forall v, rtc machine_step v (turns n v).
Proof.
  induction n as [|n IH]; intros v; [done|]. cbn [turns].
  etrans; [apply next_reaches|]. etrans; [apply next_reaches|]. apply IH.
Qed.

Definition done_with (p : prog unit) : bool := match p with Ret _ => true | _ => false end.
Definition next_access (p : prog unit) : bool :=
  match p with Access _ => true | _ => false end.

Lemma done_with_ret p : done_with p = true -> p = Ret ().
Proof. by destruct p as [[]|?|?|?|? ?|?|?|?]. Qed.
Lemma next_access_ok p : next_access p = true -> accesses p.
Proof. destruct p; try done. by eexists. Qed.

(** "$p1#a1" and a stray byte. *)
Definition example_input : list Z := bytes_of "$p1#a1!".
Definition example_frames (_ : nat) : gframe := example_gframe 0 0.
Definition example_threads : machine :=
  machine_start (T := x86) 1 example_frames (fun _ => []) example_input [1; 6]
    example_scanner (local_of example_scanner).

(** After five turns gdb holds the lock and reads the register. *)
Lemma threads_race_free_witness :
  exists v, rtc machine_step example_threads v /\
    accesses (t_prog (m_gdb v)) /\ m_lock v = Some GdbThread /\
    ~ accesses (t_prog (m_irq v)).
Proof.
  pose proof (turns_reach 5 example_threads) as Hr.
  assert (next_access (t_prog (m_gdb (turns 5 example_threads))) = true) as Ha
    by (vm_compute; reflexivity).
  revert Hr Ha. generalize (turns 5 example_threads). intros v Hr Ha.
  apply next_access_ok in Ha. exists v. split; [exact Hr|]. split; [exact Ha|].
  destruct (threads_race_free (T := x86) 1 example_frames (fun _ => []) example_input [1; 6]
    example_scanner (local_of example_scanner) v GdbThread Hr) as [Hl Hn].
  split; [apply Hl; left; exact Ha|]. apply (Hn Ha IrqThread). discriminate.
Defined.

Lemma example_inv : scan_inv (mem_size (mem (g_arm example_gdb))) example_scanner.
Proof.
  split; [|reflexivity|split; [discriminate|reflexivity]].
  apply gdb_inv_ready. split; [exact example_gdb_ready|reflexivity].
Qed.

(** After 22 turns both have ended and the lock is free.  With a continue
    command that would need two turns of its loop and gets one, gdb's thread has
    the lock after 30, and the irq thread waits. *)
Definition endless_threads : machine :=
  machine_start (T := x86) 1 example_frames (fun _ => []) (bytes_of "$c#63") [1; 6]
    example_scanner (local_of example_scanner).
Definition halted (p : prog unit) : bool := match p with Halt _ => true | _ => false end.

Lemma threads_progress_witness :
  (exists v, rtc machine_step example_threads v /\ finished v /\ m_lock v = None) /\
  exists v, rtc machine_step endless_threads v /\ m_lock v = Some GdbThread /\
    gdb_stuck v /\
    forall v', rtc (calls_of IrqThread) v v' -> m_sim v' = m_sim v.
Proof.
  split.
  - pose proof (turns_reach 22 example_threads) as Hr.
    assert (done_with (t_prog (m_gdb (turns 22 example_threads))) &&
      done_with (t_prog (m_irq (turns 22 example_threads))) = true) as Ha
      by (vm_compute; reflexivity).
    revert Hr Ha. generalize (turns 22 example_threads). intros v Hr Ha.
    apply andb_prop in Ha as [Hg Hi]. apply done_with_ret in Hg, Hi.
    assert (finished v) as Hf by (intros []; [exact Hg|exact Hi]).
    exists v. split; [exact Hr|]. split; [exact Hf|].
    destruct (threads_progress (T := x86) _ 1 example_frames (fun _ => []) example_input [1; 6]
      example_scanner (local_of example_scanner) v example_inv Hr)
      as (_ & _ & [[v' Hs]|[[f H]|[_ Hl]]] & _); [| |exact Hl].
    + exfalso. destruct Hs as [s h k i h' k' s' H|s h k i h' k' s' H]; cbn in Hg, Hi;
        [destruct H; discriminate Hg|destruct H; discriminate Hi].
    + exfalso. revert Hg. destruct H; discriminate.
  - pose proof (turns_reach 30 endless_threads) as Hr.
    assert ((halted (t_prog (m_gdb (turns 30 endless_threads))),
      m_lock (turns 30 endless_threads)) = (true, Some GdbThread)) as Ha
      by (vm_compute; reflexivity).
    revert Hr Ha. generalize (turns 30 endless_threads). intros v Hr Ha.
    injection Ha as Hh Hl. exists v. split; [exact Hr|]. split; [exact Hl|].
    split; [destruct (m_gdb v) as [[] l] eqn:E; try discriminate Hh; eexists; rewrite E;
            constructor|].
    intros v' Hr'.
    destruct (threads_progress (T := x86) _ 1 example_frames (fun _ => []) (bytes_of "$c#63")
      [1; 6] example_scanner (local_of example_scanner) v example_inv Hr)
      as (_ & _ & _ & _ & _ & Hwait).
    apply (Hwait Hl v' Hr').
Defined.

Lemma threads_serializable_witness :
  exists v h s, rtc machine_step example_threads v /\
    merges (token_activities example_frames (fun _ => []) 0
      (tokens (length example_input) example_input)) (IrqByte <$> [1; 6]) h /\
    activities (T := x86) 1 h example_scanner = Ok () s /\
    l_out (t_local (m_gdb v)) = bytes_of "+$0000000a#b1-".
Proof.
  pose proof (turns_reach 22 example_threads) as Hr.
  assert ((done_with (t_prog (m_gdb (turns 22 example_threads))),
    done_with (t_prog (m_irq (turns 22 example_threads))),
    l_out (t_local (m_gdb (turns 22 example_threads)))) =
    (true, true, bytes_of "+$0000000a#b1-")) as Ha
    by (vm_compute; reflexivity).
  revert Hr Ha. generalize (turns 22 example_threads). intros v Hr Ha.
  injection Ha as Hg Hi Ho. apply done_with_ret in Hg, Hi.
  destruct (threads_serializable (T := x86) 1 example_frames (fun _ => []) example_input [1; 6]
    example_scanner (local_of example_scanner) v Hr Hg) as (bs1 & bs2 & h & s & Eb & Hat & Hm &
      E & _).
  assert (bs2 = []) as ->.
  { rewrite Hi in Hat. by inversion Hat as [[|b bs] E1| | |]. }
  rewrite app_nil_r in Eb. subst bs1. exists v, h, s.
  split; [exact Hr|]. split; [exact Hm|]. split; [exact E|exact Ho].
Defined.

(** From [main], a state inside of the handler. *)
Lemma threads_invariant_witness :
  exists v, rtc machine_step (machine_start (T := x86) 1 example_frames (fun _ => [])
      example_input [1; 6] example_start (local_of example_start)) v /\
    m_lock v = Some GdbThread /\
    gdb_ready (sc_gdb (join (m_sim v) (t_local (m_gdb v)))).
Proof.
  pose (v0 := machine_start (T := x86) 1 example_frames (fun _ => [])
      example_input [1; 6] example_start (local_of example_start)).
  pose proof (turns_reach 6 v0) as Hr.
  assert (m_lock (turns 6 v0) = Some GdbThread) as Ha by (vm_compute; reflexivity).
  revert Hr Ha. generalize (turns 6 v0). intros v Hr Ha.
  exists v. split; [exact Hr|]. split; [exact Ha|].
  apply (threads_invariant (T := x86) (H := always 1) "arm_simulator" example_options
    (zeros 0x20000) 7 (regs_example 0) (example_core 0 0 []) main_world example_world
    (zeros 1024) (zeros 1024) 1 example_frames (fun _ => []) example_input [1; 6]
    (local_of example_start) v).
  - apply length_replicate.
  - apply zeros_bytes.
  - apply regs_example_wf. apply u32_0.
  - reflexivity.
  - reflexivity.
  - apply length_replicate.
  - apply length_replicate.
  - exact Hr.
Defined.
