(* ===== verification/Rio.v ===== *)
(** * csapp.c: robust I/O

    The loops that go on where read and write stop short.  They are given fuel,
    since a signal may interrupt a call any number of times; a computation that
    used it up is [Stuck Running].  A function that fills a buffer returns the
    bytes it stores from the start of the buffer on.

    [rio_t] is the C struct; its [rio_bufptr] is an index of [rio_buf]. *)
From S2P Require Import Prelude Util Sys Csapp.

Definition RIO_BUFSIZE : Z := 8192.

Record rio_t := {
  rio_fd : Z;
  rio_cnt : Z;
  rio_bufptr : Z;
  rio_buf : list Z
}.

Section Rio.
Context {K A : Type} `{Kernel K}.
Abbreviation M := (Sys (world K A)).

(** [bs] is what is stored so far. *)
Fixpoint readn_loop (fuel : nat) (fd nleft : Z) (bs : list Z)
    : M (option Z * list Z) :=
  match fuel with
  | O => stuck Running
  | Datatypes.S fuel =>
      if 0 <? nleft then
        r ← call "read" [Int fd; Int nleft];
        if rv r <? 0 then
          e ← get_errno;
          if e =? EINTR then readn_loop fuel fd nleft bs else mret (None, bs)
        else if rv r =? 0 then mret (Some nleft, bs)
        else readn_loop fuel fd (nleft - rv r) (bs ++ r_data r)
      else mret (Some nleft, bs)
  end.

Definition rio_readn (fuel : nat) (fd n : Z) : M (Z * list Z) :=
  '(nleft, bs) ← readn_loop fuel fd n [];
  mret (match nleft with Some nleft => n - nleft | None => -1 end, bs).

(** [usrbuf] is what is left to write. *)
Fixpoint writen_loop (fuel : nat) (fd : Z) (usrbuf : list Z) : M bool :=
  match fuel with
  | O => stuck Running
  | Datatypes.S fuel =>
      if 0 <? Z.of_nat (length usrbuf) then
        r ← call "write" [Int fd; Bytes usrbuf];
        if rv r <=? 0 then
          e ← get_errno;
          if e =? EINTR then writen_loop fuel fd usrbuf else mret false
        else writen_loop fuel fd (drop (Z.to_nat (rv r)) usrbuf)
      else mret true
  end.

Definition rio_writen (fuel : nat) (fd : Z) (usrbuf : list Z) : M Z :=
  ok ← writen_loop fuel fd usrbuf;
  mret (if ok : bool then Z.of_nat (length usrbuf) else -1).

(** The refill of the internal buffer. *)
Fixpoint rio_refill (fuel : nat) (rp : rio_t) : M (Z * rio_t) :=
  match fuel with
  | O => stuck Running
  | Datatypes.S fuel =>
      if rio_cnt rp <=? 0 then
        r ← call "read" [Int (rio_fd rp); Int RIO_BUFSIZE];
        let buf := r_data r ++ drop (length (r_data r)) (rio_buf rp) in
        let rp := {| rio_fd := rio_fd rp; rio_cnt := rv r;
                     rio_bufptr := rio_bufptr rp; rio_buf := buf |} in
        if rv r <? 0 then
          e ← get_errno;
          if negb (e =? EINTR) then mret (-1, rp) else rio_refill fuel rp
        else if rv r =? 0 then mret (0, rp)
        else rio_refill fuel {| rio_fd := rio_fd rp; rio_cnt := rv r; rio_bufptr := 0;
                                rio_buf := buf |}
      else mret (1, rp)
  end.

(** memcpy from a block: a copy that leaves it has no result. *)
Definition block_read (b : list Z) (i n : Z) : option (list Z) :=
  if (0 <=? i) && (0 <=? n) && (i + n <=? Z.of_nat (length b))
  then Some (take (Z.to_nat n) (drop (Z.to_nat i) b)) else None.

(** The count, the bytes copied and the new state of the buffer.  [cnt] is an
    int, and the test compares it with the size_t [n]. *)
Definition rio_read (fuel : nat) (rp : rio_t) (n : Z) : M (Z * list Z * rio_t) :=
  '(st, rp) ← rio_refill fuel rp;
  if st <=? 0 then mret (st, [], rp)
  else
    let cnt := if u64 (rio_cnt rp) <? n then rio_cnt rp else s32 n in
    bs ← of_option (block_read (rio_buf rp) (rio_bufptr rp) cnt);
    mret (cnt, bs, {| rio_fd := rio_fd rp; rio_cnt := rio_cnt rp - cnt;
                      rio_bufptr := rio_bufptr rp + cnt; rio_buf := rio_buf rp |}).

(** [buf] is the content of the new buffer. *)
Definition rio_readinitb (fd : Z) (buf : list Z) : rio_t :=
  {| rio_fd := fd; rio_cnt := 0; rio_bufptr := 0; rio_buf := buf |}.

Fixpoint readnb_loop (fuel : nat) (rp : rio_t) (nleft : Z) (bs : list Z)
    : M (option Z * list Z * rio_t) :=
  match fuel with
  | O => stuck Running
  | Datatypes.S fuel' =>
      if 0 <? nleft then
        '(nread, cs, rp) ← rio_read fuel rp nleft;
        if nread <? 0 then
          e ← get_errno;
          if e =? EINTR then readnb_loop fuel' rp nleft bs else mret (None, bs, rp)
        else if nread =? 0 then mret (Some nleft, bs, rp)
        else readnb_loop fuel' rp (nleft - nread) (bs ++ cs)
      else mret (Some nleft, bs, rp)
  end.

Definition rio_readnb (fuel : nat) (rp : rio_t) (n : Z) : M (Z * list Z * rio_t) :=
  '(nleft, bs, rp) ← readnb_loop fuel rp n [];
  mret (match nleft with Some nleft => n - nleft | None => -1 end, bs, rp).

(** The loop of [rio_readlineb] at [n], an int that is compared with a size_t:
    the value the function returns and the bytes it stores. *)
Fixpoint readline_loop (fuel : nat) (rp : rio_t) (n maxlen : Z) (bs : list Z)
    : M (Z * list Z * rio_t) :=
  match fuel with
  | O => stuck Running
  | Datatypes.S fuel' =>
      if u64 n <? maxlen then
        '(rc, cs, rp) ← rio_read fuel rp 1;
        if rc =? 1 then
          c ← of_option (buf_get cs 0);
          if c =? 10 then mret (n, bs ++ [c; 0], rp)
          else readline_loop fuel' rp (s32 (n + 1)) maxlen (bs ++ [c])
        else if rc =? 0 then
          if n =? 1 then mret (0, bs, rp) else mret (n, bs ++ [0], rp)
        else mret (-1, bs, rp)
      else mret (n, bs ++ [0], rp)
  end.

Definition rio_readlineb (fuel : nat) (rp : rio_t) (maxlen : Z)
    : M (Z * list Z * rio_t) := readline_loop fuel rp 1 maxlen [].

(** ** The wrappers *)

Definition Rio_readn (fuel : nat) (fd nbytes : Z) : M (Z * list Z) :=
  '(n, bs) ← rio_readn fuel fd nbytes;
  if n <? 0 then unix_error "Rio_readn error" else mret (n, bs).
Definition Rio_writen (fuel : nat) (fd : Z) (usrbuf : list Z) : M unit :=
  rc ← rio_writen fuel fd usrbuf;
  if rc =? Z.of_nat (length usrbuf) then mret () else unix_error "Rio_writen error".
Definition Rio_readinitb (fd : Z) (buf : list Z) : rio_t := rio_readinitb fd buf.
Definition Rio_readnb (fuel : nat) (rp : rio_t) (n : Z) : M (Z * list Z * rio_t) :=
  '(rc, bs, rp) ← rio_readnb fuel rp n;
  if rc <? 0 then unix_error "Rio_readnb error" else mret (rc, bs, rp).
Definition Rio_readlineb (fuel : nat) (rp : rio_t) (maxlen : Z)
    : M (Z * list Z * rio_t) :=
  '(rc, bs, rp) ← rio_readlineb fuel rp maxlen;
  if rc <? 0 then unix_error "Rio_readlineb error" else mret (rc, bs, rp).
End Rio.
