(* ===== verification/Socket.v ===== *)
(** * The gdb connection on a socket

    The code of gdb_protocol.c and of scanner.l, which Gdb.v and Scanner.v state
    for any connection, on the one the server has: [Rio_writen] of csapp.c on a
    descriptor, shutdown and the lock as system calls, the debug messages on the
    standard error, the simulator and the struct in the data of the process.
    [gdb_scanner] is the function of scanner.l that runs it. *)
From S2P Require Import Prelude Util Debug Constants Memory Registers Trace.
From S2P Require Import Core.
From S2P Require Import LoadStore Branch Instruction Gdb Scanner Messages.
From S2P Require Import Sys Csapp Rio.

(** The part of the data of the process that belongs to gdb_protocol.c. *)
Definition set_gdb (g : gdbs) (s : scanner) : scanner :=
  {| sc_gdb := g; sc_data := sc_data s; sc_echo := sc_echo s |}.

Section Socket.
Context {K : Type} `{Kernel K}.
Abbreviation SysGdb := (Sys (world K gdbs)).
Abbreviation SysScan := (Sys (world K scanner)).

Definition pthread_mutex_lock {A} : Sys (world K A) unit :=
  bare_call "pthread_mutex_lock" [];; mret ().
Definition pthread_mutex_unlock {A} : Sys (world K A) unit :=
  bare_call "pthread_mutex_unlock" [];; mret ().

(** [files] is the table of debug.c, [fd] the descriptor of the struct and
    [signals] how often a write may be interrupted. *)
#[local] Instance socket_connection (files : debug_data) (signals : nat) (fd : Z)
    : Connection SysGdb := {
  on_sim := fun A m => on_app (gdb_sim m);
  get_data := on_app get_data;
  put_data := fun d => on_app (put_data d);
  Gdb.Rio_writen := fun bs => Rio.Rio_writen (length bs + signals) fd bs;
  shutdown := bare_call "shutdown" [Int fd; Int SHUT_WR];; mret ();
  mutex_lock := pthread_mutex_lock;
  mutex_unlock := pthread_mutex_unlock;
  message := fun file => print_message files (file_name file)
}.

#[local] Instance socket_lexer : Lexer SysGdb SysScan := {
  on_gdb := fun A m => focus sc_gdb set_gdb m;
  get_parser := on_app get_parser;
  put_parser := fun b n => on_app (put_parser b n);
  echo := fun c => on_app (echo c)
}.

Context `{T : Target}.

(** [block] and [buf] are what malloc and the stack hold; [input] is what
    arrives on [input_fd], up to its end. *)
Definition gdb_scanner (files : debug_data) (fuel signals : nat) (frs : nat -> gframe)
    (after : nat -> list Z) (block buf : list Z) (input_fd output_fd : Z)
    (input : list Z) : SysScan unit :=
  on_app (fun s => Ok () (gdb_scanner_init (g_sim (sc_gdb s)) block buf));;
  f ← call "fdopen" [Int input_fd; Str "r"];
  if rv f =? 0 then perror "Cannot open input stream from gdb"
  else yylex (Connection0 := socket_connection files signals output_fd)
             (Lexer0 := socket_lexer) fuel frs after input.
End Socket.
