(* ===== verification/Net.v ===== *)
(** * Connections: csapp.c, arm_simulator.c and send_irq.c

    The helpers of csapp.c that open connections, the sockets and the two
    listeners of arm_simulator.c, and the program send_irq.  The data of the
    simulator's process, [w_app], is the connection of Scanner.v, whose
    simulator both threads share. *)
From S2P Require Import Prelude Util Debug Constants Memory Registers Trace.
From S2P Require Import Core.
From S2P Require Import LoadStore Branch Instruction Gdb Scanner Server Sys.
From S2P Require Import Csapp Socket.

(** ** Byte order of the network *)

Section Orders.
Context `{T : Target}.

Definition swap_16 (x : Z) : Z := Z.lor (Z.shiftl (x mod 2 ^ 8) 8) (Z.shiftr x 8).
Definition htons (x : Z) : Z := if host_big_endian then u16 x else swap_16 (u16 x).
Definition ntohs (x : Z) : Z := htons x.
Definition swap_32 (x : Z) : Z :=
  Z.lor (Z.shiftl (swap_16 (x mod 2 ^ 16)) 16) (swap_16 (Z.shiftr x 16)).
Definition htonl (x : Z) : Z := if host_big_endian then u32 x else swap_32 (u32 x).
End Orders.

(** An IPv4 address: family, port and host, in network order. *)
Definition sockaddr_in (port : Z) (host : arg) : list arg :=
  [Int AF_INET; Int port; host].

Section Helpers.
Context `{T : Target} {K A : Type} `{Kernel K}.
Abbreviation M := (Sys (world K A)).

(** ** csapp.c: client and server *)

Definition open_clientfd (hostname : string) (port : Z) : M Z :=
  fd ← call "socket" [Int AF_INET; Int SOCK_STREAM; Int 0];
  if rv fd <? 0 then mret (-1)
  else
    hp ← call "gethostbyname" [Str hostname];
    if rv hp =? 0 then mret (-2)
    else
      r ← call "connect" (Int (rv fd) :: sockaddr_in (htons port) (Bytes (r_data hp))
                            ++ [Int SIZE_SOCKADDR_IN]);
      mret (if rv r <? 0 then -1 else rv fd).

Definition open_listenfd (port : Z) : M Z :=
  fd ← call "socket" [Int AF_INET; Int SOCK_STREAM; Int 0];
  if rv fd <? 0 then mret (-1)
  else
    r ← call "setsockopt" [Int (rv fd); Int SOL_SOCKET; Int SO_REUSEADDR; Int 1; Int 4];
    if rv r <? 0 then mret (-1)
    else
      r ← call "bind" (Int (rv fd) :: sockaddr_in (htons (u16 port)) (Int (htonl INADDR_ANY))
                         ++ [Int SIZE_SOCKADDR_IN]);
      if rv r <? 0 then mret (-1)
      else
        r ← call "listen" [Int (rv fd); Int LISTENQ];
        mret (if rv r <? 0 then -1 else rv fd).

Definition Open_clientfd (hostname : string) (port : Z) : M Z :=
  rc ← open_clientfd hostname port;
  if rc <? 0 then
    if rc =? -1 then unix_error "Open_clientfd Unix error"
    else dns_error "Open_clientfd DNS error"
  else mret rc.
Definition Open_listenfd (port : Z) : M Z :=
  rc ← open_listenfd port;
  if rc <? 0 then unix_error "Open_listenfd error" else mret rc.

(** ** arm_simulator.c: create_server *)

Record server_data := { socket : Z; port : Z }.

(** getsockname replaces the address; [sin_port] reads its port from the bytes
    it stores: bytes 2 and 3 of the address, as a uint16_t of the host. *)
Definition sin_port (port : Z) (addr : list Z) : Z :=
  match addr with
  | _ :: _ :: a :: b :: _ =>
      if host_big_endian then u8 a * 256 + u8 b else u8 b * 256 + u8 a
  | _ => port
  end.

Definition create_server (port : Z) : M server_data :=
  s ← Socket AF_INET SOCK_STREAM 0;
  Setsockopt s SOL_SOCKET SO_REUSEADDR 1 4;;
  Bind s (sockaddr_in (htons port) (Int (htonl INADDR_ANY))) SIZE_SOCKADDR_IN;;
  r ← call "getsockname" [Int s];
  let result := {| socket := s; port := ntohs (sin_port (htons port) (r_data r)) |} in
  Listen s 1;;
  mret result.
End Helpers.

(** ** arm_simulator.c: the listeners *)

Section Listeners.
Context `{T : Target} {K : Type} `{Kernel K}.
Abbreviation M := (Sys (world K scanner)).

(** [gdb_scanner] reads the connection to its end; [input] is what arrives. *)
Definition gdb_listener (files : debug_data) (fuel signals : nat) (frs : nat -> gframe)
    (after : nat -> list Z) (block buf : list Z) (gdb_port : Z) (input : list Z)
    : M unit :=
  server ← create_server gdb_port;
  eprint ("Listening to gdb connection on port " +:+ fmt_d (port server) +:+ newline);;
  connection ← Accept (socket server);
  gdb_scanner files fuel signals frs after block buf connection connection input;;
  bare_call "shutdown" [Int connection; Int SHUT_RDWR];;
  bare_call "close" [Int (socket server)];;
  mret ().

(** The loop on one connection: a byte is a number of an exception.  A read
    that stores nothing but returns a count has no result. *)
Fixpoint irq_connection (fuel : nat) (connection : Z) : M unit :=
  match fuel with
  | O => stuck Running
  | Datatypes.S fuel =>
      '(n, bs) ← Read connection 1;
      if 0 <? n then
        irq ← (match bs with b :: _ => mret b | [] => stuck OutOfBounds end);
        pthread_mutex_lock;;
        on_app (interrupt irq);;
        pthread_mutex_unlock;;
        irq_connection fuel connection
      else mret ()
  end.

Fixpoint irq_accept (fuel : nat) (server : server_data) : M unit :=
  match fuel with
  | O => stuck Running
  | Datatypes.S fuel =>
      connection ← Accept (socket server);
      irq_connection fuel connection;;
      bare_call "shutdown" [Int connection; Int SHUT_RDWR];;
      irq_accept fuel server
  end.

Definition irq_listener (fuel : nat) (irq_port : Z) : M unit :=
  server ← create_server irq_port;
  eprint ("Listening to irq connections on port " +:+ fmt_d (port server) +:+ newline);;
  irq_accept fuel server.
End Listeners.

(** ** send_irq.c *)

Section SendIrq.
Context `{T : Target} {K A : Type} `{Kernel K}.
Abbreviation M := (Sys (world K A)).

Definition exception_name (irq : Z) : M (option string) :=
  match arm_get_exception_name irq with
  | Some o => mret o
  | None => stuck OutOfBounds
  end.

(** The names in the usage text, from [irq] on. *)
Fixpoint print_names (fuel : nat) (irq : Z) : M unit :=
  match fuel with
  | O => stuck Running
  | Datatypes.S fuel =>
      o ← exception_name irq;
      match o with
      | None => mret ()
      | Some name =>
          eprint name;;
          (if irq =? INTERRUPT
           then eprint (String (Ascii.ascii_of_nat 9) (String (Ascii.ascii_of_nat 9)
                          "(default)"))
           else mret ());;
          eprint newline;;
          print_names fuel (u8 (irq + 1))
      end
  end.

(** The search of a name, from [irq] on: the number it stops at and its name. *)
Fixpoint search_name (fuel : nat) (name : string) (irq : Z) : M (Z * option string) :=
  match fuel with
  | O => stuck Running
  | Datatypes.S fuel =>
      o ← exception_name irq;
      match o with
      | Some n => if bool_decide (n = name) then mret (irq, o)
                  else search_name fuel name (u8 (irq + 1))
      | None => mret (irq, None)
      end
  end.

Definition usage_text (prog : string) : string :=
  "Usage :" +:+ prog +:+ " host port [ IRQ name ]" +:+ newline +:+ newline +:+
  "Sends an IRQ signal to the ARM simulator executing on the given host using the given port."
  +:+ newline +:+ "The IRQ name is one of :" +:+ newline.

(** What [main] does once it has the number. *)
Definition send_irq_to (host port : string) (irq : Z) : M unit :=
  sock ← Socket AF_INET SOCK_STREAM 0;
  Setsockopt sock SOL_SOCKET SO_REUSEADDR 1 4;;
  '(_, addr) ← Gethostbyname host;
  Connect sock (sockaddr_in (htons (atoi (bytes_of port))) (Bytes addr)) SIZE_SOCKADDR_IN;;
  Write sock [u8 irq];;
  bare_call "shutdown" [Int sock; Int SHUT_RDWR];;
  bare_call "close" [Int sock];;
  mret ().

(** There are eight numbers of exceptions: nine turns end both loops. *)
Definition send_irq_main (argv : list string) : M unit :=
  match argv with
  | prog :: host :: port :: rest =>
      irq ← (match rest with
             | [] => mret INTERRUPT
             | name :: _ =>
                 '(irq, o) ← search_name 9 name RESET;
                 match o with
                 | Some _ => mret irq
                 | None => eprint ("Unknown irq : " +:+ name +:+ newline);; exit 2
                 end
             end);
      send_irq_to host port irq
  | _ =>
      eprint (usage_text (hd EmptyString argv));;
      print_names 9 RESET;;
      exit 1
  end.
End SendIrq.
