(* ===== verification/RioSpec.v ===== *)
(** * What the robust I/O promises

    [Input fd] and [Output fd] state what POSIX documents of read and write on a
    descriptor: a read delivers a non-empty prefix of what is unread, or
    reports the end, or fails; a write takes a non-empty prefix of its bytes, or
    fails; a call may be interrupted by a signal, finitely often; the other
    calls read and write nothing.
    From these the loops of Rio.v deliver everything and end, with explicit fuel. *)
From S2P Require Import Prelude Util Sys Csapp Rio.

Definition read_call (fd n : Z) : syscall :=
  {| sys_name := "read"; sys_args := [Int fd; Int n] |}.
Definition write_call (fd : Z) (bs : list Z) : syscall :=
  {| sys_name := "write"; sys_args := [Int fd; Bytes bs] |}.

Class Input (K : Type) `{Kernel K} (fd : Z) := {
  unread : K -> list Z;
  read_patience : K -> nat;
  read_law n k : 0 < n ->
    let '(r, k') := kernel_call (read_call fd n) k in
    (exists m : nat, rv r = Z.of_nat m /\ (0 < m)%nat /\ rv r <= n /\
       (m <= length (unread k))%nat /\ r_data r = take m (unread k) /\
       unread k' = drop m (unread k) /\ (read_patience k' <= read_patience k)%nat) \/
    (rv r = 0 /\ unread k = [] /\ r_data r = [] /\ unread k' = [] /\
       (read_patience k' <= read_patience k)%nat) \/
    (rv r < 0 /\ r_data r = [] /\ unread k' = unread k /\
       (read_patience k' <= read_patience k)%nat /\
       (r_errno r = EINTR -> (read_patience k' < read_patience k)%nat));
  read_only c k : sys_name c <> "read"%string ->
    let '(_, k') := kernel_call c k in
    unread k' = unread k /\ (read_patience k' <= read_patience k)%nat
}.

Class Output (K : Type) `{Kernel K} (fd : Z) := {
  written : K -> list Z;
  write_patience : K -> nat;
  write_law bs k : bs <> [] ->
    let '(r, k') := kernel_call (write_call fd bs) k in
    (exists m : nat, rv r = Z.of_nat m /\ (0 < m <= length bs)%nat /\
       written k' = written k ++ take m bs /\
       (write_patience k' <= write_patience k)%nat) \/
    (rv r <= 0 /\ written k' = written k /\
       (write_patience k' <= write_patience k)%nat /\
       (r_errno r = EINTR -> (write_patience k' < write_patience k)%nat));
  write_only c k : sys_name c <> "write"%string ->
    let '(_, k') := kernel_call c k in
    written k' = written k /\ (write_patience k' <= write_patience k)%nat
}.

Section Laws.
Context {K A : Type} `{Kernel K}.
Abbreviation W := (world K A).

(** The process made some calls: same data, nothing printed. *)
Definition silent (w w' : W) : Prop :=
  w_app w' = w_app w /\ w_stderr w' = w_stderr w /\ exists cs, ran cs w w'.
#[export] Instance silent_preorder : PreOrder silent.
Proof.
  split.
  - intros w. split_and!; [done..|]. exists []. by apply ran_same.
  - intros w1 w2 w3 (E1 & E2 & cs1 & R1) (E3 & E4 & cs2 & R2).
    split_and!; [congruence..|]. exists (cs1 ++ cs2). by eapply ran_trans.
Qed.

Lemma silent_called c r k (w : W) :
  kernel_call c (w_kernel w) = (r, k) -> silent w (called c r k w).
Proof. intros E. split_and!; [done..|]. exists [c]. by apply ran_called. Qed.

(** The last call is a read, or a write, that failed, and not by a signal. *)
Definition failure (r : reply) : Prop := rv r < 0 /\ r_errno r <> EINTR.
Definition failed_read (fd : Z) (w w' : W) : Prop :=
  ended_by (read_call fd RIO_BUFSIZE) failure w w'.
Definition refusal (r : reply) : Prop := rv r <= 0 /\ r_errno r <> EINTR.
Definition failed_write (fd : Z) (w w' : W) : Prop :=
  exists bs, ended_by (write_call fd bs) refusal w w'.

Lemma failed_read_after fd w1 w2 w3 :
  silent w1 w2 -> failed_read fd w2 w3 -> failed_read fd w1 w3.
Proof. intros (_ & _ & cs & R) Hf. by eapply ended_by_after. Qed.
Lemma failed_write_after fd cs w1 w2 w3 :
  ran cs w1 w2 -> failed_write fd w2 w3 -> failed_write fd w1 w3.
Proof. intros R (bs & Hf). exists bs. by eapply ended_by_after. Qed.

Section Reading.
Context (fd : Z) `{!Input K fd}.

(** One read, as the loops make it. *)
Lemma read_once n (w : W) :
  0 < n ->
  exists r w', call "read" [Int fd; Int n] w = Done r w' /\ silent w w' /\
    w_errno w' = r_errno r /\
    (forall bad : reply -> Prop, bad r -> ended_by (read_call fd n) bad w w') /\
    ((exists m : nat, rv r = Z.of_nat m /\ (0 < m)%nat /\ rv r <= n /\
        (m <= length (unread (w_kernel w)))%nat /\
        r_data r = take m (unread (w_kernel w)) /\
        unread (w_kernel w') = drop m (unread (w_kernel w)) /\
        (read_patience (w_kernel w') <= read_patience (w_kernel w))%nat) \/
     (rv r = 0 /\ unread (w_kernel w) = [] /\ r_data r = [] /\
        unread (w_kernel w') = [] /\
        (read_patience (w_kernel w') <= read_patience (w_kernel w))%nat) \/
     (rv r < 0 /\ r_data r = [] /\ unread (w_kernel w') = unread (w_kernel w) /\
        (read_patience (w_kernel w') <= read_patience (w_kernel w))%nat /\
        (r_errno r = EINTR ->
         (read_patience (w_kernel w') < read_patience (w_kernel w))%nat))).
Proof.
  intros Hn. pose proof (read_law n (w_kernel w) Hn) as L. unfold call.
  fold (read_call fd n).
  destruct (kernel_call (read_call fd n) (w_kernel w)) as [r k] eqn:Ek.
  eexists r, _. split; [done|]. split; [by apply silent_called|]. split; [done|].
  split; [intros bad; by apply ended_by_called|done].
Qed.

(** ** rio_readn *)

Lemma readn_loop_spec fuel : forall nleft bs (w : W),
  0 <= nleft ->
  (Z.to_nat nleft + read_patience (w_kernel w) < fuel)%nat ->
  exists o m w', readn_loop fuel fd nleft bs w =
      Done (o, bs ++ take m (unread (w_kernel w))) w' /\ silent w w' /\
    unread (w_kernel w') = drop m (unread (w_kernel w)) /\
    match o with
    | Some rest => m = Z.to_nat nleft /\
        rest = nleft - Z.of_nat (m `min` length (unread (w_kernel w)))
    | None => (m < Z.to_nat nleft)%nat /\ w_errno w' <> EINTR
    end.
Proof.
  induction fuel as [|fuel IH]; intros nleft bs w Hn Hf; [lia|]. cbn [readn_loop].
  destruct (Z.ltb_spec 0 nleft) as [Hpos|Hz].
  2:{ assert (nleft = 0) as -> by lia. exists (Some 0), 0%nat, w.
      rewrite take_0, app_nil_r. by split_and!. }
  destruct (read_once nleft w Hpos) as (r & w1 & E & Hs & He & _ & Hcases).
  rewrite (sys_done _ _ _ _ _ E).
  destruct Hcases as [(m & Hrv & Hm & Hle & Hlen & Hd & Hu & Hp)
                     |[(Hrv & Hu0 & _ & Hu & Hp)|(Hrv & _ & Hu & _ & Hp)]].
  - destruct (Z.ltb_spec (rv r) 0); [lia|]. destruct (Z.eqb_spec (rv r) 0); [lia|].
    destruct (IH (nleft - rv r) (bs ++ r_data r) w1) as (o & m2 & w2 & E2 & Hs2 & Hu2 & Ho);
      [lia..|].
    exists o, (m + m2)%nat, w2. rewrite E2, Hu, Hd.
    split; [by rewrite <- app_assoc, take_take_drop|].
    split; [by transitivity w1|]. split; [by rewrite Hu2, Hu, drop_drop|].
    rewrite Hu, length_drop in Ho. destruct o; [|destruct Ho; split; [lia|done]].
    destruct Ho as [-> ->]. split; lia.
  - destruct (Z.ltb_spec (rv r) 0); [lia|]. rewrite Hrv. cbn [Z.eqb].
    exists (Some nleft), (Z.to_nat nleft), w1. rewrite Hu0, Hu, take_nil, drop_nil, app_nil_r.
    split_and!; try done. simpl. lia.
  - destruct (Z.ltb_spec (rv r) 0); [|lia].
    rewrite (sys_done _ _ w1 (w_errno w1) w1) by done. rewrite He in *.
    destruct (Z.eqb_spec (r_errno r) EINTR) as [Hi|Hi].
    + specialize (Hp Hi).
      destruct (IH nleft bs w1) as (o & m2 & w2 & E2 & Hs2 & Hu2 & Ho); [lia..|].
      rewrite Hu in *. exists o, m2, w2. split_and!; try done. by transitivity w1.
    + exists None, 0%nat, w1. rewrite take_0, app_nil_r, Hu.
      split_and!; try done; [lia|]. by rewrite He.
Qed.

(** ** The internal buffer *)

(** The bytes of the buffer that are not read, and all that is to come. *)
Definition buffered (rp : rio_t) : list Z :=
  if rio_cnt rp <=? 0 then []
  else take (Z.to_nat (rio_cnt rp)) (drop (Z.to_nat (rio_bufptr rp)) (rio_buf rp)).
Definition pending (rp : rio_t) (w : W) : list Z := buffered rp ++ unread (w_kernel w).

Record rio_wf (rp : rio_t) : Prop := {
  rio_wf_fd : rio_fd rp = fd;
  rio_wf_buf : length (rio_buf rp) = Z.to_nat RIO_BUFSIZE;
  rio_wf_ptr : 0 <= rio_bufptr rp;
  rio_wf_cnt : rio_bufptr rp + Z.max 0 (rio_cnt rp) <= RIO_BUFSIZE
}.

Lemma rio_init_wf buf : length buf = Z.to_nat RIO_BUFSIZE -> rio_wf (rio_readinitb fd buf).
Proof. intros Hb. by split. Qed.
Lemma rio_init_pending buf (w : W) :
  pending (rio_readinitb fd buf) w = unread (w_kernel w).
Proof. done. Qed.

Lemma refill_spec fuel : forall rp (w : W),
  rio_wf rp -> (read_patience (w_kernel w) + 1 < fuel)%nat ->
  exists st rp' w', rio_refill fuel rp w = Done (st, rp') w' /\ silent w w' /\
    rio_wf rp' /\ pending rp' w' = pending rp w /\
    (read_patience (w_kernel w') <= read_patience (w_kernel w))%nat /\
    ((st = 1 /\ 0 < rio_cnt rp') \/ (st = 0 /\ pending rp w = []) \/
     (st = -1 /\ w_errno w' <> EINTR /\ failed_read fd w w')).
Proof.
  induction fuel as [|fuel IH]; intros rp w Hw Hf; [lia|]. cbn [rio_refill].
  destruct (Z.leb_spec (rio_cnt rp) 0) as [Hc|Hc].
  2:{ exists 1, rp, w. split_and!; try done; auto. }
  assert (buffered rp = []) as Hempty
    by (unfold buffered; by rewrite (proj2 (Z.leb_le _ _) Hc)).
  unfold pending at 2 3. rewrite Hempty. cbn [app].
  destruct Hw as [Hfd Hb Hp Hcnt]. rewrite Hfd.
  destruct (read_once RIO_BUFSIZE w) as (r & w1 & E & Hs & He & Hbad & Hcases); [done|].
  rewrite (sys_done _ _ _ _ _ E). cbv zeta.
  destruct Hcases as [(m & Hrv & Hm & Hle & Hlen & Hd & Hu & Hp1)
                     |[(Hrv & Hu0 & Hd & Hu & Hp1)|(Hrv & Hd & Hu & Hp0 & Hp1)]].
  - destruct (Z.ltb_spec (rv r) 0); [lia|]. destruct (Z.eqb_spec (rv r) 0); [lia|].
    assert (length (r_data r) = m) as Hdl by (rewrite Hd, length_take; lia).
    set (rp1 := {| rio_fd := _; rio_cnt := rv r; rio_bufptr := 0; rio_buf := _ |}).
    assert (rio_wf rp1) as Hw1.
    { unfold RIO_BUFSIZE in *.
      split; unfold RIO_BUFSIZE; simpl; [done| |lia|lia].
      rewrite length_app, length_drop. lia. }
    assert (buffered rp1 = r_data r) as Hb1.
    { unfold buffered. simpl. destruct (Z.leb_spec (rv r) 0); [lia|].
      rewrite drop_0. rewrite Hrv, Nat2Z.id, <- Hdl. by rewrite take_app_length. }
    destruct fuel as [|fuel]; [lia|]. cbn [rio_refill rio_cnt rp1].
    destruct (Z.leb_spec (rv r) 0); [lia|].
    exists 1, rp1, w1. split_and!; try done; [|left; by split; simpl; lia].
    unfold pending. by rewrite Hb1, Hd, Hu, take_drop.
  - rewrite Hrv. cbn [Z.ltb Z.compare Z.eqb]. eexists 0, _, w1.
    rewrite Hd. cbn [app length]. rewrite drop_0.
    split_and!; try done; [split; simpl; [done|done|done|lia]| |by right; left].
    by rewrite Hu0; unfold pending, buffered; simpl; rewrite Hu.
  - destruct (Z.ltb_spec (rv r) 0); [|lia].
    rewrite (sys_done _ _ w1 (w_errno w1) w1) by done. rewrite He, Hd. cbn [app length].
    rewrite drop_0. set (rp1 := {| rio_fd := _; rio_cnt := rv r; rio_bufptr := _; rio_buf := _ |}).
    assert (rio_wf rp1) as Hw1 by (split; simpl; [done|done|done|lia]).
    assert (buffered rp1 = []) as Hb1.
    { unfold buffered. simpl. by rewrite (proj2 (Z.leb_le (rv r) 0)) by lia. }
    destruct (Z.eqb_spec (r_errno r) EINTR) as [Hi|Hi]; cbn [negb].
    + specialize (Hp1 Hi).
      destruct (IH rp1 w1 Hw1) as (st & rp2 & w2 & E2 & Hs2 & Hw2 & Hp2 & Hpt & Hst);
        [lia|].
      assert (pending rp1 w1 = unread (w_kernel w)) as Epend
        by (unfold pending; by rewrite Hb1, Hu).
      rewrite Epend in *. exists st, rp2, w2.
      split_and!; try done; [by transitivity w1|lia|].
      destruct Hst as [Hst|[Hst|(H1 & H2 & H3)]]; [by left|by right; left|].
      right; right. split_and!; [done..|by eapply failed_read_after].
    + exists (-1), rp1, w1. split_and!; try done; [unfold pending; by rewrite Hb1, Hu|].
      right; right. rewrite He. split_and!; [done..|by apply Hbad].
Qed.

(** ** Reads from the buffer *)

Lemma pending_length rp (w : W) :
  0 < rio_cnt rp -> rio_wf rp -> (Z.to_nat (rio_cnt rp) <= length (pending rp w))%nat.
Proof.
  intros Hc [_ Hb Hp Hle]. unfold pending, buffered, RIO_BUFSIZE in *.
  destruct (Z.leb_spec (rio_cnt rp) 0); [lia|].
  rewrite length_app, length_take, length_drop. lia.
Qed.

(** A read of at most [n] bytes: what is delivered is the head of [pending]. *)
Lemma rio_read_spec fuel rp n (w : W) :
  rio_wf rp -> 0 < n < 2 ^ 64 -> (read_patience (w_kernel w) + 1 < fuel)%nat ->
  exists m cs rp' w', rio_read fuel rp n w = Done (m, cs, rp') w' /\ silent w w' /\
    rio_wf rp' /\ pending rp w = cs ++ pending rp' w' /\
    (read_patience (w_kernel w') <= read_patience (w_kernel w))%nat /\
    ((0 < m <= n /\ m = Z.of_nat (length cs)) \/
     (m = 0 /\ cs = [] /\ pending rp w = []) \/
     (m = -1 /\ cs = [] /\ w_errno w' <> EINTR /\ failed_read fd w w')).
Proof.
  intros Hw Hn Hf. unfold rio_read.
  destruct (refill_spec fuel rp w Hw Hf) as (st & rp1 & w1 & E & Hs & Hw1 & Hp & Hpt & Hst).
  rewrite (sys_done _ _ _ _ _ E). cbv beta iota.
  destruct Hst as [[-> Hc]|[[-> Hnil]|(-> & Herr & Hbad)]]; cbn [Z.leb Z.compare].
  2:{ exists 0, [], rp1, w1. split_and!; try done. right; left. done. }
  2:{ exists (-1), [], rp1, w1. split_and!; try done. right; right. done. }
  cbv zeta. destruct Hw1 as [Hfd Hb Hptr Hle]. unfold RIO_BUFSIZE in *.
  assert (u64 (rio_cnt rp1) = rio_cnt rp1) as Hu64 by (apply Z.mod_small; lia).
  rewrite Hu64. set (cnt := if rio_cnt rp1 <? n then rio_cnt rp1 else s32 n).
  assert (cnt = Z.min n (rio_cnt rp1)) as Hcnt.
  { unfold cnt. destruct (Z.ltb_spec (rio_cnt rp1) n); [lia|].
    rewrite Z.min_l by lia. unfold s32. rewrite u32_small by (unfold is_u32; lia).
    by rewrite (proj2 (Z.ltb_lt n (2 ^ 31))) by lia. }
  set (cs := take (Z.to_nat cnt) (drop (Z.to_nat (rio_bufptr rp1)) (rio_buf rp1))).
  assert (block_read (rio_buf rp1) (rio_bufptr rp1) cnt = Some cs) as ->.
  { unfold block_read. rewrite (proj2 (andb_true_iff _ _)); [done|].
    rewrite andb_true_iff. lia. }
  cbn [of_option]. rewrite (sys_done _ _ w1 cs w1) by done.
  assert (length cs = Z.to_nat cnt) as Hlen
    by (unfold cs; rewrite length_take, length_drop; lia).
  eexists cnt, cs, _, w1. split; [done|]. split; [done|].
  split; [split; unfold RIO_BUFSIZE; simpl; [done|done|lia|lia]|].
  split; [|split; [done|left; lia]].
  rewrite <- Hp. unfold pending, buffered. simpl.
  destruct (Z.leb_spec (rio_cnt rp1) 0); [lia|].
  destruct (Z.leb_spec (rio_cnt rp1 - cnt) 0).
  - unfold cs. by replace cnt with (rio_cnt rp1) by lia.
  - rewrite app_assoc. f_equal. unfold cs.
    replace (Z.to_nat (rio_bufptr rp1 + cnt)) with (Z.to_nat (rio_bufptr rp1) + Z.to_nat cnt)%nat
      by lia.
    rewrite <- drop_drop, take_take_drop. f_equal. lia.
Qed.

Lemma readnb_loop_spec fuel : forall rp nleft bs (w : W),
  rio_wf rp -> 0 <= nleft < 2 ^ 64 ->
  (Z.to_nat nleft + read_patience (w_kernel w) + 1 < fuel)%nat ->
  exists o cs rp' w', readnb_loop fuel rp nleft bs w = Done (o, bs ++ cs, rp') w' /\
    silent w w' /\ rio_wf rp' /\ pending rp w = cs ++ pending rp' w' /\
    match o with
    | Some rest => rest = nleft - Z.of_nat (length cs) /\ 0 <= rest /\
        (0 < rest -> pending rp' w' = [])
    | None => Z.of_nat (length cs) < nleft /\ failed_read fd w w'
    end.
Proof.
  induction fuel as [|fuel IH]; intros rp nleft bs w Hw Hn Hf; [lia|].
  cbn [readnb_loop]. destruct (Z.ltb_spec 0 nleft) as [Hpos|Hz].
  2:{ exists (Some nleft), [], rp, w. rewrite app_nil_r. split_and!; try done; simpl; lia. }
  destruct (rio_read_spec (Datatypes.S fuel) rp nleft w Hw)
    as (m & cs & rp1 & w1 & E & Hs & Hw1 & Hp & Hpt & Hm); [lia|lia|].
  rewrite (sys_done _ _ _ _ _ E). cbv beta iota.
  destruct Hm as [[Hm ->]|[(-> & -> & Hnil)|(-> & -> & Herr & Hbad)]].
  - destruct (Z.ltb_spec (Z.of_nat (length cs)) 0); [lia|].
    destruct (Z.eqb_spec (Z.of_nat (length cs)) 0); [lia|].
    destruct (IH rp1 (nleft - Z.of_nat (length cs)) (bs ++ cs) w1 Hw1)
      as (o & cs2 & rp2 & w2 & E2 & Hs2 & Hw2 & Hp2 & Ho); [lia..|].
    exists o, (cs ++ cs2), rp2, w2. rewrite E2, <- app_assoc.
    split; [done|]. split; [by transitivity w1|]. split; [done|].
    split; [by rewrite Hp, Hp2, app_assoc|]. rewrite length_app.
    destruct o; split_and!; try lia; try apply Ho.
    eapply failed_read_after; [exact Hs|apply Ho].
  - cbn [Z.ltb Z.compare Z.eqb]. exists (Some nleft), [], rp1, w1. rewrite app_nil_r.
    split_and!; try done; simpl; try lia. intros _. by rewrite Hnil in Hp.
  - cbn [Z.ltb Z.compare]. rewrite (sys_done _ _ w1 (w_errno w1) w1) by done.
    rewrite (proj2 (Z.eqb_neq _ _) Herr).
    exists None, [], rp1, w1. rewrite app_nil_r. by split_and!.
Qed.

(** ** Lines *)

(** The line at the head of a text, of at most [k] bytes. *)
Fixpoint line (k : nat) (p : list Z) : list Z :=
  match k, p with
  | Datatypes.S k, c :: p => if c =? 10 then [c] else c :: line k p
  | _, _ => []
  end.
(** The text ends before its first byte. *)
Definition no_line (n : Z) (k : nat) (p : list Z) : bool :=
  (n =? 1) && bool_decide (p = []) && negb (Nat.eqb k 0).
(** What [rio_readlineb] returns and stores when it has read [n - 1] bytes. *)
Definition line_result (n : Z) (k : nat) (p : list Z) : Z :=
  let l := line k p in
  if bool_decide (10 ∈ l) then n + Z.of_nat (length l) - 1
  else if no_line n k p then 0 else n + Z.of_nat (length l).
Definition line_stored (n : Z) (k : nat) (p : list Z) : list Z :=
  if no_line n k p then [] else line k p ++ [0].

Lemma line_result_cons n k c p :
  c <> 10 -> 1 <= n -> line_result n (Datatypes.S k) (c :: p) = line_result (n + 1) k p.
Proof.
  intros Hc Hn. unfold line_result, no_line. cbn [line].
  rewrite (proj2 (Z.eqb_neq c 10) Hc), (proj2 (Z.eqb_neq (n + 1) 1)) by lia.
  rewrite (bool_decide_eq_false_2 (c :: p = [])), andb_false_r by done.
  rewrite (bool_decide_ext (10 ∈ c :: line k p) (10 ∈ line k p)).
  - cbn [length andb]. case_bool_decide; lia.
  - rewrite elem_of_cons. split; [by intros [E|]; [congruence|]|by right].
Qed.

Lemma line_stored_cons n k c p :
  c <> 10 -> 1 <= n ->
  line_stored n (Datatypes.S k) (c :: p) = c :: line_stored (n + 1) k p.
Proof.
  intros Hc Hn. unfold line_stored, no_line. cbn [line].
  rewrite (proj2 (Z.eqb_neq c 10) Hc), (proj2 (Z.eqb_neq (n + 1) 1)) by lia.
  by rewrite (bool_decide_eq_false_2 (c :: p = [])), andb_false_r by done.
Qed.

Lemma readline_loop_spec fuel : forall rp n maxlen bs (w : W),
  rio_wf rp -> 1 <= n < 2 ^ 31 -> maxlen < 2 ^ 31 ->
  (Z.to_nat (maxlen - n) + read_patience (w_kernel w) + 1 < fuel)%nat ->
  let k := Z.to_nat (maxlen - n) in
  exists rc out rp' w', readline_loop fuel rp n maxlen bs w = Done (rc, bs ++ out, rp') w' /\
    silent w w' /\ rio_wf rp' /\
    ((pending rp w = line k (pending rp w) ++ pending rp' w' /\
      rc = line_result n k (pending rp w) /\ out = line_stored n k (pending rp w)) \/
     (pending rp w = out ++ pending rp' w' /\ rc = -1 /\ failed_read fd w w')).
Proof.
  induction fuel as [|fuel IH]; intros rp n maxlen bs w Hw Hn Hmax Hf k; [lia|].
  cbn [readline_loop]. replace (u64 n) with n by (symmetry; apply Z.mod_small; lia).
  destruct (Z.ltb_spec n maxlen) as [Hlt|Hge].
  2:{ assert (k = 0%nat) as -> by lia.
      eexists n, [0], rp, w. split_and!; try done. left. unfold line_result, line_stored, no_line.
      cbn [line Nat.eqb negb]. rewrite andb_false_r.
      rewrite (bool_decide_eq_false_2 (10 ∈ [])) by apply not_elem_of_nil.
      cbn. split_and!; [done|lia|done]. }
  destruct (rio_read_spec (Datatypes.S fuel) rp 1 w Hw)
    as (m & cs & rp1 & w1 & E & Hs & Hw1 & Hp & Hpt & Hm); [lia|lia|].
  rewrite (sys_done _ _ _ _ _ E). cbv beta iota.
  assert (k = Datatypes.S (Z.to_nat (maxlen - (n + 1)))) as Hk by lia.
  destruct Hm as [[Hm Hlen]|[(-> & -> & Hnil)|(-> & -> & Herr & Hbad)]].
  - assert (m = 1) as -> by lia. cbn [Z.eqb Pos.eqb].
    destruct cs as [|c [|? ?]]; simpl in Hlen; try lia. cbn [app] in Hp.
    rewrite (sys_done _ _ w1 c w1) by done. rewrite Hp, Hk.
    destruct (Z.eqb_spec c 10) as [->|Hc].
    + exists n, [10; 0], rp1, w1. split_and!; try done. left.
      unfold line_result, line_stored, no_line. cbn [line Z.eqb Pos.eqb].
      rewrite bool_decide_eq_true_2 by (by left).
      rewrite bool_decide_eq_false_2, andb_false_r by done. cbn.
      split_and!; [done|lia|done].
    + replace (s32 (n + 1)) with (n + 1)
        by (unfold s32; rewrite u32_small by (unfold is_u32; lia);
            by rewrite (proj2 (Z.ltb_lt (n + 1) (2 ^ 31))) by lia).
      destruct (IH rp1 (n + 1) maxlen (bs ++ [c]) w1 Hw1)
        as (rc & out & rp2 & w2 & E2 & Hs2 & Hw2 & Hcases); [lia..|].
      exists rc, (c :: out), rp2, w2. rewrite E2, <- app_assoc.
      split; [done|]. split; [by transitivity w1|]. split; [done|].
      rewrite line_result_cons, line_stored_cons by (done || lia). cbn [line].
      rewrite (proj2 (Z.eqb_neq c 10) Hc). cbn [app].
      destruct Hcases as [(Hp2 & -> & ->)|(Hp2 & -> & He)]; [left|right].
      * split_and!; [by f_equal|done|done].
      * split_and!; [by f_equal|done|by eapply failed_read_after].
  - cbn [Z.eqb]. cbn [app] in Hp. rewrite Hnil in *. symmetry in Hp.
    rewrite Hk. unfold line_result, line_stored, no_line. cbn [line Nat.eqb negb].
    rewrite (bool_decide_eq_false_2 (10 ∈ [])) by apply not_elem_of_nil.
    rewrite bool_decide_eq_true_2 by done. rewrite !andb_true_r.
    destruct (Z.eqb_spec n 1) as [->|Hne].
    + exists 0, [], rp1, w1. rewrite app_nil_r, Hp. split_and!; try done. by left.
    + exists n, [0], rp1, w1. rewrite Hp. split_and!; try done. left. cbn.
      split_and!; [done|lia|done].
  - cbn [Z.eqb]. exists (-1), [], rp1, w1. rewrite app_nil_r. split_and!; try done.
    by right.
Qed.
End Reading.

(** ** Writing *)

Section Writing.
Context (fd : Z) `{!Output K fd}.

Lemma writen_loop_spec fuel : forall bs (w : W),
  (length bs + write_patience (w_kernel w) < fuel)%nat ->
  exists ok m w', writen_loop fuel fd bs w = Done ok w' /\ silent w w' /\
    written (w_kernel w') = written (w_kernel w) ++ take m bs /\
    if ok : bool then m = length bs else (m < length bs)%nat /\ failed_write fd w w'.
Proof.
  induction fuel as [|fuel IH]; intros bs w Hf; [lia|]. cbn [writen_loop].
  destruct (Z.ltb_spec 0 (Z.of_nat (length bs))) as [Hpos|Hz].
  2:{ destruct bs; [|simpl in Hz; lia].
      exists true, 0%nat, w. rewrite take_nil, app_nil_r. by split_and!. }
  assert (bs <> []) as Hne by (by destruct bs).
  pose proof (write_law bs (w_kernel w) Hne) as L. rewrite sys_eq. unfold call.
  fold (write_call fd bs).
  destruct (kernel_call (write_call fd bs) (w_kernel w)) as [r k] eqn:Ek.
  set (w1 := called _ r k w). assert (silent w w1) as Hs by (by apply silent_called).
  pose proof (ran_called _ _ _ _ Ek) as Hr.
  destruct L as [(m & Hrv & Hm & Hw & Hp)|(Hrv & Hw & _ & Hp)].
  - destruct (Z.leb_spec (rv r) 0); [lia|]. rewrite Hrv, Nat2Z.id.
    destruct (IH (drop m bs) w1) as (ok & m2 & w2 & E2 & Hs2 & Hw2 & Hok).
    { rewrite length_drop. simpl. lia. }
    exists ok, (m + m2)%nat, w2. split; [exact E2|]. split; [by transitivity w1|].
    rewrite length_drop in Hok.
    split; [|destruct ok; [lia|destruct Hok; split; [lia|by eapply failed_write_after]]].
    rewrite Hw2. cbn [w1 called w_kernel]. by rewrite Hw, <- app_assoc, take_take_drop.
  - destruct (Z.leb_spec (rv r) 0); [|lia].
    rewrite (sys_done _ _ w1 (r_errno r) w1) by done.
    destruct (Z.eqb_spec (r_errno r) EINTR) as [Hi|Hi].
    + specialize (Hp Hi). destruct (IH bs w1) as (ok & m2 & w2 & E2 & Hs2 & Hw2 & Hok);
        [simpl; lia|].
      exists ok, m2, w2. split; [exact E2|]. split; [by transitivity w1|].
      split; [rewrite Hw2; cbn [w1 called w_kernel]; by rewrite Hw|].
      destruct ok; [done|]. destruct Hok. split; [done|by eapply failed_write_after].
    + exists false, 0%nat, w1. rewrite take_0, app_nil_r. split_and!; try done; [lia|].
      exists bs. by apply ended_by_called.
Qed.
End Writing.
End Laws.
