(* ===== verification/Delivery.v ===== *)
(** * The connection on a real socket

    [Delivers m p]: the process [p], on a descriptor that behaves as POSIX
    documents ([Output]), does what the computation [m] of the connection that
    takes everything says.  When [p] goes on, the simulator and the struct are
    those of [m] and the bytes out are those [m] records; when it ends, it does so
    after a write that failed, with status 0, one message and a proper prefix of
    them; and it has
    no defined outcome only where [m] has none.  Its calls are those of the
    service.  If a file is debugged, messages are printed as well, and one whose
    text is not defined has no defined outcome; nothing else changes.  The
    relation follows the structure of the code, so that it holds of the handlers,
    of the packets and of the lexer. *)
From S2P Require Import Prelude Util Debug Constants Memory Registers Trace.
From S2P Require Import Core.
From S2P Require Import LoadStore Branch Instruction Gdb Scanner Messages.
From S2P Require Import Sys Csapp Rio.
From S2P Require Import RioSpec Socket.

(** The calls of the service on a descriptor. *)
Inductive service_call (fd : Z) : syscall -> Prop :=
  | service_write bs : service_call fd (write_call fd bs)
  | service_shutdown :
      service_call fd {| sys_name := "shutdown"; sys_args := [Int fd; Int SHUT_WR] |}
  | service_lock : service_call fd {| sys_name := "pthread_mutex_lock"; sys_args := [] |}
  | service_unlock :
      service_call fd {| sys_name := "pthread_mutex_unlock"; sys_args := [] |}.
#[export] Hint Constructors service_call : core.

(** Neither file with messages is debugged. *)
Definition quiet (files : debug_data) : Prop :=
  forall f, is_debugged (file_name f) files = Some 0.

Section Rules.
Context {K : Type} `{Kernel K} (fd : Z) `{!Output K fd} (files : debug_data).
Context (signals : nat).
Context {S C : Type} (core : S -> C) (out : S -> list Z).
Abbreviation W := (world K S).

(** The process holds the data of [s], and after [base] its output is out. *)
Record tracks (base : list Z) (s : S) (w : W) : Prop := {
  tracks_core : core (w_app w) = core s;
  tracks_out : written (w_kernel w) = base ++ out s;
  tracks_signals : (write_patience (w_kernel w) < signals)%nat
}.

(** The process made calls of the service, no others, and printed [msgs], after messages of
    the debugged files. *)
Definition serviced (w w' : W) (msgs : list string) : Prop :=
  (exists ms, w_stderr w' = w_stderr w ++ ms ++ msgs /\ (quiet files -> ms = [])) /\
  exists cs, ran cs w w' /\ Forall (service_call fd) cs.

Lemma serviced_same w w' :
  w_stderr w' = w_stderr w -> w_calls w' = w_calls w -> w_kernel w' = w_kernel w ->
  serviced w w' [].
Proof.
  intros E C1 K1. split; [exists []; by rewrite !app_nil_r|]. exists [].
  split; [by apply ran_same|constructor].
Qed.
Lemma serviced_refl w : serviced w w [].
Proof. by apply serviced_same. Qed.
Lemma serviced_trans w1 w2 w3 msgs :
  serviced w1 w2 [] -> serviced w2 w3 msgs -> serviced w1 w3 msgs.
Proof.
  intros ((m1 & E1 & Q1) & c1 & C1 & F1) ((m2 & E2 & Q2) & c2 & C2 & F2).
  rewrite app_nil_r in E1. split.
  - exists (m1 ++ m2). split; [by rewrite E2, E1, <- !app_assoc|].
    intros Hq. by rewrite Q1, Q2.
  - exists (c1 ++ c2). split; [by eapply ran_trans|by apply Forall_app].
Qed.

Definition writen_message (w : W) : string :=
  "Rio_writen error" +:+ ": " +:+ strerror (w_errno w) +:+ newline.

(** A write failed, the last call: of what [m] sends from [s] on, only [l] is
    out. *)
Definition cut_off {A} (m : ST S A) (base : list Z) (s : S) (w w' : W) : Prop :=
  serviced w w' [writen_message w'] /\ failed_write fd w w' /\
  exists l, written (w_kernel w') = base ++ out s ++ l /\
    forall a s', m s = Ok a s' -> exists x r, out s' = out s ++ l ++ x :: r.

(** What [m] sends is only added to. *)
Definition Appends {A} (m : ST S A) : Prop :=
  forall s a s', m s = Ok a s' -> exists l, out s' = out s ++ l.

Record Delivers {A} (m : ST S A) (p : Sys W A) : Prop := {
  delivers_appends : Appends m;
  delivers_run base s w : tracks base s w ->
    match p w with
    | Done a w' => exists s', m s = Ok a s' /\ tracks base s' w' /\ serviced w w' []
    | Quit c w' => c = 0 /\ cut_off m base s w w'
    | Stuck f => m s = Fault f \/ f = OutOfBounds /\ ~ quiet files
    end
}.

Lemma delivers_ret {A} (a : A) : Delivers (mret a) (mret a).
Proof.
  split.
  - intros s b s' E. injection E as <- <-. exists []. by rewrite app_nil_r.
  - intros base s w Ht. exists s. split_and!; [done..|apply serviced_refl].
Qed.

Lemma delivers_stop {A} f : Delivers (A := A) (stop f) (stop f).
Proof. split; [done|]. by left. Qed.

Lemma delivers_of_option {A} (o : option A) : Delivers (of_option o) (of_option o).
Proof. destruct o; [apply delivers_ret|apply delivers_stop]. Qed.

Lemma delivers_bind {A B} (m : ST S A) (p : Sys W A) (k : A -> ST S B)
    (q : A -> Sys W B) :
  Delivers m p -> (forall a, Delivers (k a) (q a)) -> Delivers (m ≫= k) (p ≫= q).
Proof.
  intros [Am Hm] Hk. split.
  - intros s b s' E. rewrite bind_eq in E. destruct (m s) as [a s1|] eqn:E1; [|done].
    destruct (Am _ _ _ E1) as (l1 & O1).
    destruct (delivers_appends _ _ (Hk a) _ _ _ E) as (l2 & O2).
    exists (l1 ++ l2). by rewrite O2, O1, app_assoc.
  - intros base s w Ht. specialize (Hm base s w Ht). rewrite sys_eq.
    destruct (p w) as [a w1|c w1|f].
    + destruct Hm as (s1 & E1 & Ht1 & Hs1). rewrite (bind_ok _ _ _ _ _ E1).
      pose proof (delivers_run _ _ (Hk a) base s1 w1 Ht1) as H2.
      destruct (q a w1) as [b w2|c w2|f]; [| |exact H2].
      * destruct H2 as (s2 & E2 & Ht2 & Hs2). exists s2.
        split_and!; [done..|by eapply serviced_trans].
      * destruct H2 as (-> & Hs2 & Hf2 & l & Hw & Hl). split; [done|].
        split; [by eapply serviced_trans|].
        split; [destruct Hs1 as (_ & cs & R & _); by eapply failed_write_after|]. destruct (Am _ _ _ E1) as (l1 & O1).
        exists (l1 ++ l). split; [by rewrite Hw, O1, <- !app_assoc|].
        intros b s2 E. rewrite (bind_ok _ _ _ _ _ E1) in E.
        destruct (Hl b s2 E) as (x & r & ->). exists x, r. by rewrite O1, <- !app_assoc.
    + destruct Hm as (-> & Hs & Hf & l & Hw & Hl). split; [done|]. split; [done|].
      split; [done|].
      exists l. split; [done|]. intros b s2 E. rewrite bind_eq in E.
      destruct (m s) as [a s1|] eqn:E1; [|done].
      destruct (Hl a s1 eq_refl) as (x & r & O1).
      destruct (delivers_appends _ _ (Hk a) _ _ _ E) as (l2 & O2).
      exists x, (r ++ l2). rewrite O2, O1, <- !app_assoc. done.
    + destruct Hm as [Hm|Hm]; [|by right]. left. by rewrite (bind_fault _ _ _ _ Hm).
Qed.

Lemma delivers_if {A} (b : bool) (m1 m2 : ST S A) (p1 p2 : Sys W A) :
  Delivers m1 p1 -> Delivers m2 p2 ->
  Delivers (if b then m1 else m2) (if b then p1 else p2).
Proof. by destruct b. Qed.

(** A computation on the data that looks at the core only and sends nothing. *)
Definition CoreOnly {A} (m : ST S A) : Prop :=
  forall s1 s2, core s1 = core s2 ->
    match m s1 with
    | Ok a s1' => exists s2', m s2 = Ok a s2' /\ core s1' = core s2' /\ out s2' = out s2
    | Fault f => m s2 = Fault f
    end.

Lemma delivers_app {A} (m : ST S A) : CoreOnly m -> Delivers m (on_app m).
Proof.
  intros Hm. split.
  - intros s a s' E. specialize (Hm s s eq_refl). rewrite E in Hm.
    destruct Hm as (s2 & E2 & _ & O). injection E2 as <-. exists []. by rewrite app_nil_r.
  - intros base s w [Hc Ho Hp]. unfold on_app. specialize (Hm _ _ Hc).
    destruct (m (w_app w)) as [a s1|f]; [|by left]. destruct Hm as (s2 & E & Hc2 & O2).
    exists s2. split; [done|]. split; [split; simpl; [done|by rewrite O2|done]|].
    by apply serviced_same.
Qed.

(** A call of the service that is not a write. *)
Lemma delivers_call name args (f : S -> S) :
  name <> "write"%string -> service_call fd {| sys_name := name; sys_args := args |} ->
  (forall s, core (f s) = core s) -> (forall s, out (f s) = out s) ->
  Delivers (fun s => Ok () (f s)) (bare_call name args;; mret ()).
Proof.
  intros Hn Hs Hc Ho. split.
  - intros s a s' E. injection E as <- <-. exists []. by rewrite app_nil_r.
  - intros base s w [Hc1 Ho1 Hp1]. unfold bare_call. rewrite !sys_eq. unfold call.
    set (c := {| sys_name := name; sys_args := args |}) in *.
    pose proof (write_only c (w_kernel w) Hn) as L.
    destruct (kernel_call c (w_kernel w)) as [r k] eqn:Ek. destruct L as [L1 L2].
    eexists. split; [done|]. split.
    + split; simpl; [by rewrite Hc1|by rewrite L1, Ho|lia].
    + split; [exists []; by rewrite !app_nil_r|]. exists [c].
      split; [by apply ran_called|by repeat constructor].
Qed.

(** A message is not one on the connection that takes everything. *)
Lemma delivers_message file line text :
  Delivers (mret ()) (print_message files (file_name file) line text).
Proof.
  split; [apply delivers_ret|]. intros base s w [Hc Ho Hp].
  pose proof (print_message_run files (file_name file) line text w) as H1.
  destruct (print_message files (file_name file) line text w) as [[] w'|c w'|f]; [|done|].
  - destruct H1 as (ms & -> & Hq). exists s. split; [done|]. split; [done|]. split.
    + exists ms. split; [by rewrite app_nil_r|]. intros Q. apply Hq, Q.
    + exists []. by split; [apply ran_same|].
  - right. split; [apply H1|]. intros Q. by apply H1.
Qed.

(** The write itself. *)
Definition wrote (w w' : W) : Prop :=
  serviced w w' [] /\ (write_patience (w_kernel w') <= write_patience (w_kernel w))%nat.

Lemma wrote_trans w1 w2 w3 : wrote w1 w2 -> wrote w2 w3 -> wrote w1 w3.
Proof. intros [H1 P1] [H2 P2]. split; [by eapply serviced_trans|lia]. Qed.

Lemma wrote_called bs w :
  bs <> [] ->
  let '(r, k) := kernel_call (write_call fd bs) (w_kernel w) in
  wrote w (called (write_call fd bs) r k w).
Proof.
  intros Hbs. pose proof (write_law bs (w_kernel w) Hbs) as L.
  destruct (kernel_call (write_call fd bs) (w_kernel w)) as [r k] eqn:Ek. split.
  - split; [exists []; by rewrite !app_nil_r|]. exists [write_call fd bs].
    split; [by apply ran_called|by repeat constructor].
  - by destruct L as [(m & _ & _ & _ & L)|(_ & _ & L & _)].
Qed.

Lemma writen_loop_wrote fuel : forall bs (w : W) ok w',
  writen_loop fuel fd bs w = Done ok w' -> wrote w w'.
Proof.
  induction fuel as [|fuel IH]; intros bs w ok w' E; [done|]. cbn [writen_loop] in E.
  destruct (Z.ltb_spec 0 (Z.of_nat (length bs))).
  2:{ injection E as _ <-. split; [apply serviced_refl|done]. }
  assert (bs <> []) as Hne by (by destruct bs).
  pose proof (wrote_called bs w Hne) as H1. rewrite sys_eq in E. unfold call in E.
  fold (write_call fd bs) in E.
  destruct (kernel_call (write_call fd bs) (w_kernel w)) as [r k].
  set (w1 := called _ r k w) in *.
  destruct (rv r <=? 0); [|by eapply wrote_trans, IH].
  rewrite (sys_done _ _ w1 (r_errno r) w1) in E by done.
  destruct (r_errno r =? EINTR); [by eapply wrote_trans, IH|by injection E as _ <-].
Qed.

Lemma delivers_writen bs (m : ST S unit) (f : S -> S) :
  (forall s, m s = Ok () (f s)) -> (forall s, core (f s) = core s) ->
  (forall s, out (f s) = out s ++ bs) ->
  Delivers m (Rio.Rio_writen (length bs + signals) fd bs).
Proof.
  intros Hm Hc Ho. split.
  { intros s a s' E. rewrite Hm in E. injection E as _ <-. by exists bs. }
  intros base s w [Hc1 Ho1 Hp1].
  destruct (writen_loop_spec fd (length bs + signals) bs w) as (ok & n & w1 & E & Hs & Hw & Hok);
    [lia|].
  destruct (writen_loop_wrote _ _ _ _ _ E) as [Hv Hp].
  unfold Rio.Rio_writen, rio_writen. rewrite !sys_eq, E. cbn.
  destruct ok.
  - rewrite Z.eqb_refl. exists (f s). split; [apply Hm|]. split; [|done].
    split; [by rewrite Hc, <- Hc1, (proj1 Hs)| |lia].
    by rewrite Hw, Hok, firstn_all, Ho1, Ho, app_assoc.
  - destruct Hok as [Hn Hbad]. destruct (Z.eqb_spec (-1) (Z.of_nat (length bs))); [lia|].
    split; [done|]. split.
    + destruct Hv as [(ms & Hv1 & Q) Hv2]. rewrite app_nil_r in Hv1.
      split; [|exact Hv2]. exists ms. split; [|done]. cbn. by rewrite Hv1, <- app_assoc.
    + split; [exact Hbad|].
      exists (take n bs). split; [simpl; by rewrite Hw, Ho1, app_assoc|].
      intros a s' E2. rewrite Hm in E2. injection E2 as _ <-. rewrite Ho.
      destruct (drop n bs) as [|x r] eqn:Ed.
      * apply (f_equal length) in Ed. rewrite length_drop in Ed. simpl in Ed. lia.
      * exists x, r. by rewrite <- Ed, take_drop.
Qed.
End Rules.
