(* ===== verification/Service.v ===== *)
(** * What the server sends

    The handlers of gdb_protocol.c, the analysis of packets and the lexer, on
    the socket, deliver what they send on the connection of Gdb.v: [Delivers] is
    closed under the operations of Related.v, by its rules. *)
From S2P Require Import Prelude Util Debug Constants Memory Registers Trace.
From S2P Require Import Core.
From S2P Require Import Refine LoadStore Branch Instruction Run Invariant.
From S2P Require Import Gdb Handlers Scanner Stub Sys Csapp Rio RioSpec Socket.
From S2P Require Import Delivery Related.

Definition gdb_core (g : gdbs) : sim * gdb_protocol_data := (g_sim g, g_data g).

Section Service.
Context {K : Type} `{Kernel K} (fd : Z) `{!Output K fd} (files : debug_data).
Context (signals : nat).
#[local] Hint Extern 5 (Connection _) =>
  exact (socket_connection files signals fd) : typeclass_instances.
#[local] Hint Extern 5 (Lexer _ (Sys _)) =>
  exact (socket_lexer (K := K)) : typeclass_instances.

(** ** The connection *)

Definition delivers_gdb A : Gdb A -> Sys (world K gdbs) A -> Prop :=
  Delivers fd files signals gdb_core g_out.

#[export] Instance gdb_monad : RelatesMonad delivers_gdb.
Proof. split; intros; [apply delivers_ret|apply delivers_stop|by apply delivers_bind]. Qed.

Ltac same_core :=
  apply delivers_app; intros [] [] ?; simplify_eq/=; by eexists.

#[export] Instance gdb_sends : RelatesSends delivers_gdb.
Proof.
  split; intros; [same_core..| |]; [by eapply delivers_writen|apply delivers_message].
Qed.

#[export] Instance gdb_handlers : RelatesSim delivers_gdb.
Proof.
  split.
  - intros A f. apply delivers_stop.
  - intros A m. apply delivers_app. intros [s1 d1 o1 b1] [s2 d2 o2 b2] E.
    injection E as <- <-. cbn. unfold gdb_sim. cbn.
    destruct (m s1) as [a s|]; [|done]. by eexists.
  - apply (delivers_call _ _ _ _ _ "shutdown" [Int fd; Int SHUT_WR] (fun g => _)); auto.
Qed.

#[export] Instance gdb_lock : RelatesLock delivers_gdb.
Proof.
  split.
  - apply (delivers_call _ _ _ _ _ "pthread_mutex_lock" [] (fun g => g)); auto.
  - apply (delivers_call _ _ _ _ _ "pthread_mutex_unlock" [] (fun g => g)); auto.
Qed.

(** ** The lexer *)

Definition scan_core (s : scanner) : sim * gdb_protocol_data * parser_data * list Z :=
  (gdb_core (sc_gdb s), sc_data s, sc_echo s).
Definition scan_out (s : scanner) : list Z := g_out (sc_gdb s).
Definition delivers_scan A : Scan A -> Sys (world K scanner) A -> Prop :=
  Delivers fd files signals scan_core scan_out.

#[export] Instance scan_monad : RelatesMonad delivers_scan.
Proof. split; intros; [apply delivers_ret|apply delivers_stop|by apply delivers_bind]. Qed.

Lemma delivers_on_gdb {A} (m : Gdb A) (p : Sys (world K gdbs) A) :
  Delivers fd files signals gdb_core g_out m p ->
  Delivers fd files signals scan_core scan_out (on_gdb m) (on_gdb p).
Proof.
  intros [Am Hm]. cbn [on_gdb scan_lexer socket_lexer]. unfold scan_gdb. split.
  - intros s a s' E. destruct (m (sc_gdb s)) as [b g|] eqn:E1; [|done].
    injection E as <- <-. exact (Am _ _ _ E1).
  - intros base s w [Hc Ho Hp]. injection Hc as Hc1 Hc2 Hc3 Hc4.
    assert (tracks fd signals gdb_core g_out base (sc_gdb s)
              (with_app (sc_gdb (w_app w)) w)) as Ht
      by (split; [unfold gdb_core; simpl; congruence|done|done]).
    specialize (Hm base _ _ Ht). unfold focus. destruct (p _) as [a w1|c w1|f].
    + destruct Hm as (g & E & [Hg Og Pg] & Hs). rewrite E.
      eexists. split; [done|]. split; [|exact Hs]. split; [|done|done].
      unfold scan_core. simpl. congruence.
    + destruct Hm as (-> & Hs & Hf & l & Hw & Hl). split; [done|]. split; [exact Hs|].
      split; [exact Hf|].
      exists l. split; [done|]. intros a s' E.
      destruct (m (sc_gdb s)) as [b g|] eqn:E1; [|done].
      injection E as <- <-. exact (Hl _ _ eq_refl).
    + destruct Hm as [Hm|Hm]; [|by right]. left. by rewrite Hm.
Qed.

#[export] Instance scan_lexing : RelatesLexer delivers_gdb delivers_scan.
Proof.
  split; [by apply @delivers_on_gdb|..]; intros; apply delivers_app;
    intros [[] [] ?] [[] [] ?] ?; simplify_eq/=; by eexists.
Qed.

Lemma delivers_yylex fuel frs after input `{T : Target} :
  Delivers fd files signals scan_core scan_out
    (yylex fuel frs after input) (yylex fuel frs after input).
Proof. apply (related_yylex delivers_gdb delivers_scan). Qed.

Context `{T : Target}.

(** ** gdb_scanner *)

(** Some bytes went out on [fd], after some calls. *)
Definition sent_on (w w' : world K scanner) (cs : list syscall) (bs : list Z) : Prop :=
  ran cs w w' /\ written (w_kernel w') = written (w_kernel w) ++ bs.
Definition fdopen_call (input_fd : Z) : syscall :=
  {| sys_name := "fdopen"; sys_args := [Int input_fd; Str "r"] |}.
Definition fdopened (input_fd : Z) (w : world K scanner) : Prop :=
  rv (reply_to (fdopen_call input_fd) (w_kernel w)) <> 0.

(** What becomes of a connection on which the bytes [bs] are to be sent and
    which ends in [s]: they are sent and it does; a write fails and the process
    ends with a proper prefix of them out; or the stream cannot be opened.  If a
    file is debugged, messages are printed before, and a message whose text is
    not defined has an undefined effect. *)
Inductive connection_run (input_fd : Z) (s0 s : scanner) (bs : list Z)
    (w : world K scanner) : ending (world K scanner) unit -> Prop :=
  | run_served w' cs ms :
      fdopened input_fd w -> sent_on w w' (fdopen_call input_fd :: cs) bs -> Forall (service_call fd) cs ->
      w_stderr w' = w_stderr w ++ ms -> (quiet files -> ms = []) ->
      scan_core (w_app w') = scan_core s ->
      connection_run input_fd s0 s bs w (Done () w')
  | run_cut w' cs ms l x r :
      fdopened input_fd w -> sent_on w w' (fdopen_call input_fd :: cs) l -> Forall (service_call fd) cs ->
      failed_write fd w w' ->
      w_stderr w' = w_stderr w ++ ms ++ [writen_message w'] -> (quiet files -> ms = []) ->
      bs = l ++ x :: r ->
      connection_run input_fd s0 s bs w (Quit 0 w')
  | run_closed w' msg :
      ~ fdopened input_fd w -> sent_on w w' [fdopen_call input_fd] [] ->
      w_stderr w' = w_stderr w ++ [msg] -> w_app w' = s0 ->
      connection_run input_fd s0 s bs w (Done () w')
  | run_undefined :
      fdopened input_fd w -> ~ quiet files -> connection_run input_fd s0 s bs w (Stuck OutOfBounds).

Lemma gdb_scanner_run fuel frs after block buf input_fd input (w : world K scanner) s :
  (write_patience (w_kernel w) < signals)%nat ->
  let s0 := gdb_scanner_init (g_sim (sc_gdb (w_app w))) block buf in
  yylex fuel frs after input s0 = Ok () s ->
  connection_run input_fd s0 s (g_out (sc_gdb s)) w
    (gdb_scanner files fuel signals frs after block buf input_fd fd input w).
Proof.
  intros Hp s0 E. unfold gdb_scanner.
  rewrite (sys_done _ _ w () (with_app s0 w)) by done. rewrite sys_eq. unfold call.
  fold (fdopen_call input_fd).
  pose proof (write_only (fdopen_call input_fd) (w_kernel w)) as L.
  cbn [with_app w_kernel].
  destruct (kernel_call (fdopen_call input_fd) (w_kernel w)) as [r k] eqn:Ek.
  destruct L as [L1 L2]; [done|]. set (w1 := called _ r k _).
  pose proof (ran_called (fdopen_call input_fd) r k w Ek) as R1.
  assert (fdopened input_fd w <-> rv r <> 0) as Hopen
    by (unfold fdopened, reply_to; by rewrite Ek).
  destruct (Z.eqb_spec (rv r) 0) as [H0|H0].
  - eapply run_closed; [by intros Ho; apply Hopen in Ho| |done..].
    split; [exact R1|]. simpl. by rewrite L1, app_nil_r.
  - apply Hopen in H0. destruct (delivers_yylex fuel frs after input) as [_ D].
    specialize (D (written (w_kernel w)) s0 w1).
    assert (tracks fd signals scan_core scan_out (written (w_kernel w)) s0 w1) as Ht.
    { split; [done| |simpl; lia]. simpl. by rewrite L1, app_nil_r. }
    specialize (D Ht).
    match type of D with match ?e with _ => _ end => destruct e as [[] w2|c w2|f] end.
    + destruct D as (s' & E' & [Hc Ho _] & (ms & Hs & Hq) & cs & Hcs & Hf).
      rewrite E in E'. injection E' as <-. rewrite app_nil_r in Hs.
      apply (run_served _ _ _ _ _ w2 cs ms); [done| |done..]. split; [|done].
      exact (ran_trans [_] cs _ w1 _ R1 Hcs).
    + destruct D as (-> & ((ms & Hs & Hq) & cs & Hcs & Hf) & Hbad & l & Hw & Hl).
      destruct (Hl () s E) as (x & r' & Hr).
      apply (run_cut _ _ _ _ _ w2 cs ms l x r'); [done| |done| |done..].
      * split; [|done]. exact (ran_trans [_] cs _ w1 _ R1 Hcs).
      * exact (failed_write_after fd [_] _ w1 _ R1 Hbad).
    + destruct D as [D|[-> Hq]]; [by rewrite E in D|by apply run_undefined].
Qed.

(** C13. The process implements the specification of a gdb stub: on any session
    of acknowledgements and requests, over a descriptor whose writes may be
    short and interrupted, [gdb_scanner] sends, in order and once, the
    acknowledgement and the framed reply the specification gives to each
    request, and leaves the processor in the state the specification reaches;
    or the process ends, with an error message and a proper prefix of these bytes
    sent, and then its last call is a write that failed; or fdopen failed.  Debugging
    gdb_protocol.c or scanner.l only adds messages on the standard error, unless
    the text of one is not defined. *)
Theorem stub_session_delivered fuel frs after block buf input_fd cs p q out
    (w : world K scanner) :
  length block = 1024%nat -> length buf = 1024%nat ->
  ready 2 (g_sim (sc_gdb (w_app w))) -> core_wf p ->
  s_arm (g_sim (sc_gdb (w_app w))) = p -> stub_session fuel frs 0 cs p q out ->
  (write_patience (w_kernel w) < signals)%nat ->
  exists s, s_arm (g_sim (sc_gdb s)) = q /\
    connection_run input_fd (gdb_scanner_init (g_sim (sc_gdb (w_app w))) block buf) s out w
      (gdb_scanner files fuel signals frs after block buf input_fd fd (sent_by cs) w).
Proof.
  intros Hb Hf Hr Hw Ha Hc Hp.
  set (s0 := gdb_scanner_init (g_sim (sc_gdb (w_app w))) block buf).
  destruct (stub_session_refines fuel frs after cs p q out s0) as (s & E & Hs & O & _);
    [done|done|split; [split; [done|by rewrite <- Ha in Hw|done]|done|done]|done|].
  exists s. split; [apply Hs|]. cbn [s0 gdb_scanner_init sc_gdb g_out app] in O. rewrite <- O.
  by apply gdb_scanner_run.
Qed.

(** C30. Whatever arrives on the connection, the lexer and the handlers on the
    socket deliver what they send on the connection that takes everything:
    while the process goes on, the bytes out are, in order and once, those the
    model records, and the simulator, the packet and the error buffer are those
    it computes; when the process ends, its last call is a write that failed, the
    status is 0, and one message and a proper prefix of these bytes are out; and
    the outcome is
    undefined only where the model's is, or where a message of a debugged file
    has no defined text. *)
Theorem yylex_on_socket fuel frs after input :
  Delivers fd files signals scan_core scan_out
    (yylex fuel frs after input) (yylex fuel frs after input).
Proof. apply delivers_yylex. Qed.
End Service.
