(* ===== verification/Pipe.v ===== *)
(** * A kernel to run the programs on

    [pipe] is the far end of a connection: what arrives comes in chunks, with
    interruptions and errors between them; what is sent is collected, a script
    telling how much each write takes; the other calls get their replies from a
    list.  It satisfies [Input] and [Output], the laws the theorems on csapp.c
    ask for. *)
From S2P Require Import Prelude Util Sys Csapp Rio RioSpec.

Inductive chunk :=
  | Arrives (b : Z) (bs : list Z)
  | Interrupts
  | Breaks (errno : Z).

(** What a write does: takes at most [S n] bytes, is interrupted, or fails. *)
Inductive taking :=
  | Takes (n : nat)
  | TakesNone
  | Refuses (errno : Z).

Record pipe := {
  p_in : list chunk;
  p_out : list Z;
  p_takes : list taking;
  p_replies : list (Z * list Z)
}.

Definition chunk_bytes (c : chunk) : list Z :=
  match c with Arrives b bs => b :: bs | _ => [] end.
Definition chunk_waits (c : chunk) : nat :=
  match c with Interrupts => 1 | _ => 0 end.
Definition take_waits (t : taking) : nat :=
  match t with TakesNone => 1 | _ => 0 end.

Definition pipe_reply (v e : Z) (bs : list Z) : reply :=
  {| rv := v; r_errno := e; r_herrno := 0; r_data := bs |}.
Definition with_in (l : list chunk) (p : pipe) : pipe :=
  {| p_in := l; p_out := p_out p; p_takes := p_takes p; p_replies := p_replies p |}.
Definition with_out (o : list Z) (l : list taking) (p : pipe) : pipe :=
  {| p_in := p_in p; p_out := o; p_takes := l; p_replies := p_replies p |}.

Definition pipe_read (n : Z) (p : pipe) : reply * pipe :=
  match p_in p with
  | [] => (pipe_reply 0 0 [], p)
  | Interrupts :: l => (pipe_reply (-1) EINTR [], with_in l p)
  | Breaks e :: l => (pipe_reply (-1) (if e =? EINTR then 5 else e) [], with_in l p)
  | Arrives b bs :: l =>
      let got := take (Z.to_nat n) (b :: bs) in
      (pipe_reply (Z.of_nat (length got)) 0 got,
       with_in (match drop (Z.to_nat n) (b :: bs) with
                | [] => l | b' :: bs' => Arrives b' bs' :: l
                end) p)
  end.

Definition pipe_write (bs : list Z) (p : pipe) : reply * pipe :=
  match p_takes p with
  | [] => (pipe_reply (Z.of_nat (length bs)) 0 [], with_out (p_out p ++ bs) [] p)
  | TakesNone :: l => (pipe_reply (-1) EINTR [], with_out (p_out p) l p)
  | Refuses e :: l =>
      (pipe_reply (-1) (if e =? EINTR then 5 else e) [], with_out (p_out p) l p)
  | Takes n :: l =>
      let put := take (Datatypes.S n) bs in
      (pipe_reply (Z.of_nat (length put)) 0 [], with_out (p_out p ++ put) l p)
  end.

#[export] Instance pipe_kernel : Kernel pipe := {|
  kernel_call := fun c p =>
    match sys_args c with
    | [Int _; Int n] =>
        if bool_decide (sys_name c = "read"%string) then pipe_read n p
        else match p_replies p with
             | [] => (pipe_reply 0 0 [], p)
             | (v, bs) :: l =>
                 (pipe_reply v 5 bs, {| p_in := p_in p; p_out := p_out p;
                                     p_takes := p_takes p; p_replies := l |})
             end
    | [Int _; Bytes bs] =>
        if bool_decide (sys_name c = "write"%string) then pipe_write bs p
        else (pipe_reply 0 0 [], p)
    | _ => match p_replies p with
           | [] => (pipe_reply 0 0 [], p)
           | (v, bs) :: l =>
               (pipe_reply v 5 bs, {| p_in := p_in p; p_out := p_out p;
                                   p_takes := p_takes p; p_replies := l |})
           end
    end;
  strerror := fun e => ("error " +:+ fmt_d e)%string
|}.

#[export] Program Instance pipe_input fd : Input pipe fd := {|
  unread := fun p => mjoin (chunk_bytes <$> p_in p);
  read_patience := fun p => sum_list (chunk_waits <$> p_in p)
|}.
Next Obligation.
  intros fd n p Hn. simpl. unfold pipe_read.
  destruct (p_in p) as [|[b bs| |e] l] eqn:Ep; simpl.
  - right; left. rewrite Ep. by split_and!.
  - left. set (got := take (Z.to_nat n) (b :: bs)).
    assert (length got = Nat.min (Z.to_nat n) (length (b :: bs))) as Hg
      by apply length_take.
    exists (length got). cbn [length] in Hg. split; [done|]. split; [lia|]. split; [lia|].
    split; [cbn [length]; rewrite length_app; lia|].
    assert (drop (Z.to_nat n) (b :: bs) = drop (length got) (b :: bs)) as ->.
    { rewrite Hg. destruct (decide (Z.to_nat n <= S (length bs))%nat).
      - by rewrite Nat.min_l.
      - by rewrite Nat.min_r, !drop_ge by (simpl; lia). }
    assert (got = take (length got) (b :: bs)) as Egot.
    { unfold got at 1. rewrite Hg. destruct (decide (Z.to_nat n <= S (length bs))%nat).
      - by rewrite Nat.min_l.
      - by rewrite Nat.min_r, !take_ge by (simpl; lia). }
    match goal with |- context [b :: bs ++ ?x] =>
      change (b :: bs ++ x) with ((b :: bs) ++ x) end.
    rewrite take_app_le, drop_app_le by (cbn [length]; lia).
    split; [exact Egot|].
    destruct (drop (length got) (b :: bs)); by split.
  - right; right. split_and!; try done; unfold fmap; lia.
  - right; right. split_and!; try done. destruct (Z.eqb_spec e EINTR); [done|]. by intros.
Qed.
Next Obligation.
  intros fd c p Hc. simpl. destruct c as [name args]. cbn [sys_name sys_args] in *.
  rewrite (bool_decide_eq_false_2 (name = "read"%string)) by done.
  unfold pipe_write. repeat (case_match; simplify_eq/=; try by split).
Qed.

#[export] Program Instance pipe_output fd : Output pipe fd := {|
  written := p_out;
  write_patience := fun p => sum_list (take_waits <$> p_takes p)
|}.
Next Obligation.
  intros fd bs p Hbs. simpl. unfold pipe_write.
  assert (0 < length bs)%nat by (destruct bs; simpl; [done|lia]).
  destruct (p_takes p) as [|[n| |e] l] eqn:Ep; simpl.
  - left. exists (length bs). rewrite firstn_all. split_and!; try done; lia.
  - left. destruct bs as [|b bs]; [done|].
    exists (Datatypes.S (n `min` length bs)). rewrite length_take. cbn [length].
    split; [done|]. split; [lia|]. split; [|done]. cbn [take]. do 2 f_equal.
    destruct (decide (n <= length bs)%nat).
    + by rewrite Nat.min_l.
    + by rewrite Nat.min_r, !take_ge by lia.
  - right. split_and!; try done; unfold fmap; lia.
  - right. split_and!; try done. destruct (Z.eqb_spec e EINTR); [done|]. by intros.
Qed.
Next Obligation.
  intros fd c p Hc. simpl. destruct c as [name args]. cbn [sys_name sys_args] in *.
  rewrite (bool_decide_eq_false_2 (name = "write"%string)) by done.
  unfold pipe_read. repeat (case_match; simplify_eq/=; try by split).
Qed.
