(* ===== verification/RioTheorems.v ===== *)
(** * Properties of the robust I/O

    The wrappers of csapp.c on a descriptor that behaves as POSIX documents
    ([Input], [Output]): they end, with everything read or written, or they end
    the process. *)
From S2P Require Import Prelude Util Constants Memory Registers Trace Core.
From S2P Require Import LoadStore Branch Instruction Gdb Sys Csapp Rio RioSpec.

Section Errors.
Context {K A : Type} `{Kernel K}.

(** The process ends with an error, because of what its last call replied,
    which [failed] says: the status is 0 all the same. *)
Definition ends_with_error {X} (m : Sys (world K A) X) (w w' : world K A)
    (msg : string) (failed : world K A -> world K A -> Prop) : Prop :=
  m w = Quit 0 w' /\ w_app w' = w_app w /\ failed w w' /\
  w_stderr w' = w_stderr w ++ [msg +:+ ": " +:+ strerror (w_errno w') +:+ newline].

(** Printing is no call. *)
Definition on_calls (failed : world K A -> world K A -> Prop) : Prop :=
  forall w w1 w2, failed w w1 -> w_calls w2 = w_calls w1 -> w_kernel w2 = w_kernel w1 ->
    failed w w2.
Lemma on_calls_ended c bad : on_calls (ended_by c bad).
Proof. intros w w1 w2 (cs & [C1 K1] & Hb) C2 K2. exists cs. by rewrite <- C2, <- K2 in *. Qed.
Lemma on_calls_read fd : on_calls (failed_read fd).
Proof. apply on_calls_ended. Qed.
Lemma on_calls_write fd : on_calls (failed_write fd).
Proof. intros w w1 w2 (bs & H1) C2 K2. exists bs. by eapply on_calls_ended. Qed.

Lemma unix_error_ends {X Y} (m : Sys (world K A) Y) (k : Y -> Sys (world K A) X) w y w1 msg
    (failed : world K A -> world K A -> Prop) :
  m w = Done y w1 -> silent w w1 -> k y = unix_error msg -> failed w w1 ->
  on_calls failed ->
  exists w', ends_with_error (m ≫= k) w w' msg failed /\ w_kernel w' = w_kernel w1.
Proof.
  intros E (Ha & He & _) Hk Hf Hw. unfold ends_with_error.
  rewrite (sys_done _ _ _ _ _ E), Hk.
  eexists. split; [split; [done|]|done]. cbn. rewrite Ha, He.
  split_and!; [done| |done]. by eapply Hw.
Qed.

(** C33. [Rio_writen] does what the protocol assumes of it: on a descriptor
    whose writes may be short and interrupted, it ends within as many calls as
    there are bytes and interruptions, and then the descriptor has received
    what the model of the connection records, in order and once; or the process
    exits, with status 0 and a message, a proper prefix being out, and then the
    last of its calls is a write that failed and was not interrupted. *)
Theorem Rio_writen_refines fd (O : Output K fd) fuel bs (w : world K A) g :
  (length bs + write_patience (w_kernel w) < fuel)%nat ->
  g_out g = written (w_kernel w) ->
  (exists w' g', Rio.Rio_writen fuel fd bs w = Done () w' /\ silent w w' /\
     Gdb.Rio_writen bs g = Ok () g' /\ g_out g' = written (w_kernel w')) \/
  (exists w' m, ends_with_error (Rio.Rio_writen fuel fd bs) w w' "Rio_writen error"
       (failed_write fd) /\
     (m < length bs)%nat /\ written (w_kernel w') = g_out g ++ take m bs).
Proof.
  intros Hf Hg. rewrite Hg.
  destruct (writen_loop_spec fd fuel bs w Hf) as (ok & m & w1 & E & Hs & Hw & Hok).
  set (rc := if ok : bool then Z.of_nat (length bs) else -1).
  assert (rio_writen fuel fd bs w = Done rc w1) as E1
    by (unfold rio_writen; by rewrite (sys_done _ _ _ _ _ E)).
  destruct ok.
  - left. eexists w1, _. unfold Rio.Rio_writen. rewrite (sys_done _ _ _ _ _ E1).
    rewrite Z.eqb_refl. split; [done|]. split; [done|]. split; [done|].
    simpl. by rewrite Hw, Hg, Hok, firstn_all.
  - right. destruct Hok as [Hm Hbad].
    destruct (unix_error_ends (rio_writen fuel fd bs)
      (fun rc => if rc =? Z.of_nat (length bs) then mret () else unix_error "Rio_writen error")
      w rc w1 "Rio_writen error" (failed_write fd) E1 Hs) as (w' & Hend & Hk).
    { unfold rc. by destruct (Z.eqb_spec (-1) (Z.of_nat (length bs))); [lia|]. }
    { done. }
    { apply on_calls_write. }
    exists w', m. by rewrite Hk.
Qed.

(** C32. [Rio_readnb] reads exactly: it ends, with the next [n] bytes of the
    buffer and of the descriptor, or with all of them when there are fewer, and
    leaves the others to be read, however they arrive; or the process exits,
    with status 0 and a message, and then the last of its calls is a read that
    failed and was not interrupted. *)
Theorem Rio_readnb_total fd (I : Input K fd) fuel rp n (w : world K A) :
  rio_wf fd rp -> 0 <= n < 2 ^ 64 ->
  (Z.to_nat n + read_patience (w_kernel w) + 1 < fuel)%nat ->
  (exists rp' w', let bs := take (Z.to_nat n) (pending fd rp w) in
     Rio_readnb fuel rp n w = Done (Z.of_nat (length bs), bs, rp') w' /\ silent w w' /\
     rio_wf fd rp' /\ pending fd rp' w' = drop (Z.to_nat n) (pending fd rp w)) \/
  (exists w', ends_with_error (Rio_readnb fuel rp n) w w' "Rio_readnb error"
     (failed_read fd)).
Proof.
  intros Hw Hn Hf.
  destruct (readnb_loop_spec fd fuel rp n [] w Hw Hn Hf)
    as (o & cs & rp1 & w1 & E & Hs & Hw1 & Hp & Ho). cbn [app] in E.
  set (rc := match o with Some r => n - r | None => -1 end).
  assert (rio_readnb fuel rp n w = Done (rc, cs, rp1) w1) as E1
    by (unfold rio_readnb; by rewrite (sys_done _ _ _ _ _ E)).
  destruct o as [r|].
  - left. destruct Ho as (Hr & Hr0 & Hnil). exists rp1, w1. cbv zeta.
    assert (take (Z.to_nat n) (pending fd rp w) = cs /\
            drop (Z.to_nat n) (pending fd rp w) = pending fd rp1 w1) as [-> ->].
    { rewrite Hp. destruct (Z.eqb_spec r 0) as [H0|H0].
      - replace (Z.to_nat n) with (length cs) by lia.
        by rewrite take_app_length, drop_app_length.
      - rewrite (Hnil ltac:(lia)), app_nil_r.
        rewrite take_ge, drop_ge by lia. done. }
    split_and!; try done. unfold Rio_readnb. rewrite (sys_done _ _ _ _ _ E1). cbv beta iota.
    replace rc with (Z.of_nat (length cs)) by (unfold rc; lia).
    by destruct (Z.ltb_spec (Z.of_nat (length cs)) 0); [lia|].
  - right. destruct (unix_error_ends (rio_readnb fuel rp n)
      (fun '(rc, bs, rp) => if rc <? 0 then unix_error "Rio_readnb error" else mret (rc, bs, rp))
      w (rc, cs, rp1) w1 "Rio_readnb error" (failed_read fd) E1 Hs eq_refl (proj2 Ho)
      (on_calls_read fd)) as (w' & Hend & _).
    by exists w'.
Qed.

(** C31. [Rio_readlineb] stores the next line, its newline included and cut at
    [maxlen - 1] bytes, and a 0 after it, and consumes nothing more.  What it
    returns is the number of bytes of the line only if the line ends with a
    newline: at the end of the input, or for a line that is cut, it returns one
    more, and a [maxlen] of 0 does not keep it from storing the 0.  Otherwise
    the process exits, with status 0 and a message, and then the last of its
    calls is a read that failed and was not interrupted. *)
Theorem Rio_readlineb_total fd (I : Input K fd) fuel rp maxlen (w : world K A) :
  rio_wf fd rp -> maxlen < 2 ^ 31 ->
  (Z.to_nat (maxlen - 1) + read_patience (w_kernel w) + 1 < fuel)%nat ->
  let k := Z.to_nat (maxlen - 1) in
  let p := pending fd rp w in
  let l := line k p in
  (exists rp' w',
     Rio_readlineb fuel rp maxlen w = Done (line_result 1 k p, line_stored 1 k p, rp') w' /\
     silent w w' /\ rio_wf fd rp' /\ p = l ++ pending fd rp' w' /\
     (p <> [] -> (0 < k)%nat -> line_stored 1 k p = l ++ [0] /\
        line_result 1 k p = Z.of_nat (length l) + (if bool_decide (10 ∈ l) then 0 else 1))) \/
  (exists w', ends_with_error (Rio_readlineb fuel rp maxlen) w w' "Rio_readlineb error"
     (failed_read fd)).
Proof.
  intros Hw Hmax Hf k p l.
  destruct (readline_loop_spec fd fuel rp 1 maxlen [] w Hw ltac:(lia) Hmax Hf)
    as (rc & out & rp1 & w1 & E & Hs & Hw1 & Hcases). cbn [app] in E.
  fold k p in Hcases. fold l in Hcases.
  assert (rio_readlineb fuel rp maxlen w = Done (rc, out, rp1) w1) as E1 by exact E.
  destruct Hcases as [(Hp & Hrc & Hout)|(_ & -> & Hbad)].
  - left. exists rp1, w1. split; [|split; [done|split; [done|split; [done|]]]].
    + unfold Rio_readlineb. rewrite (sys_done _ _ _ _ _ E1). cbv beta iota.
      rewrite <- Hrc, <- Hout.
      assert (0 <= rc); [|by destruct (Z.ltb_spec rc 0); [lia|]].
      rewrite Hrc. unfold line_result. cbv zeta. case_bool_decide; [lia|].
      destruct (no_line 1 k p); lia.
    + intros Hne Hk. unfold line_stored, line_result, no_line. cbv zeta.
      rewrite (bool_decide_eq_false_2 (p = [])), andb_false_r by done.
      cbn [andb]. split; [done|]. change (line k p) with l.
      destruct (bool_decide (10 ∈ l)); lia.
  - right. destruct (unix_error_ends (rio_readlineb fuel rp maxlen)
      (fun '(rc, bs, rp) => if rc <? 0 then unix_error "Rio_readlineb error" else mret (rc, bs, rp))
      w (-1, out, rp1) w1 "Rio_readlineb error" (failed_read fd) E1 Hs eq_refl Hbad
      (on_calls_read fd)) as (w' & Hend & _).
    by exists w'.
Qed.
End Errors.
