(* ===== verification/NetTheorems.v ===== *)
(** * Properties of the connections

    What the programs ask of the system, whatever it replies: the calls
    [create_server], [gdb_listener] and [send_irq_main] make and where they
    stop; and what the listeners do with the bytes that arrive. *)
From S2P Require Import Prelude Util Constants Memory Registers Trace Core.
From S2P Require Import LoadStore Branch Instruction Gdb Scanner Server Sys.
From S2P Require Import Csapp.
From S2P Require Import Rio RioSpec Socket Delivery Service Net.

Section Outcomes.
Context {K A : Type} `{Kernel K}.
Abbreviation W := (world K A).

(** Ends after the calls [cs], with the value [x]. *)
Definition went_on {X} (m : Sys W X) (w : W) (cs : list syscall) (x : X) (w' : W) : Prop :=
  m w = Done x w' /\ ran cs w w' /\ silent w w'.
(** Exits after the calls [cs], having printed one message. *)
Definition gave_up {X} (m : Sys W X) (w : W) (cs : list syscall) (code : Z) : Prop :=
  exists w' msg, m w = Quit code w' /\ ran cs w w' /\
    w_app w' = w_app w /\ w_stderr w' = w_stderr w ++ [msg].

Definition syscall_of (name : string) (args : list arg) : syscall :=
  {| sys_name := name; sys_args := args |}.

(** ** Where a sequence of calls stops

    What a call returns to report an error: a number below 0, a null pointer,
    or nothing that is looked at. *)
Inductive checking := Negative | Null | Unchecked.
Definition refuses (c : checking) (v : Z) : Prop :=
  match c with Negative => v < 0 | Null => v = 0 | Unchecked => False end.
#[export] Instance refuses_dec c v : Decision (refuses c v).
Proof. destruct c; cbn [refuses]; apply _. Defined.

(** How many calls are made when one of them fails: those up to the first that
    is checked and reports an error. *)
Fixpoint first_failure (cs : list checking) (rs : list reply) : option nat :=
  match cs, rs with
  | c :: cs, r :: rs =>
      if decide (refuses c (rv r)) then Some 1%nat
      else Datatypes.S <$> first_failure cs rs
  | _, _ => None
  end.

Lemma first_failure_le cs rs n : first_failure cs rs = Some n -> (1 <= n <= length cs)%nat.
Proof.
  revert rs n. induction cs as [|c cs IH]; intros [|r rs] n E; try done. cbn in E.
  case_decide; [injection E as <-; simpl; lia|].
  apply fmap_Some in E as (m & E & ->). apply IH in E. simpl. lia.
Qed.
(** A call whose reply is not looked at does not fail. *)
Lemma first_failure_checked cs n2 rs n :
  first_failure (cs ++ replicate n2 Unchecked) rs = Some n -> (n <= length cs)%nat.
Proof.
  revert rs n. induction cs as [|c cs IH]; intros rs n E; cbn [app] in E.
  - exfalso. revert rs n E. induction n2 as [|n2 IH]; intros [|r rs] n E; try done.
    cbn in E. case_decide as Hr; [by destruct Hr|].
    apply fmap_Some in E as (m & E & _). by eapply IH.
  - destruct rs as [|r rs]; [done|]. cbn in E. case_decide; [injection E as <-; simpl; lia|].
    apply fmap_Some in E as (m & E & ->). apply IH in E. simpl. lia.
Qed.
Lemma first_failure_app cs1 cs2 rs1 rs2 :
  length cs1 = length rs1 ->
  first_failure (cs1 ++ cs2) (rs1 ++ rs2) =
    match first_failure cs1 rs1 with
    | Some n => Some n
    | None => Nat.add (length cs1) <$> first_failure cs2 rs2
    end.
Proof.
  revert rs1. induction cs1 as [|c cs1 IH]; intros [|r rs1] Hl; try done.
  - cbn. by destruct (first_failure cs2 rs2).
  - cbn. case_decide; [done|]. injection Hl as Hl. rewrite (IH rs1 Hl).
    by destruct (first_failure cs1 rs1), (first_failure cs2 rs2).
Qed.

(** The calls [cs] are made, each checked as [chks] says, up to the first that
    fails: if none does, [m] ends with a value and a state in [Q]; otherwise the
    process exits there, with status 0 and one message. *)
Definition outcome_of {X} (m : Sys W X) (w : W) (cs : list syscall)
    (chks : list checking) (Q : X -> W -> Prop) : Prop :=
  match first_failure chks (replies cs (w_kernel w)) with
  | None => exists x w', went_on m w cs x w' /\ Q x w'
  | Some n => gave_up m w (take n cs) 0
  end.

Lemma call_went_on name args (w : W) :
  let c := syscall_of name args in
  exists w', went_on (call name args) w [c] (reply_to c (w_kernel w)) w'.
Proof.
  intros c. unfold went_on, call, reply_to, c, syscall_of.
  destruct (kernel_call _ (w_kernel w)) as [r k] eqn:E. eexists.
  split; [done|]. split; [by apply ran_called|by apply silent_called].
Qed.

Lemma went_on_ret {X} (x : X) (w : W) : went_on (mret x) w [] x w.
Proof. split; [done|]. split; [by apply ran_same|reflexivity]. Qed.
Lemma went_on_bind {X Y} (m : Sys W X) (k : X -> Sys W Y) w cs x w1 cs2 y w2 :
  went_on m w cs x w1 -> went_on (k x) w1 cs2 y w2 -> went_on (m ≫= k) w (cs ++ cs2) y w2.
Proof.
  intros (E & R & Hs) (E2 & R2 & Hs2). unfold went_on.
  rewrite (sys_done _ _ _ _ _ E), E2.
  split; [done|]. split; [by eapply ran_trans|by transitivity w1].
Qed.
Lemma gave_up_bind {X Y} (m : Sys W X) (k : X -> Sys W Y) w cs code :
  gave_up m w cs code -> gave_up (m ≫= k) w cs code.
Proof.
  intros (w' & msg & E & H1). exists w', msg. by rewrite (sys_quit _ _ _ _ _ E).
Qed.
Lemma gave_up_after {X Y} (m : Sys W X) (k : X -> Sys W Y) w cs x w1 cs2 code :
  went_on m w cs x w1 -> gave_up (k x) w1 cs2 code -> gave_up (m ≫= k) w (cs ++ cs2) code.
Proof.
  intros (E & R & Ha & He & _) (w2 & msg & E2 & R2 & Ha2 & He2). exists w2, msg.
  rewrite (sys_done _ _ _ _ _ E), E2, Ha2, Ha, He2, He.
  split; [done|]. split; [by eapply ran_trans|done].
Qed.
(** Nothing more follows. *)
Lemma went_on_last {X Y} (m : Sys W X) (k : X -> Sys W Y) w cs x y w1 :
  went_on m w cs x w1 -> k x = mret y -> went_on (m ≫= k) w cs y w1.
Proof.
  intros H1 Hk. rewrite <- (app_nil_r cs). eapply went_on_bind; [exact H1|].
  rewrite Hk. apply went_on_ret.
Qed.

(** An error function prints one message and exits with status 0. *)
Definition errs {X} (m : Sys W X) : Prop := forall w, gave_up m w [] 0.
Lemma errs_unix {X} msg : errs (X := X) (unix_error msg).
Proof. intros w. eexists _, _. split; [done|]. split; [by apply ran_same|done]. Qed.
Lemma errs_dns {X} msg : errs (X := X) (dns_error msg).
Proof. intros w. eexists _, _. split; [done|]. split; [by apply ran_same|done]. Qed.

(** The sequence of a call and of what follows. *)
Lemma outcome_bind {X Y} (m : Sys W X) (k : X -> Sys W Y) w c chk cs chks Q1 Q :
  outcome_of m w [c] [chk] Q1 ->
  (forall x w1, Q1 x w1 -> ran [c] w w1 -> outcome_of (k x) w1 cs chks Q) ->
  outcome_of (m ≫= k) w (c :: cs) (chk :: chks) Q.
Proof.
  unfold outcome_of. cbn [replies first_failure]. intros Hm Hk.
  case_decide; [by apply gave_up_bind|]. cbn [fmap option_fmap option_map] in Hm.
  destruct Hm as (x & w1 & Hw & H1). pose proof Hw as (_ & R & _).
  specialize (Hk x w1 H1 R). destruct R as [_ Ek]. cbn [after_calls] in Ek. rewrite Ek in Hk.
  destruct (first_failure chks _) as [n|]; cbn [fmap option_fmap option_map].
  - cbn [take]. by eapply (gave_up_after _ _ _ [c]).
  - destruct Hk as (y & w2 & H2 & HQ). exists y, w2.
    split; [by eapply (went_on_bind _ _ _ [c])|done].
Qed.
Lemma outcome_ret {X} (x : X) (w : W) (Q : X -> W -> Prop) :
  Q x w -> outcome_of (mret x) w [] [] Q.
Proof. intros HQ. exists x, w. split; [apply went_on_ret|done]. Qed.
(** Only the value is changed. *)
Lemma outcome_last {X Y} (m : Sys W X) (f : X -> Y) w cs chks (Q : Y -> W -> Prop) :
  outcome_of m w cs chks (fun x w' => Q (f x) w') ->
  outcome_of (x ← m; mret (f x)) w cs chks Q.
Proof.
  unfold outcome_of. destruct (first_failure chks _); [apply gave_up_bind|].
  intros (x & w' & Hw & HQ). exists (f x), w'. split; [by eapply went_on_last|done].
Qed.

Lemma checked_outcome {X} name args chk (failed : Z -> bool) (error : Sys W X)
    (value : reply -> X) (w : W) :
  let c := syscall_of name args in
  (forall v, refuses chk v <-> failed v = true) -> errs error ->
  outcome_of (r ← call name args; if failed (rv r) then error else mret (value r)) w
    [c] [chk] (fun x _ => x = value (reply_to c (w_kernel w))).
Proof.
  intros c Hf He. destruct (call_went_on name args w) as (w1 & H1).
  unfold outcome_of. cbn [replies first_failure]. fold c in H1 |- *. set (r := reply_to c _) in *.
  case_decide as Hr; cbn [fmap option_fmap option_map].
  - apply Hf in Hr. cbn [take].
    eapply (gave_up_after _ _ _ [c] _ _ []); [exact H1|]. by rewrite Hr.
  - exists (value r), w1. split; [|done]. eapply went_on_last; [exact H1|].
    destruct (failed (rv r)) eqn:E; [|done]. by apply Hf in E.
Qed.
Lemma unix_call_outcome name args msg (w : W) :
  let c := syscall_of name args in
  outcome_of (unix_call name args msg) w [c] [Negative]
    (fun v _ => v = rv (reply_to c (w_kernel w))).
Proof.
  apply (checked_outcome name args Negative negative (unix_error msg) rv);
    [intros v; symmetry; apply Z.ltb_lt|apply errs_unix].
Qed.
(** The same, its value being dropped. *)
Lemma unix_do_outcome name args msg (w : W) :
  outcome_of (unix_call name args msg;; mret ()) w [syscall_of name args] [Negative]
    (fun _ _ => True).
Proof.
  apply (outcome_last _ (fun _ => ())). pose proof (unix_call_outcome name args msg w) as H1.
  cbv zeta in H1. unfold outcome_of in *. destruct (first_failure _ _); [done|].
  destruct H1 as (x & w' & H1 & _). by exists x, w'.
Qed.
Lemma call_outcome name args (w : W) :
  let c := syscall_of name args in
  outcome_of (call name args) w [c] [Unchecked]
    (fun r _ => r = reply_to c (w_kernel w)).
Proof.
  intros c. unfold outcome_of. cbn [replies first_failure].
  destruct (decide (refuses Unchecked _)) as [[]|_]. cbn [fmap option_fmap option_map].
  destruct (call_went_on name args w) as (w1 & H1). by eexists _, w1.
Qed.
Lemma bare_call_outcome name args (w : W) :
  outcome_of (bare_call name args) w [syscall_of name args] [Unchecked] (fun _ _ => True).
Proof.
  apply (outcome_last _ rv). unfold outcome_of. cbn [replies first_failure].
  destruct (decide (refuses Unchecked _)) as [[]|_]. cbn [fmap option_fmap option_map].
  destruct (call_went_on name args w) as (w1 & H1). by eexists _, w1.
Qed.
End Outcomes.

(** One call, then the rest. *)
Tactic Notation "next_call" uconstr(H) "as" simple_intropattern_list(l) :=
  eapply outcome_bind; [apply H|cbv beta zeta; intros l].
Tactic Notation "next_call" uconstr(H) := next_call H as ? ? ? ?.

(** ** create_server *)

Section Server.
Context `{T : Target} {K A : Type} `{Kernel K}.

Definition socket_call : syscall :=
  syscall_of "socket" [Int AF_INET; Int SOCK_STREAM; Int 0].
Definition reuse_call (fd : Z) : syscall :=
  syscall_of "setsockopt" [Int fd; Int SOL_SOCKET; Int SO_REUSEADDR; Int 1; Int 4].
(** The descriptor the system gives. *)
Definition new_socket (k : K) : Z := rv (reply_to socket_call k).

(** The calls of [create_server], on the descriptor it gets. *)
Definition server_calls (port fd : Z) : list syscall :=
  [socket_call; reuse_call fd;
   syscall_of "bind" (Int fd :: sockaddr_in (htons port) (Int (htonl INADDR_ANY))
                        ++ [Int SIZE_SOCKADDR_IN]);
   syscall_of "getsockname" [Int fd];
   syscall_of "listen" [Int fd; Int 1]].
(** The reply to getsockname is not looked at. *)
Definition server_checks : list checking :=
  [Negative; Negative; Negative; Unchecked; Negative].

(** [create_server] opens a listening socket or ends the process: it makes
    its five calls in order, all on the descriptor of the first, and returns that
    descriptor; or, exactly if one of the four checked calls fails, it stops there,
    prints one message and exits with status 0. *)
Lemma create_server_outcome port (w : world K A) :
  let fd := new_socket (w_kernel w) in
  outcome_of (create_server port) w (server_calls port fd) server_checks
    (fun s _ => socket s = fd).
Proof.
  intros fd. unfold create_server, Socket, Setsockopt, Bind, Listen, server_calls, server_checks.
  next_call unix_call_outcome as v w1 -> _. fold socket_call (new_socket (w_kernel w)).
  next_call unix_do_outcome. next_call unix_do_outcome. next_call call_outcome.
  next_call unix_do_outcome. by apply outcome_ret.
Qed.
End Server.

(** ** The irq listener *)

Section Irq.
Context `{T : Target} {K : Type} `{Kernel K}.

(** A call that does not read. *)
Lemma mutex_call fd (I : Input K fd) name (w : world K scanner) :
  name <> "read"%string ->
  exists w', (bare_call name [];; mret ()) w = Done () w' /\ silent w w' /\
    unread (w_kernel w') = unread (w_kernel w).
Proof.
  intros Hn. pose proof (read_only (syscall_of name []) (w_kernel w) Hn) as L.
  unfold bare_call. rewrite !sys_eq. unfold call. fold (syscall_of name []).
  destruct (kernel_call (syscall_of name []) (w_kernel w)) as [r k] eqn:E.
  destruct L as [L _]. eexists. split; [done|]. split; [by apply silent_called|done].
Qed.

(** An exception is raised with the lock held. *)
Lemma locked_interrupt fd (I : Input K fd) b (w : world K scanner) s :
  interrupt b (w_app w) = Ok () s ->
  exists w' cs, w_app w' = s /\ unread (w_kernel w') = unread (w_kernel w) /\
    ran cs w w' /\ w_stderr w' = w_stderr w /\
    forall X (k : Sys (world K scanner) X),
      (pthread_mutex_lock;; on_app (interrupt b);; pthread_mutex_unlock;; k) w = k w'.
Proof.
  intros E. destruct (mutex_call fd I "pthread_mutex_lock" w)
    as (w1 & E1 & (A1 & S1 & cs1 & R1) & U1); [done|].
  set (w2 := with_app s w1).
  destruct (mutex_call fd I "pthread_mutex_unlock" w2)
    as (w3 & E3 & (A3 & S3 & cs3 & R3) & U3); [done|].
  exists w3, (cs1 ++ cs3). split; [by rewrite A3|]. split; [by rewrite U3|].
  split; [eapply ran_trans; [exact R1|exact R3]|]. split; [by rewrite S3|]. intros X k.
  rewrite (sys_done _ _ _ _ _ E1), (sys_done _ _ _ () w2), (sys_done _ _ _ _ _ E3);
    [done|]. unfold on_app. by rewrite A1, E.
Qed.

Definition irq_activities (bs : list Z) : list activity := IrqByte <$> bs.

(** C17. A connection to the irq port raises the exceptions whose numbers
    arrive, in order and each once.  The listener leaves the connection only when
    a read returns 0, the other end having closed it: everything that arrived has
    been raised then.  The whole process ends, with status 0 and one message,
    only when a read fails (an interrupted one included): that read is its last
    call, and what arrived before it has been raised. *)
Theorem irq_connection_spec fd (I : Input K fd) fuel f (w : world K scanner) s :
  (length (unread (w_kernel w)) < fuel)%nat ->
  activities f (irq_activities (unread (w_kernel w))) (w_app w) = Ok () s ->
  (exists w', irq_connection fuel fd w = Done () w' /\ w_app w' = s /\
     unread (w_kernel w') = [] /\ w_stderr w' = w_stderr w /\
     ended_by (read_call fd 1) (fun r => rv r = 0) w w') \/
  (exists w' m s1, irq_connection fuel fd w = Quit 0 w' /\
     activities f (irq_activities (take m (unread (w_kernel w)))) (w_app w) = Ok () s1 /\
     w_app w' = s1 /\ unread (w_kernel w') = drop m (unread (w_kernel w)) /\
     w_stderr w' = w_stderr w ++
       ["Read error" +:+ ": " +:+ strerror (w_errno w') +:+ newline] /\
     ended_by (read_call fd 1) (fun r => rv r < 0) w w').
Proof.
  revert w. induction fuel as [|fuel IH]; intros w Hf Ha; [lia|].
  cbn [irq_connection]. unfold Read.
  destruct (read_once fd 1 w) as (r & w1 & E & (Happ & Herr & cs1 & R1) & He & Hend & Hcases);
    [done|].
  rewrite sys_eq, (sys_done _ _ _ _ _ E). unfold negative.
  destruct Hcases as [(m & Hrv & Hm & Hle & Hlen & Hd & Hu & _)
                     |[(Hrv & Hu0 & Hd & Hu & _)|(Hrv & Hd & Hu & _)]].
  - assert (m = 1%nat) as -> by lia. rewrite Hrv. change (Z.of_nat 1) with 1.
    destruct (unread (w_kernel w)) as [|b bs] eqn:Eu; [simpl in Hlen; lia|].
    rewrite Hd. change (1 <? 0) with false. cbn [take mret Sys_ret].
    change (0 <? 1) with true. cbv iota.
    cbn [irq_activities fmap list_fmap activities activity_run] in Ha.
    apply bind_inv in Ha as ([] & s1 & E1 & E2). rewrite <- Happ in E1.
    rewrite (sys_done _ _ w1 b w1) by done.
    destruct (locked_interrupt fd I b w1 s1 E1) as (w2 & cs2 & Ha2 & Hu2 & R2 & He2 & E3).
    rewrite E3. cbn [drop] in Hu. rewrite drop_0 in Hu. rewrite Hu in Hu2. simpl in Hf.
    pose proof (ran_trans _ _ _ _ _ R1 R2) as R.
    destruct (IH w2) as [(w' & E' & Ha' & Hu' & He' & Hl')
                        |(w' & n & s' & E' & Hs' & Ha' & Hu' & He' & Hl')].
    { rewrite Hu2. lia. }
    { by rewrite Hu2, Ha2. }
    + left. exists w'. split_and!; [done..|congruence|]. by eapply ended_by_after.
    + right. rewrite Hu2, Ha2 in Hs'. rewrite Hu2 in Hu'.
      exists w', (Datatypes.S n), s'. cbn [take drop irq_activities fmap list_fmap activities].
      rewrite Happ in E1. rewrite (bind_ok _ _ _ _ _ E1).
      split_and!; [done..|congruence|]. by eapply ended_by_after.
  - rewrite Hrv. change (0 <? 0) with false. cbn [mret Sys_ret]. left. exists w1.
    rewrite Hu0 in Ha. injection Ha as <-. split_and!; [done..|by apply Hend].
  - destruct (Z.ltb_spec (rv r) 0); [|lia]. right. eexists _, 0%nat, (w_app w).
    split; [done|]. rewrite take_0. cbn. rewrite Herr.
    split_and!; [done..|]. destruct (Hend (fun r => rv r < 0) Hrv) as (cs & [C1 K1] & Hb). by exists cs.
Qed.
End Irq.

(** ** Code that does not write *)

Section Unwritten.
Context {K A : Type} `{Kernel K} (fd : Z) `{!Output K fd}.
Abbreviation W := (world K A).

Definition same_output (w w' : W) : Prop :=
  written (w_kernel w') = written (w_kernel w) /\
  (write_patience (w_kernel w') <= write_patience (w_kernel w))%nat.
Definition Unwritten {X} (m : Sys W X) : Prop :=
  forall w, match m w with Done _ w' | Quit _ w' => same_output w w' | Stuck _ => True end.

Lemma unwritten_ret {X} (x : X) : Unwritten (mret x).
Proof. by split. Qed.
Lemma unwritten_bind {X Y} (m : Sys W X) (k : X -> Sys W Y) :
  Unwritten m -> (forall x, Unwritten (k x)) -> Unwritten (m ≫= k).
Proof.
  intros Hm Hk w. specialize (Hm w). rewrite sys_eq. destruct (m w) as [x w1|c w1|f]; try done.
  specialize (Hk x w1). destruct Hm as [O1 P1].
  destruct (k x w1) as [y w2|c w2|f]; try done; destruct Hk as [O2 P2];
    (split; [by rewrite O2|lia]).
Qed.
Lemma unwritten_if {X} (b : bool) (m1 m2 : Sys W X) :
  Unwritten m1 -> Unwritten m2 -> Unwritten (if b then m1 else m2).
Proof. by destruct b. Qed.
Lemma unwritten_call name args : name <> "write"%string -> Unwritten (call name args).
Proof.
  intros Hn w. unfold call. pose proof (write_only (syscall_of name args) (w_kernel w) Hn) as L.
  unfold syscall_of in L. by destruct (kernel_call _ (w_kernel w)) as [r k].
Qed.
Lemma unwritten_eprint msg : Unwritten (eprint msg).
Proof. by split. Qed.
Lemma unwritten_unix_error {X} msg : Unwritten (unix_error (X := X) msg).
Proof. by split. Qed.
Lemma unwritten_unix_call name args msg :
  name <> "write"%string -> Unwritten (unix_call name args msg).
Proof.
  intros Hn. apply unwritten_bind; [by apply unwritten_call|]. intros r.
  apply unwritten_if; [apply unwritten_unix_error|apply unwritten_ret].
Qed.

Lemma unwritten_done {X} (m : Sys W X) w x w' :
  Unwritten m -> m w = Done x w' -> same_output w w'.
Proof. intros Hm E. specialize (Hm w). by rewrite E in Hm. Qed.
Lemma same_output_trans w1 w2 w3 :
  same_output w1 w2 -> same_output w2 w3 -> same_output w1 w3.
Proof. intros [O1 P1] [O2 P2]. split; [by rewrite O2|lia]. Qed.

Lemma unwritten_create_server `{T : Target} port : Unwritten (create_server port).
Proof.
  unfold create_server, Socket, Setsockopt, Bind, Listen.
  repeat match goal with
  | |- Unwritten (_ ≫= _) => apply unwritten_bind; [|intros ?]
  | |- Unwritten (mret _) => apply unwritten_ret
  | |- Unwritten (call _ _) => by apply unwritten_call
  | |- Unwritten (unix_call _ _ _) => by apply unwritten_unix_call
  end.
Qed.
End Unwritten.

(** ** The gdb listener *)

Section Gdb.
Context `{T : Target} {K : Type} `{Kernel K}.

(** The calls up to the connection, the connection, and the last two calls. *)
Definition accept_call (fd : Z) : syscall := syscall_of "accept" [Int fd].
Definition opening_calls (port fd : Z) : list syscall :=
  server_calls port fd ++ [accept_call fd].
Definition opening_checks : list checking := server_checks ++ [Negative].
Definition new_connection (port : Z) (k : K) : Z :=
  let fd := new_socket k in
  rv (reply_to (accept_call fd) (after_calls (server_calls port fd) k)).
Definition closing_calls (fd connection : Z) : list syscall :=
  [syscall_of "shutdown" [Int connection; Int SHUT_RDWR]; syscall_of "close" [Int fd]].

(** How the listener goes on when the service has ended. *)
Definition listener_end (fd connection : Z) `{!Output K connection}
    (e e' : ending (world K scanner) unit) : Prop :=
  match e with
  | Done _ w2 => exists w', e' = Done () w' /\ same_output connection w2 w' /\
      ran (closing_calls fd connection) w2 w' /\ silent w2 w'
  | Quit c w2 => e' = Quit c w2
  | Stuck f => e' = Stuck f
  end.

(** The calls that open the connection; a line is printed before accept. *)
Lemma opening_outcome port (w : world K scanner) :
  let m := (server ← create_server port;
            eprint ("Listening to gdb connection on port " +:+ fmt_d (Net.port server)
                    +:+ newline);;
            c ← Accept (socket server); mret (socket server, c)) in
  let fd := new_socket (w_kernel w) in
  let cs := opening_calls port fd in
  match first_failure opening_checks (replies cs (w_kernel w)) with
  | None => exists w1 line, m w = Done (fd, new_connection port (w_kernel w)) w1 /\
      ran cs w w1 /\ w_app w1 = w_app w /\ w_stderr w1 = w_stderr w ++ [line] /\
      forall c (O : Output K c), same_output c w w1
  | Some n => exists w1 lines, m w = Quit 0 w1 /\
      ran (take n cs) w w1 /\ w_app w1 = w_app w /\ w_stderr w1 = w_stderr w ++ lines /\
      length lines = if decide (n = 6%nat) then 2%nat else 1%nat
  end.
Proof.
  intros m fd cs. unfold m, cs, opening_calls, opening_checks.
  rewrite replies_app, first_failure_app by done.
  pose proof (create_server_outcome port w) as C. cbv zeta in C. fold fd in C.
  unfold outcome_of in C. destruct (first_failure server_checks _) as [n|] eqn:En.
  { apply first_failure_le in En. destruct C as (w1 & msg & E & R & Ha & He).
    exists w1, [msg]. rewrite (sys_quit _ _ _ _ _ E).
    rewrite take_app_le by (simpl in *; lia). split_and!; [done..|].
    destruct (decide (n = 6%nat)); [simpl in En; lia|done]. }
  destruct C as (sv & w1 & (E1 & R1 & Ha1 & He1 & _) & Hfd). rewrite (sys_done _ _ _ _ _ E1).
  set (line := (_ +:+ fmt_d _ +:+ _)%string).
  set (w2 := World (w_kernel w1) (w_errno w1) (w_herrno w1) (w_stderr w1 ++ [line])
               (w_calls w1) (w_app w1)).
  rewrite (sys_done _ _ w1 () w2) by done. unfold Accept. rewrite Hfd.
  assert (w_kernel w2 = after_calls (server_calls port fd) (w_kernel w)) as Ek by apply R1.
  pose proof (unix_call_outcome "accept" [Int fd] "Accept error" w2) as C. cbv zeta in C.
  fold (accept_call fd) in C. unfold outcome_of in C. rewrite Ek in C. cbn [fst snd] in *.
  destruct (first_failure [Negative] _) as [n|] eqn:En2; cbn [fmap option_fmap option_map].
  - apply first_failure_le in En2. assert (n = 1%nat) as -> by (simpl in En2; lia).
    destruct C as (w3 & msg & E3 & R3 & Ha3 & He3). exists w3, [line; msg].
    rewrite (sys_quit _ _ _ _ _ E3). split; [done|].
    split; [exact (ran_trans _ [_] w w2 w3 R1 R3)|].
    split; [by rewrite Ha3|]. split; [|done]. rewrite He3. cbn. by rewrite He1, <- app_assoc.
  - destruct C as (c & w3 & (E3 & R3 & Ha3 & He3 & _) & ->). exists w3, line.
    rewrite (sys_done _ _ _ _ _ E3). split; [done|].
    split; [exact (ran_trans _ [_] w w2 w3 R1 R3)|]. split; [by rewrite Ha3|].
    split; [rewrite He3; cbn; by rewrite He1|]. intros c O.
    apply (same_output_trans _ _ w1); [by eapply unwritten_done, E1;
      apply unwritten_create_server|].
    assert (same_output c w2 w3) as H3; [|exact H3].
    eapply unwritten_done, E3. by apply unwritten_unix_call.
Qed.

Lemma closing_run fd connection (O : Output K connection) (w : world K scanner) :
  exists w', (bare_call "shutdown" [Int connection; Int SHUT_RDWR];;
              bare_call "close" [Int fd];; mret ()) w = Done () w' /\
    same_output connection w w' /\
    ran (closing_calls fd connection) w w' /\ silent w w'.
Proof.
  assert (outcome_of (bare_call "shutdown" [Int connection; Int SHUT_RDWR];;
            bare_call "close" [Int fd];; mret ()) w (closing_calls fd connection)
            [Unchecked; Unchecked] (fun _ _ => True)) as C.
  { next_call bare_call_outcome. next_call bare_call_outcome. by apply outcome_ret. }
  unfold outcome_of in C. cbn [closing_calls replies first_failure] in C.
  repeat match type of C with context [decide ?P] => destruct (decide P) as [[]|_] end.
  destruct C as ([] & w' & (E & R & Hs) & _). exists w'.
  split; [exact E|]. split; [|by split].
  eapply (unwritten_done connection); [|exact E].
  assert (forall name args, name <> "write"%string ->
    Unwritten (A := scanner) connection (bare_call name args)) as Hu.
  { intros name args Hn. apply unwritten_bind; [by apply unwritten_call|].
    intros r. apply unwritten_ret. }
  apply unwritten_bind; [by apply Hu|intros _].
  apply unwritten_bind; [by apply Hu|intros _; apply unwritten_ret].
Qed.

(** C15. The gdb listener serves one connection.  It makes six calls to open
    it, on the descriptor the first returns; exactly if one of them fails,
    getsockname apart, the process stops there and exits with status 0, with an
    error message and the simulator as it was.  Otherwise it runs the connection
    on the descriptor accept returned: everything the scanner answers is sent and
    the listener shuts the connection down and closes its socket, in the state of
    the scanner; or a write failed, the last call, and the process is over with a
    part of the answers sent; or fdopen failed, and it closes both; or a message
    of a debugged file has no defined text. *)
Theorem gdb_listener_spec (O : forall fd, Output K fd) files fuel signals frs after block buf
    port input (w : world K scanner) s :
  (forall fd, write_patience (fd := fd) (w_kernel w) < signals)%nat ->
  let s0 := gdb_scanner_init (g_sim (sc_gdb (w_app w))) block buf in
  yylex fuel frs after input s0 = Ok () s ->
  let m := gdb_listener files fuel signals frs after block buf port input in
  let fd := new_socket (w_kernel w) in
  let connection := new_connection port (w_kernel w) in
  let cs := opening_calls port fd in
  match first_failure opening_checks (replies cs (w_kernel w)) with
  | None => exists w1 line e, ran cs w w1 /\ w_app w1 = w_app w /\
      w_stderr w1 = w_stderr w ++ [line] /\
      written (fd := connection) (w_kernel w1) = written (fd := connection) (w_kernel w) /\
      connection_run connection files connection s0 s (g_out (sc_gdb s)) w1 e /\
      listener_end fd connection e (m w)
  | Some n => exists w1 lines, m w = Quit 0 w1 /\
      ran (take n cs) w w1 /\ w_app w1 = w_app w /\ w_stderr w1 = w_stderr w ++ lines /\
      length lines = if decide (n = 6%nat) then 2%nat else 1%nat
  end.
Proof.
  intros Hp s0 Es m fd connection cs.
  assert (m w = ((server ← create_server port;
    eprint ("Listening to gdb connection on port " +:+ fmt_d (Net.port server) +:+ newline);;
    c ← Accept (socket server); mret (socket server, c)) ≫= (fun '(fd, connection) =>
      gdb_scanner files fuel signals frs after block buf connection connection input;;
      bare_call "shutdown" [Int connection; Int SHUT_RDWR];;
      bare_call "close" [Int fd];; mret ())) w) as ->.
  { unfold m, gdb_listener. rewrite !sys_eq. destruct (create_server port w) as [sv w1| |];
      try done.
    rewrite !sys_eq. destruct (eprint _ w1) as [[] w2| |]; try done.
    rewrite !sys_eq. by destruct (Accept _ w2). }
  pose proof (opening_outcome port w) as C. cbv zeta in C. fold fd connection cs in C.
  destruct (first_failure opening_checks _) as [n|].
  { destruct C as (w1 & lines & E & C). exists w1, lines. by rewrite (sys_quit _ _ _ _ _ E). }
  destruct C as (w1 & line & E & R & Ha & He & Ho). rewrite (sys_done _ _ _ _ _ E).
  destruct (Ho connection (O connection)) as [Ho1 Ho2].
  exists w1, line. specialize (Hp connection). unfold s0 in Es. rewrite <- Ha in Es.
  pose proof (gdb_scanner_run connection files signals fuel frs after block buf connection
    input w1 s ltac:(lia) Es) as Rn.
  eexists. do 4 (split; [done|]). split; [unfold s0; rewrite <- Ha; exact Rn|].
  rewrite sys_eq. destruct (gdb_scanner _ _ _ _ _ _ _ _ _ _ w1) as [[] w2|c w2|f]; [|done..].
  apply closing_run.
Qed.
End Gdb.

(** ** send_irq *)


(** The exceptions by name, in the words of the ARM manual; the numbers are
    those of arm_constants.h. *)
Definition exception_numbers : list (string * Z) :=
  [("reset", 1); ("undefined instruction", 2); ("software interrupt", 3);
   ("prefetch abort", 4); ("data abort", 5); ("interrupt", 6); ("fast interrupt", 7)]%string.
Definition exception_number (name : string) : option Z :=
  snd <$> head (filter (fun e : string * Z => e.1 = name) exception_numbers).

(** The exception a command line asks for. *)
Definition requested (rest : list string) : option Z :=
  match rest with [] => Some 6 | name :: _ => exception_number name end.

Section SendIrq.
Context `{T : Target} {K A : Type} `{Kernel K}.

Lemma search_name_spec name (w : world K A) :
  search_name 9 name RESET w =
    Done (match exception_number name with Some e => (e, Some name) | None => (8, None) end) w.
Proof.
  unfold exception_number, exception_numbers.
  assert (forall e n, arm_get_exception_name e = Some (Some n) ->
    forall fuel, search_name (Datatypes.S fuel) name e w =
      if bool_decide (n = name) then Done (e, Some n) w
      else search_name fuel name (u8 (e + 1)) w) as Hstep.
  { intros e n E fuel. cbn [search_name]. unfold exception_name. rewrite E.
    rewrite (sys_done _ _ w (Some n) w) by done. by destruct (bool_decide _). }
  unfold RESET. do 7 (erewrite Hstep by reflexivity; rewrite filter_cons;
    case_bool_decide as Hn;
    [subst name; reflexivity
    |destruct (decide _) as [Hd|_]; [by destruct Hn|]; clear Hn]).
  done.
Qed.

Definition irq_calls (host port : string) (e fd : Z) (addr : list Z) : list syscall :=
  [socket_call; reuse_call fd; syscall_of "gethostbyname" [Str host];
   syscall_of "connect" (Int fd :: sockaddr_in (htons (atoi (bytes_of port))) (Bytes addr)
                           ++ [Int SIZE_SOCKADDR_IN]);
   syscall_of "write" [Int fd; Bytes [e]];
   syscall_of "shutdown" [Int fd; Int SHUT_RDWR]; syscall_of "close" [Int fd]].

Lemma exception_number_u8 rest e : requested rest = Some e -> u8 e = e.
Proof.
  unfold requested, exception_number. destruct rest as [|name rest]; [by intros [= <-]|].
  intros E. apply fmap_Some in E as ([n e'] & E & ->).
  apply head_Some_elem_of, list_elem_of_filter in E as [_ E].
  unfold exception_numbers in E. rewrite !elem_of_cons in E.
  by repeat destruct E as [[= -> ->]|E]; [..|apply elem_of_nil in E].
Qed.

Definition host_call (host : string) : syscall := syscall_of "gethostbyname" [Str host].
(** The address the system finds, when it has given a socket. *)
Definition host_address (host : string) (k : K) : list Z :=
  r_data (reply_to (host_call host)
            (after_calls [socket_call; reuse_call (new_socket k)] k)).
(** Of the last two calls the replies are not looked at. *)
Definition irq_checks : list checking :=
  [Negative; Negative; Null; Negative; Negative; Unchecked; Unchecked].

Lemma gethostbyname_outcome host (w : world K A) :
  outcome_of (Gethostbyname host) w [host_call host] [Null]
    (fun h _ => h = let r := reply_to (host_call host) (w_kernel w) in (rv r, r_data r)).
Proof.
  apply (checked_outcome "gethostbyname" [Str host] Null null (dns_error _)
    (fun r => (rv r, r_data r))); [intros v; symmetry; apply Z.eqb_eq|apply errs_dns].
Qed.

Lemma send_irq_to_outcome host port e (w : world K A) :
  let fd := new_socket (w_kernel w) in
  let addr := host_address host (w_kernel w) in
  outcome_of (send_irq_to host port e) w (irq_calls host port (u8 e) fd addr) irq_checks
    (fun _ _ => True).
Proof.
  intros fd addr. unfold send_irq_to, Socket, Setsockopt, Connect, Write, irq_calls, irq_checks.
  next_call unix_call_outcome as v w1 -> R1. fold socket_call (new_socket (w_kernel w)) fd.
  next_call unix_do_outcome as [] w2 _ R2.
  next_call (gethostbyname_outcome host) as h w3 -> _.
  destruct (ran_trans [_] [_] w w1 w2 R1 R2) as [_ ->]. fold (host_address host (w_kernel w)) addr.
  next_call unix_do_outcome. next_call unix_call_outcome.
  next_call bare_call_outcome. next_call bare_call_outcome. by apply outcome_ret.
Qed.

(** C34. [send_irq] sends the number of the exception that is named: with a
    name it knows, or none (the number 6 of an interrupt), it makes its seven
    calls in order, on the socket of the first and to the address of the third,
    the only byte it writes being the number; exactly if one of the first five
    fails, it stops there, with a message and status 0.  With any other name it
    makes no call, prints a message and exits with status 2. *)
Theorem send_irq_spec prog host port rest (w : world K A) :
  let m := send_irq_main (prog :: host :: port :: rest) in
  let cs e := irq_calls host port e (new_socket (w_kernel w)) (host_address host (w_kernel w)) in
  match requested rest with
  | Some e =>
      match first_failure irq_checks (replies (cs e) (w_kernel w)) with
      | None => exists w', went_on m w (cs e) () w'
      | Some n => (n <= 5)%nat /\ gave_up m w (take n (cs e)) 0
      end
  | None => gave_up m w [] 2
  end.
Proof.
  intros m cs. destruct (requested rest) as [e|] eqn:Er.
  2:{ destruct rest as [|name rest]; [done|]. cbn [requested] in Er.
      unfold m, send_irq_main, gave_up. rewrite sys_eq, sys_eq, search_name_spec, Er.
      eexists _, _. split; [done|]. by split; [apply ran_same|]. }
  assert (forall X (k : Z -> Sys (world K A) X),
    ((match rest with
      | [] => mret INTERRUPT
      | name :: _ =>
          '(irq, o) ← search_name 9 name RESET;
          match o with
          | Some _ => mret irq
          | None => eprint ("Unknown irq : " +:+ name +:+ newline);; exit 2
          end
      end) ≫= k) w = k e w) as Hfound.
  { intros X k. destruct rest as [|name rest]; cbn [requested] in Er.
    - injection Er as <-. done.
    - rewrite sys_eq, sys_eq, search_name_spec, Er. done. }
  pose proof (send_irq_to_outcome host port e w) as C. cbv zeta in C.
  rewrite (exception_number_u8 _ _ Er) in C. fold (cs e) in C.
  unfold outcome_of, went_on, gave_up in *.
  assert (m w = send_irq_to host port e w) as -> by (unfold m, send_irq_main; by rewrite Hfound).
  destruct (first_failure irq_checks _) as [n|] eqn:En.
  - split; [|exact C]. by apply (first_failure_checked [_; _; _; _; _] 2) in En.
  - destruct C as ([] & w' & C & _). by exists w'.
Qed.
End SendIrq.
