(* ===== verification/NetExamples.v ===== *)
(** * The connections, on concrete inputs

    The theorems of RioTheorems.v and NetTheorems.v applied to a [pipe], whose
    chunks and scripts show short reads and writes, interruptions and errors. *)
From S2P Require Import Prelude Util Debug Constants Memory Registers Trace.
From S2P Require Import Core.
From S2P Require Import Refine LoadStore Branch Instruction Run Invariant.
From S2P Require Import ArmSpec Correct Execute Examples Gdb Packets Handlers.
From S2P Require Import Access GdbExamples Transfers Scanner Session Wellformed.
From S2P Require Import Server Threads ServerExamples Sys Csapp Rio Socket.
From S2P Require Import Net RioSpec Pipe RioTheorems Stub Delivery Service.
From S2P Require Import NetTheorems.

Definition piped {A} (p : pipe) (a : A) : world pipe A := World p 0 0 [] [] a.

(** The run of [m] ends with a result or an exit in a state that passes [q]. *)
Definition ends {W X} (q : X -> W -> bool) (r : ending W X) : bool :=
  match r with Done x w => q x w | _ => false end.
Definition quits {W X} (q : Z -> W -> bool) (r : ending W X) : bool :=
  match r with Quit c w => q c w | _ => false end.

Lemma ends_quit {W X} q (r : ending W X) c w : r = Quit c w -> ends q r = true -> False.
Proof. by intros ->. Qed.

Definition out_pipe (l : list taking) : pipe :=
  {| p_in := []; p_out := []; p_takes := l; p_replies := [] |}.
Definition in_pipe (l : list chunk) : pipe :=
  {| p_in := l; p_out := []; p_takes := []; p_replies := [] |}.

(** Two bytes, an interruption, one byte, then the rest. *)
Definition slow_writer : world pipe unit := piped (out_pipe [Takes 1; TakesNone; Takes 0]) ().
Definition packet_five : list Z := bytes_of "$S05#b8".

Lemma Rio_writen_refines_witness :
  exists w', Rio.Rio_writen 9 4 packet_five slow_writer = Done () w' /\
    p_out (w_kernel w') = packet_five.
Proof.
  destruct (Rio_writen_refines 4 (pipe_output 4) 9 packet_five slow_writer
    example_gdb) as [(w' & g & E & _ & Eg & Ho)|(w' & m & (E & _) & _)].
  - cbn. lia.
  - reflexivity.
  - exists w'. split; [exact E|]. injection Eg as <-. symmetry. exact Ho.
  - assert (ends (fun _ _ => true) (Rio.Rio_writen 9 4 packet_five slow_writer) = true)
      as Hc by (vm_compute; reflexivity).
    rewrite E in Hc. discriminate Hc.
Defined.

(** Five bytes in three chunks, one of which ends a line. *)
Definition slow_reader : world pipe unit :=
  piped (in_pipe [Arrives 104 [101]; Interrupts; Arrives 10 [120]; Arrives 121 []]) ().
Definition fresh_rio (fd : Z) : rio_t := rio_readinitb fd (zeros RIO_BUFSIZE).

Lemma fresh_rio_wf fd : rio_wf fd (fresh_rio fd).
Proof. apply rio_init_wf, length_replicate. Qed.

Lemma Rio_readnb_total_witness :
  exists rp w', Rio_readnb 6 (fresh_rio 3) 4 slow_reader = Done (4, [104; 101; 10; 120], rp) w' /\
    pending 3 rp w' = [121].
Proof.
  destruct (Rio_readnb_total 3 (pipe_input 3) 7 (fresh_rio 3) 4 slow_reader)
    as [(rp & w' & E & _ & _ & Hp)|(w' & E & _)].
  - apply fresh_rio_wf.
  - lia.
  - cbn. lia.
  - exists rp, w'. split; [exact E|exact Hp].
  - destruct (ends_quit (fun _ _ => true) _ _ _ E). vm_compute. reflexivity.
Defined.

(** The first line, then what is left of the input, which has no newline: for
    it the value returned is one too many. *)
Lemma Rio_readlineb_total_witness :
  (exists rp w', Rio_readlineb 7 (fresh_rio 3) 5 slow_reader
     = Done (3, [104; 101; 10; 0], rp) w' /\ pending 3 rp w' = [120; 121]) /\
  exists rp w', Rio_readlineb 7 (fresh_rio 3) 5 (piped (in_pipe [Arrives 120 [121]]) ())
     = Done (3, [120; 121; 0], rp) w'.
Proof.
  split.
  - destruct (Rio_readlineb_total 3 (pipe_input 3) 7 (fresh_rio 3) 5 slow_reader)
      as [(rp & w' & E & _ & _ & Hp & _)|(w' & E & _)].
    + apply fresh_rio_wf.
    + lia.
    + cbn. lia.
    + exists rp, w'. split; [exact E|]. apply (app_inv_head [104; 101; 10]). symmetry. exact Hp.
    + destruct (ends_quit (fun _ _ => true) _ _ _ E). vm_compute. reflexivity.
  - destruct (ends (fun _ _ => true) (Rio_readlineb 7 (fresh_rio 3) 5
      (piped (in_pipe [Arrives 120 [121]]) ()))) eqn:Hc; [|vm_compute in Hc; discriminate Hc].
    eexists _, _. vm_compute. reflexivity.
Defined.

(** A reset arrives on the irq port, twice, then the connection is closed; a
    second connection breaks after its first byte. *)
Definition irq_world (l : list chunk) : world pipe scanner := piped (in_pipe l) example_scanner.

Lemma irq_connection_spec_witness :
  (exists w', irq_connection 3 3 (irq_world [Arrives 1 []; Arrives 1 []]) = Done () w' /\
     w_app w' = after_run (activities (T := x86) 1 [IrqByte 1; IrqByte 1]) example_scanner) /\
  exists w', irq_connection 3 3 (irq_world [Arrives 1 []; Breaks 104; Arrives 1 []])
      = Quit 0 w' /\
    w_app w' = after_run (activities (T := x86) 1 [IrqByte 1]) example_scanner.
Proof.
  set (s2 := after_run (activities (T := x86) 1 [IrqByte 1; IrqByte 1]) example_scanner).
  assert (activities (T := x86) 1 [IrqByte 1; IrqByte 1] example_scanner = Ok () s2) as E2.
  { vm_compute. reflexivity. }
  split.
  - destruct (irq_connection_spec (T := x86) 3 (pipe_input 3) 3 1
      (irq_world [Arrives 1 []; Arrives 1 []]) s2) as [(w' & E & Ha & _)|(w' & m & s1 & E & _)].
    + cbn. lia.
    + exact E2.
    + exists w'. split; [exact E|exact Ha].
    + destruct (ends_quit (fun _ _ => true) _ _ _ E). vm_compute. reflexivity.
  - destruct (irq_connection_spec (T := x86) 3 (pipe_input 3) 3 1
      (irq_world [Arrives 1 []; Breaks 104; Arrives 1 []]) s2)
      as [(w' & E & _)|(w' & m & s1 & E & Ea & Hw & Hu & _)].
    + cbn. lia.
    + exact E2.
    + assert (quits (fun _ _ => true) (irq_connection 3 3
        (irq_world [Arrives 1 []; Breaks 104; Arrives 1 []])) = true) as Hc
        by (vm_compute; reflexivity).
      rewrite E in Hc. discriminate Hc.
    + exists w'. split; [exact E|]. rewrite Hw.
      assert (quits (fun _ w => bool_decide (unread (fd := 3) (w_kernel w) = [1]))
        (irq_connection 3 3 (irq_world [Arrives 1 []; Breaks 104; Arrives 1 []]))
        = true) as Hc by (vm_compute; reflexivity).
      rewrite E in Hc. cbn [quits] in Hc. apply bool_decide_eq_true in Hc.
      rewrite Hc in Hu. destruct m as [|[|m]]; [discriminate Hu| |destruct m; discriminate Hu].
      change (take 1 _) with [1] in Ea. change (irq_activities [1]) with [IrqByte 1] in Ea.
      change (w_app _) with example_scanner in Ea.
      unfold after_run. rewrite Ea. exact eq_refl.
Defined.

(** The listener on port 1234, on descriptor 3; the connection is 4, and its
    writes are short, interrupted, and may fail. *)
Definition listener_world (l : list taking) : world pipe scanner := piped {|
  p_in := []; p_out := []; p_takes := l;
  p_replies := [(3, []); (0, []); (0, []); (0, [0; 2; 4; 210]); (0, []); (4, []); (5, [])]
|} example_scanner.
Definition example_block : list Z := replicate 1024 0.
Abbreviation listener :=
  (gdb_listener (T := x86) debug_init 1 2 (fun _ => example_gframe 0 0) (fun _ => [])
    example_block example_block 1234 (stream example_items [3])).

Lemma ok_with {S X} (q : X -> S -> bool) (o : outcome S X) :
  match o with Ok x s => q x s | Fault _ => false end = true ->
  exists x s, o = Ok x s /\ q x s = true.
Proof. destruct o as [x s|]; [|done]. by exists x, s. Qed.

(** What went out, when the process goes on and when it has ended. *)
Definition went_out (bs : list Z) (w : world pipe scanner) : bool :=
  bool_decide (p_out (w_kernel w) = bs).

Lemma gdb_listener_spec_witness :
  exists w' s, listener (listener_world [Takes 0; TakesNone; Takes 0; Takes 2]) = Done () w' /\
    p_out (w_kernel w') = bytes_of "-+$S05#b8--" /\ scan_core (w_app w') = scan_core s.
Proof.
  set (w := listener_world _).
  assert (ends (fun _ => went_out (bytes_of "-+$S05#b8--")) (listener w) = true) as Hc
    by (vm_compute; reflexivity).
  destruct (ok_with (fun _ s => true)
    (yylex (T := x86) (G := Gdb) (M := Scan) 1 (fun _ => example_gframe 0 0) (fun _ => [])
      (stream example_items [3])
      (gdb_scanner_init (g_sim (sc_gdb (w_app w))) example_block example_block)))
    as ([] & s & Es & _).
  { vm_compute. reflexivity. }
  pose proof (gdb_listener_spec (T := x86) pipe_output debug_init 1 2 (fun _ => example_gframe 0 0)
    (fun _ => []) example_block example_block 1234 (stream example_items [3]) w s)
    as H1. cbv zeta in H1. specialize (H1 ltac:(intros fd; cbn; lia) Es).
  destruct (first_failure _ _) as [n|].
  - destruct H1 as (w1 & lines & E & _). rewrite E in Hc. discriminate Hc.
  - destruct H1 as (w1 & line & e & _ & _ & _ & Ho & R & Hend).
    destruct R as [w2 cs ms _ _ _ _ _ Hcore|w2 cs ms l x r _ _ _ _ _ _ _|w2 msg _ [_ Hw] _ _
      |_ Hq]; cbn [listener_end] in Hend.
    + destruct Hend as (w' & E & _ & _ & Ha & _). exists w', s. split; [exact E|].
      rewrite E in Hc. cbn [ends] in Hc.
      split; [exact (proj1 (bool_decide_eq_true _) Hc)|]. rewrite Ha. exact Hcore.
    + rewrite Hend in Hc. discriminate Hc.
    + destruct Hend as (w' & E & [Hs _] & _). rewrite E in Hc.
      cbn [ends] in Hc. apply bool_decide_eq_true in Hc.
      cbn [written pipe_output] in Hs, Hw, Ho. rewrite Hs, Hw, Ho in Hc. discriminate Hc.
    + rewrite Hend in Hc. discriminate Hc.
Defined.

(** The system refuses bind: the listener makes three calls and exits.  And
    send_irq, refused by connect, exits after four, before it writes. *)
Definition refusing (l : list (Z * list Z)) : world pipe scanner := piped {|
  p_in := []; p_out := []; p_takes := []; p_replies := l |} example_scanner.

Lemma refused_example :
  let w1 := refusing [(3, []); (0, []); (-1, [])] in
  let w2 := refusing [(3, []); (0, []); (1, [127; 0; 0; 1]); (-1, [])] in
  first_failure opening_checks (replies (opening_calls (T := x86) 1234 3) (w_kernel w1))
    = Some 3%nat /\
  quits (fun c w => (c =? 0) && Nat.eqb (length (w_calls w)) 3) (listener w1) = true /\
  first_failure irq_checks (replies (irq_calls (T := x86) "localhost" "1234" 1 3
    [127; 0; 0; 1]) (w_kernel w2)) = Some 4%nat /\
  quits (fun c w => (c =? 0) && Nat.eqb (length (w_calls w)) 4 &&
                    bool_decide (p_out (w_kernel w) = []))
    (send_irq_main (T := x86) ["send_irq"; "localhost"; "1234"; "reset"]%string w2) = true.
Proof. vm_compute. by split_and!. Qed.

(** The session of ServerExamples.v: its replies go out, with short writes; or
    the third write fails, after eight bytes. *)
Definition stub_world (l : list taking) : world pipe scanner := piped {|
  p_in := []; p_out := []; p_takes := l; p_replies := [(5, [])] |} example_scanner.
Abbreviation stub_run :=
  (gdb_scanner (T := x86) debug_init 5 2 (fun _ => example_frame) (fun _ => [])
    example_block example_block 3 4 (sent_by (T := x86) example_clients)).

Lemma stub_session_delivered_witness :
  (exists w', stub_run (stub_world [Takes 0; Takes 2; TakesNone]) = Done () w' /\
     p_out (w_kernel w') = example_replies) /\
  exists w', stub_run (stub_world [Takes 0; Takes 2; Refuses 32]) = Quit 0 w' /\
    p_out (w_kernel w') = bytes_of "+$OK" /\
    w_stderr w' = ["Rio_writen error: error 32" +:+ newline].
Proof.
  destruct example_session as (out & Eo & Hs).
  assert (forall l, (sum_list (take_waits <$> l) < 2)%nat ->
    exists s, s_arm (g_sim (sc_gdb s)) = example_run /\
      connection_run 4 debug_init 3 (gdb_scanner_init (g_sim (sc_gdb (w_app (stub_world l))))
        example_block example_block) s out (stub_world l) (stub_run (stub_world l))) as H.
  { intros l Hl.
    apply (stub_session_delivered (T := x86) 4 debug_init 2 5 (fun _ => example_frame) (fun _ => [])
      example_block example_block 3 example_clients (g_arm example_gdb) example_run out
        (stub_world l));
      [reflexivity|reflexivity|apply example_gdb_ready|apply example_gdb_ready|reflexivity
      |exact Hs|exact Hl]. }
  split.
  - destruct (H [Takes 0; Takes 2; TakesNone]) as (s & _ & R); [simpl; lia|].
    assert (ends (fun _ => went_out example_replies)
      (stub_run (stub_world [Takes 0; Takes 2; TakesNone])) = true) as Hc
      by (vm_compute; reflexivity).
    destruct R as [w2 cs ms _ [_ Hw] _ _ _ _|w2 cs ms l x r _ _ _ _ _ _ _
      |w2 msg _ [_ Hw] _ _|_ Hq]; [|discriminate Hc| |discriminate Hc]; exists w2; (split; [reflexivity|]);
      exact (proj1 (bool_decide_eq_true _) Hc).
  - destruct (H [Takes 0; Takes 2; Refuses 32]) as (s & _ & R); [simpl; lia|].
    assert (quits (fun _ w => went_out (bytes_of "+$OK") w &&
        bool_decide (w_stderr w = ["Rio_writen error: error 32" +:+ newline]%string))
      (stub_run (stub_world [Takes 0; Takes 2; Refuses 32])) = true) as Hc
      by (vm_compute; reflexivity).
    destruct R as [w2 cs ms _ _ _ _ _ _|w2 cs ms l x r _ _ _ _ _ _ _|w2 msg _ _ _ _|_ Hq];
      [discriminate Hc| |discriminate Hc..].
    exists w2. split; [reflexivity|]. cbn [quits] in Hc.
    apply andb_true_iff in Hc as [H1 H2].
    split; [exact (proj1 (bool_decide_eq_true _) H1)|exact (proj1 (bool_decide_eq_true _) H2)].
Defined.

(** The same input as for the listener, on a connection whose third write fails:
    two bytes are out. *)
Definition cut_world : world pipe scanner := piped (out_pipe [Takes 0; Takes 0;
  Refuses 32]) example_scanner.

Lemma yylex_on_socket_witness :
  let run := yylex (T := x86) (Connection0 := socket_connection debug_init 1 4)
    (Lexer0 := socket_lexer)
    1 (fun _ => example_gframe 0 0) (fun _ => []) (stream example_items [3]) in
  exists w', run cut_world = Quit 0 w' /\ p_out (w_kernel w') = bytes_of "-+".
Proof.
  intros run.
  assert (quits (fun _ => went_out (bytes_of "-+")) (run cut_world) = true) as Hc
    by (vm_compute; reflexivity).
  pose proof (delivers_run _ _ _ _ _ _ _ (yylex_on_socket (T := x86) 4 debug_init 1 1
    (fun _ => example_gframe 0 0) (fun _ => []) (stream example_items [3]))
    [] example_scanner cut_world) as H.
  fold run in H. destruct (run cut_world) as [[] w'|c w'|f]; [discriminate Hc| |discriminate Hc].
  destruct H as [-> _]; [split; [reflexivity|reflexivity|simpl; lia]|].
  exists w'. split; [reflexivity|]. exact (proj1 (bool_decide_eq_true _) Hc).
Defined.

(** A stray byte and a packet with a wrong checksum, both files being debugged. *)
Definition debugged_files_example : debug_data :=
  default debug_init (d ← add_debug_to "scanner.l" debug_init;
                      add_debug_to "gdb_protocol.c" d).
Lemma debugged_messages_example :
  let run := yylex (T := x86) (Connection0 := socket_connection debugged_files_example 1 4)
    (Lexer0 := socket_lexer)
    1 (fun _ => example_gframe 0 0) (fun _ => []) (bytes_of "!$p1#00") in
  match run cut_world with
  | Done _ w' =>
      p_out (w_kernel w') = bytes_of "--" /\
      w_stderr w' =
        ["[DEBUG] scanner.l,43: gdb protocol error, invalid data : !, " +:+
           "requiring retransmission" +:+ newline;
         "[DEBUG] gdb_protocol.c,423: Received packet : "; "$p1#00";
         ", checksum failed, expected 00 got a1" +:+ newline;
         "[DEBUG] gdb_protocol.c,430: Requiring retransmission" +:+ newline]%string
  | _ => False
  end.
Proof. vm_compute. by split. Qed.

(** A request for retransmission before anything was sent: the message prints
    the packet as malloc returned it, without an end, which C does not define;
    nothing else goes wrong. *)
Lemma debugged_transmission_example :
  let run files := yylex (T := x86) (Connection0 := socket_connection files 1 4)
    (Lexer0 := socket_lexer)
    1 (fun _ => example_gframe 0 0) (fun _ => []) (bytes_of "-")
    (piped (out_pipe []) (gdb_scanner_init (g_sim (sc_gdb example_scanner))
       (replicate 1024 1) example_block)) in
  run debugged_files_example = Stuck OutOfBounds /\
  exists w', run debug_init = Done () w'.
Proof. split; [vm_compute; reflexivity|]. eexists. vm_compute. reflexivity. Qed.
