(* ===== verification/Tests.v ===== *)
(** * memory_test.c and test_register.c: the test programs

    What the two programs print, whatever the new blocks hold.  An object of
    the program is seen through the bytes of its representation, in the byte
    order of the host. *)
From S2P Require Import Prelude Util Constants Memory Registers Trace.

(** ** memory_test.c *)

Definition print_test (result : Z) : string :=
  (if c_true result then "Test succeded" else "TEST FAILED !!") +:+ newline.

(** The loops of the two comparisons, with [n] turns left. *)
Fixpoint compare_loop (n : nat) (a b : list Z) (i j j_step : Z) : option Z :=
  match n with
  | O => Some 1
  | Datatypes.S n =>
      x ← buf_get a i;
      y ← buf_get b j;
      if x =? y then compare_loop n a b (i + 1) (j + j_step) j_step else Some 0
  end.

Definition compare (a b : list Z) (size reverse : Z) : option Z :=
  let '(j, j_step) := if c_true reverse then (size - 1, -1) else (0, 1) in
  compare_loop (Z.to_nat size) a b 0 j j_step.

Fixpoint compare_with_sim_loop (n : nat) (a : list Z) (m : memory_data)
    (i j j_step value : Z) : option Z :=
  match n with
  | O => Some 1
  | Datatypes.S n =>
      '(_, value) ← memory_read_byte m (u32 j) value;
      x ← buf_get a i;
      if x =? value then compare_with_sim_loop n a m (i + 1) (j + j_step) j_step value
      else Some 0
  end.

(** [value] is the content of the local variable. *)
Definition compare_with_sim (a : list Z) (m : memory_data) (size reverse value : Z)
    : option Z :=
  let '(j, j_step) := if c_true reverse then (size - 1, -1) else (0, 1) in
  compare_with_sim_loop (Z.to_nat size) a m 0 j j_step value.

Section MemoryTest.
Context `{T : Target}.

(** The representation of an object of [n] bytes. *)
Definition representation (n v : Z) : list Z := field_bytes host_big_endian n v.

Definition word_value : Z := 0x11223344.
Definition half_value : Z := 0x5566.

(** The two memories are an array, as in the program. *)
Fixpoint write_both (l : list Z) (i : Z) (m : list memory_data) : option (list memory_data) :=
  match l with
  | [] => Some m
  | x :: l =>
      m0 ← buf_get m 0;
      '(_, m0) ← memory_write_byte m0 i x;
      m ← buf_set m 0 m0;
      m1 ← buf_get m 1;
      '(_, m1) ← memory_write_byte m1 i x;
      m ← buf_set m 1 m1;
      write_both l (i + 1) m
  end.

(** A read of [m[index]] into a variable that holds [old], its comparison with
    the first [size] bytes of the word, and the new content of the variable. *)
Definition check_read_word (m : list memory_data) (index reverse old : Z)
    : option (string * Z) :=
  mem ← buf_get m index;
  '(_, word_read) ← memory_read_word mem 0 old;
  result ← compare (representation 4 word_value) (representation 4 word_read) 4 reverse;
  Some (print_test result, word_read).
Definition check_read_half (m : list memory_data) (index reverse old : Z)
    : option (string * Z) :=
  mem ← buf_get m index;
  '(_, half_read) ← memory_read_half mem 0 old;
  result ← compare (representation 4 word_value) (representation 2 half_read) 2 reverse;
  Some (print_test result, half_read).

(** A write into [m[index]] and the comparison of its bytes. *)
Definition check_write_word (m : list memory_data) (index reverse junk : Z)
    : option (string * list memory_data) :=
  mem ← buf_get m index;
  '(_, mem) ← memory_write_word mem 0 word_value;
  result ← compare_with_sim (representation 4 word_value) mem 4 reverse junk;
  m ← buf_set m index mem;
  Some (print_test result, m).
Definition check_write_half (m : list memory_data) (index reverse junk : Z)
    : option (string * list memory_data) :=
  mem ← buf_get m index;
  '(_, mem) ← memory_write_half mem 0 half_value;
  result ← compare_with_sim (representation 2 half_value) mem 2 reverse junk;
  m ← buf_set m index mem;
  Some (print_test result, m).

(** [main]: the status it ends with and what it prints.  [block1] and [block0]
    are the new blocks; [word0], [half0] and [junk] the contents of the
    variables that have none yet. *)
Definition memory_test (block1 block0 : option (list Z)) (word0 half0 junk : Z)
    : option (Z * list string) :=
  m1 ← memory_create true block1 4 1;
  m0 ← memory_create true block0 4 0;
  let m := [m0; m1] in
  me ← is_big_endian;
  name ← buf_get ["little"; "big"]%string me;
  m ← write_both (representation 4 word_value) 0 m;
  '(r1, word_read) ← check_read_word m me 0 word0;
  '(r2, half_read) ← check_read_half m me 0 half0;
  '(r3, _) ← check_read_word m (1 - me) 1 word_read;
  '(r4, _) ← check_read_half m (1 - me) 1 half_read;
  '(r5, m) ← check_write_word m me 0 junk;
  '(r6, m) ← check_write_half m me 0 junk;
  '(r7, m) ← check_write_word m (1 - me) 1 junk;
  '(r8, m) ← check_write_half m (1 - me) 1 junk;
  Some (0,
    ["I'm a " +:+ name +:+ " endian host" +:+ newline;
     "Writing 4 bytes at address 0, then reading the word and half, " +:+
     "the result should depend on simulated memory endianess :" +:+ newline;
     "- word read with the same endianess as me, "; r1;
     "- half read with the same endianess as me, "; r2;
     "- word read with a different endianess than me, "; r3;
     "- half read with a different endianess than me, "; r4;
     "Writing word and half at address 0, then reading the bytes, " +:+
     "the result should depend on simulated memory endianess :" +:+ newline;
     "- word write with the same endianess as me, "; r5;
     "- half write with the same endianess as me, "; r6;
     "- word write with a different endianess than me, "; r7;
     "- half write with a different endianess than me, "; r8])%string.
End MemoryTest.

(** ** test_register.c *)

(** [r] is what [registers_create] returns. *)
Definition test_register (r : registers_data) : option (Z * list string) :=
  r ← write_register r 5 10;
  r ← write_register r 3 USR;
  r5 ← read_register r 5;
  r3 ← read_register r 3;
  r ← write_register r 16 USR;
  mode ← get_mode r;
  b ← current_mode_has_spsr r;
  rest ← (if c_true b then Some ["Has SPSR" +:+ newline]%string
          else
            u3 ← read_usr_register r 3;
            u16' ← read_usr_register r 16;
            Some ["Reading usr_register : " +:+ fmt_d (s32 u3) +:+ newline;
                  "Reading usr_register : " +:+ fmt_d (s32 u16') +:+ newline]%string);
  Some (0, app ["Register 5 contains " +:+ fmt_d (s32 r5) +:+ newline +:+
            "Register 3 contains " +:+ fmt_d (s32 r3) +:+ newline;
            "Mode: " +:+ fmt_d mode +:+ newline]%string rest).

(** ** What they print *)

(** [memory_test] succeeds: on a host of either byte order, with any content of
    the two new blocks, it ends with status 0 and each of its eight lines says
    that the test succeeded. *)
Theorem memory_test_passes `{T : Target} block1 block0 word0 half0 junk :
  length block1 = 4%nat -> length block0 = 4%nat ->
  exists l, memory_test (Some block1) (Some block0) word0 half0 junk = Some (0, l) /\
    length l = 19%nat /\
    filter (fun line => line = print_test 1) l = replicate 8 (print_test 1) /\
    print_test 0 ∉ l.
Proof.
  intros H1 H0.
  destruct block1 as [|a1 [|a2 [|a3 [|a4 [|]]]]]; try discriminate H1.
  destruct block0 as [|b1 [|b2 [|b3 [|b4 [|]]]]]; try discriminate H0.
  destruct T as [? ? ? [] ?].
  all: eexists; split; [vm_compute; reflexivity|]; split; [reflexivity|].
  all: split; [vm_compute; reflexivity|by apply (bool_decide_unpack _)].
Qed.

(** [test_register] finds what it wrote, in user mode, whatever the block held. *)
Theorem test_register_output r :
  length (r_data r) = 18%nat ->
  test_register r = Some (0,
    ["Register 5 contains 10" +:+ newline +:+ "Register 3 contains 16" +:+ newline;
     "Mode: 16" +:+ newline;
     "Reading usr_register : 16" +:+ newline;
     "Reading usr_register : 16" +:+ newline])%string.
Proof.
  intros Hr. destruct r as [l]. simpl in Hr.
  do 18 (destruct l as [|? l]; [discriminate Hr|]). destruct l; [|discriminate Hr].
  vm_compute. reflexivity.
Qed.
